(** * cassandra_fdw: the statement deparser and the scan/modify executors

    A shallow embedding of [deparse.c] and of the planner and executor
    callbacks of [cstar_fdw.c].  C integers are [Z]; C strings are
    [string] (no embedded NUL); PostgreSQL lists are [list]; a function
    that can leave through [ereport(ERROR, ...)] runs in the monad [Exec],
    which threads the mutable object the C code works on (the [StringInfo]
    buffer, the modify state, the scan state) and stops at the first error
    raised. *)

From Stdlib Require Import ZArith NArith List String Ascii Bool Lia Sorted.
From Stdlib Require Import DecimalString.
Import ListNotations.

Local Open Scope string_scope.
Local Open Scope Z_scope.

(* ===================================================================== *)
(** ** C library and PostgreSQL basics *)
(* ===================================================================== *)

(** [strcmp(a, b) == 0]. *)
Definition streq (a b : string) : bool := String.eqb a b.

(** [strncmp(s1, s2, n)]: at most [n] characters are compared, and the
    comparison stops at the end of either string. *)
Fixpoint strncmp (s1 s2 : string) (n : nat) {struct n} : Z :=
  match n with
  | O => 0
  | S n' =>
      match s1, s2 with
      | EmptyString, EmptyString => 0
      | EmptyString, String c2 _ => - Z.of_nat (nat_of_ascii c2)
      | String c1 _, EmptyString => Z.of_nat (nat_of_ascii c1)
      | String c1 r1, String c2 r2 =>
          if Ascii.eqb c1 c2 then strncmp r1 r2 n'
          else Z.of_nat (nat_of_ascii c1) - Z.of_nat (nat_of_ascii c2)
      end
  end.

Definition strlen (s : string) : nat := String.length s.

(** [printf("%d", z)]. *)
Definition fmt_d (z : Z) : string := NilZero.string_of_int (Z.to_int z).

(** The character [double quote], and a string of one character. *)
Definition dquote : ascii := ascii_of_nat 34.
Definition str1 (c : ascii) : string := String c EmptyString.

Definition Oid := Z.
Definition AttrNumber := Z.
Definition InvalidAttrNumber : AttrNumber := 0.
Definition InvalidOid : Oid := 0.

(** Type OIDs of [catalog/pg_type.h]. *)
Definition BOOLOID : Oid := 16.
Definition INT8OID : Oid := 20.
Definition INT2OID : Oid := 21.
Definition INT4OID : Oid := 23.
Definition TEXTOID : Oid := 25.
Definition FLOAT4OID : Oid := 700.
Definition FLOAT8OID : Oid := 701.
Definition INETOID : Oid := 869.
Definition BPCHAROID : Oid := 1042.
Definition VARCHAROID : Oid := 1043.
Definition TIMESTAMPOID : Oid := 1114.
Definition TIMESTAMPTZOID : Oid := 1184.
Definition UUIDOID : Oid := 2950.

(** [access/sysattr.h]: the offset that makes attribute numbers, system
    attributes included, non-negative bitmapset members (PostgreSQL 12 on). *)
Definition FirstLowInvalidHeapAttributeNumber : Z := -7.

(** [CmdType] of [nodes/nodes.h], with the numbering of the enum. *)
Inductive CmdType :=
| CMD_UNKNOWN | CMD_SELECT | CMD_UPDATE | CMD_INSERT | CMD_DELETE
| CMD_UTILITY | CMD_NOTHING.

Definition CmdType_code (c : CmdType) : Z :=
  match c with
  | CMD_UNKNOWN => 0 | CMD_SELECT => 1 | CMD_UPDATE => 2 | CMD_INSERT => 3
  | CMD_DELETE => 4 | CMD_UTILITY => 5 | CMD_NOTHING => 6
  end.

Inductive OnConflictAction := ONCONFLICT_NONE | ONCONFLICT_NOTHING | ONCONFLICT_UPDATE.

Definition OnConflictAction_code (a : OnConflictAction) : Z :=
  match a with
  | ONCONFLICT_NONE => 0 | ONCONFLICT_NOTHING => 1 | ONCONFLICT_UPDATE => 2
  end.

(** *** Bitmapsets

    A [Bitmapset] is an array of bit words; the embedding keeps it as one
    natural number whose binary digits are the members.  [NULL] is [0]. *)
Definition Bitmapset := N.

(** [bms_is_member]; the code asks only for members that are not
    negative, a whole-row or a user column shifted by
    [-FirstLowInvalidHeapAttributeNumber]. *)
Definition bms_is_member (x : Z) (a : Bitmapset) : bool :=
  if x <? 0 then false else N.testbit a (Z.to_N x).

(** The members in ascending order: the values that the loop
    [col = -1; while ((col = bms_next_member(a, col)) >= 0)] visits. *)
Definition bms_members (a : Bitmapset) : list Z :=
  filter (fun x => bms_is_member x a)
         (map Z.of_nat (seq 0 (N.to_nat (N.size a)))).

(** *** Errors *)

Inductive SqlState :=
| ERRCODE_FDW_UNABLE_TO_CREATE_EXECUTION
| ERRCODE_FEATURE_NOT_SUPPORTED
| ERRCODE_INTERNAL_ERROR.

(** What [ereport(ERROR, (errcode(c), errmsg(m)))] raises; [elog(ERROR, m)]
    raises it with [ERRCODE_INTERNAL_ERROR]. *)
Record ErrorData := mkError { sqlerrcode : SqlState; message : string }.

Inductive Outcome (A : Type) :=
| Done (a : A)
| Raised (e : ErrorData).
Arguments Done {A} a.
Arguments Raised {A} e.

(** A computation over a mutable object of type [St].  The object is
    returned also when an error is raised: what was done to it before the
    [ereport] stays done. *)
Definition Exec (St A : Type) : Type := St -> Outcome A * St.

Definition ret {St A} (a : A) : Exec St A := fun s => (Done a, s).

Definition bind {St A B} (m : Exec St A) (k : A -> Exec St B) : Exec St B :=
  fun s =>
    match m s with
    | (Done a, s') => k a s'
    | (Raised e, s') => (Raised e, s')
    end.

Definition ereport {St A} (c : SqlState) (msg : string) : Exec St A :=
  fun s => (Raised (mkError c msg), s).

Definition elog_ERROR {St A} (msg : string) : Exec St A :=
  ereport ERRCODE_INTERNAL_ERROR msg.

Definition get {St} : Exec St St := fun s => (Done s, s).
Definition put {St} (s : St) : Exec St unit := fun _ => (Done tt, s).
Definition modify {St} (f : St -> St) : Exec St unit := fun s => (Done tt, f s).

Declare Scope exec_scope.
Delimit Scope exec_scope with exec.
Notation "x <- m ;; k" := (bind m (fun x => k))
  (at level 100, m at next level, right associativity) : exec_scope.
Notation "m ;; k" := (bind m (fun _ => k))
  (at level 100, right associativity) : exec_scope.
Local Open Scope exec_scope.

(* ===================================================================== *)
(** ** The catalog: relations, columns and their FDW options *)
(* ===================================================================== *)

(** An option [name 'value'] of a foreign table or of one of its columns. *)
Record DefElem := mkDefElem { defname : string; defGetString : string }.

(** One row of [pg_attribute].  [attfdwoptions] is what
    [GetForeignColumnOptions] returns for the column. *)
Record Form_pg_attribute := mkAttr {
  attname : string;
  atttypid : Oid;
  attnum : AttrNumber;
  attisdropped : bool;
  attfdwoptions : list DefElem
}.

Definition TupleDesc := list Form_pg_attribute.

Definition natts (tupdesc : TupleDesc) : Z := Z.of_nat (List.length tupdesc).

(** [TupleDescAttr(tupdesc, i)], [i] counted from zero. *)
Definition TupleDescAttr (tupdesc : TupleDesc) (i : Z) : option Form_pg_attribute :=
  if i <? 0 then None else nth_error tupdesc (Z.to_nat i).

(** A foreign table: the relcache entry together with what
    [GetForeignTable] returns for it. *)
Record Relation := mkRelation {
  rd_id : Oid;
  nspname : string;          (* get_namespace_name(RelationGetNamespace(rel)) *)
  relname : string;          (* RelationGetRelationName(rel) *)
  rd_att : TupleDesc;
  ftoptions : list DefElem   (* GetForeignTable(relid)->options *)
}.

(** The PRIMARY KEY option name. *)
Definition OPT_PK : string := "primary_key".

(** A loop over options that assigns at every match: the last match wins. *)
Fixpoint last_option (name : string) (options : list DefElem) (cur : option string)
  : option string :=
  match options with
  | [] => cur
  | def :: rest =>
      if streq (defname def) name
      then last_option name rest (Some (defGetString def))
      else last_option name rest cur
  end.

(** A loop over options that leaves at the first match. *)
Fixpoint first_option (name : string) (options : list DefElem) : option string :=
  match options with
  | [] => None
  | def :: rest =>
      if streq (defname def) name then Some (defGetString def)
      else first_option name rest
  end.

(** [cassGetPKOption]: the out-parameter is assigned for every
    [primary_key] option met and is left as it was when there is none. *)
Definition cassGetPKOption (rel : Relation) (primarykey : option string)
  : option string :=
  last_option OPT_PK (ftoptions rel) primarykey.

(** [get_attname(relid, attnum, false)]. *)
Definition get_attname (rel : Relation) (attno : AttrNumber) : option string :=
  match TupleDescAttr (rd_att rel) (attno - 1) with
  | Some att => Some (attname att)
  | None => None
  end.

(** [GetForeignColumnOptions(relid, attnum)]. *)
Definition GetForeignColumnOptions (rel : Relation) (attno : AttrNumber)
  : option (list DefElem) :=
  match TupleDescAttr (rd_att rel) (attno - 1) with
  | Some att => Some (attfdwoptions att)
  | None => None
  end.

(** [get_attnum(relid, attname)]: the number of the live column of that
    name, [InvalidAttrNumber] when there is none. *)
Fixpoint get_attnum_in (atts : TupleDesc) (name : string) : AttrNumber :=
  match atts with
  | [] => InvalidAttrNumber
  | att :: rest =>
      if streq (attname att) name && negb (attisdropped att)
      then attnum att
      else get_attnum_in rest name
  end.

Definition get_attnum (rel : Relation) (name : string) : AttrNumber :=
  get_attnum_in (rd_att rel) name.

(* ===================================================================== *)
(** ** deparse.c *)
(* ===================================================================== *)

Definition StringInfo := string.

Definition appendStringInfoString (s : string) : Exec StringInfo unit :=
  modify (fun buf => buf ++ s).

Definition appendStringInfoChar (c : ascii) : Exec StringInfo unit :=
  modify (fun buf => buf ++ str1 c).

Section Deparse.

(** PostgreSQL's [quote_identifier] (ruleutils.c). *)
Variable quote_identifier : string -> string.

(** [cassDeparseRelation]: the options [schema_name] and [table_name]
    override the names of the relation; the loop has no [break]. *)
Definition cassDeparseRelation (rel : Relation) : Exec StringInfo unit :=
  let nsp :=
    match last_option "schema_name" (ftoptions rel) None with
    | Some n => n
    | None => nspname rel
    end in
  let reln :=
    match last_option "table_name" (ftoptions rel) None with
    | Some n => n
    | None => relname rel
    end in
  appendStringInfoString
    (quote_identifier nsp ++ "." ++ quote_identifier reln).

(** The name [cassDeparseColumnRef] emits for a column: the first
    [column_name] option if there is one, the attribute name otherwise. *)
Definition column_remote_name (rel : Relation) (varattno : AttrNumber)
  : option string :=
  match GetForeignColumnOptions rel varattno with
  | Some options =>
      match first_option "column_name" options with
      | Some colname => Some colname
      | None => get_attname rel varattno
      end
  | None => get_attname rel varattno
  end.

Definition cassDeparseColumnRef (rel : Relation) (varattno : AttrNumber)
  : Exec StringInfo unit :=
  match column_remote_name rel varattno with
  | Some colname => appendStringInfoString (quote_identifier colname)
  | None =>
      elog_ERROR ("cache lookup failed for attribute " ++ fmt_d varattno
                  ++ " of relation " ++ fmt_d (rd_id rel))
  end.

(** The body of the [for (i = 1; i <= tupdesc->natts; i++)] loop of
    [cassDeparseTargetList], run over the attributes from number [i] on.
    The loop's variables [first] and [*retrieved_attrs] are threaded. *)
Fixpoint cassDeparseTargetList_loop (rel : Relation) (have_wholerow : bool)
    (attrs_used : Bitmapset) (atts : list Form_pg_attribute) (i : Z)
    (first : bool) (retrieved_attrs : list Z)
  : Exec StringInfo (bool * list Z) :=
  match atts with
  | [] => ret (first, retrieved_attrs)
  | attr :: rest =>
      if attisdropped attr then
        cassDeparseTargetList_loop rel have_wholerow attrs_used rest (i + 1)
          first retrieved_attrs
      else if have_wholerow
              || bms_is_member (i - FirstLowInvalidHeapAttributeNumber) attrs_used
      then
        (if negb first then appendStringInfoString ", " else ret tt) ;;
        cassDeparseColumnRef rel i ;;
        cassDeparseTargetList_loop rel have_wholerow attrs_used rest (i + 1)
          false (retrieved_attrs ++ [i])
      else
        cassDeparseTargetList_loop rel have_wholerow attrs_used rest (i + 1)
          first retrieved_attrs
  end.

Definition cassDeparseTargetList (rel : Relation) (attrs_used : Bitmapset)
  : Exec StringInfo (list Z) :=
  let have_wholerow :=
    bms_is_member (0 - FirstLowInvalidHeapAttributeNumber) attrs_used in
  r <- cassDeparseTargetList_loop rel have_wholerow attrs_used (rd_att rel) 1
         true [] ;;
  (if fst r then appendStringInfoString "NULL" else ret tt) ;;
  ret (snd r).

(** [cassDeparseSelectSql]; the result is [*retrieved_attrs]. *)
Definition cassDeparseSelectSql (rel : Relation) (attrs_used : Bitmapset)
  : Exec StringInfo (list Z) :=
  appendStringInfoString "SELECT " ;;
  retrieved_attrs <- cassDeparseTargetList rel attrs_used ;;
  appendStringInfoString " FROM " ;;
  cassDeparseRelation rel ;;
  ret retrieved_attrs.

(** The first [foreach] of [cassDeparseInsertSql]: the column names. *)
Fixpoint insert_columns_loop (rel : Relation) (targetAttrs : list Z)
    (first : bool) : Exec StringInfo unit :=
  match targetAttrs with
  | [] => ret tt
  | attno :: rest =>
      (if negb first then appendStringInfoString ", " else ret tt) ;;
      cassDeparseColumnRef rel attno ;;
      insert_columns_loop rel rest false
  end.

(** The second [foreach]: one placeholder for each target. *)
Fixpoint insert_placeholders_loop (targetAttrs : list Z) (first : bool)
  : Exec StringInfo unit :=
  match targetAttrs with
  | [] => ret tt
  | _ :: rest =>
      (if negb first then appendStringInfoString ", " else ret tt) ;;
      appendStringInfoString "?" ;;
      insert_placeholders_loop rest false
  end.

Definition cassDeparseInsertSql (rel : Relation) (targetAttrs : list Z)
    (doNothing : bool) : Exec StringInfo unit :=
  appendStringInfoString "INSERT INTO " ;;
  cassDeparseRelation rel ;;
  match targetAttrs with
  | _ :: _ =>
      appendStringInfoChar "("%char ;;
      insert_columns_loop rel targetAttrs true ;;
      appendStringInfoString ") VALUES (" ;;
      insert_placeholders_loop targetAttrs true ;;
      appendStringInfoChar ")"%char
  | [] => appendStringInfoString " DEFAULT VALUES"
  end ;;
  (if doNothing then appendStringInfoString " ON CONFLICT DO NOTHING"
   else ret tt).

(** The [foreach] of [cassDeparseUpdateSql]: the SET clause. *)
Fixpoint update_set_loop (rel : Relation) (targetAttrs : list Z)
    (first : bool) : Exec StringInfo unit :=
  match targetAttrs with
  | [] => ret tt
  | attno :: rest =>
      (if negb first then appendStringInfoString ", " else ret tt) ;;
      cassDeparseColumnRef rel attno ;;
      appendStringInfoString " = ?" ;;
      update_set_loop rel rest false
  end.

(** [cassDeparseUpdateSql]; the key goes into the text as
    [appendStringInfo(buf, " WHERE %s = ?", primaryKey)] writes it. *)
Definition cassDeparseUpdateSql (rel : Relation) (targetAttrs : list Z)
    (primaryKey : string) : Exec StringInfo unit :=
  appendStringInfoString "UPDATE " ;;
  cassDeparseRelation rel ;;
  appendStringInfoString " SET " ;;
  update_set_loop rel targetAttrs true ;;
  appendStringInfoString (" WHERE " ++ primaryKey ++ " = ?").

Definition cassDeparseDeleteSql (rel : Relation) (primaryKey : string)
  : Exec StringInfo unit :=
  appendStringInfoString "DELETE FROM " ;;
  cassDeparseRelation rel ;;
  appendStringInfoString (" WHERE " ++ primaryKey ++ " = ?").

End Deparse.

(* ===================================================================== *)
(** ** cstar_fdw.c: planning a modification *)
(* ===================================================================== *)

(** [printf("%s", p)] where [p] may be a null pointer.  A [const char *]
    that the code declares without a value and that [cassGetPKOption] does
    not assign is taken as the null pointer. *)
Definition fmt_s (p : option string) : string :=
  match p with
  | Some s => s
  | None => "(null)"
  end.

Record Var := mkVar {
  varno : Z;
  varattno : AttrNumber;
  vartype : Oid
}.

Record TargetEntry := mkTargetEntry {
  expr : Var;
  resno : AttrNumber;
  resname : string;
  resjunk : bool
}.

Record Query := mkQuery {
  resultRelation : Z;
  targetList : list TargetEntry
}.

Definition makeVar (no : Z) (attno : AttrNumber) (typ : Oid) : Var :=
  mkVar no attno typ.

Definition makeTargetEntry (e : Var) (no : AttrNumber) (name : string)
    (junk : bool) : TargetEntry :=
  mkTargetEntry e no name junk.

(** The loop of [cassAddForeignUpdateTargets] over the columns of the
    table; the state is the query being rewritten, the result is [has_PK]. *)
Fixpoint add_targets_loop (atts : list Form_pg_attribute) (primary_key : string)
    (has_PK : bool) : Exec Query bool :=
  match atts with
  | [] => ret has_PK
  | att :: rest =>
      if strncmp (attname att) primary_key (strlen primary_key) =? 0 then
        parsetree <- get ;;
        let var := makeVar (resultRelation parsetree) (attnum att) (atttypid att) in
        let tle := makeTargetEntry var
                     (Z.of_nat (List.length (targetList parsetree)) + 1)
                     (attname att) true in
        put (mkQuery (resultRelation parsetree) (targetList parsetree ++ [tle])) ;;
        add_targets_loop rest primary_key true
      else add_targets_loop rest primary_key has_PK
  end.

Definition msg_no_primary_key (rel : Relation) : string :=
  "No PRIMARY KEY specified for the FOREIGN TABLE '"
    ++ nspname rel ++ "." ++ relname rel ++ "'.".

Definition msg_primary_key_missing (rel : Relation) (primary_key : string) : string :=
  "The specified PRIMARY KEY '" ++ primary_key
    ++ "' does not exist in the FOREIGN TABLE '"
    ++ nspname rel ++ "." ++ relname rel ++ "'.".

(** [cassAddForeignUpdateTargets]: add the PRIMARY KEY column as a resjunk
    entry of the target list. *)
Definition cassAddForeignUpdateTargets (target_relation : Relation)
  : Exec Query unit :=
  match cassGetPKOption target_relation None with
  | None =>
      ereport ERRCODE_FDW_UNABLE_TO_CREATE_EXECUTION
              (msg_no_primary_key target_relation)
  | Some primary_key =>
      has_PK <- add_targets_loop (rd_att target_relation) primary_key false ;;
      if negb has_PK then
        ereport ERRCODE_FDW_UNABLE_TO_CREATE_EXECUTION
                (msg_primary_key_missing target_relation primary_key)
      else ret tt
  end.

(** The [fdw_private] list of a ModifyTable node, in the order of
    [enum FdwModifyPrivateIndex]. *)
Record FdwModifyPrivate := mkFdwModifyPrivate {
  FdwModifyPrivateUpdateSql : string;
  FdwModifyPrivateTargetAttnums : list Z;
  FdwModifyPrivateHasReturning : bool;
  FdwModifyPrivateRetrievedAttrs : list Z
}.

(** The INSERT branch of [cassPlanForeignModify]: every column that is not
    dropped, numbered from [attno]. *)
Fixpoint insert_target_attrs (atts : list Form_pg_attribute) (attno : Z) : list Z :=
  match atts with
  | [] => []
  | attr :: rest =>
      if negb (attisdropped attr)
      then attno :: insert_target_attrs rest (attno + 1)
      else insert_target_attrs rest (attno + 1)
  end.

(** The UPDATE branch: the members of [rte->updatedCols] in ascending
    order, shifted back to attribute numbers. *)
Fixpoint update_target_attrs {St} (cols : list Z) (targetAttrs : list Z)
  : Exec St (list Z) :=
  match cols with
  | [] => ret targetAttrs
  | col :: rest =>
      let attno := col + FirstLowInvalidHeapAttributeNumber in
      if attno <=? InvalidAttrNumber
      then elog_ERROR "system-column update is not supported"
      else update_target_attrs rest (targetAttrs ++ [attno])
  end.

Section Planner.

Variable quote_identifier : string -> string.

(** [cassPlanForeignModify], on the buffer [sql]; the result is
    [targetAttrs].  [retrieved_attrs] stays [NIL] in every branch.

    The local [primaryKey] is declared without a value, and
    [cassGetPKOption] assigns it only when the table has the option
    [primary_key].  An INSERT does not read it.  An UPDATE and a DELETE
    hand it to the deparser: on a table without the option the pointer is
    read without ever having been assigned, which the program does not
    define, and the result is [None]. *)
Definition cassPlanForeignModify_sql (operation : CmdType) (rel : Relation)
    (updatedCols : Bitmapset) (onConflictAction : OnConflictAction)
  : Exec StringInfo (option (list Z)) :=
  targetAttrs <-
    match operation with
    | CMD_INSERT => ret (insert_target_attrs (rd_att rel) 1)
    | CMD_UPDATE => update_target_attrs (bms_members updatedCols) []
    | _ => ret []
    end ;;
  doNothing <-
    match onConflictAction with
    | ONCONFLICT_NOTHING => ret true
    | ONCONFLICT_NONE => ret false
    | other =>
        elog_ERROR ("unexpected ON CONFLICT specification: "
                    ++ fmt_d (OnConflictAction_code other))
    end ;;
  let assigned := cassGetPKOption rel None in
  match operation with
  | CMD_INSERT =>
      cassDeparseInsertSql quote_identifier rel targetAttrs doNothing ;;
      ret (Some targetAttrs)
  | CMD_UPDATE =>
      match assigned with
      | Some primaryKey =>
          cassDeparseUpdateSql quote_identifier rel targetAttrs primaryKey ;;
          ret (Some targetAttrs)
      | None => ret None
      end
  | CMD_DELETE =>
      match assigned with
      | Some primaryKey =>
          cassDeparseDeleteSql quote_identifier rel primaryKey ;;
          ret (Some targetAttrs)
      | None => ret None
      end
  | other =>
      elog_ERROR ("unexpected operation: " ++ fmt_d (CmdType_code other))
  end.

(** The [fdw_private] list [cassPlanForeignModify] returns, the error it
    raises, or [None] where the program does not define what it does. *)
Definition cassPlanForeignModify (operation : CmdType) (rel : Relation)
    (updatedCols : Bitmapset) (onConflictAction : OnConflictAction)
  : option (Outcome FdwModifyPrivate) :=
  match cassPlanForeignModify_sql operation rel updatedCols onConflictAction "" with
  | (Done (Some targetAttrs), sql) =>
      Some (Done (mkFdwModifyPrivate sql targetAttrs false []))
  | (Done None, _) => None
  | (Raised e, _) => Some (Raised e)
  end.

(** [cassGetForeignPlan], as far as [fdw_private] goes: the SELECT text
    and the retrieved attribute numbers. *)
Definition cassGetForeignPlan (rel : Relation) (attrs_used : Bitmapset)
  : Outcome (string * list Z) :=
  match cassDeparseSelectSql quote_identifier rel attrs_used "" with
  | (Done retrieved_attrs, sql) => Done (sql, retrieved_attrs)
  | (Raised e, _) => Raised e
  end.

End Planner.

(** [cassIsForeignRelUpdatable]. *)
Definition cassIsForeignRelUpdatable (rel : Relation) : Z :=
  Z.lor (Z.lor (Z.shiftl 1 (CmdType_code CMD_UPDATE))
               (Z.shiftl 1 (CmdType_code CMD_INSERT)))
        (Z.shiftl 1 (CmdType_code CMD_DELETE)).

(** PostgreSQL's [quote_identifier] for a name that is not an SQL key word:
    a name of lower-case letters, digits and underscores that does not
    start with a digit is left as it is; any other name is put between
    double quotes, the double quotes inside it doubled. *)
Definition ident_start (c : ascii) : bool :=
  let n := nat_of_ascii c in
  ((97 <=? n)%nat && (n <=? 122)%nat) || (n =? 95)%nat.

Definition ident_cont (c : ascii) : bool :=
  let n := nat_of_ascii c in
  ident_start c || ((48 <=? n)%nat && (n <=? 57)%nat).

Fixpoint all_chars (p : ascii -> bool) (s : string) : bool :=
  match s with
  | EmptyString => true
  | String c r => p c && all_chars p r
  end.

Fixpoint double_dquotes (s : string) : string :=
  match s with
  | EmptyString => EmptyString
  | String c r =>
      if Ascii.eqb c dquote then String dquote (String dquote (double_dquotes r))
      else String c (double_dquotes r)
  end.

Definition pg_quote_identifier (ident : string) : string :=
  let safe :=
    match ident with
    | EmptyString => false
    | String c r => ident_start c && all_chars ident_cont r
    end in
  if safe then ident
  else str1 dquote ++ double_dquotes ident ++ str1 dquote.

(* ===================================================================== *)
(** ** The driver: statements, parameters and the calls made to it *)
(* ===================================================================== *)

Inductive CassConsistency :=
| CASS_CONSISTENCY_UNKNOWN
| CASS_CONSISTENCY_ANY | CASS_CONSISTENCY_ONE | CASS_CONSISTENCY_TWO
| CASS_CONSISTENCY_THREE | CASS_CONSISTENCY_QUORUM | CASS_CONSISTENCY_ALL
| CASS_CONSISTENCY_LOCAL_QUORUM | CASS_CONSISTENCY_EACH_QUORUM
| CASS_CONSISTENCY_SERIAL | CASS_CONSISTENCY_LOCAL_SERIAL
| CASS_CONSISTENCY_LOCAL_ONE.

Definition DEFAULT_CONSISTENCY_LEVEL := CASS_CONSISTENCY_LOCAL_ONE.

Definition consistency_from_string (s : string) : CassConsistency :=
  if streq s "ANY" then CASS_CONSISTENCY_ANY
  else if streq s "ONE" then CASS_CONSISTENCY_ONE
  else if streq s "TWO" then CASS_CONSISTENCY_TWO
  else if streq s "THREE" then CASS_CONSISTENCY_THREE
  else if streq s "QUORUM" then CASS_CONSISTENCY_QUORUM
  else if streq s "ALL" then CASS_CONSISTENCY_ALL
  else if streq s "LOCAL_QUORUM" then CASS_CONSISTENCY_LOCAL_QUORUM
  else if streq s "EACH_QUORUM" then CASS_CONSISTENCY_EACH_QUORUM
  else if streq s "SERIAL" then CASS_CONSISTENCY_SERIAL
  else if streq s "LOCAL_SERIAL" then CASS_CONSISTENCY_LOCAL_SERIAL
  else if streq s "LOCAL_ONE" then CASS_CONSISTENCY_LOCAL_ONE
  else CASS_CONSISTENCY_UNKNOWN.

Definition consistency_option (name : string) (rel : Relation) : CassConsistency :=
  match last_option name (ftoptions rel) None with
  | Some s => consistency_from_string s
  | None => DEFAULT_CONSISTENCY_LEVEL
  end.

Definition cassGetReadConsistencyOption := consistency_option "read_consistency".
Definition cassGetWriteConsistencyOption := consistency_option "write_consistency".

(** A value bound to a parameter of a statement.  Floating-point values
    are carried as their bit patterns: no arithmetic is done on them. *)
Inductive CassParam :=
| CassNull
| CassInt16 (v : Z)
| CassInt32 (v : Z)
| CassInt64 (v : Z)
| CassFloat (bits : Z)
| CassDouble (bits : Z)
| CassBool (b : bool)
| CassString (s : string).

(** [cass_statement_new(query, n)]: [n] parameters, none of them bound. *)
Record CassStatement := mkStatement {
  stmt_query : string;
  stmt_params : list (option CassParam);
  stmt_consistency : option CassConsistency
}.

Definition cass_statement_new (query : string) (n : Z) : CassStatement :=
  mkStatement query (repeat None (Z.to_nat n)) None.

(** Writing one cell of an array; an index outside the array writes nothing
    (the driver answers [CASS_ERROR_LIB_INDEX_OUT_OF_BOUNDS], which the
    callers do not look at). *)
Fixpoint array_set {A} (l : list A) (i : nat) (x : A) : list A :=
  match l, i with
  | [], _ => []
  | _ :: rest, O => x :: rest
  | y :: rest, S i' => y :: array_set rest i' x
  end.

Definition cass_statement_bind (stmt : CassStatement) (pindex : Z) (v : CassParam)
  : CassStatement :=
  if pindex <? 0 then stmt
  else mkStatement (stmt_query stmt)
                   (array_set (stmt_params stmt) (Z.to_nat pindex) (Some v))
                   (stmt_consistency stmt).

Definition cass_statement_set_consistency (stmt : CassStatement)
    (c : CassConsistency) : CassStatement :=
  mkStatement (stmt_query stmt) (stmt_params stmt) (Some c).

(** What the future of [cass_session_execute] holds for a statement that
    returns no rows: the error code and the error message. *)
Inductive CassError := CASS_OK | CASS_ERROR (code : Z).

Record CassFuture := mkFuture {
  cass_future_error_code : CassError;
  cass_future_error_message : string
}.

(** The calls that reach the driver and the connection provider, in the
    order they are made. *)
Inductive DriverCall :=
| call_statement_new (query : string) (nparams : Z)
| call_bind (pindex : Z) (v : CassParam)
| call_bind_null (pindex : Z)
| call_set_consistency (c : CassConsistency)
| call_session_execute (stmt : option CassStatement)
| call_statement_free
| call_GetConnection
| call_ReleaseConnection.

Definition is_execute (c : DriverCall) : bool :=
  match c with call_session_execute _ => true | _ => false end.

Definition is_bind (c : DriverCall) : bool :=
  match c with call_bind _ _ | call_bind_null _ => true | _ => false end.

(* ===================================================================== *)
(** ** cstar_fdw.c: executing a modification *)
(* ===================================================================== *)

(** A [Datum]: a machine word for the types passed by value, the text for
    the character types, the bytes pointed to for the other types passed
    by reference (a UUID, an address). *)
Inductive Datum :=
| DatumWord (w : Z)
| DatumText (s : string)
| DatumBytes (b : list Z).

Definition datum_word (d : Datum) : Z :=
  match d with
  | DatumWord w => w
  | DatumText _ | DatumBytes _ => 0
  end.

(** The value of the low [bits] bits of [x] as a signed integer. *)
Definition wrap_signed (bits : Z) (x : Z) : Z :=
  (x + 2 ^ (bits - 1)) mod 2 ^ bits - 2 ^ (bits - 1).

Definition DatumGetInt16 (d : Datum) : Z := wrap_signed 16 (datum_word d).
Definition DatumGetInt32 (d : Datum) : Z := wrap_signed 32 (datum_word d).
Definition DatumGetInt64 (d : Datum) : Z := wrap_signed 64 (datum_word d).
Definition DatumGetBool (d : Datum) : bool := negb (datum_word d =? 0).
Definition DatumGetFloat4 (d : Datum) : Z := (datum_word d) mod 2 ^ 32.
Definition DatumGetFloat8 (d : Datum) : Z := (datum_word d) mod 2 ^ 64.
Definition DatumGetTimestampTz (d : Datum) : Z := wrap_signed 64 (datum_word d).

(** [OidOutputFunctionCall] for the character types. *)
Definition OidOutputFunctionCall (d : Datum) : string :=
  match d with
  | DatumText s => s
  | DatumWord _ | DatumBytes _ => ""
  end.

Definition MSECS_PER_SEC : Z := 1000.

(** [SetEpochTimestamp()]: the Unix epoch as a PostgreSQL timestamp, in
    microseconds from 2000-01-01. *)
Definition SetEpochTimestamp : Z := - ((2451545 - 2440588) * 86400000000).

(** A tuple slot: the columns in attribute order, [None] for a null. *)
Definition TupleTableSlot := list (option Datum).

(** [slot_getattr(slot, attnum, &isnull)]; an attribute the slot does not
    have reads as null. *)
Definition slot_getattr (slot : TupleTableSlot) (attno : AttrNumber)
  : option Datum :=
  if attno <=? 0 then None
  else match nth_error slot (Z.to_nat (attno - 1)) with
       | Some v => v
       | None => None
       end.

Definition ExecGetJunkAttribute := slot_getattr.

(** [ExecFindJunkAttributeInTlist]. *)
Fixpoint ExecFindJunkAttributeInTlist (targetlist : list TargetEntry)
    (attrName : string) : AttrNumber :=
  match targetlist with
  | [] => InvalidAttrNumber
  | tle :: rest =>
      if resjunk tle && streq (resname tle) attrName then resno tle
      else ExecFindJunkAttributeInTlist rest attrName
  end.

Record CassFdwModifyState := mkModifyState {
  rel : Relation;
  cass_conn : bool;                    (* the session is held *)
  sql_sent : bool;
  statement : option CassStatement;
  write_consistency : CassConsistency;
  query : string;
  target_attrs : list Z;
  has_returning : bool;
  retrieved_attrs : list Z;
  keyAttno : AttrNumber;
  p_nums : Z;
  p_type_oids : list Oid
}.

(** What a modification works on: its state ([ri_FdwState], [None] under
    EXPLAIN) and the calls made so far. *)
Record ModifyWorld := mkModifyWorld {
  ri_FdwState : option CassFdwModifyState;
  calls : list DriverCall
}.

Definition call (c : DriverCall) : Exec ModifyWorld unit :=
  modify (fun w => mkModifyWorld (ri_FdwState w) (calls w ++ [c])).

Definition set_fmstate (fm : CassFdwModifyState) : Exec ModifyWorld unit :=
  modify (fun w => mkModifyWorld (Some fm) (calls w)).

Definition with_statement (fm : CassFdwModifyState) (st : option CassStatement)
  : CassFdwModifyState :=
  mkModifyState (rel fm) (cass_conn fm) (sql_sent fm) st (write_consistency fm)
    (query fm) (target_attrs fm) (has_returning fm) (retrieved_attrs fm)
    (keyAttno fm) (p_nums fm) (p_type_oids fm).

Definition with_sql_sent (fm : CassFdwModifyState) (b : bool)
  : CassFdwModifyState :=
  mkModifyState (rel fm) (cass_conn fm) b (statement fm) (write_consistency fm)
    (query fm) (target_attrs fm) (has_returning fm) (retrieved_attrs fm)
    (keyAttno fm) (p_nums fm) (p_type_oids fm).

Definition with_cass_conn (fm : CassFdwModifyState) (b : bool)
  : CassFdwModifyState :=
  mkModifyState (rel fm) b (sql_sent fm) (statement fm) (write_consistency fm)
    (query fm) (target_attrs fm) (has_returning fm) (retrieved_attrs fm)
    (keyAttno fm) (p_nums fm) (p_type_oids fm).

(** The state of the modification; the executor callbacks are entered only
    with a state ([cassBeginForeignModify] has run without EXPLAIN). *)
Definition the_fmstate : Exec ModifyWorld CassFdwModifyState :=
  w <- get ;;
  match ri_FdwState w with
  | Some fm => ret fm
  | None => elog_ERROR "no modify state"
  end.

(** [p_type_oids[pindex]]; the array was allocated zeroed. *)
Definition type_oid_at (fm : CassFdwModifyState) (pindex : Z) : Oid :=
  if pindex <? 0 then InvalidOid
  else nth (Z.to_nat pindex) (p_type_oids fm) InvalidOid.

(** The first loop of [cassBeginForeignModify]: the types of the target
    columns go into [p_type_oids] from index [p_nums] on. *)
Fixpoint begin_target_types (tupdesc : TupleDesc) (targets : list Z)
    (oids : list Oid) (nums : Z) : Exec ModifyWorld (list Oid * Z) :=
  match targets with
  | [] => ret (oids, nums)
  | attno :: rest =>
      match TupleDescAttr tupdesc (attno - 1) with
      | Some attr =>
          begin_target_types tupdesc rest
            (array_set oids (Z.to_nat nums) (atttypid attr)) (nums + 1)
      | None => elog_ERROR "target attribute outside the tuple descriptor"
      end
  end.

Definition msg_no_junk_attribute : string :=
  "cassandra_fdw: Internal error -- could not find the junk attribute in the target list and modifying without a key is not possible".

(** [cassBeginForeignModify]; [subplan_targetlist] is the target list of
    the subplan, [explain_only] is [eflags & EXEC_FLAG_EXPLAIN_ONLY]. *)
Definition cassBeginForeignModify (operation : CmdType) (r : Relation)
    (fdw_private : FdwModifyPrivate) (subplan_targetlist : list TargetEntry)
    (explain_only : bool) : Exec ModifyWorld unit :=
  if explain_only then ret tt
  else
    call call_GetConnection ;;
    let targets := FdwModifyPrivateTargetAttnums fdw_private in
    let n_params := Z.of_nat (List.length targets) + 1 in
    let oids0 := repeat InvalidOid (Z.to_nat n_params) in
    tn <- match operation with
          | CMD_INSERT | CMD_UPDATE =>
              begin_target_types (rd_att r) targets oids0 0
          | _ => ret (oids0, 0)
          end ;;
    kn <- match operation with
          | CMD_UPDATE | CMD_DELETE =>
              let primaryKey := cassGetPKOption r None in
              let key :=
                match primaryKey with
                | Some pk => ExecFindJunkAttributeInTlist subplan_targetlist pk
                | None => InvalidAttrNumber
                end in
              if key =? InvalidAttrNumber then
                ereport ERRCODE_FDW_UNABLE_TO_CREATE_EXECUTION msg_no_junk_attribute
              else
                let attno := get_attnum r (fmt_s primaryKey) in
                match TupleDescAttr (rd_att r) (attno - 1) with
                | Some attr =>
                    ret (key, array_set (fst tn) (Z.to_nat (snd tn)) (atttypid attr),
                         snd tn + 1)
                | None => elog_ERROR "key attribute outside the tuple descriptor"
                end
          | _ => ret (InvalidAttrNumber, fst tn, snd tn)
          end ;;
    let '(key, oids, nums) := kn in
    set_fmstate
      (mkModifyState r true false None
         (cassGetWriteConsistencyOption r)
         (FdwModifyPrivateUpdateSql fdw_private)
         targets
         (FdwModifyPrivateHasReturning fdw_private)
         (FdwModifyPrivateRetrievedAttrs fdw_private)
         key nums oids).

(** [releaseCassResources]. *)
Definition releaseCassResources : Exec ModifyWorld unit :=
  w <- get ;;
  match ri_FdwState w with
  | None => ret tt
  | Some fm =>
      (match statement fm with
       | Some _ => if sql_sent fm then call call_statement_free else ret tt
       | None => ret tt
       end) ;;
      call call_ReleaseConnection ;;
      set_fmstate (with_cass_conn fm false)
  end.

Definition SMALLINT_NULL_SET_ISSUE_URL : string :=
  "https://groups.google.com/a/lists.datastax.com/forum/#!topic/cpp-driver-user/b1XRQdnVH6A".

Definition LF : string := str1 (ascii_of_nat 10).

Definition msg_smallint_null (opname : string) : string :=
  "Failed to execute " ++ opname ++ " into Cassandra: " ++ LF ++ "  "
    ++ "Unable to bind NULL to a SMALLINT COLUMN because of "
    ++ SMALLINT_NULL_SET_ISSUE_URL.

(** The statement of the state after one more driver call on it. *)
Definition on_statement (f : CassStatement -> CassStatement) : Exec ModifyWorld unit :=
  fm <- the_fmstate ;;
  set_fmstate (with_statement fm (option_map f (statement fm))).

(** [cassStatementBindNull]. *)
Definition cassStatementBindNull (pindex : Z) (ptypeid : Oid) (opname : string)
  : Exec ModifyWorld unit :=
  if ptypeid =? INT2OID then
    releaseCassResources ;;
    ereport ERRCODE_FDW_UNABLE_TO_CREATE_EXECUTION (msg_smallint_null opname)
  else
    call (call_bind_null pindex) ;;
    on_statement (fun st => cass_statement_bind st pindex CassNull).

Definition msg_type_not_supported (type : Oid) : string :=
  "Data type with OID " ++ fmt_d type ++ " not supported.".

Section Modify.

(** The time zone offset, in seconds, that [timestamp2tm] stores for a
    timestamp under the time zone of the session. *)
Variable session_tzoffset : Z -> Z.

(** The parameter [bind_cass_statement_param] binds for a value of a
    type, or [None] for the [default] branch of its [switch]. *)
Definition param_of_datum (type : Oid) (value : Datum) : option CassParam :=
  if type =? INT2OID then Some (CassInt16 (DatumGetInt16 value))
  else if type =? INT4OID then Some (CassInt32 (DatumGetInt32 value))
  else if type =? INT8OID then Some (CassInt64 (DatumGetInt64 value))
  else if type =? FLOAT4OID then Some (CassFloat (DatumGetFloat4 value))
  else if type =? FLOAT8OID then Some (CassDouble (DatumGetFloat8 value))
  else if type =? BOOLOID then Some (CassBool (DatumGetBool value))
  else if (type =? TEXTOID) || (type =? VARCHAROID) || (type =? BPCHAROID)
  then Some (CassString (OidOutputFunctionCall value))
  else if (type =? TIMESTAMPTZOID) || (type =? TIMESTAMPOID) then
    let tzoffset := session_tzoffset (DatumGetTimestampTz value) in
    let time :=
      Z.quot (wrap_signed 64 (DatumGetTimestampTz value - SetEpochTimestamp
                              + tzoffset))
             MSECS_PER_SEC in
    Some (CassInt64 time)
  else None.

(** [bind_cass_statement_param]. *)
Definition bind_cass_statement_param (type : Oid) (value : Datum) (pindex : Z)
  : Exec ModifyWorld unit :=
  match param_of_datum type value with
  | Some v =>
      call (call_bind pindex v) ;;
      on_statement (fun st => cass_statement_bind st pindex v)
  | None =>
      ereport ERRCODE_FEATURE_NOT_SUPPORTED (msg_type_not_supported type)
  end.

(** The [foreach(lc, fmstate->target_attrs)] loop shared by
    [cassExecForeignInsert] and [cassExecPKPredWrite]; the result is
    [pindex] after the loop. *)
Fixpoint bind_targets_loop (opname : string) (slot : TupleTableSlot)
    (targets : list Z) (pindex : Z) : Exec ModifyWorld Z :=
  match targets with
  | [] => ret pindex
  | attno :: rest =>
      fm <- the_fmstate ;;
      match slot_getattr slot attno with
      | None =>
          cassStatementBindNull pindex (type_oid_at fm pindex) opname
      | Some value =>
          bind_cass_statement_param (type_oid_at fm pindex) value pindex
      end ;;
      bind_targets_loop opname slot rest (pindex + 1)
  end.

(** The start of both write paths: the statement is created on the first
    row, then the targets are bound. *)
Definition prepare_and_bind_targets (opname : string)
    (slot : option TupleTableSlot) : Exec ModifyWorld Z :=
  fm <- the_fmstate ;;
  (if negb (sql_sent fm) then
     call (call_statement_new (query fm) (p_nums fm)) ;;
     set_fmstate (with_statement fm
                    (Some (cass_statement_new (query fm) (p_nums fm))))
   else ret tt) ;;
  match slot, target_attrs fm with
  | Some sl, _ :: _ => bind_targets_loop opname sl (target_attrs fm) 0
  | _, _ => ret 0
  end.

(** The end of both write paths: the statement is executed and a reply
    other than [CASS_OK] is raised after the resources are released. *)
Definition execute_and_check (opname : string) (future : CassFuture)
  : Exec ModifyWorld unit :=
  fm <- the_fmstate ;;
  call (call_set_consistency (write_consistency fm)) ;;
  on_statement (fun st => cass_statement_set_consistency st (write_consistency fm)) ;;
  fm <- the_fmstate ;;
  call (call_session_execute (statement fm)) ;;
  set_fmstate (with_sql_sent fm true) ;;
  match cass_future_error_code future with
  | CASS_OK => ret tt
  | CASS_ERROR _ =>
      releaseCassResources ;;
      ereport ERRCODE_FDW_UNABLE_TO_CREATE_EXECUTION
        ("Failed to execute the " ++ opname ++ " into Cassandra: "
         ++ cass_future_error_message future)
  end.

(** [cassExecForeignInsert]; [future] is what the remote answers if the
    statement gets executed. *)
Definition cassExecForeignInsert (slot : option TupleTableSlot)
    (future : CassFuture) : Exec ModifyWorld (option TupleTableSlot) :=
  _ <- prepare_and_bind_targets "INSERT" slot ;;
  execute_and_check "INSERT" future ;;
  ret slot.

Definition msg_primary_key_null (r : Relation) : string :=
  "The specified PRIMARY KEY '" ++ fmt_s (cassGetPKOption r None)
    ++ "' contains a NULL value" ++ "for the FOREIGN TABLE '"
    ++ nspname r ++ "." ++ relname r ++ "'.".

(** [cassExecPKPredWrite]. *)
Definition cassExecPKPredWrite (slot : option TupleTableSlot)
    (planSlot : TupleTableSlot) (cqlOpName : string) (future : CassFuture)
  : Exec ModifyWorld (option TupleTableSlot) :=
  pindex <- prepare_and_bind_targets cqlOpName slot ;;
  fm <- the_fmstate ;;
  match ExecGetJunkAttribute planSlot (keyAttno fm) with
  | None =>
      ereport ERRCODE_FDW_UNABLE_TO_CREATE_EXECUTION
              (msg_primary_key_null (rel fm))
  | Some value =>
      bind_cass_statement_param (type_oid_at fm pindex) value pindex ;;
      execute_and_check cqlOpName future ;;
      ret slot
  end.

Definition cassExecForeignUpdate (slot : option TupleTableSlot)
    (planSlot : TupleTableSlot) (future : CassFuture) :=
  cassExecPKPredWrite slot planSlot "UPDATE" future.

Definition cassExecForeignDelete (slot : option TupleTableSlot)
    (planSlot : TupleTableSlot) (future : CassFuture) :=
  cassExecPKPredWrite slot planSlot "DELETE" future.

Definition cassEndForeignModify : Exec ModifyWorld unit :=
  releaseCassResources.

End Modify.

(* ===================================================================== *)
(** ** cstar_fdw.c: scanning *)
(* ===================================================================== *)

(** A value of a result row with its [CassValueType]; floating-point
    values, UUIDs and addresses are carried as the driver holds them. *)
Inductive CassValue :=
| CASS_VALUE_TINY_INT (i : Z)
| CASS_VALUE_SMALL_INT (i : Z)
| CASS_VALUE_INT (i : Z)
| CASS_VALUE_BIGINT (i : Z)
| CASS_VALUE_COUNTER (i : Z)
| CASS_VALUE_BOOLEAN (b : bool)
| CASS_VALUE_FLOAT (bits : Z)
| CASS_VALUE_DOUBLE (bits : Z)
| CASS_VALUE_TEXT (s : string)
| CASS_VALUE_ASCII (s : string)
| CASS_VALUE_VARCHAR (s : string)
| CASS_VALUE_TIMESTAMP (ms : Z)
| CASS_VALUE_UUID (u : Z)
| CASS_VALUE_INET (address : list Z)
| CASS_VALUE_LIST
| CASS_VALUE_MAP
| CASS_VALUE_OTHER.

(** A row: its columns, [None] where [cass_value_is_null]. *)
Definition CassRow := list (option CassValue).

Record CassResult := mkResult {
  cass_result_column_count : Z;
  cass_result_rows : list CassRow
}.

(** The future of a query: the error code, the error message and, when
    the code is [CASS_OK], the result. *)
Record CassResultFuture := mkResultFuture {
  rf_error_code : CassError;
  rf_error_message : string;
  rf_result : CassResult
}.

Definition HeapTuple := list (option Datum).

Definition LITERAL_UTC : string := "UTC".

Inductive ErrorLevel := WARNING | ERROR.

(** What [pgcass_report_error] is handed: the level, the message of the
    future and the statement text. *)
Record ErrorReport := mkReport {
  elevel : ErrorLevel;
  report_message : string;
  report_sql : option string
}.

Module Scan.

Record CassFdwScanState := mkScanState {
  rel : Relation;
  query : string;
  retrieved_attrs : list Z;
  NumberOfColumns : Z;
  cass_conn : bool;
  sql_sended : bool;
  statement : option CassStatement;
  read_consistency : CassConsistency;
  tuples : option (list HeapTuple);    (* [None] is the null pointer *)
  num_tuples : Z;
  next_tuple : Z;
  fetch_ct_2 : Z;
  eof_reached : bool
}.

(** What a scan works on: its state, the calls made so far and the
    errors reported so far. *)
Record ScanWorld := mkScanWorld {
  fdw_state : CassFdwScanState;
  calls : list DriverCall;
  reported : list ErrorReport
}.

Definition call (c : DriverCall) : Exec ScanWorld unit :=
  modify (fun w => mkScanWorld (fdw_state w) (calls w ++ [c]) (reported w)).

Definition fsstate : Exec ScanWorld CassFdwScanState :=
  w <- get ;; ret (fdw_state w).

Definition update (f : CassFdwScanState -> CassFdwScanState)
  : Exec ScanWorld unit :=
  modify (fun w => mkScanWorld (f (fdw_state w)) (calls w) (reported w)).

Definition set_statement (st : option CassStatement) (fs : CassFdwScanState) :=
  mkScanState (rel fs) (query fs) (retrieved_attrs fs) (NumberOfColumns fs)
    (cass_conn fs) (sql_sended fs) st (read_consistency fs) (tuples fs)
    (num_tuples fs) (next_tuple fs) (fetch_ct_2 fs) (eof_reached fs).

Definition set_cass_conn (b : bool) (fs : CassFdwScanState) :=
  mkScanState (rel fs) (query fs) (retrieved_attrs fs) (NumberOfColumns fs)
    b (sql_sended fs) (statement fs) (read_consistency fs) (tuples fs)
    (num_tuples fs) (next_tuple fs) (fetch_ct_2 fs) (eof_reached fs).

Definition set_tuples (t : option (list HeapTuple)) (fs : CassFdwScanState) :=
  mkScanState (rel fs) (query fs) (retrieved_attrs fs) (NumberOfColumns fs)
    (cass_conn fs) (sql_sended fs) (statement fs) (read_consistency fs) t
    (num_tuples fs) (next_tuple fs) (fetch_ct_2 fs) (eof_reached fs).

Definition set_next_tuple (n : Z) (fs : CassFdwScanState) :=
  mkScanState (rel fs) (query fs) (retrieved_attrs fs) (NumberOfColumns fs)
    (cass_conn fs) (sql_sended fs) (statement fs) (read_consistency fs)
    (tuples fs) (num_tuples fs) n (fetch_ct_2 fs) (eof_reached fs).

Definition set_eof_reached (b : bool) (fs : CassFdwScanState) :=
  mkScanState (rel fs) (query fs) (retrieved_attrs fs) (NumberOfColumns fs)
    (cass_conn fs) (sql_sended fs) (statement fs) (read_consistency fs)
    (tuples fs) (num_tuples fs) (next_tuple fs) (fetch_ct_2 fs) b.

(** The assignments of the success branch of [fetch_more_data] before
    the rows are converted. *)
Definition set_batch (ncols numrows : Z) (fs : CassFdwScanState) :=
  mkScanState (rel fs) (query fs) (retrieved_attrs fs) ncols
    (cass_conn fs) (sql_sended fs) (statement fs) (read_consistency fs)
    (Some []) numrows 0 (fetch_ct_2 fs) (eof_reached fs).

(** The node of a scan, as far as the wrapper goes: [node->fdw_state]
    with what has been called and reported for the scan.  [None] is the
    null pointer: no state has been allocated and nothing has been
    called. *)
Definition ForeignScanState := option ScanWorld.

(** [cassBeginForeignScan] behind its test of the flags: the state is
    allocated zeroed and filled in, and the connection is taken. *)
Definition begin_scan (r : Relation) (fdw_private : string * list Z) : ScanWorld :=
  mkScanWorld
    (mkScanState r (fst fdw_private) (snd fdw_private) 0 true false None
       (cassGetReadConsistencyOption r) None 0 0 0 false)
    [call_GetConnection] [].

(** [cassBeginForeignScan]; [explain_only] is
    [eflags & EXEC_FLAG_EXPLAIN_ONLY].  Under EXPLAIN without ANALYZE
    nothing is done and [node->fdw_state] stays the null pointer. *)
Definition cassBeginForeignScan (explain_only : bool) (r : Relation)
    (fdw_private : string * list Z) : ForeignScanState :=
  if explain_only then None
  else Some (begin_scan r fdw_private).

(** [create_cursor]. *)
Definition create_cursor : Exec ScanWorld unit :=
  fs <- fsstate ;;
  call (call_statement_new (query fs) 0) ;;
  update (fun fs =>
    mkScanState (rel fs) (query fs) (retrieved_attrs fs) (NumberOfColumns fs)
      (cass_conn fs) true (Some (cass_statement_new (query fs) 0))
      (read_consistency fs) None 0 0 0 false).

(** [close_cursor]. *)
Definition close_cursor : Exec ScanWorld unit :=
  fs <- fsstate ;;
  match statement fs with
  | Some _ => call call_statement_free
  | None => ret tt
  end.

(** Modelled from the spec: [pgcass_report_error], whose body is in
    cstar_connect.c and not among the sources.  The spec has a failed
    fetch surface the remote error and still set EOF: the report hands
    the message of the future, with the statement text, to the caller and
    control comes back to the statement after the call. *)
Definition pgcass_report_error (level : ErrorLevel) (future : CassResultFuture)
    (sql : option string) : Exec ScanWorld unit :=
  modify (fun w =>
    mkScanWorld (fdw_state w) (calls w)
      (reported w ++ [mkReport level (rf_error_message future) sql])).

Section Materialize.

(** The C library and the driver: [printf("%f", x)] for a [float] and
    for a [double], [asctime(gmtime(&t))], [cass_uuid_string] and
    [cass_inet_string]. *)
Variable fmt_f_float : Z -> string.
Variable fmt_f_double : Z -> string.
Variable asctime_gmtime : Z -> string.
Variable cass_uuid_string : Z -> string.
Variable cass_inet_string : list Z -> string.

(** [InputFunctionCall] with the input function of a type, on a text or
    on the null pointer. *)
Variable InputFunctionCall : Oid -> option string -> Outcome Datum.

(** [pgcass_transferValue].  For a UUID and for an address the driver
    writes its text behind the buffer and the length is moved on by the
    size of the widest text; the buffer is kept here as the C string that
    [make_tuple_from_result_row] reads from it. *)
Definition pgcass_transferValue (value : CassValue) : Exec StringInfo unit :=
  match value with
  | CASS_VALUE_TINY_INT i => appendStringInfoString (fmt_d i)
  | CASS_VALUE_SMALL_INT i => appendStringInfoString (fmt_d i)
  | CASS_VALUE_INT i => appendStringInfoString (fmt_d i)
  | CASS_VALUE_BIGINT i | CASS_VALUE_COUNTER i =>
      appendStringInfoString (fmt_d i ++ " ")
  | CASS_VALUE_BOOLEAN b =>
      appendStringInfoString (if b then "true" else "false")
  | CASS_VALUE_FLOAT d => appendStringInfoString (fmt_f_float d)
  | CASS_VALUE_DOUBLE d => appendStringInfoString (fmt_f_double d)
  | CASS_VALUE_TEXT s | CASS_VALUE_ASCII s | CASS_VALUE_VARCHAR s =>
      appendStringInfoString s
  | CASS_VALUE_TIMESTAMP timestamp =>
      let seconds := Z.quot timestamp MSECS_PER_SEC in
      appendStringInfoString
        (asctime_gmtime seconds ++ " " ++ LITERAL_UTC)
  | CASS_VALUE_UUID u => appendStringInfoString (cass_uuid_string u)
  | CASS_VALUE_INET i => appendStringInfoString (cass_inet_string i)
  | CASS_VALUE_LIST | CASS_VALUE_MAP | CASS_VALUE_OTHER =>
      appendStringInfoString "<unhandled type>"
  end.

(** The text handed to the input function for one column of a row;
    [buf] is empty before every column. *)
Definition column_valstr {St} (row : CassRow) (j : Z)
  : Exec St (option string) :=
  match (if j <? 0 then None else nth_error row (Z.to_nat j)) with
  | None => elog_ERROR "column index outside the row"
  | Some None => ret None
  | Some (Some cassVal) => ret (Some (snd (pgcass_transferValue cassVal "")))
  end.

(** The [foreach(lc, retrieved_attrs)] loop of
    [make_tuple_from_result_row]; the state is the array of the values
    with their null flags, the result is [j] after the loop. *)
Fixpoint make_tuple_loop (tupdesc : TupleDesc) (row : CassRow)
    (attrs : list Z) (j : Z) : Exec HeapTuple Z :=
  match attrs with
  | [] => ret j
  | i :: rest =>
      valstr <- column_valstr row j ;;
      (if 0 <? i then
         match TupleDescAttr tupdesc (i - 1) with
         | None => elog_ERROR "attribute outside the tuple descriptor"
         | Some attr =>
             match InputFunctionCall (atttypid attr) valstr with
             | Raised e => fun s => (Raised e, s)
             | Done value =>
                 modify (fun values =>
                   array_set values (Z.to_nat (i - 1))
                     (match valstr with
                      | None => None
                      | Some _ => Some value
                      end))
             end
         end
       else ret tt) ;;
      make_tuple_loop tupdesc row rest (j + 1)
  end.

(** [make_tuple_from_result_row]. *)
Definition make_tuple_from_result_row (row : CassRow) (ncolumn : Z)
    (r : Relation) (attrs : list Z) : Outcome HeapTuple :=
  let tupdesc := rd_att r in
  let run :=
    j <- make_tuple_loop tupdesc row attrs 0 ;;
    if (0 <? j) && negb (j =? ncolumn)
    then elog_ERROR "remote query result does not match the foreign table"
    else ret tt in
  match run (repeat None (List.length tupdesc)) with
  | (Done _, tuple) => Done tuple
  | (Raised e, _) => Raised e
  end.

(** The [while (cass_iterator_next(rows))] loop of [fetch_more_data]:
    every row becomes a tuple of the batch. *)
Fixpoint fetch_rows_loop (rows : list CassRow) : Exec ScanWorld unit :=
  match rows with
  | [] => ret tt
  | row :: rest =>
      fs <- fsstate ;;
      match make_tuple_from_result_row row (NumberOfColumns fs) (rel fs)
              (retrieved_attrs fs) with
      | Raised e => fun w => (Raised e, w)
      | Done tuple =>
          update (fun fs =>
            set_tuples (Some (match tuples fs with
                              | Some ts => (ts ++ [tuple])%list
                              | None => [tuple]
                              end)) fs) ;;
          fetch_rows_loop rest
      end
  end.

(** [fetch_more_data]; [result_future] is what the remote answers. *)
Definition fetch_more_data (result_future : CassResultFuture)
  : Exec ScanWorld unit :=
  update (set_tuples None) ;;
  fs <- fsstate ;;
  call (call_set_consistency (read_consistency fs)) ;;
  update (fun fs =>
    set_statement
      (option_map (fun st => cass_statement_set_consistency st (read_consistency fs))
                  (statement fs)) fs) ;;
  fs <- fsstate ;;
  call (call_session_execute (statement fs)) ;;
  match rf_error_code result_future with
  | CASS_OK =>
      let res := rf_result result_future in
      update (set_batch (cass_result_column_count res)
                        (Z.of_nat (List.length (cass_result_rows res)))) ;;
      fetch_rows_loop (cass_result_rows res) ;;
      update (set_eof_reached true)
  | CASS_ERROR _ =>
      fs <- fsstate ;;
      pgcass_report_error ERROR result_future (Some (query fs)) ;;
      update (set_eof_reached true)
  end.

(** [cassIterateForeignScan]; the result is the tuple stored into the
    slot, [None] for the cleared slot. *)
Definition cassIterateForeignScan (result_future : CassResultFuture)
  : Exec ScanWorld (option HeapTuple) :=
  fs <- fsstate ;;
  (if negb (sql_sended fs) then create_cursor else ret tt) ;;
  fs <- fsstate ;;
  (if num_tuples fs <=? next_tuple fs then
     if negb (eof_reached fs) then fetch_more_data result_future else ret tt
   else ret tt) ;;
  fs <- fsstate ;;
  if num_tuples fs <=? next_tuple fs then ret None
  else
    match tuples fs with
    | None => elog_ERROR "no batch"
    | Some ts =>
        match (if next_tuple fs <? 0 then None
               else nth_error ts (Z.to_nat (next_tuple fs))) with
        | None => elog_ERROR "tuple index outside the batch"
        | Some tuple =>
            update (set_next_tuple (next_tuple fs + 1)) ;;
            ret (Some tuple)
        end
    end.

End Materialize.

(** [cassReScanForeignScan]; the statements after its second [return]
    are never reached. *)
Definition cassReScanForeignScan : Exec ScanWorld unit :=
  fs <- fsstate ;;
  if negb (sql_sended fs) then ret tt
  else update (set_next_tuple 0).

(** [cassEndForeignScan] behind its test of the state. *)
Definition end_scan : Exec ScanWorld unit :=
  fs <- fsstate ;;
  (if sql_sended fs then close_cursor else ret tt) ;;
  call call_ReleaseConnection ;;
  update (set_cass_conn false).

(** [cassEndForeignScan]: with the null pointer for the state, the scan
    was only explained and there is nothing to do. *)
Definition cassEndForeignScan : Exec ForeignScanState unit :=
  fun node =>
    match node with
    | None => (Done tt, None)
    | Some w =>
        match end_scan w with
        | (outcome, w') => (outcome, Some w')
        end
    end.

End Scan.

(* ===================================================================== *)
(** ** The statement texts, column by column *)
(* ===================================================================== *)

(** The bitmapset member of an attribute number. *)
Definition attr_bit (attno : Z) : Bitmapset :=
  N.shiftl 1 (Z.to_N (attno - FirstLowInvalidHeapAttributeNumber)).

(** The attribute numbers the target list loop selects among [atts],
    numbered from [i]. *)
Fixpoint selected_from (have_wholerow : bool) (attrs_used : Bitmapset)
    (atts : list Form_pg_attribute) (i : Z) : list Z :=
  match atts with
  | [] => []
  | attr :: rest =>
      if negb (attisdropped attr)
         && (have_wholerow
             || bms_is_member (i - FirstLowInvalidHeapAttributeNumber) attrs_used)
      then i :: selected_from have_wholerow attrs_used rest (i + 1)
      else selected_from have_wholerow attrs_used rest (i + 1)
  end.

(** Column [i] of the relation exists, is not dropped, and is asked for by
    [attrs_used], by itself or through the whole-row member. *)
Definition selects (rel : Relation) (attrs_used : Bitmapset) (i : Z) : Prop :=
  exists attr,
    TupleDescAttr (rd_att rel) (i - 1) = Some attr /\
    attisdropped attr = false /\
    (bms_is_member (0 - FirstLowInvalidHeapAttributeNumber) attrs_used = true \/
     bms_is_member (i - FirstLowInvalidHeapAttributeNumber) attrs_used = true).

(** The text [cassDeparseRelation] appends. *)
Definition relation_text (quote_identifier : string -> string) (rel : Relation)
  : string :=
  snd (cassDeparseRelation quote_identifier rel "").

(** The text [cassDeparseColumnRef] appends for a column that exists. *)
Definition column_text (quote_identifier : string -> string) (r : Relation)
    (attno : AttrNumber) : string :=
  match column_remote_name r attno with
  | Some colname => quote_identifier colname
  | None => ""
  end.

Definition is_column (r : Relation) (attno : AttrNumber) : Prop :=
  column_remote_name r attno <> None.

(** The separator a loop writes before its first element. *)
Definition lead {A} (first : bool) (l : list A) : string :=
  match l with
  | [] => ""
  | _ => if first then "" else ", "
  end.

(** The statement texts, target column by target column. *)
Definition insert_text (quote_identifier : string -> string) (r : Relation)
    (targetAttrs : list Z) (doNothing : bool) : string :=
  "INSERT INTO " ++ relation_text quote_identifier r
  ++ match targetAttrs with
     | [] => " DEFAULT VALUES"
     | _ =>
         "(" ++ String.concat ", " (map (column_text quote_identifier r) targetAttrs)
         ++ ") VALUES ("
         ++ String.concat ", " (map (fun _ => "?") targetAttrs) ++ ")"
     end
  ++ (if doNothing then " ON CONFLICT DO NOTHING" else "").

Definition update_text (quote_identifier : string -> string) (r : Relation)
    (targetAttrs : list Z) (primaryKey : string) : string :=
  "UPDATE " ++ relation_text quote_identifier r ++ " SET "
  ++ String.concat ", "
       (map (fun attno => column_text quote_identifier r attno ++ " = ?") targetAttrs)
  ++ " WHERE " ++ primaryKey ++ " = ?".

Definition delete_text (quote_identifier : string -> string) (r : Relation)
    (primaryKey : string) : string :=
  "DELETE FROM " ++ relation_text quote_identifier r
  ++ " WHERE " ++ primaryKey ++ " = ?".

(** [s] between double quotes. *)
Definition dquoted (s : string) : string := str1 dquote ++ s ++ str1 dquote.

(* ===================================================================== *)
(** ** The columns taken for the key *)
(* ===================================================================== *)

(** The comparison of [cassAddForeignUpdateTargets] between the name of a
    column and the configured key name. *)
Definition key_matches (primary_key : string) (att : Form_pg_attribute) : bool :=
  strncmp (attname att) primary_key (strlen primary_key) =? 0.

(** The hidden entry for a column, the last of a target list that had [n]
    entries; [result] is the index of the result relation. *)
Definition key_entry (result : Z) (n : nat) (att : Form_pg_attribute)
  : TargetEntry :=
  makeTargetEntry (makeVar result (attnum att) (atttypid att))
    (Z.of_nat n + 1) (attname att) true.

(** The hidden entries for the columns [atts], added in their order to a
    target list that had [n] entries. *)
Fixpoint key_entries (result : Z) (n : nat) (atts : list Form_pg_attribute)
  : list TargetEntry :=
  match atts with
  | [] => []
  | att :: rest => key_entry result n att :: key_entries result (S n) rest
  end.

Definition no_primary_key_error (r : Relation) : ErrorData :=
  mkError ERRCODE_FDW_UNABLE_TO_CREATE_EXECUTION (msg_no_primary_key r).

Definition primary_key_missing_error (r : Relation) (primary_key : string)
  : ErrorData :=
  mkError ERRCODE_FDW_UNABLE_TO_CREATE_EXECUTION
    (msg_primary_key_missing r primary_key).

(* ===================================================================== *)
(** ** The calls of a write, as they are expected *)
(* ===================================================================== *)

(** The call that binds the value [v] of a column (a null is [None]) as a
    parameter of type [type] at the position [pindex]; [None] when the
    binding raises instead. *)
Definition bind_call_for (session_tzoffset : Z -> Z) (type : Oid) (pindex : Z)
    (v : option Datum) : option DriverCall :=
  match v with
  | None => if type =? INT2OID then None else Some (call_bind_null pindex)
  | Some value =>
      option_map (call_bind pindex) (param_of_datum session_tzoffset type value)
  end.

(** The binding calls for the target columns [targets] of [slot], the
    first of them at the position [pindex]. *)
Fixpoint target_bind_calls (session_tzoffset : Z -> Z) (fm : CassFdwModifyState)
    (slot : TupleTableSlot) (targets : list Z) (pindex : Z)
  : list (option DriverCall) :=
  match targets with
  | [] => []
  | attno :: rest =>
      bind_call_for session_tzoffset (type_oid_at fm pindex) pindex
        (slot_getattr slot attno)
      :: target_bind_calls session_tzoffset fm slot rest (pindex + 1)
  end.

(** The binding calls for the targets of a write: none without a slot. *)
Definition expected_target_binds (session_tzoffset : Z -> Z)
    (fm : CassFdwModifyState) (slot : option TupleTableSlot)
  : list (option DriverCall) :=
  match slot with
  | Some sl => target_bind_calls session_tzoffset fm sl (target_attrs fm) 0
  | None => []
  end.

(** The call that binds the carried key after [n] targets; [None] when the
    key is null or its type is not supported. *)
Definition key_bind_call (session_tzoffset : Z -> Z) (fm : CassFdwModifyState)
    (planSlot : TupleTableSlot) (n : Z) : option DriverCall :=
  match ExecGetJunkAttribute planSlot (keyAttno fm) with
  | Some value =>
      bind_call_for session_tzoffset (type_oid_at fm n) n (Some value)
  | None => None
  end.

(** One step of the loop over the targets: the value [v] of a column is
    bound at the position [k]. *)
Definition bind_one (session_tzoffset : Z -> Z) (op : string)
    (fm : CassFdwModifyState) (k : Z) (v : option Datum) : Exec ModifyWorld unit :=
  match v with
  | None => cassStatementBindNull k (type_oid_at fm k) op
  | Some value =>
      bind_cass_statement_param session_tzoffset (type_oid_at fm k) value k
  end.

(** The calls among the expected ones, and whether none is missing. *)
Definition the_calls (l : list (option DriverCall)) : list DriverCall :=
  flat_map (fun o => match o with Some c => [c] | None => [] end) l.

Definition all_bound (l : list (option DriverCall)) : Prop :=
  Forall (fun o => o <> None) l.

(** The position a binding call writes. *)
Definition bind_position (c : DriverCall) : option Z :=
  match c with
  | call_bind pindex _ | call_bind_null pindex => Some pindex
  | _ => None
  end.

(** The call when the statement is created: none after the first row. *)
Definition statement_new_calls (fm : CassFdwModifyState) : list DriverCall :=
  if sql_sent fm then [] else [call_statement_new (query fm) (p_nums fm)].

(** The statement of the state when the targets get bound, and the
    statement after the calls [l] on it. *)
Definition statement_at_bind (fm : CassFdwModifyState) : option CassStatement :=
  if sql_sent fm then statement fm
  else Some (cass_statement_new (query fm) (p_nums fm)).

(** The calls of [releaseCassResources]. *)
Definition release_calls (fm : CassFdwModifyState) : list DriverCall :=
  (match statement fm with
   | Some _ => if sql_sent fm then [call_statement_free] else []
   | None => []
   end ++ [call_ReleaseConnection])%list.

(** A call that is no remote call and that binds no null to a parameter
    of the type smallint. *)
Definition quiet (fm : CassFdwModifyState) (c : DriverCall) : Prop :=
  match c with
  | call_session_execute _ => False
  | call_bind_null pindex => type_oid_at fm pindex <> INT2OID
  | _ => True
  end.

Definition no_execute (l : list DriverCall) : Prop :=
  Forall (fun c => is_execute c = false) l.

(** The two errors that binding a target column raises. *)
Definition smallint_null_error (opname : string) : ErrorData :=
  mkError ERRCODE_FDW_UNABLE_TO_CREATE_EXECUTION (msg_smallint_null opname).

Definition type_not_supported_error (type : Oid) : ErrorData :=
  mkError ERRCODE_FEATURE_NOT_SUPPORTED (msg_type_not_supported type).

Definition primary_key_null_error (r : Relation) : ErrorData :=
  mkError ERRCODE_FDW_UNABLE_TO_CREATE_EXECUTION (msg_primary_key_null r).

Definition failed_execute_error (opname : string) (future : CassFuture) : ErrorData :=
  mkError ERRCODE_FDW_UNABLE_TO_CREATE_EXECUTION
    ("Failed to execute the " ++ opname ++ " into Cassandra: "
     ++ cass_future_error_message future).

Definition binding_error (opname : string) (e : ErrorData) : Prop :=
  e = smallint_null_error opname \/ exists type, e = type_not_supported_error type.

(* ===================================================================== *)
(** ** The calls on a scan after a fetch *)
(* ===================================================================== *)

(** The calls the executor may make on a scan after a fetch: asking for
    the next row, with what the remote would answer, and rescanning. *)
Inductive ScanCall :=
| ask_next (result_future : CassResultFuture)
| ask_rescan.

Section ScanRuns.

Variable fmt_f_float : Z -> string.
Variable fmt_f_double : Z -> string.
Variable asctime_gmtime : Z -> string.
Variable cass_uuid_string : Z -> string.
Variable cass_inet_string : list Z -> string.
Variable InputFunctionCall : Oid -> option string -> Outcome Datum.

Definition run_scan_call (c : ScanCall) (w : Scan.ScanWorld) : Scan.ScanWorld :=
  match c with
  | ask_next result_future =>
      snd (Scan.cassIterateForeignScan fmt_f_float fmt_f_double asctime_gmtime
             cass_uuid_string cass_inet_string InputFunctionCall result_future w)
  | ask_rescan => snd (Scan.cassReScanForeignScan w)
  end.

Fixpoint run_scan_calls (l : list ScanCall) (w : Scan.ScanWorld) : Scan.ScanWorld :=
  match l with
  | [] => w
  | c :: rest => run_scan_calls rest (run_scan_call c w)
  end.

End ScanRuns.

(* ===================================================================== *)
(** ** The tables and the runs of the scenarios *)
(* ===================================================================== *)

(** The table of the scenarios: [ks.t (id int, v1 smallint, v2 bigint,
    v3 boolean)] with the primary key [id]. *)
Definition scenario_table : Relation :=
  mkRelation 16384 "public" "t"
    [ mkAttr "id" INT4OID 1 false [];
      mkAttr "v1" INT2OID 2 false [];
      mkAttr "v2" INT8OID 3 false [];
      mkAttr "v3" BOOLOID 4 false [] ]
    [ mkDefElem "schema_name" "ks";
      mkDefElem "table_name" "t";
      mkDefElem "primary_key" "id" ].

(** The scenario table after its column [v1] has been dropped. *)
Definition dropped_column_table : Relation :=
  mkRelation 16391 "public" "t"
    [ mkAttr "id" INT4OID 1 false [];
      mkAttr "........pg.dropped.2........" InvalidOid 2 true [];
      mkAttr "v2" INT8OID 3 false [];
      mkAttr "v3" BOOLOID 4 false [] ]
    (ftoptions scenario_table).

(** The scenario table without the option [primary_key]. *)
Definition keyless_table : Relation :=
  mkRelation 16389 "public" "t" (rd_att scenario_table)
    [ mkDefElem "schema_name" "ks"; mkDefElem "table_name" "t" ].

(** A table whose key column has a name that needs quoting, and a table
    whose key column has another name on the remote side. *)
Definition mixed_case_table : Relation :=
  mkRelation 16385 "public" "t"
    [ mkAttr "Id" INT4OID 1 false [];
      mkAttr "v3" BOOLOID 2 false [] ]
    [ mkDefElem "schema_name" "ks";
      mkDefElem "table_name" "t";
      mkDefElem "primary_key" "Id" ].

Definition renamed_key_table : Relation :=
  mkRelation 16386 "public" "t"
    [ mkAttr "id" INT4OID 1 false [ mkDefElem "column_name" "row_key" ];
      mkAttr "v3" BOOLOID 2 false [] ]
    [ mkDefElem "schema_name" "ks";
      mkDefElem "table_name" "t";
      mkDefElem "primary_key" "id" ].

(** A table with two columns whose names start with the configured key
    name. *)
Definition shard_table : Relation :=
  mkRelation 16387 "public" "t"
    [ mkAttr "id" INT4OID 1 false [];
      mkAttr "id_shard" INT4OID 2 false [];
      mkAttr "v3" BOOLOID 3 false [] ]
    [ mkDefElem "schema_name" "ks";
      mkDefElem "table_name" "t";
      mkDefElem "primary_key" "id" ].

(** The scenario table with a key name that no column has. *)
Definition prefix_key_table : Relation :=
  mkRelation 16388 "public" "t" (rd_att scenario_table)
    [ mkDefElem "schema_name" "ks";
      mkDefElem "table_name" "t";
      mkDefElem "primary_key" "i" ].

(** A table with a UUID column and an address column, and a row of it. *)
Definition uuid_table : Relation :=
  mkRelation 16390 "public" "events"
    [ mkAttr "id" INT4OID 1 false [];
      mkAttr "token" UUIDOID 2 false [];
      mkAttr "peer" INETOID 3 false [] ]
    [ mkDefElem "schema_name" "ks";
      mkDefElem "table_name" "events";
      mkDefElem "primary_key" "id" ].

Definition uuid_row : TupleTableSlot :=
  [ Some (DatumWord 1);
    Some (DatumBytes [18; 62; 69; 103; 232; 155; 18; 211;
                      164; 86; 66; 102; 20; 23; 64; 0]);
    Some (DatumBytes [127; 0; 0; 1]) ].

(** A modification that has not begun. *)
Definition fresh_modify : ModifyWorld := mkModifyWorld None [].

(** A session in the time zone UTC. *)
Definition utc : Z -> Z := fun _ => 0.

Definition reply_ok : CassFuture := mkFuture CASS_OK "".

(** A plan that the program does not define is not carried out. *)
Definition not_planned : ErrorData :=
  mkError ERRCODE_INTERNAL_ERROR "the plan is not defined".

(** Planning, beginning and executing one INSERT of [slot] into [r].  An
    INSERT is planned for every table, so that the last case is not
    met. *)
Definition insert_one (quote_identifier : string -> string) (r : Relation)
    (slot : TupleTableSlot) (future : CassFuture)
  : Outcome (option TupleTableSlot) * ModifyWorld :=
  match cassPlanForeignModify quote_identifier CMD_INSERT r 0%N ONCONFLICT_NONE with
  | Some (Raised e) => (Raised e, fresh_modify)
  | Some (Done fdw_private) =>
      (cassBeginForeignModify CMD_INSERT r fdw_private [] false ;;
       cassExecForeignInsert utc (Some slot) future) fresh_modify
  | None => (Raised not_planned, fresh_modify)
  end.

(** Rewriting, planning, beginning and executing one UPDATE or DELETE on
    [r]: [tlist] is the target list of the query before the key is added,
    and the rewritten list is the one of the subplan.  The key has been
    added only for a table with the option [primary_key], so that the
    plan is defined and the last case is not met. *)
Definition write_one (quote_identifier : string -> string) (operation : CmdType)
    (r : Relation) (updatedCols : Bitmapset) (tlist : list TargetEntry)
    (slot : option TupleTableSlot) (planSlot : TupleTableSlot) (future : CassFuture)
  : Outcome (option TupleTableSlot) * ModifyWorld :=
  match cassAddForeignUpdateTargets r (mkQuery 1 tlist) with
  | (Raised e, _) => (Raised e, fresh_modify)
  | (Done _, parsetree) =>
      match cassPlanForeignModify quote_identifier operation r updatedCols
              ONCONFLICT_NONE with
      | Some (Raised e) => (Raised e, fresh_modify)
      | Some (Done fdw_private) =>
          (cassBeginForeignModify operation r fdw_private (targetList parsetree) false ;;
           cassExecPKPredWrite utc slot planSlot
             (match operation with CMD_DELETE => "DELETE" | _ => "UPDATE" end)
             future) fresh_modify
      | None => (Raised not_planned, fresh_modify)
      end
  end.

(** The state [cassBeginForeignModify] leaves for a planned operation. *)
Definition begun_state (quote_identifier : string -> string) (operation : CmdType)
    (r : Relation) (updatedCols : Bitmapset) (subplan_targetlist : list TargetEntry)
  : option CassFdwModifyState :=
  match cassPlanForeignModify quote_identifier operation r updatedCols
          ONCONFLICT_NONE with
  | Some (Done fdw_private) =>
      ri_FdwState
        (snd (cassBeginForeignModify operation r fdw_private subplan_targetlist
                false fresh_modify))
  | _ => None
  end.

(** The hidden key entry of the scenario table, first in the subplan. *)
Definition scenario_key_tlist : list TargetEntry :=
  [ mkTargetEntry (mkVar 1 1 INT4OID) 1 "id" true ].

(** A scan of the scenario table whose cursor has been created. *)
Definition scenario_scan : Scan.ScanWorld :=
  snd (Scan.create_cursor
         (Scan.begin_scan scenario_table
            ("SELECT id, v1, v2, v3 FROM ks.t", [1; 2; 3; 4]))).

Definition reply_unavailable : CassResultFuture :=
  mkResultFuture (CASS_ERROR 1) "Cannot achieve consistency level LOCAL_ONE"
    (mkResult 0 []).

(* ===================================================================== *)
(** ** cstar_fdw.c: the options and their validator *)
(* ===================================================================== *)

Module Validator.

(** The catalogs an option can belong to ([catalog/pg_*.h]). *)
Definition AttributeRelationId : Oid := 1249.
Definition ForeignServerRelationId : Oid := 1417.
Definition UserMappingRelationId : Oid := 1418.
Definition ForeignDataWrapperRelationId : Oid := 2328.
Definition ForeignTableRelationId : Oid := 3118.

Record CassFdwOption := mkOption {
  optname : string;
  optcontext : Oid               (* Oid of catalog in which option may appear *)
}.

(** The table [valid_options], without its sentinel. *)
Definition valid_options : list CassFdwOption :=
  [ mkOption "host" ForeignServerRelationId;
    mkOption "port" ForeignServerRelationId;
    mkOption "protocol" ForeignServerRelationId;
    mkOption "username" UserMappingRelationId;
    mkOption "password" UserMappingRelationId;
    mkOption "query" ForeignTableRelationId;
    mkOption "schema_name" ForeignTableRelationId;
    mkOption "table_name" ForeignTableRelationId;
    mkOption OPT_PK ForeignTableRelationId;
    mkOption "read_consistency" ForeignTableRelationId;
    mkOption "write_consistency" ForeignTableRelationId ].

(** The loop of [cassIsValidOption] over the table. *)
Fixpoint is_valid_in (opts : list CassFdwOption) (option : string) (context : Oid)
  : bool :=
  match opts with
  | [] => false
  | opt :: rest =>
      if (context =? optcontext opt) && streq (optname opt) option then true
      else is_valid_in rest option context
  end.

Definition cassIsValidOption (option : string) (context : Oid) : bool :=
  is_valid_in valid_options option context.

(** The SQLSTATEs the validator raises, and what it raises: the code, the
    message and the hint of an [ereport(ERROR, ...)]. *)
Inductive OptionSqlState :=
| ERRCODE_FDW_INVALID_OPTION_NAME
| ERRCODE_SYNTAX_ERROR.

Record OptionError := mkOptionError {
  errcode : OptionSqlState;
  errmsg : string;
  errhint : option string
}.

Inductive Checked (A : Type) :=
| Accepted (a : A)
| Rejected (e : OptionError).
Arguments Accepted {A} a.
Arguments Rejected {A} e.

Definition and_then {A B} (m : Checked A) (k : A -> Checked B) : Checked B :=
  match m with
  | Accepted a => k a
  | Rejected e => Rejected e
  end.

(** The loop that builds the hint of the error for an unknown option: the
    names valid for the catalog, in the order of the table. *)
Fixpoint valid_names_hint (opts : list CassFdwOption) (catalog : Oid)
    (buf : string) : string :=
  match opts with
  | [] => buf
  | opt :: rest =>
      if catalog =? optcontext opt then
        valid_names_hint rest catalog
          (buf ++ (if (0 <? String.length buf)%nat then ", " else "") ++ optname opt)
      else valid_names_hint rest catalog buf
  end.

Definition invalid_option (name : string) (catalog : Oid) : OptionError :=
  let buf := valid_names_hint valid_options catalog "" in
  mkOptionError ERRCODE_FDW_INVALID_OPTION_NAME
    ("invalid option " ++ dquoted name)
    (Some (if (0 <? String.length buf)%nat
           then "Valid options in this context are: " ++ buf
           else "There are no valid options in this context.")).

Definition syntax_error (msg : string) : OptionError :=
  mkOptionError ERRCODE_SYNTAX_ERROR msg None.

Definition conflicting : OptionError :=
  syntax_error "conflicting or redundant options".

(** The local variables of [cstar_fdw_validator] that the loop over the
    options assigns. *)
Record Locals := mkLocals {
  svr_host : option string;
  svr_port : Z;
  svr_username : option string;
  svr_password : option string;
  svr_query : option string;
  svr_schema : option string;
  svr_table : option string;
  primary_key : option string;
  read_consistency : CassConsistency;
  write_consistency : CassConsistency
}.

Definition locals_at_entry : Locals :=
  mkLocals None 0 None None None None None None
    DEFAULT_CONSISTENCY_LEVEL DEFAULT_CONSISTENCY_LEVEL.

Definition set_svr_host (v : string) (l : Locals) : Locals :=
  mkLocals (Some v) (svr_port l) (svr_username l) (svr_password l) (svr_query l)
    (svr_schema l) (svr_table l) (primary_key l) (read_consistency l)
    (write_consistency l).

Definition set_svr_port (v : Z) (l : Locals) : Locals :=
  mkLocals (svr_host l) v (svr_username l) (svr_password l) (svr_query l)
    (svr_schema l) (svr_table l) (primary_key l) (read_consistency l)
    (write_consistency l).

Definition set_svr_username (v : string) (l : Locals) : Locals :=
  mkLocals (svr_host l) (svr_port l) (Some v) (svr_password l) (svr_query l)
    (svr_schema l) (svr_table l) (primary_key l) (read_consistency l)
    (write_consistency l).

Definition set_svr_password (v : string) (l : Locals) : Locals :=
  mkLocals (svr_host l) (svr_port l) (svr_username l) (Some v) (svr_query l)
    (svr_schema l) (svr_table l) (primary_key l) (read_consistency l)
    (write_consistency l).

Definition set_svr_query (v : string) (l : Locals) : Locals :=
  mkLocals (svr_host l) (svr_port l) (svr_username l) (svr_password l) (Some v)
    (svr_schema l) (svr_table l) (primary_key l) (read_consistency l)
    (write_consistency l).

Definition set_svr_schema (v : string) (l : Locals) : Locals :=
  mkLocals (svr_host l) (svr_port l) (svr_username l) (svr_password l) (svr_query l)
    (Some v) (svr_table l) (primary_key l) (read_consistency l)
    (write_consistency l).

Definition set_svr_table (v : string) (l : Locals) : Locals :=
  mkLocals (svr_host l) (svr_port l) (svr_username l) (svr_password l) (svr_query l)
    (svr_schema l) (Some v) (primary_key l) (read_consistency l)
    (write_consistency l).

Definition set_primary_key (v : string) (l : Locals) : Locals :=
  mkLocals (svr_host l) (svr_port l) (svr_username l) (svr_password l) (svr_query l)
    (svr_schema l) (svr_table l) (Some v) (read_consistency l)
    (write_consistency l).

Definition set_read_consistency (v : CassConsistency) (l : Locals) : Locals :=
  mkLocals (svr_host l) (svr_port l) (svr_username l) (svr_password l) (svr_query l)
    (svr_schema l) (svr_table l) (primary_key l) v (write_consistency l).

Definition set_write_consistency (v : CassConsistency) (l : Locals) : Locals :=
  mkLocals (svr_host l) (svr_port l) (svr_username l) (svr_password l) (svr_query l)
    (svr_schema l) (svr_table l) (primary_key l) (read_consistency l) v.

(** [if (p) ereport(ERROR, conflicting); p = defGetString(def);] for a
    pointer [p]. *)
Definition once (p : option string) (assigned : Locals) : Checked Locals :=
  match p with
  | Some _ => Rejected conflicting
  | None => Accepted assigned
  end.

Section Validate.

(** [atoi] of the C library. *)
Variable atoi : string -> Z.

(** The body of the [foreach(cell, options_list)] loop. *)
Definition validate_option (catalog : Oid) (def : DefElem) (l : Locals)
  : Checked Locals :=
  let name := defname def in
  let value := defGetString def in
  if negb (cassIsValidOption name catalog) then
    Rejected (invalid_option name catalog)
  else
    and_then
      (if streq name "host" then once (svr_host l) (set_svr_host value l)
       else Accepted l)
    (fun l =>
    and_then
      (if streq name "port" then
         if negb (svr_port l =? 0) then Rejected conflicting
         else Accepted (set_svr_port (atoi value) l)
       else if streq name "username" then
         once (svr_username l) (set_svr_username value l)
       else if streq name "password" then
         once (svr_password l) (set_svr_password value l)
       else if streq name "query" then
         match svr_table l with
         | Some _ =>
             Rejected (syntax_error
               "conflicting or redundant options: query cannot be used with table")
         | None => once (svr_query l) (set_svr_query value l)
         end
       else if streq name "schema_name" then
         once (svr_schema l) (set_svr_schema value l)
       else if streq name "table_name" then
         match svr_query l with
         | Some _ =>
             Rejected (syntax_error
               "conflicting or redundant options: table_name cannot be used with query")
         | None => once (svr_table l) (set_svr_table value l)
         end
       else Accepted l)
    (fun l =>
    and_then
      (if streq name OPT_PK then once (primary_key l) (set_primary_key value l)
       else Accepted l)
    (fun l =>
    and_then
      (if streq name "read_consistency" then
         let level := consistency_from_string value in
         match level with
         | CASS_CONSISTENCY_UNKNOWN =>
             Rejected (syntax_error "unknown read consistency level")
         | CASS_CONSISTENCY_ANY =>
             Rejected (syntax_error
               "ANY is only supported as a write consistency level, it is not a valid read consistency level")
         | _ => Accepted (set_read_consistency level l)
         end
       else Accepted l)
    (fun l =>
      if streq name "write_consistency" then
        let level := consistency_from_string value in
        match level with
        | CASS_CONSISTENCY_UNKNOWN =>
            Rejected (syntax_error "unknown write consistency level")
        | _ => Accepted (set_write_consistency level l)
        end
      else Accepted l)))).

Fixpoint validate_options (catalog : Oid) (options_list : list DefElem)
    (l : Locals) : Checked Locals :=
  match options_list with
  | [] => Accepted l
  | def :: rest =>
      and_then (validate_option catalog def l) (validate_options catalog rest)
  end.

(** [cstar_fdw_validator]: the options of one object, already turned
    into a list by [untransformRelOptions], and the catalog of the
    object. *)
Definition cstar_fdw_validator (options_list : list DefElem) (catalog : Oid)
  : Checked unit :=
  and_then (validate_options catalog options_list locals_at_entry)
  (fun l =>
    if (catalog =? ForeignServerRelationId)
       && match svr_host l with None => true | Some _ => false end
    then Rejected (syntax_error "host must be specified")
    else if (catalog =? ForeignTableRelationId)
            && match svr_query l with None => true | Some _ => false end
            && match svr_table l with None => true | Some _ => false end
    then Rejected (syntax_error "either table_name or query must be specified")
    else Accepted tt).

End Validate.

End Validator.

(** The options of a list that bear a name. *)
Definition options_named (name : string) (options : list DefElem) : list DefElem :=
  filter (fun def => streq (defname def) name) options.

(** Whether a pointer of the validator has been assigned, and whether an
    option bears a name, as numbers. *)
Definition seen (p : option string) : nat :=
  match p with
  | Some _ => 1
  | None => 0
  end.

Definition hit (name n : string) : nat := if streq name n then 1 else 0.

(** [atoi] as the C library has it, [(int) strtol (nptr, NULL, 10)]:
    white space, a sign, then the digits up to the first other character.
    A number that the type [long], of 64 bits, does not hold is read as
    the largest or the smallest [long], and the conversion to [int]
    keeps the low 32 bits. *)
Definition isspace (c : ascii) : bool :=
  let n := nat_of_ascii c in
  (n =? 32)%nat || ((9 <=? n)%nat && (n <=? 13)%nat).

Definition isdigit (c : ascii) : bool :=
  let n := nat_of_ascii c in (48 <=? n)%nat && (n <=? 57)%nat.

Fixpoint atoi_digits (s : string) (acc : Z) : Z :=
  match s with
  | EmptyString => acc
  | String c r =>
      if isdigit c then atoi_digits r (acc * 10 + (Z.of_nat (nat_of_ascii c) - 48))
      else acc
  end.

Fixpoint atoi_skip (s : string) : string :=
  match s with
  | EmptyString => EmptyString
  | String c r => if isspace c then atoi_skip r else s
  end.

Definition LONG_MAX : Z := 2 ^ 63 - 1.
Definition LONG_MIN : Z := - 2 ^ 63.

Definition strtol_10 (s : string) : Z :=
  let number :=
    match atoi_skip s with
    | String "-"%char r => - atoi_digits r 0
    | String "+"%char r => atoi_digits r 0
    | rest => atoi_digits rest 0
    end in
  Z.max LONG_MIN (Z.min LONG_MAX number).

Definition c_atoi (s : string) : Z := wrap_signed 32 (strtol_10 s).

(* ===================================================================== *)
(** ** Counting the calls of a scan and of a modification *)
(* ===================================================================== *)

Definition is_statement_new (c : DriverCall) : bool :=
  match c with call_statement_new _ _ => true | _ => false end.

Definition is_statement_free (c : DriverCall) : bool :=
  match c with call_statement_free => true | _ => false end.

Definition is_GetConnection (c : DriverCall) : bool :=
  match c with call_GetConnection => true | _ => false end.

Definition is_ReleaseConnection (c : DriverCall) : bool :=
  match c with call_ReleaseConnection => true | _ => false end.

Definition count_calls (p : DriverCall -> bool) (l : list DriverCall) : nat :=
  List.length (filter p l).

Section ScanSessions.

Variable fmt_f_float : Z -> string.
Variable fmt_f_double : Z -> string.
Variable asctime_gmtime : Z -> string.
Variable cass_uuid_string : Z -> string.
Variable cass_inet_string : list Z -> string.
Variable InputFunctionCall : Oid -> option string -> Outcome Datum.

(** Asking a scan for one row after the other; the remote would answer
    the call number [j] with the future number [j].  The result holds what
    each call returned. *)
Fixpoint iterate_rows (futures : list CassResultFuture) (w : Scan.ScanWorld)
  : list (Outcome (option HeapTuple)) * Scan.ScanWorld :=
  match futures with
  | [] => ([], w)
  | result_future :: rest =>
      let '(r, w1) :=
        Scan.cassIterateForeignScan fmt_f_float fmt_f_double asctime_gmtime
          cass_uuid_string cass_inet_string InputFunctionCall result_future w in
      let '(rs, w2) := iterate_rows rest w1 in
      (r :: rs, w2)
  end.

(** One call of the executor on a scan, and a sequence of them that ends
    at the first error raised, as the statement does. *)
Definition scan_call (c : ScanCall) (w : Scan.ScanWorld)
  : Outcome unit * Scan.ScanWorld :=
  match c with
  | ask_next result_future =>
      match Scan.cassIterateForeignScan fmt_f_float fmt_f_double asctime_gmtime
              cass_uuid_string cass_inet_string InputFunctionCall result_future w with
      | (Done _, w') => (Done tt, w')
      | (Raised e, w') => (Raised e, w')
      end
  | ask_rescan => Scan.cassReScanForeignScan w
  end.

Fixpoint scan_session (l : list ScanCall) (w : Scan.ScanWorld) : Scan.ScanWorld :=
  match l with
  | [] => w
  | c :: rest =>
      match scan_call c w with
      | (Done _, w') => scan_session rest w'
      | (Raised _, w') => w'
      end
  end.

(** The tuple a row of the result becomes for a relation and a list of
    retrieved attributes. *)
Definition tuple_of_row (r : Relation) (attrs : list Z) (ncolumn : Z) (row : CassRow)
  : Outcome HeapTuple :=
  Scan.make_tuple_from_result_row fmt_f_float fmt_f_double asctime_gmtime
    cass_uuid_string cass_inet_string InputFunctionCall row ncolumn r attrs.

End ScanSessions.

(** A scan whose one batch holds the tuples [ts], the next of them to
    return being the tuple number [k]. *)
Definition loaded_scan (r : Relation) (fdw_private : string * list Z) (ncolumn : Z)
    (ts : list HeapTuple) (k : nat) : Scan.ScanWorld :=
  let level := cassGetReadConsistencyOption r in
  let st := cass_statement_set_consistency
              (cass_statement_new (fst fdw_private) 0) level in
  Scan.mkScanWorld
    (Scan.mkScanState r (fst fdw_private) (snd fdw_private) ncolumn true true
       (Some st) level (Some ts) (Z.of_nat (List.length ts)) (Z.of_nat k) 0 true)
    [ call_GetConnection;
      call_statement_new (fst fdw_private) 0;
      call_set_consistency level;
      call_session_execute (Some st) ]
    [].

(** A result of two rows for the columns [id] and [v3] of the scenario
    table, and an input function that keeps the text it is given. *)
Definition reply_two_rows : CassResultFuture :=
  mkResultFuture CASS_OK ""
    (mkResult 2
       [ [ Some (CASS_VALUE_INT 1); Some (CASS_VALUE_BOOLEAN true) ];
         [ Some (CASS_VALUE_INT 2); None ] ]).

Definition text_input (type : Oid) (valstr : option string) : Outcome Datum :=
  Done (match valstr with
        | Some text => DatumText text
        | None => DatumWord 0
        end).

Definition no_text : Z -> string := fun _ => "".

(** What holds of a scan between two calls of the executor: the
    connection is held, the statement exists when the cursor has been
    created, and an execute has been made only with the end of the data
    flagged since. *)
Definition scan_steady (w : Scan.ScanWorld) : Prop :=
  let fs := Scan.fdw_state w in
  let cl := Scan.calls w in
  count_calls is_GetConnection cl = 1%nat /\
  count_calls is_ReleaseConnection cl = 0%nat /\
  count_calls is_statement_free cl = 0%nat /\
  Scan.cass_conn fs = true /\
  count_calls is_statement_new cl = (if Scan.sql_sended fs then 1 else 0)%nat /\
  (Scan.statement fs = None <-> Scan.sql_sended fs = false) /\
  (count_calls is_execute cl = 0%nat \/
   (count_calls is_execute cl = 1%nat /\
    Scan.eof_reached fs = true /\ Scan.sql_sended fs = true)).

(** The same after a call that raised: the flag of the end of the data
    may not have been set. *)
Definition scan_sound (w : Scan.ScanWorld) : Prop :=
  let fs := Scan.fdw_state w in
  let cl := Scan.calls w in
  count_calls is_GetConnection cl = 1%nat /\
  count_calls is_ReleaseConnection cl = 0%nat /\
  count_calls is_statement_free cl = 0%nat /\
  Scan.cass_conn fs = true /\
  count_calls is_statement_new cl = (if Scan.sql_sended fs then 1 else 0)%nat /\
  (Scan.statement fs = None <-> Scan.sql_sended fs = false) /\
  (count_calls is_execute cl <= count_calls is_statement_new cl)%nat.

Section ColumnTexts.

Variable fmt_f_float : Z -> string.
Variable fmt_f_double : Z -> string.
Variable asctime_gmtime : Z -> string.
Variable cass_uuid_string : Z -> string.
Variable cass_inet_string : list Z -> string.

(** The text [pgcass_transferValue] leaves in an empty buffer for a
    value, and what [make_tuple_from_result_row] hands to the input
    function for a column: that text, or the null pointer for a null. *)
Definition value_text (value : CassValue) : string :=
  snd (Scan.pgcass_transferValue fmt_f_float fmt_f_double asctime_gmtime
         cass_uuid_string cass_inet_string value "").

Definition cell_text (cell : option CassValue) : option string :=
  option_map value_text cell.

End ColumnTexts.

(** What a column of a tuple holds after its input function returned
    [value] for a cell: a null for a null cell. *)
Definition stored (cell : option CassValue) (value : Datum) : option Datum :=
  match cell with
  | None => None
  | Some _ => Some value
  end.

(* ===================================================================== *)
(** ** The statement of a modification, call by call *)
(* ===================================================================== *)

(** The parameter a binding call binds, and the statement after a
    binding call and after a list of them. *)
Definition bound_param (c : DriverCall) : CassParam :=
  match c with
  | call_bind _ p => p
  | _ => CassNull
  end.

Definition apply_bind (st : option CassStatement) (c : DriverCall)
  : option CassStatement :=
  match bind_position c with
  | Some k => option_map (fun s => cass_statement_bind s k (bound_param c)) st
  | None => st
  end.

Definition apply_binds (l : list DriverCall) (st : option CassStatement)
  : option CassStatement :=
  fold_left apply_bind l st.

Definition bound_params (l : list DriverCall) : list (option CassParam) :=
  map (fun c => Some (bound_param c)) l.

(** The statement of the state is the one of its query, with a place for
    each of the [p_nums] parameters: what holds once a row has been
    written, and what [cass_statement_new] gives for the first row. *)
Definition statement_ready (fm : CassFdwModifyState) : Prop :=
  0 <= p_nums fm /\
  (sql_sent fm = true ->
   exists s,
     statement fm = Some s /\
     stmt_query s = query fm /\
     List.length (stmt_params s) = Z.to_nat (p_nums fm)).

Section InsertRows.

Variable session_tzoffset : Z -> Z.

(** The rows of an INSERT, one after the other, each with what the remote
    answers to its execute. *)
Fixpoint insert_rows (rows : list (TupleTableSlot * CassFuture))
  : Exec ModifyWorld unit :=
  match rows with
  | [] => ret tt
  | (slot, future) :: rest =>
      _ <- cassExecForeignInsert session_tzoffset (Some slot) future ;;
      insert_rows rest
  end.

End InsertRows.

(** The plan of the INSERT into the scenario table, and two rows of it. *)
Definition scenario_insert_plan : FdwModifyPrivate :=
  mkFdwModifyPrivate "INSERT INTO ks.t(id, v1, v2, v3) VALUES (?, ?, ?, ?)"
    [1; 2; 3; 4] false [].

Definition scenario_rows : list (TupleTableSlot * CassFuture) :=
  [ ([Some (DatumWord 1); Some (DatumWord 0); Some (DatumWord 2); Some (DatumWord 1)],
     reply_ok);
    ([Some (DatumWord 2); Some (DatumWord 5); None; Some (DatumWord 0)],
     reply_ok) ].

(* ===================================================================== *)
(** ** The targets of a planned UPDATE *)
(* ===================================================================== *)

(** The attribute numbers of the members of [rte->updatedCols], in the
    order of the members. *)
Definition updated_attnos (updatedCols : Bitmapset) : list Z :=
  map (fun col => col + FirstLowInvalidHeapAttributeNumber) (bms_members updatedCols).

(** A member of [rte->updatedCols] is not the number of a user column. *)
Definition updates_system_column (updatedCols : Bitmapset) : Prop :=
  exists col,
    bms_is_member col updatedCols = true /\
    col + FirstLowInvalidHeapAttributeNumber <= InvalidAttrNumber.

Definition msg_cache_lookup_failed (rel : Relation) (attno : AttrNumber) : string :=
  "cache lookup failed for attribute " ++ fmt_d attno
  ++ " of relation " ++ fmt_d (rd_id rel).

(* ===================================================================== *)
(** ** cstar_fdw.c: planning a scan *)
(* ===================================================================== *)

Module ScanPlan.

(** An expression tree, as far as [pull_varattnos] tells its nodes apart:
    a [Var] with its [varlevelsup], or another node with the expressions
    below it. *)
#[warnings="-register-all"]
Inductive Node :=
| T_Var (var : Var) (varlevelsup : Z)
| T_Other (args : list Node).

Record RestrictInfo := mkRestrictInfo { clause : Node }.

Record RelOptInfo := mkRelOptInfo {
  relid : Z;
  reltarget_exprs : list Node;          (* baserel->reltarget->exprs *)
  baserestrictinfo : list RestrictInfo
}.

(** [CassFdwPlanState], without the estimates of size and cost. *)
Record CassFdwPlanState := mkPlanState {
  remote_conds : list RestrictInfo;
  local_conds : list RestrictInfo;
  attrs_used : Bitmapset
}.

(** [bms_add_member] on the set behind the pointer. *)
Definition bms_add_member (x : Z) : Exec Bitmapset unit :=
  if x <? 0 then elog_ERROR "negative bitmapset member not allowed"
  else modify (fun a => N.setbit a (Z.to_N x)).

(** [pull_varattnos(node, varno, &varattnos)]: the walker adds the
    attribute number of every [Var] of the relation at query level zero,
    offset by [FirstLowInvalidHeapAttributeNumber]. *)
Fixpoint pull_varattnos (node : Node) (rtindex : Z) : Exec Bitmapset unit :=
  match node with
  | T_Var var varlevelsup =>
      if (varno var =? rtindex) && (varlevelsup =? 0)
      then bms_add_member (varattno var - FirstLowInvalidHeapAttributeNumber)
      else ret tt
  | T_Other args =>
      (fix walk (l : list Node) : Exec Bitmapset unit :=
         match l with
         | [] => ret tt
         | n :: rest => pull_varattnos n rtindex ;; walk rest
         end) args
  end.

(** [pull_varattnos] on a list of expressions. *)
Fixpoint pull_varattnos_list (l : list Node) (rtindex : Z) : Exec Bitmapset unit :=
  match l with
  | [] => ret tt
  | n :: rest => pull_varattnos n rtindex ;; pull_varattnos_list rest rtindex
  end.

(** The [foreach] of [cassClassifyConditions]. *)
Fixpoint classify_loop (input_conds local : list RestrictInfo)
  : list RestrictInfo :=
  match input_conds with
  | [] => local
  | ri :: rest => classify_loop rest (local ++ [ri])
  end.

(** [cassClassifyConditions]; the result is
    [( *remote_conds, *local_conds )]. *)
Definition cassClassifyConditions (input_conds : list RestrictInfo)
  : list RestrictInfo * list RestrictInfo :=
  ([], classify_loop input_conds []).

(** The [foreach(lc, fpinfo->local_conds)] of [cassGetForeignRelSize]. *)
Fixpoint local_conds_loop (conds : list RestrictInfo) (rtindex : Z)
  : Exec Bitmapset unit :=
  match conds with
  | [] => ret tt
  | rinfo :: rest =>
      pull_varattnos (clause rinfo) rtindex ;; local_conds_loop rest rtindex
  end.

(** [cassGetForeignRelSize], as far as the conditions and [attrs_used]
    go.  The estimates of size and cost come from
    [set_baserel_size_estimates] and are left out. *)
Definition cassGetForeignRelSize (baserel : RelOptInfo) : Outcome CassFdwPlanState :=
  let conds := cassClassifyConditions (baserestrictinfo baserel) in
  let run :=
    pull_varattnos_list (reltarget_exprs baserel) (relid baserel) ;;
    local_conds_loop (snd conds) (relid baserel) in
  match run 0%N with
  | (Done _, used) => Done (mkPlanState (fst conds) (snd conds) used)
  | (Raised e, _) => Raised e
  end.

(** The [Var] nodes of an expression, each with its [varlevelsup]. *)
Fixpoint node_vars (node : Node) : list (Var * Z) :=
  match node with
  | T_Var var varlevelsup => [(var, varlevelsup)]
  | T_Other args => flat_map node_vars args
  end.

(** [v] is a column reference to the relation, at the level of the query,
    in the target expressions or in a restriction clause. *)
Definition referenced (baserel : RelOptInfo) (v : Var) : Prop :=
  varno v = relid baserel /\
  exists node,
    (In node (reltarget_exprs baserel)
     \/ In node (map clause (baserestrictinfo baserel))) /\
    In (v, 0) (node_vars node).

End ScanPlan.

(** The text of a SELECT of the columns [retrieved]. *)
Definition select_text (quote_identifier : string -> string) (r : Relation)
    (retrieved : list Z) : string :=
  "SELECT "
  ++ match retrieved with
     | [] => "NULL"
     | _ => String.concat ", " (map (column_text quote_identifier r) retrieved)
     end
  ++ " FROM " ++ relation_text quote_identifier r.

(** A scan of two columns of the scenario table: [v2] is asked for and
    [id] is compared in a condition. *)
Definition scenario_baserel : ScanPlan.RelOptInfo :=
  ScanPlan.mkRelOptInfo 1
    [ ScanPlan.T_Var (mkVar 1 3 INT8OID) 0 ]
    [ ScanPlan.mkRestrictInfo
        (ScanPlan.T_Other [ ScanPlan.T_Var (mkVar 1 1 INT4OID) 0;
                            ScanPlan.T_Other [] ]) ].

(* ===================================================================== *)
(** ** cstar_fdw.c: IMPORT FOREIGN SCHEMA *)
(* ===================================================================== *)

Module Schema.

(** [CassValueType] of the driver. *)
Inductive CassValueType :=
| CASS_VALUE_TYPE_UNKNOWN | CASS_VALUE_TYPE_CUSTOM | CASS_VALUE_TYPE_ASCII
| CASS_VALUE_TYPE_BIGINT | CASS_VALUE_TYPE_BLOB | CASS_VALUE_TYPE_BOOLEAN
| CASS_VALUE_TYPE_COUNTER | CASS_VALUE_TYPE_DECIMAL | CASS_VALUE_TYPE_DOUBLE
| CASS_VALUE_TYPE_FLOAT | CASS_VALUE_TYPE_INT | CASS_VALUE_TYPE_TEXT
| CASS_VALUE_TYPE_TIMESTAMP | CASS_VALUE_TYPE_UUID | CASS_VALUE_TYPE_VARCHAR
| CASS_VALUE_TYPE_VARINT | CASS_VALUE_TYPE_TIMEUUID | CASS_VALUE_TYPE_INET
| CASS_VALUE_TYPE_DATE | CASS_VALUE_TYPE_TIME | CASS_VALUE_TYPE_SMALL_INT
| CASS_VALUE_TYPE_TINY_INT | CASS_VALUE_TYPE_DURATION | CASS_VALUE_TYPE_LIST
| CASS_VALUE_TYPE_MAP | CASS_VALUE_TYPE_SET | CASS_VALUE_TYPE_UDT
| CASS_VALUE_TYPE_TUPLE.

(** The locals [valid_datatype] and [invalid_datatype] of
    [pgcass_transformDataType] after its [switch]. *)
Definition datatype_names (type : CassValueType) : option string * option string :=
  match type with
  | CASS_VALUE_TYPE_TINY_INT => (None, Some "tinyint")
  | CASS_VALUE_TYPE_SMALL_INT => (Some "smallint", None)
  | CASS_VALUE_TYPE_INT => (Some "integer", None)
  | CASS_VALUE_TYPE_BIGINT | CASS_VALUE_TYPE_COUNTER => (Some "bigint", None)
  | CASS_VALUE_TYPE_BOOLEAN => (Some "boolean", None)
  | CASS_VALUE_TYPE_DOUBLE => (Some "double precision", None)
  | CASS_VALUE_TYPE_FLOAT => (Some "real", None)
  | CASS_VALUE_TYPE_DECIMAL => (None, Some "decimal")
  | CASS_VALUE_TYPE_TEXT | CASS_VALUE_TYPE_ASCII | CASS_VALUE_TYPE_VARCHAR =>
      (Some "text", None)
  | CASS_VALUE_TYPE_TIMESTAMP => (Some "timestamp(0) with time zone", None)
  | CASS_VALUE_TYPE_INET => (Some "inet", None)
  | CASS_VALUE_TYPE_UUID => (Some "uuid", None)
  | CASS_VALUE_TYPE_LIST => (None, Some "list")
  | CASS_VALUE_TYPE_MAP => (None, Some "map")
  | _ => (None, Some "unknown")
  end.

Definition msg_data_type_not_supported (invalid_datatype : option string) : string :=
  "Data type " ++ fmt_s invalid_datatype ++ " not supported.".

(** [pgcass_transformDataType]. *)
Definition pgcass_transformDataType (type : CassValueType) : Exec StringInfo unit :=
  let names := datatype_names type in
  match fst names with
  | Some valid_datatype => appendStringInfoString valid_datatype
  | None =>
      ereport ERRCODE_FEATURE_NOT_SUPPORTED
              (msg_data_type_not_supported (snd names))
  end.

(** The metadata the driver hands out: a column with its name and the
    type of its data, a table with its name and its columns, a keyspace
    as the tables its iterator visits. *)
Record CassColumnMeta := mkColumnMeta {
  cass_column_meta_name : string;
  cass_data_type_type : CassValueType
}.

Record CassTableMeta := mkTableMeta {
  cass_table_meta_name : string;
  cass_table_meta_columns : list CassColumnMeta
}.

Definition CassKeyspaceMeta := list CassTableMeta.

(** What [ereport(WARNING, ...)] reports. *)
Record Notice := mkNotice { notice_message : string; notice_hint : string }.

(** The loop through the columns of the table, from the column [idx]. *)
Fixpoint columns_loop (columns : list CassColumnMeta) (idx : Z)
  : Exec StringInfo unit :=
  match columns with
  | [] => ret tt
  | column_meta :: rest =>
      (if negb (idx =? 0) then appendStringInfoString ", " else ret tt) ;;
      appendStringInfoString (dquoted (cass_column_meta_name column_meta) ++ " ") ;;
      pgcass_transformDataType (cass_data_type_type column_meta) ;;
      columns_loop rest (idx + 1)
  end.

(** The body of the loop through the tables: the statement for one
    table, written into the buffer after it has been reset. *)
Definition table_statement (servername remote_schema : string)
    (table_meta : CassTableMeta) : Exec StringInfo unit :=
  let tabname := cass_table_meta_name table_meta in
  put "" ;;
  appendStringInfoString ("CREATE FOREIGN TABLE " ++ dquoted tabname ++ " (") ;;
  columns_loop (cass_table_meta_columns table_meta) 0 ;;
  appendStringInfoString
    (") SERVER " ++ dquoted servername
     ++ " OPTIONS (schema_name '" ++ remote_schema
     ++ "', table_name '" ++ tabname ++ "')").

Fixpoint tables_loop (servername remote_schema : string)
    (tables : list CassTableMeta) (result : list string)
  : Exec StringInfo (list string) :=
  match tables with
  | [] => ret result
  | table_meta :: rest =>
      table_statement servername remote_schema table_meta ;;
      buf <- get ;;
      tables_loop servername remote_schema rest (result ++ [buf])%list
  end.

Section ImportSchema.

(** [cass_schema_meta_keyspace_by_name] on the metadata of the session. *)
Variable cass_schema_meta_keyspace_by_name : string -> option CassKeyspaceMeta.

Definition remote_schema_missing (remote_schema : string) : Notice :=
  mkNotice ("remote schema " ++ dquoted remote_schema ++ " does not exist")
    "Enclose the schema name in double quotes to prevent case folding.".

(** [cassImportForeignSchema]; the state is what has been reported to the
    client. *)
Definition cassImportForeignSchema (servername remote_schema : string)
  : Exec (list Notice) (list string) :=
  match cass_schema_meta_keyspace_by_name remote_schema with
  | None =>
      modify (fun reported =>
                (reported ++ [remote_schema_missing remote_schema])%list) ;;
      ret []
  | Some keyspace_meta =>
      fun reported =>
        (fst (tables_loop servername remote_schema keyspace_meta [] ""), reported)
  end.

End ImportSchema.

(** The types a column of an imported table may have. *)
Definition supported (type : CassValueType) : bool :=
  match fst (datatype_names type) with
  | Some _ => true
  | None => false
  end.

Definition table_supported (table_meta : CassTableMeta) : Prop :=
  Forall (fun column_meta => supported (cass_data_type_type column_meta) = true)
         (cass_table_meta_columns table_meta).

(** The text written for one column and for one table. *)
Definition column_text (column_meta : CassColumnMeta) : string :=
  dquoted (cass_column_meta_name column_meta) ++ " "
  ++ fmt_s (fst (datatype_names (cass_data_type_type column_meta))).

Definition table_text (servername remote_schema : string)
    (table_meta : CassTableMeta) : string :=
  "CREATE FOREIGN TABLE " ++ dquoted (cass_table_meta_name table_meta) ++ " ("
  ++ String.concat ", " (map column_text (cass_table_meta_columns table_meta))
  ++ ") SERVER " ++ dquoted servername
  ++ " OPTIONS (schema_name '" ++ remote_schema
  ++ "', table_name '" ++ cass_table_meta_name table_meta ++ "')".

End Schema.

(* ===================================================================== *)
(** ** The key column of a table *)
(* ===================================================================== *)

(** The columns of a tuple descriptor bear the numbers of their places. *)
Definition numbered (tupdesc : TupleDesc) : Prop :=
  forall (i : nat) att, nth_error tupdesc i = Some att -> attnum att = Z.of_nat i + 1.

(** [att] is the live column of the relation that has the name [name],
    and no other column has it. *)
Definition column_named (r : Relation) (name : string) (att : Form_pg_attribute)
  : Prop :=
  In att (rd_att r) /\ attname att = name /\ attisdropped att = false /\
  forall other, In other (rd_att r) -> attname other = name -> other = att.

(** No entry of the target list is a junk entry of the name [name]. *)
Definition no_junk_named (name : string) (targetlist : list TargetEntry) : Prop :=
  Forall (fun tle => resjunk tle && streq (resname tle) name = false) targetlist.

(* ===================================================================== *)
(** ** The options of a table that are read *)
(* ===================================================================== *)

(** The relation without its options of the name [name]. *)
Definition without_option (name : string) (r : Relation) : Relation :=
  mkRelation (rd_id r) (nspname r) (relname r) (rd_att r)
    (filter (fun def => negb (streq (defname def) name)) (ftoptions r)).

(* ===================================================================== *)
(** ** Running the monad *)
(* ===================================================================== *)

Lemma bind_done {St A B} (m : Exec St A) (k : A -> Exec St B) s a s' :
  m s = (Done a, s') -> bind m k s = k a s'.
Proof. intros H. unfold bind. rewrite H. reflexivity. Qed.

Lemma bind_raised {St A B} (m : Exec St A) (k : A -> Exec St B) s e s' :
  m s = (Raised e, s') -> bind m k s = (Raised e, s').
Proof. intros H. unfold bind. rewrite H. reflexivity. Qed.

(* ===================================================================== *)
(** ** The SELECT deparser *)
(* ===================================================================== *)

Lemma TupleDescAttr_app (pre : list Form_pg_attribute) attr rest :
  TupleDescAttr (pre ++ attr :: rest)%list (Z.of_nat (List.length pre) + 1 - 1) = Some attr.
Proof.
  unfold TupleDescAttr.
  replace (Z.of_nat (List.length pre) + 1 - 1) with (Z.of_nat (List.length pre)) by lia.
  destruct (Z.ltb_spec (Z.of_nat (List.length pre)) 0); [lia|].
  rewrite Nat2Z.id, nth_error_app2 by lia.
  rewrite Nat.sub_diag. reflexivity.
Qed.

Lemma append_empty_r (s : string) : s ++ "" = s.
Proof. induction s; simpl; congruence. Qed.

Lemma append_assoc (a b c : string) : (a ++ b) ++ c = a ++ b ++ c.
Proof. induction a; simpl; congruence. Qed.

Section SelectFacts.

Variable quote_identifier : string -> string.

Lemma cassDeparseColumnRef_live rel i attr buf :
  TupleDescAttr (rd_att rel) (i - 1) = Some attr ->
  exists name,
    column_remote_name rel i = Some name /\
    cassDeparseColumnRef quote_identifier rel i buf
    = (Done tt, buf ++ quote_identifier name).
Proof.
  intros H. unfold cassDeparseColumnRef, column_remote_name,
    GetForeignColumnOptions, get_attname. rewrite H.
  destruct (first_option "column_name" (attfdwoptions attr)) as [c|];
    eexists; split; reflexivity.
Qed.

Lemma target_list_loop_runs rel hw au :
  forall atts pre, rd_att rel = (pre ++ atts)%list ->
  forall first retrieved buf,
  exists buf',
    cassDeparseTargetList_loop quote_identifier rel hw au atts
      (Z.of_nat (List.length pre) + 1) first retrieved buf
    = (Done (first && match selected_from hw au atts (Z.of_nat (List.length pre) + 1)
                      with [] => true | _ => false end,
             (retrieved ++ selected_from hw au atts (Z.of_nat (List.length pre) + 1))%list),
       buf')
    /\ (selected_from hw au atts (Z.of_nat (List.length pre) + 1) = [] -> buf' = buf).
Proof.
  induction atts as [|attr rest IH]; intros pre Hrel first retrieved buf.
  - simpl. exists buf. rewrite app_nil_r, andb_true_r. split; reflexivity.
  - assert (Hrel' : rd_att rel = ((pre ++ [attr]) ++ rest)%list)
      by (rewrite <- app_assoc; exact Hrel).
    assert (Hlen : Z.of_nat (List.length (pre ++ [attr])) + 1
                   = Z.of_nat (List.length pre) + 1 + 1)
      by (rewrite length_app; simpl; lia).
    simpl. destruct (attisdropped attr); simpl.
    + destruct (IH _ Hrel' first retrieved buf) as (buf' & Hrun & Hnil).
      rewrite Hlen in Hrun, Hnil. exists buf'. split; assumption.
    + destruct (hw || bms_is_member _ au).
      * pose proof (TupleDescAttr_app pre attr rest) as Hat.
        rewrite <- Hrel in Hat.
        set (i := Z.of_nat (List.length pre) + 1) in *.
        set (buf1 := if negb first then buf ++ ", " else buf).
        destruct (cassDeparseColumnRef_live rel i attr buf1 Hat)
          as (name & _ & Hcol).
        destruct (IH _ Hrel' false (retrieved ++ [i])%list
                     (buf1 ++ quote_identifier name)) as (buf' & Hrun & _).
        rewrite Hlen in Hrun. fold i in Hrun.
        exists buf'. split; [|discriminate].
        assert (Hsep : (if negb first then appendStringInfoString ", " else ret tt) buf
                       = (Done tt, buf1))
          by (unfold buf1; destruct first; reflexivity).
        rewrite (bind_done _ _ _ _ _ Hsep), (bind_done _ _ _ _ _ Hcol), Hrun.
        rewrite andb_false_r, <- app_assoc. reflexivity.
      * destruct (IH _ Hrel' first retrieved buf) as (buf' & Hrun & Hnil).
        rewrite Hlen in Hrun, Hnil. exists buf'. split; assumption.
Qed.

Lemma selected_from_lower hw au atts : forall i x,
  In x (selected_from hw au atts i) -> i <= x.
Proof.
  induction atts as [|attr rest IH]; intros i x; simpl; [tauto|].
  destruct (negb (attisdropped attr) && _); simpl.
  - intros [<-|H]; [lia|]. apply IH in H. lia.
  - intros H. apply IH in H. lia.
Qed.

Lemma selected_from_sorted hw au atts : forall i,
  StronglySorted Z.lt (selected_from hw au atts i).
Proof.
  induction atts as [|attr rest IH]; intros i; simpl; [constructor|].
  destruct (negb (attisdropped attr) && _); [|apply IH].
  constructor; [apply IH|].
  apply Forall_forall. intros x H. apply selected_from_lower in H. lia.
Qed.

Lemma selected_from_spec hw au : forall atts (pre : list Form_pg_attribute) x,
  In x (selected_from hw au atts (Z.of_nat (List.length pre) + 1)) <->
  exists attr,
    TupleDescAttr (pre ++ atts)%list (x - 1) = Some attr /\
    Z.of_nat (List.length pre) < x /\
    attisdropped attr = false /\
    (hw = true \/ bms_is_member (x - FirstLowInvalidHeapAttributeNumber) au = true).
Proof.
  induction atts as [|attr rest IH]; intros pre x.
  - simpl. split; [tauto|]. intros (a & Ha & Hlt & _).
    unfold TupleDescAttr in Ha. rewrite app_nil_r in Ha.
    destruct (x - 1 <? 0); [discriminate|].
    assert (Hn : nth_error pre (Z.to_nat (x - 1)) <> None) by congruence.
    apply nth_error_Some in Hn. lia.
  - assert (Hlen : Z.of_nat (List.length (pre ++ [attr])) + 1
                   = Z.of_nat (List.length pre) + 1 + 1)
      by (rewrite length_app; simpl; lia).
    assert (Hlen' : Z.of_nat (List.length (pre ++ [attr]))
                    = Z.of_nat (List.length pre) + 1)
      by (rewrite length_app; simpl; lia).
    specialize (IH (pre ++ [attr])%list x).
    rewrite Hlen, Hlen', <- app_assoc in IH. simpl in IH.
    pose proof (TupleDescAttr_app pre attr rest) as Hat.
    simpl.
    destruct (Z.eq_dec x (Z.of_nat (List.length pre) + 1)) as [->|Hne].
    + rewrite Hat.
      destruct (attisdropped attr) eqn:Hd; simpl.
      * split.
        -- intros H. apply selected_from_lower in H. lia.
        -- intros (a & Ha & _ & Hd' & _). congruence.
      * destruct hw; simpl.
        -- split; [|intros _; left; reflexivity].
           intros _. exists attr. repeat split; auto; lia.
        -- destruct (bms_is_member _ au) eqn:Hm.
           ++ split; [|intros _; left; reflexivity].
              intros _. exists attr. repeat split; auto; lia.
           ++ split.
              ** intros H. apply selected_from_lower in H. lia.
              ** intros (a & _ & _ & _ & [H|H]); congruence.
    + assert (Hiff : In x (selected_from hw au rest (Z.of_nat (List.length pre) + 1 + 1))
                     <-> exists a,
                          TupleDescAttr (pre ++ attr :: rest)%list (x - 1) = Some a /\
                          Z.of_nat (List.length pre) < x /\
                          attisdropped a = false /\
                          (hw = true \/
                           bms_is_member (x - FirstLowInvalidHeapAttributeNumber) au = true)).
      { rewrite IH. split; intros (a & Ha & Hlt & Hrest);
          exists a; repeat split; try tauto; lia. }
      destruct (negb (attisdropped attr) && _); simpl; rewrite <- Hiff.
      * split; [intros [H|H]; [congruence|exact H] | intros H; right; exact H].
      * reflexivity.
Qed.

(** What [cassGetForeignPlan] returns, for every relation and every set
    of used columns. *)
Lemma cassGetForeignPlan_result rel attrs_used :
  let hw := bms_is_member (0 - FirstLowInvalidHeapAttributeNumber) attrs_used in
  let sel := selected_from hw attrs_used (rd_att rel) 1 in
  exists sql,
    cassGetForeignPlan quote_identifier rel attrs_used = Done (sql, sel) /\
    (sel = [] -> sql = "SELECT NULL FROM " ++ relation_text quote_identifier rel).
Proof.
  intros hw sel.
  destruct (target_list_loop_runs rel hw attrs_used (rd_att rel) [] eq_refl
              true [] "SELECT ") as (buf' & Hrun & Hnil).
  simpl in Hrun, Hnil. fold hw in Hrun. fold sel in Hrun, Hnil.
  unfold cassGetForeignPlan, cassDeparseSelectSql, cassDeparseTargetList.
  fold hw.
  unfold bind at 1. simpl.
  unfold bind at 1. unfold bind at 1. rewrite Hrun. simpl.
  destruct sel as [|x l] eqn:Hsel.
  - rewrite (Hnil eq_refl). simpl.
    eexists. split; [reflexivity|]. intros _.
    unfold relation_text, cassDeparseRelation, appendStringInfoString, modify.
    simpl. reflexivity.
  - simpl. eexists. split; [reflexivity|discriminate].
Qed.

End SelectFacts.

Lemma StronglySorted_lt_NoDup (l : list Z) : StronglySorted Z.lt l -> NoDup l.
Proof.
  induction 1 as [|x l Hs IH Hall]; constructor; [|exact IH].
  intros Hin. rewrite Forall_forall in Hall. specialize (Hall x Hin). lia.
Qed.

(** C9. For every relation and every used-column set, the SELECT deparser
    returns a statement and a retrieved attribute list that is strictly
    ascending, has no ordinal twice, and holds exactly the ordinals of the
    live (not dropped) columns that the used-column set asks for, by
    itself or through the whole-row member; no dropped column is in it.
    When no column is selected, the list is empty and the statement is
    [SELECT NULL FROM] followed by the table name. *)
Theorem select_retrieved_attrs_ascending
    (quote_identifier : string -> string) (rel : Relation) (attrs_used : Bitmapset) :
  exists sql retrieved,
    cassGetForeignPlan quote_identifier rel attrs_used = Done (sql, retrieved) /\
    StronglySorted Z.lt retrieved /\
    NoDup retrieved /\
    (forall i, In i retrieved <-> selects rel attrs_used i) /\
    (forall i attr, In i retrieved ->
       TupleDescAttr (rd_att rel) (i - 1) = Some attr -> attisdropped attr = false) /\
    ((forall i, ~ selects rel attrs_used i) ->
       retrieved = [] /\
       sql = "SELECT NULL FROM " ++ relation_text quote_identifier rel).
Proof.
  destruct (cassGetForeignPlan_result quote_identifier rel attrs_used)
    as (sql & Hplan & Hnull).
  set (hw := bms_is_member (0 - FirstLowInvalidHeapAttributeNumber) attrs_used) in *.
  set (sel := selected_from hw attrs_used (rd_att rel) 1) in *.
  assert (Hspec : forall i, In i sel <-> selects rel attrs_used i).
  { intros i. unfold sel.
    pose proof (selected_from_spec hw attrs_used (rd_att rel) [] i) as H.
    simpl in H. rewrite H. unfold selects. fold hw.
    split.
    - intros (a & Ha & _ & Hd & Hm). exists a. auto.
    - intros (a & Ha & Hd & Hm). exists a. repeat split; auto.
      unfold TupleDescAttr in Ha. destruct (Z.ltb_spec (i - 1) 0); [discriminate|lia]. }
  exists sql, sel. repeat split.
  - exact Hplan.
  - apply selected_from_sorted.
  - apply StronglySorted_lt_NoDup, selected_from_sorted.
  - apply Hspec.
  - apply Hspec.
  - intros i attr Hin Hat. apply Hspec in Hin.
    destruct Hin as (a & Ha & Hd & _). congruence.
  - destruct sel as [|x l]; [reflexivity|].
    exfalso. apply (H x), Hspec. left. reflexivity.
  - apply Hnull. destruct sel as [|x l]; [reflexivity|].
    exfalso. apply (H x), Hspec. left. reflexivity.
Qed.

(** The scenario table: two of its columns, none of them, and the whole
    row. *)
Example select_two_columns :
  cassGetForeignPlan pg_quote_identifier scenario_table
    (N.lor (attr_bit 1) (attr_bit 3))
  = Done ("SELECT id, v2 FROM ks.t", [1; 3]).
Proof. reflexivity. Qed.

Example select_no_column :
  cassGetForeignPlan pg_quote_identifier scenario_table 0%N
  = Done ("SELECT NULL FROM ks.t", []).
Proof. reflexivity. Qed.

Example select_whole_row :
  cassGetForeignPlan pg_quote_identifier scenario_table (attr_bit 0)
  = Done ("SELECT id, v1, v2, v3 FROM ks.t", [1; 2; 3; 4]).
Proof. reflexivity. Qed.

(** A dropped column keeps its ordinal and is left out, also from the
    whole row. *)
Example select_skips_dropped :
  cassGetForeignPlan pg_quote_identifier dropped_column_table (attr_bit 0)
  = Done ("SELECT id, v2, v3 FROM ks.t", [1; 3; 4]).
Proof. reflexivity. Qed.

(* ===================================================================== *)
(** ** The texts of INSERT, UPDATE and DELETE *)
(* ===================================================================== *)

Section ModifyTexts.

Variable quote_identifier : string -> string.

Lemma appendStringInfoString_run s buf :
  appendStringInfoString s buf = (Done tt, buf ++ s).
Proof. reflexivity. Qed.

Lemma cassDeparseRelation_run rel buf :
  cassDeparseRelation quote_identifier rel buf
  = (Done tt, buf ++ relation_text quote_identifier rel).
Proof. reflexivity. Qed.

Lemma cassDeparseColumnRef_run rel attno buf :
  is_column rel attno ->
  cassDeparseColumnRef quote_identifier rel attno buf
  = (Done tt, buf ++ column_text quote_identifier rel attno).
Proof.
  unfold is_column, cassDeparseColumnRef, column_text. intros H.
  destruct (column_remote_name rel attno); [reflexivity|contradiction].
Qed.

Lemma lead_map {A B} (f : A -> B) first (l : list A) :
  lead first (map f l) = lead first l.
Proof. destruct l; reflexivity. Qed.

Lemma separator_run first buf :
  (if negb first then appendStringInfoString ", " else ret tt) buf
  = (Done tt, buf ++ (if first then "" else ", ")).
Proof. destruct first; cbn; [rewrite append_empty_r|]; reflexivity. Qed.

Lemma concat_cons (x : string) (l : list string) :
  String.concat ", " (x :: l) = x ++ lead false l ++ String.concat ", " l.
Proof. destruct l; cbn; [rewrite append_empty_r|]; reflexivity. Qed.

Lemma insert_columns_loop_run rel : forall targetAttrs first buf,
  Forall (is_column rel) targetAttrs ->
  insert_columns_loop quote_identifier rel targetAttrs first buf
  = (Done tt,
     buf ++ lead first targetAttrs
     ++ String.concat ", " (map (column_text quote_identifier rel) targetAttrs)).
Proof.
  induction targetAttrs as [|a rest IH]; intros first buf Hcols.
  - cbn. rewrite append_empty_r. reflexivity.
  - inversion Hcols as [|? ? Ha Hrest]; subst.
    cbn [insert_columns_loop].
    rewrite (bind_done _ _ _ _ _ (separator_run first buf)).
    rewrite (bind_done _ _ _ _ _ (cassDeparseColumnRef_run rel a _ Ha)).
    rewrite (IH false _ Hrest). cbn [map lead]. rewrite concat_cons, lead_map.
    rewrite !append_assoc. reflexivity.
Qed.

Lemma insert_placeholders_loop_run : forall (targetAttrs : list Z) first buf,
  insert_placeholders_loop targetAttrs first buf
  = (Done tt,
     buf ++ lead first targetAttrs
     ++ String.concat ", " (map (fun _ => "?") targetAttrs)).
Proof.
  induction targetAttrs as [|a rest IH]; intros first buf.
  - cbn. rewrite append_empty_r. reflexivity.
  - cbn [insert_placeholders_loop].
    rewrite (bind_done _ _ _ _ _ (separator_run first buf)).
    rewrite (bind_done _ _ _ _ _ (appendStringInfoString_run "?" _)).
    rewrite (IH false _). cbn [map lead]. rewrite concat_cons, lead_map.
    rewrite !append_assoc. reflexivity.
Qed.

Lemma update_set_loop_run rel : forall targetAttrs first buf,
  Forall (is_column rel) targetAttrs ->
  update_set_loop quote_identifier rel targetAttrs first buf
  = (Done tt,
     buf ++ lead first targetAttrs
     ++ String.concat ", "
          (map (fun attno => column_text quote_identifier rel attno ++ " = ?")
               targetAttrs)).
Proof.
  induction targetAttrs as [|a rest IH]; intros first buf Hcols.
  - cbn. rewrite append_empty_r. reflexivity.
  - inversion Hcols as [|? ? Ha Hrest]; subst.
    cbn [update_set_loop].
    rewrite (bind_done _ _ _ _ _ (separator_run first buf)).
    rewrite (bind_done _ _ _ _ _ (cassDeparseColumnRef_run rel a _ Ha)).
    rewrite (bind_done _ _ _ _ _ (appendStringInfoString_run " = ?" _)).
    rewrite (IH false _ Hrest). cbn [map lead]. rewrite concat_cons, lead_map.
    rewrite !append_assoc. reflexivity.
Qed.

Lemma conflict_run (doNothing : bool) buf :
  (if doNothing then appendStringInfoString " ON CONFLICT DO NOTHING" else ret tt) buf
  = (Done tt, buf ++ (if doNothing then " ON CONFLICT DO NOTHING" else "")).
Proof. destruct doNothing; [reflexivity|]. rewrite append_empty_r. reflexivity. Qed.

Lemma cassDeparseInsertSql_run rel targetAttrs doNothing :
  Forall (is_column rel) targetAttrs ->
  cassDeparseInsertSql quote_identifier rel targetAttrs doNothing ""
  = (Done tt, insert_text quote_identifier rel targetAttrs doNothing).
Proof.
  intros Hcols. unfold cassDeparseInsertSql, insert_text.
  rewrite (bind_done _ _ _ _ _ (appendStringInfoString_run "INSERT INTO " _)).
  rewrite (bind_done _ _ _ _ _ (cassDeparseRelation_run rel _)).
  destruct targetAttrs as [|a rest].
  - rewrite (bind_done _ _ _ _ _ (appendStringInfoString_run " DEFAULT VALUES" _)).
    rewrite conflict_run, !append_assoc. reflexivity.
  - set (targets := a :: rest) in *.
    change (appendStringInfoChar "("%char) with (appendStringInfoString "(").
    change (appendStringInfoChar ")"%char) with (appendStringInfoString ")").
    rewrite (bind_done _ _ _ tt
               (("" ++ "INSERT INTO " ++ relation_text quote_identifier rel)
                ++ "("
                ++ String.concat ", " (map (column_text quote_identifier rel) targets)
                ++ ") VALUES ("
                ++ String.concat ", " (map (fun _ => "?") targets) ++ ")")).
    + rewrite conflict_run, !append_assoc. reflexivity.
    + rewrite (bind_done _ _ _ _ _ (appendStringInfoString_run "(" _)).
      rewrite (bind_done _ _ _ _ _ (insert_columns_loop_run rel targets true _ Hcols)).
      rewrite (bind_done _ _ _ _ _ (appendStringInfoString_run ") VALUES (" _)).
      rewrite (bind_done _ _ _ _ _ (insert_placeholders_loop_run targets true _)).
      rewrite appendStringInfoString_run.
      assert (Hlead : lead true targets = "") by reflexivity.
      rewrite Hlead, !append_assoc. reflexivity.
Qed.

Lemma cassDeparseUpdateSql_run rel targetAttrs primaryKey :
  Forall (is_column rel) targetAttrs ->
  cassDeparseUpdateSql quote_identifier rel targetAttrs primaryKey ""
  = (Done tt, update_text quote_identifier rel targetAttrs primaryKey).
Proof.
  intros Hcols. unfold cassDeparseUpdateSql, update_text.
  rewrite (bind_done _ _ _ _ _ (appendStringInfoString_run "UPDATE " _)).
  rewrite (bind_done _ _ _ _ _ (cassDeparseRelation_run rel _)).
  rewrite (bind_done _ _ _ _ _ (appendStringInfoString_run " SET " _)).
  rewrite (bind_done _ _ _ _ _ (update_set_loop_run rel targetAttrs true _ Hcols)).
  rewrite appendStringInfoString_run.
  assert (Hlead : lead true targetAttrs = "") by (destruct targetAttrs; reflexivity).
  rewrite Hlead, !append_assoc. reflexivity.
Qed.

Lemma cassDeparseDeleteSql_run rel primaryKey :
  cassDeparseDeleteSql quote_identifier rel primaryKey ""
  = (Done tt, delete_text quote_identifier rel primaryKey).
Proof.
  unfold cassDeparseDeleteSql, delete_text.
  rewrite (bind_done _ _ _ _ _ (appendStringInfoString_run "DELETE FROM " _)).
  rewrite (bind_done _ _ _ _ _ (cassDeparseRelation_run rel _)).
  rewrite appendStringInfoString_run, !append_assoc. reflexivity.
Qed.

(** The targets of an INSERT are columns of the table. *)
Lemma insert_target_attrs_columns rel :
  Forall (is_column rel) (insert_target_attrs (rd_att rel) 1).
Proof.
  assert (H : forall atts pre, rd_att rel = (pre ++ atts)%list ->
            Forall (is_column rel)
              (insert_target_attrs atts (Z.of_nat (List.length pre) + 1))).
  { induction atts as [|attr rest IH]; intros pre Hrel; [constructor|].
    assert (Hrel' : rd_att rel = ((pre ++ [attr]) ++ rest)%list)
      by (rewrite <- app_assoc; exact Hrel).
    specialize (IH _ Hrel').
    replace (Z.of_nat (List.length (pre ++ [attr])) + 1)
      with (Z.of_nat (List.length pre) + 1 + 1) in IH
      by (rewrite length_app; cbn; lia).
    cbn [insert_target_attrs]. destruct (negb (attisdropped attr)); [|exact IH].
    constructor; [|exact IH].
    pose proof (TupleDescAttr_app pre attr rest) as Hat. rewrite <- Hrel in Hat.
    destruct (cassDeparseColumnRef_live quote_identifier rel _ attr "" Hat)
      as (name & Hname & _).
    unfold is_column. rewrite Hname. discriminate. }
  apply (H (rd_att rel) []). reflexivity.
Qed.

(** Planning an INSERT raises nothing, whatever the options of the
    table: no primary key is asked for. *)
Lemma cassPlanForeignModify_insert rel updatedCols (doNothing : bool) :
  cassPlanForeignModify quote_identifier CMD_INSERT rel updatedCols
    (if doNothing then ONCONFLICT_NOTHING else ONCONFLICT_NONE)
  = Some (Done (mkFdwModifyPrivate
                  (insert_text quote_identifier rel
                     (insert_target_attrs (rd_att rel) 1) doNothing)
                  (insert_target_attrs (rd_att rel) 1) false [])).
Proof.
  unfold cassPlanForeignModify, cassPlanForeignModify_sql.
  unfold bind at 1. cbn [ret].
  destruct doNothing; unfold bind at 1; cbn [ret];
    unfold bind at 1;
    rewrite (cassDeparseInsertSql_run rel _ _ (insert_target_attrs_columns rel));
    reflexivity.
Qed.

End ModifyTexts.

(* ===================================================================== *)
(** ** The INSERT scenario *)
(* ===================================================================== *)

(** C1, as the scenario has it, fails: planning the INSERT into
    [ks.t (id, v1, v2, v3)] does not give the statement with the three
    supplied columns and three parameters.  The planner is not told which
    columns the source statement supplies. *)
Lemma insert_scenario_not_three_columns :
  ~ (exists fdw_private,
       cassPlanForeignModify pg_quote_identifier CMD_INSERT scenario_table 0%N
         ONCONFLICT_NONE = Some (Done fdw_private) /\
       FdwModifyPrivateUpdateSql fdw_private
       = "INSERT INTO ks.t (id, v2, v3) VALUES (?, ?, ?)" /\
       List.length (FdwModifyPrivateTargetAttnums fdw_private) = 3%nat).
Proof.
  intros (p & Hplan & Hsql & Hlen).
  vm_compute in Hplan. injection Hplan as <-. simpl in Hlen. discriminate.
Qed.

(** The targets of an INSERT are the columns that the whole row
    selects. *)
Lemma insert_target_attrs_selected : forall atts attno,
  insert_target_attrs atts attno = selected_from true 0%N atts attno.
Proof.
  induction atts as [|attr rest IH]; intros attno; [reflexivity|].
  cbn [insert_target_attrs selected_from]. rewrite IH.
  destruct (attisdropped attr); reflexivity.
Qed.

(** C1, amended.  An INSERT transmits every column that is not dropped,
    in ordinal order, whatever [updatedCols] holds: the planner is not
    told which columns the source statement supplies.  Planning an INSERT
    into the scenario table gives the statement over all four columns,
    with four parameters.  Executing it for a row that has a value for
    every column, whatever the four values are, creates the statement
    with four parameters, binds the four values at the positions 0 to 3,
    in that order and each as the type of its column, and then makes the
    one remote call, with the statement that holds them.  For a row in
    which [v1] has been given no value, as the row [(1, null, 2, true)],
    it stops at the smallint column after the one parameter of [id],
    without a remote call. *)
Theorem insert_scenario_all_columns :
  (forall quote_identifier rel updatedCols,
     exists targets,
       cassPlanForeignModify quote_identifier CMD_INSERT rel updatedCols
         ONCONFLICT_NONE
       = Some (Done (mkFdwModifyPrivate
                       (insert_text quote_identifier rel targets false)
                       targets false [])) /\
       StronglySorted Z.lt targets /\
       (forall a, In a targets
                  <-> exists attr,
                        TupleDescAttr (rd_att rel) (a - 1) = Some attr /\
                        attisdropped attr = false)) /\
  (forall updatedCols,
     cassPlanForeignModify pg_quote_identifier CMD_INSERT scenario_table updatedCols
       ONCONFLICT_NONE
     = Some (Done (mkFdwModifyPrivate
                     "INSERT INTO ks.t(id, v1, v2, v3) VALUES (?, ?, ?, ?)"
                     [1; 2; 3; 4] false []))) /\
  (forall id v1 v2 v3 : Datum,
     let slot := [Some id; Some v1; Some v2; Some v3] in
     let run := insert_one pg_quote_identifier scenario_table slot reply_ok in
     let sql := "INSERT INTO ks.t(id, v1, v2, v3) VALUES (?, ?, ?, ?)" in
     fst run = Done (Some slot) /\
     option_map p_nums (ri_FdwState (snd run)) = Some 4 /\
     calls (snd run)
     = [ call_GetConnection;
         call_statement_new sql 4;
         call_bind 0 (CassInt32 (DatumGetInt32 id));
         call_bind 1 (CassInt16 (DatumGetInt16 v1));
         call_bind 2 (CassInt64 (DatumGetInt64 v2));
         call_bind 3 (CassBool (DatumGetBool v3));
         call_set_consistency CASS_CONSISTENCY_LOCAL_ONE;
         call_session_execute
           (Some (mkStatement sql
                    [ Some (CassInt32 (DatumGetInt32 id));
                      Some (CassInt16 (DatumGetInt16 v1));
                      Some (CassInt64 (DatumGetInt64 v2));
                      Some (CassBool (DatumGetBool v3)) ]
                    (Some CASS_CONSISTENCY_LOCAL_ONE))) ]) /\
  (forall id v2 v3 : Datum,
     let run := insert_one pg_quote_identifier scenario_table
                  [Some id; None; Some v2; Some v3] reply_ok in
     fst run = Raised (mkError ERRCODE_FDW_UNABLE_TO_CREATE_EXECUTION
                               (msg_smallint_null "INSERT")) /\
     calls (snd run)
     = [ call_GetConnection;
         call_statement_new "INSERT INTO ks.t(id, v1, v2, v3) VALUES (?, ?, ?, ?)" 4;
         call_bind 0 (CassInt32 (DatumGetInt32 id));
         call_ReleaseConnection ]).
Proof.
  split; [|split; [|split]].
  - intros quote_identifier rel updatedCols.
    exists (insert_target_attrs (rd_att rel) 1).
    split; [apply (cassPlanForeignModify_insert quote_identifier rel updatedCols
                     false)|].
    rewrite insert_target_attrs_selected.
    split; [apply selected_from_sorted|].
    intros a.
    pose proof (selected_from_spec true 0%N (rd_att rel) [] a) as Hspec.
    cbn [List.length Z.of_nat Z.add app] in Hspec. rewrite Hspec. split.
    + intros (attr & Hattr & _ & Hlive & _). exists attr. split; assumption.
    + intros (attr & Hattr & Hlive). exists attr.
      split; [exact Hattr|]. split; [|split; [exact Hlive|left; reflexivity]].
      unfold TupleDescAttr in Hattr.
      destruct (Z.ltb_spec (a - 1) 0); [discriminate|lia].
  - intros updatedCols. reflexivity.
  - intros id v1 v2 v3. cbv zeta. repeat split; reflexivity.
  - intros id v2 v3. cbv zeta. split; reflexivity.
Qed.

(* ===================================================================== *)
(** ** Identifiers in the statement texts *)
(* ===================================================================== *)

(** C4, at the failing inputs.  For a key column named [Id], the SELECT and
    INSERT statements carry the quoted name while the WHERE clauses of
    UPDATE and DELETE carry the bare option value; for a key column [id]
    with the option [column_name 'row_key'], the SELECT statement carries
    the override while the WHERE clause carries the local name. *)
Theorem where_clause_key_verbatim :
  cassGetForeignPlan pg_quote_identifier mixed_case_table (attr_bit 0)
  = Done ("SELECT " ++ dquoted "Id" ++ ", v3 FROM ks.t", [1; 2]) /\
  cassPlanForeignModify pg_quote_identifier CMD_INSERT mixed_case_table 0%N
    ONCONFLICT_NONE
  = Some (Done (mkFdwModifyPrivate
                  ("INSERT INTO ks.t(" ++ dquoted "Id" ++ ", v3) VALUES (?, ?)")
                  [1; 2] false [])) /\
  cassPlanForeignModify pg_quote_identifier CMD_UPDATE mixed_case_table (attr_bit 2)
    ONCONFLICT_NONE
  = Some (Done (mkFdwModifyPrivate "UPDATE ks.t SET v3 = ? WHERE Id = ?" [2]
                  false [])) /\
  cassPlanForeignModify pg_quote_identifier CMD_DELETE mixed_case_table 0%N
    ONCONFLICT_NONE
  = Some (Done (mkFdwModifyPrivate "DELETE FROM ks.t WHERE Id = ?" [] false [])) /\
  cassGetForeignPlan pg_quote_identifier renamed_key_table (attr_bit 0)
  = Done ("SELECT row_key, v3 FROM ks.t", [1; 2]) /\
  cassPlanForeignModify pg_quote_identifier CMD_UPDATE renamed_key_table (attr_bit 2)
    ONCONFLICT_NONE
  = Some (Done (mkFdwModifyPrivate "UPDATE ks.t SET v3 = ? WHERE id = ?" [2]
                  false [])) /\
  cassPlanForeignModify pg_quote_identifier CMD_DELETE renamed_key_table 0%N
    ONCONFLICT_NONE
  = Some (Done (mkFdwModifyPrivate "DELETE FROM ks.t WHERE id = ?" [] false [])).
Proof. repeat split; vm_compute; reflexivity. Qed.

(* ===================================================================== *)
(** ** Locating the key column *)
(* ===================================================================== *)

(** The comparison holds for every name that starts with the key name. *)
Lemma strncmp_prefix (p s : string) : strncmp (p ++ s) p (strlen p) = 0.
Proof.
  induction p as [|c p IH]; [reflexivity|].
  cbn. rewrite Ascii.eqb_refl. exact IH.
Qed.

(** The loop attaches one hidden entry for every column that the
    comparison accepts, in the order of the columns. *)
Lemma add_targets_loop_run primary_key : forall atts has_PK q,
  add_targets_loop atts primary_key has_PK q
  = (Done (has_PK || negb (forallb (fun att => negb (key_matches primary_key att)) atts)),
     mkQuery (resultRelation q)
       (targetList q
        ++ key_entries (resultRelation q) (List.length (targetList q))
             (filter (key_matches primary_key) atts))).
Proof.
  induction atts as [|att rest IH]; intros has_PK q.
  - cbn. rewrite orb_false_r, app_nil_r. destruct q; reflexivity.
  - cbn [add_targets_loop filter forallb]. fold (key_matches primary_key att).
    destruct (key_matches primary_key att) eqn:Hm.
    + unfold bind at 1. cbn [get]. unfold bind at 1. cbn [put].
      rewrite IH. cbn [resultRelation targetList negb andb orb key_entries].
      rewrite orb_true_r, length_app, <- app_assoc. cbn [List.length app].
      replace (List.length (targetList q) + 1)%nat
        with (S (List.length (targetList q))) by lia.
      reflexivity.
    + rewrite IH. reflexivity.
Qed.

(** [cassAddForeignUpdateTargets] on a table with a configured key name:
    the columns whose names start like the key name are attached, all of
    them, and the error of the missing key is raised when there is none. *)
Lemma cassAddForeignUpdateTargets_run r primary_key q :
  cassGetPKOption r None = Some primary_key ->
  cassAddForeignUpdateTargets r q
  = match filter (key_matches primary_key) (rd_att r) with
    | [] => (Raised (primary_key_missing_error r primary_key), q)
    | matching =>
        (Done tt,
         mkQuery (resultRelation q)
           (targetList q ++ key_entries (resultRelation q) (List.length (targetList q)) matching))
    end.
Proof.
  intros Hpk. unfold cassAddForeignUpdateTargets. rewrite Hpk.
  unfold bind. rewrite add_targets_loop_run. cbn [orb].
  assert (Hall : forallb (fun att => negb (key_matches primary_key att)) (rd_att r)
                 = match filter (key_matches primary_key) (rd_att r) with
                   | [] => true
                   | _ => false
                   end).
  { induction (rd_att r) as [|att rest IH]; [reflexivity|].
    cbn. destruct (key_matches primary_key att); cbn; [reflexivity|exact IH]. }
  rewrite Hall.
  destruct (filter (key_matches primary_key) (rd_att r)) as [|m ms]; cbn.
  - rewrite app_nil_r. destruct q; reflexivity.
  - reflexivity.
Qed.

(** C5, at the failing inputs.  A column is taken for the key as soon as
    its name starts with the configured key name.  With the key name [id]
    and the columns [id], [id_shard] and [v3], two hidden key columns are
    attached, not one; with the key name [i], which no column of the
    scenario table has, no error is raised and the column [id] is attached,
    and the modification fails only when it begins, with an internal
    error. *)
Theorem key_located_by_prefix :
  (forall primary_key suffix att,
     attname att = primary_key ++ suffix -> key_matches primary_key att = true) /\
  cassAddForeignUpdateTargets shard_table (mkQuery 1 [])
  = (Done tt,
     mkQuery 1 [ mkTargetEntry (mkVar 1 1 INT4OID) 1 "id" true;
                 mkTargetEntry (mkVar 1 2 INT4OID) 2 "id_shard" true ]) /\
  cassAddForeignUpdateTargets prefix_key_table (mkQuery 1 [])
  = (Done tt, mkQuery 1 [ mkTargetEntry (mkVar 1 1 INT4OID) 1 "id" true ]) /\
  fst (write_one pg_quote_identifier CMD_DELETE prefix_key_table 0%N [] None
         [Some (DatumWord 1)] reply_ok)
  = Raised (mkError ERRCODE_FDW_UNABLE_TO_CREATE_EXECUTION msg_no_junk_attribute).
Proof.
  split.
  - intros primary_key suffix att Hname. unfold key_matches.
    rewrite Hname, strncmp_prefix. reflexivity.
  - repeat split; vm_compute; reflexivity.
Qed.

(* ===================================================================== *)
(** ** What a foreign table is reported to support *)
(* ===================================================================== *)

(** C10. Every foreign table is reported to support INSERT, UPDATE and
    DELETE, with or without the option [primary_key]; planning an INSERT
    raises nothing either; the error of the missing primary key is raised
    when the targets of an UPDATE or DELETE are added, for every query on a
    table without the option. *)
Theorem updatable_without_primary_key
    (quote_identifier : string -> string) (rel : Relation) :
  cassIsForeignRelUpdatable rel = 28 /\
  Z.testbit (cassIsForeignRelUpdatable rel) (CmdType_code CMD_INSERT) = true /\
  Z.testbit (cassIsForeignRelUpdatable rel) (CmdType_code CMD_UPDATE) = true /\
  Z.testbit (cassIsForeignRelUpdatable rel) (CmdType_code CMD_DELETE) = true /\
  (forall updatedCols, exists fdw_private,
     cassPlanForeignModify quote_identifier CMD_INSERT rel updatedCols ONCONFLICT_NONE
     = Some (Done fdw_private)) /\
  (cassGetPKOption rel None = None ->
   forall parsetree,
     cassAddForeignUpdateTargets rel parsetree
     = (Raised (no_primary_key_error rel), parsetree)).
Proof.
  repeat split.
  - intros updatedCols. eexists.
    apply (cassPlanForeignModify_insert quote_identifier rel updatedCols false).
  - intros Hpk parsetree. unfold cassAddForeignUpdateTargets. rewrite Hpk.
    reflexivity.
Qed.

Lemma updatable_without_primary_key_witness :
  cassIsForeignRelUpdatable keyless_table = 28 /\
  cassAddForeignUpdateTargets keyless_table (mkQuery 1 [])
  = (Raised (no_primary_key_error keyless_table), mkQuery 1 []).
Proof.
  destruct (updatable_without_primary_key pg_quote_identifier keyless_table)
    as (Hup & _ & _ & _ & _ & Hkey).
  split; [exact Hup|]. apply Hkey. reflexivity.
Defined.

(* ===================================================================== *)
(** ** Binding the parameters of a modification *)
(* ===================================================================== *)

Lemma releaseCassResources_run fm cl :
  releaseCassResources (mkModifyWorld (Some fm) cl)
  = (Done tt, mkModifyWorld (Some (with_cass_conn fm false)) (cl ++ release_calls fm)).
Proof.
  unfold releaseCassResources, release_calls.
  destruct fm as [r cc ss st wc q ta hr ra ka pn po].
  destruct st as [s|]; [destruct ss|]; cbn; rewrite <- ?app_assoc; reflexivity.
Qed.

Lemma cassStatementBindNull_run fm cl k ty op :
  cassStatementBindNull k ty op (mkModifyWorld (Some fm) cl)
  = if ty =? INT2OID
    then (Raised (smallint_null_error op),
          mkModifyWorld (Some (with_cass_conn fm false)) (cl ++ release_calls fm))
    else (Done tt,
          mkModifyWorld
            (Some (with_statement fm
                     (option_map (fun st => cass_statement_bind st k CassNull)
                                 (statement fm))))
            (cl ++ [call_bind_null k])).
Proof.
  unfold cassStatementBindNull. destruct (ty =? INT2OID).
  - unfold bind. rewrite releaseCassResources_run. reflexivity.
  - reflexivity.
Qed.

Section BindingFacts.

Variable session_tzoffset : Z -> Z.

Lemma bind_cass_statement_param_run fm cl ty v k :
  bind_cass_statement_param session_tzoffset ty v k (mkModifyWorld (Some fm) cl)
  = match param_of_datum session_tzoffset ty v with
    | Some p =>
        (Done tt,
         mkModifyWorld
           (Some (with_statement fm
                    (option_map (fun st => cass_statement_bind st k p)
                                (statement fm))))
           (cl ++ [call_bind k p]))
    | None => (Raised (type_not_supported_error ty), mkModifyWorld (Some fm) cl)
    end.
Proof.
  unfold bind_cass_statement_param.
  destruct (param_of_datum session_tzoffset ty v); reflexivity.
Qed.

Lemma bind_one_run op fm st cl k v :
  bind_one session_tzoffset op fm k v (mkModifyWorld (Some (with_statement fm st)) cl)
  = match bind_call_for session_tzoffset (type_oid_at fm k) k v with
    | Some c =>
        (Done tt,
         mkModifyWorld
           (Some (with_statement fm
                    (option_map
                       (fun s => cass_statement_bind s k
                                   (match c with
                                    | call_bind _ p => p
                                    | _ => CassNull
                                    end)) st)))
           (cl ++ [c]))
    | None =>
        match v with
        | None =>
            (Raised (smallint_null_error op),
             mkModifyWorld (Some (with_cass_conn (with_statement fm st) false))
               (cl ++ release_calls (with_statement fm st)))
        | Some _ =>
            (Raised (type_not_supported_error (type_oid_at fm k)),
             mkModifyWorld (Some (with_statement fm st)) cl)
        end
    end.
Proof.
  unfold bind_one, bind_call_for. destruct v as [value|].
  - rewrite bind_cass_statement_param_run.
    destruct (param_of_datum session_tzoffset (type_oid_at fm k) value); reflexivity.
  - rewrite cassStatementBindNull_run.
    destruct (type_oid_at fm k =? INT2OID); reflexivity.
Qed.

Lemma bind_targets_loop_step op slot attno rest k fm st cl :
  bind_targets_loop session_tzoffset op slot (attno :: rest) k
    (mkModifyWorld (Some (with_statement fm st)) cl)
  = bind (bind_one session_tzoffset op fm k (slot_getattr slot attno))
         (fun _ => bind_targets_loop session_tzoffset op slot rest (k + 1))
         (mkModifyWorld (Some (with_statement fm st)) cl).
Proof.
  cbn [bind_targets_loop]. unfold bind at 1. cbn.
  unfold bind_one. destruct (slot_getattr slot attno); reflexivity.
Qed.

(** A loop that ends has bound every target, in the order of the list,
    at consecutive positions. *)
Lemma bind_targets_loop_done op slot fm :
  forall targets k st cl k' w',
    bind_targets_loop session_tzoffset op slot targets k
      (mkModifyWorld (Some (with_statement fm st)) cl) = (Done k', w') ->
    k' = k + Z.of_nat (List.length targets) /\
    exists st' l,
      w' = mkModifyWorld (Some (with_statement fm st')) (cl ++ l) /\
      map Some l = target_bind_calls session_tzoffset fm slot targets k.
Proof.
  induction targets as [|attno rest IH]; intros k st cl k' w' Hrun.
  - cbn in Hrun. injection Hrun as <- <-. split; [cbn; lia|].
    exists st, []. rewrite app_nil_r. split; reflexivity.
  - rewrite bind_targets_loop_step in Hrun. unfold bind in Hrun.
    rewrite bind_one_run in Hrun. cbn [target_bind_calls].
    destruct (bind_call_for session_tzoffset (type_oid_at fm k) k
                (slot_getattr slot attno)) as [c|] eqn:Hc.
    + apply IH in Hrun. destruct Hrun as (-> & st' & l & -> & Hl).
      split; [cbn [List.length]; lia|].
      exists st', (c :: l). split.
      * rewrite <- app_assoc. reflexivity.
      * cbn [map]. rewrite Hl. reflexivity.
    + destruct (slot_getattr slot attno); discriminate.
Qed.

(** Whatever its outcome, the loop makes no remote call and binds no
    null to a smallint parameter; an error it raises is one of the two
    binding errors. *)
Lemma bind_targets_loop_quiet op slot fm :
  forall targets k st cl r w',
    bind_targets_loop session_tzoffset op slot targets k
      (mkModifyWorld (Some (with_statement fm st)) cl) = (r, w') ->
    exists l,
      calls w' = (cl ++ l)%list /\
      Forall (quiet fm) l /\
      (forall e, r = Raised e -> binding_error op e).
Proof.
  induction targets as [|attno rest IH]; intros k st cl r w' Hrun.
  - cbn in Hrun. injection Hrun as <- <-. exists []. cbn.
    rewrite app_nil_r. repeat split; [constructor|discriminate].
  - rewrite bind_targets_loop_step in Hrun. unfold bind in Hrun.
    rewrite bind_one_run in Hrun.
    destruct (bind_call_for session_tzoffset (type_oid_at fm k) k
                (slot_getattr slot attno)) as [c|] eqn:Hc.
    + apply IH in Hrun. destruct Hrun as (l & Hcalls & Hq & He).
      exists (c :: l). rewrite Hcalls, <- app_assoc. repeat split; [|exact He].
      constructor; [|exact Hq].
      unfold bind_call_for in Hc. destruct (slot_getattr slot attno) as [v|].
      * destruct (param_of_datum _ _ v); [|discriminate].
        injection Hc as <-. exact I.
      * destruct (Z.eqb_spec (type_oid_at fm k) INT2OID); [discriminate|].
        injection Hc as <-. exact n.
    + destruct (slot_getattr slot attno) as [v|];
        injection Hrun as <- <-; cbn [calls].
      * exists []. rewrite app_nil_r. repeat split; [constructor|].
        intros e [= <-]. right. eexists. reflexivity.
      * exists (release_calls (with_statement fm st)). repeat split.
        -- unfold release_calls. cbn.
           destruct st; [destruct (sql_sent fm)|]; repeat constructor.
        -- intros e [= <-]. left. reflexivity.
Qed.

(** A null for a target bound as smallint makes the loop raise. *)
Lemma bind_targets_loop_smallint_null op slot fm :
  forall targets k st cl (j : nat) attno,
    nth_error targets j = Some attno ->
    slot_getattr slot attno = None ->
    type_oid_at fm (k + Z.of_nat j) = INT2OID ->
    exists e w',
      bind_targets_loop session_tzoffset op slot targets k
        (mkModifyWorld (Some (with_statement fm st)) cl) = (Raised e, w').
Proof.
  induction targets as [|a rest IH]; intros k st cl j attno Hnth Hnull Hty.
  - destruct j; discriminate.
  - rewrite bind_targets_loop_step. unfold bind. rewrite bind_one_run.
    destruct j as [|j].
    + cbn in Hnth. injection Hnth as ->. rewrite Z.add_0_r in Hty.
      rewrite Hnull. cbn [bind_call_for]. rewrite Hty. cbn.
      eexists _, _. reflexivity.
    + cbn in Hnth.
      destruct (bind_call_for session_tzoffset (type_oid_at fm k) k
                  (slot_getattr slot a)) as [c|].
      * apply (IH (k + 1) _ _ j attno Hnth Hnull).
        rewrite <- Hty. f_equal. lia.
      * destruct (slot_getattr slot a); eexists _, _; reflexivity.
Qed.

End BindingFacts.

Section WriteFacts.

Variable session_tzoffset : Z -> Z.

Lemma prepare_and_bind_targets_run op slot fm cl :
  prepare_and_bind_targets session_tzoffset op slot (mkModifyWorld (Some fm) cl)
  = match slot, target_attrs fm with
    | Some sl, _ :: _ =>
        bind_targets_loop session_tzoffset op sl (target_attrs fm) 0
          (mkModifyWorld (Some (with_statement fm (statement_at_bind fm)))
             (cl ++ statement_new_calls fm))
    | _, _ =>
        (Done 0,
         mkModifyWorld (Some (with_statement fm (statement_at_bind fm)))
           (cl ++ statement_new_calls fm))
    end.
Proof.
  unfold prepare_and_bind_targets, statement_at_bind, statement_new_calls.
  destruct fm as [r cc ss st wc q ta hr ra ka pn po].
  destruct ss; cbn; rewrite ?app_nil_r;
    destruct slot as [sl|]; destruct ta; reflexivity.
Qed.

Lemma execute_and_check_run op future fm st cl :
  let st2 := option_map
               (fun s => cass_statement_set_consistency s (write_consistency fm)) st in
  let fm2 := with_sql_sent (with_statement fm st2) true in
  let cl2 := (cl ++ [call_set_consistency (write_consistency fm);
                     call_session_execute st2])%list in
  execute_and_check op future (mkModifyWorld (Some (with_statement fm st)) cl)
  = match cass_future_error_code future with
    | CASS_OK => (Done tt, mkModifyWorld (Some fm2) cl2)
    | CASS_ERROR _ =>
        (Raised (failed_execute_error op future),
         mkModifyWorld (Some (with_cass_conn fm2 false)) (cl2 ++ release_calls fm2))
    end.
Proof.
  intros st2 fm2 cl2. unfold execute_and_check.
  unfold bind at 1. cbn.
  destruct (cass_future_error_code future).
  - subst cl2. rewrite <- app_assoc. reflexivity.
  - unfold bind. rewrite releaseCassResources_run.
    subst cl2. rewrite <- ?app_assoc. reflexivity.
Qed.

Lemma the_calls_map_Some l : the_calls (map Some l) = l.
Proof.
  induction l as [|c l IH]; [reflexivity|].
  unfold the_calls in *. cbn. rewrite IH. reflexivity.
Qed.

Lemma all_bound_map_Some l : all_bound (map Some l).
Proof. induction l; constructor; [discriminate|assumption]. Qed.

Lemma the_calls_app a b : the_calls (a ++ b) = (the_calls a ++ the_calls b)%list.
Proof. unfold the_calls. apply flat_map_app. Qed.

(** A loop all of whose bindings are available ends, having made them. *)
Lemma bind_targets_loop_total op slot fm :
  forall targets k st cl,
    all_bound (target_bind_calls session_tzoffset fm slot targets k) ->
    exists st',
      bind_targets_loop session_tzoffset op slot targets k
        (mkModifyWorld (Some (with_statement fm st)) cl)
      = (Done (k + Z.of_nat (List.length targets)),
         mkModifyWorld (Some (with_statement fm st'))
           (cl ++ the_calls (target_bind_calls session_tzoffset fm slot targets k))).
Proof.
  induction targets as [|attno rest IH]; intros k st cl Hall.
  - exists st. cbn. rewrite app_nil_r, Z.add_0_r. reflexivity.
  - cbn [target_bind_calls] in Hall. inversion Hall as [|o l Ho Hrest]; subst.
    rewrite bind_targets_loop_step. unfold bind. rewrite bind_one_run.
    cbn [target_bind_calls].
    destruct (bind_call_for session_tzoffset (type_oid_at fm k) k
                (slot_getattr slot attno)) as [c|]; [|congruence].
    destruct (IH (k + 1) (option_map
                            (fun s => cass_statement_bind s k
                                        match c with
                                        | call_bind _ p => p
                                        | _ => CassNull
                                        end) st)
                 (cl ++ [c])%list Hrest) as (st' & Hrun).
    exists st'. rewrite Hrun.
    change (the_calls (Some c :: ?l)) with (c :: the_calls l).
    rewrite <- app_assoc. cbn [List.length app].
    replace (k + 1 + Z.of_nat (List.length rest))
      with (k + Z.of_nat (S (List.length rest))) by lia.
    reflexivity.
Qed.

(** The INSERT path, whenever it returns. *)
Lemma cassExecForeignInsert_done sl future fm cl r w' :
  cassExecForeignInsert session_tzoffset (Some sl) future
    (mkModifyWorld (Some fm) cl) = (Done r, w') ->
  let targets := target_bind_calls session_tzoffset fm sl (target_attrs fm) 0 in
  r = Some sl /\
  cass_future_error_code future = CASS_OK /\
  all_bound targets /\
  exists st,
    calls w' = (cl ++ statement_new_calls fm ++ the_calls targets
                ++ [call_set_consistency (write_consistency fm);
                    call_session_execute st])%list.
Proof.
  intros Hrun targets. unfold cassExecForeignInsert in Hrun.
  unfold bind at 1 in Hrun. rewrite prepare_and_bind_targets_run in Hrun.
  assert (Hprep : exists k st' l,
    match target_attrs fm with
    | _ :: _ =>
        bind_targets_loop session_tzoffset "INSERT" sl (target_attrs fm) 0
          (mkModifyWorld (Some (with_statement fm (statement_at_bind fm)))
             (cl ++ statement_new_calls fm))
    | [] => (Done 0,
             mkModifyWorld (Some (with_statement fm (statement_at_bind fm)))
               (cl ++ statement_new_calls fm))
    end = (Done k, mkModifyWorld (Some (with_statement fm st'))
                     ((cl ++ statement_new_calls fm) ++ l))
    /\ map Some l = targets).
  { subst targets. destruct (target_attrs fm) as [|a ta] eqn:Hta.
    - exists 0, (statement_at_bind fm), []. rewrite app_nil_r. split; reflexivity.
    - destruct (bind_targets_loop session_tzoffset "INSERT" sl (a :: ta) 0 _)
        as [[k|e] w1] eqn:Hloop; [|discriminate].
      apply bind_targets_loop_done in Hloop.
      destruct Hloop as (_ & st' & l & -> & Hl).
      exists k, st', l. split; [reflexivity|exact Hl]. }
  destruct Hprep as (k & st' & l & Hprep & Hl). rewrite Hprep in Hrun.
  unfold bind at 1 in Hrun. rewrite execute_and_check_run in Hrun.
  destruct (cass_future_error_code future); [|discriminate].
  cbn in Hrun. injection Hrun as <- <-.
  repeat split.
  - rewrite <- Hl. apply all_bound_map_Some.
  - eexists. cbn [calls]. rewrite <- Hl, the_calls_map_Some, <- !app_assoc.
    reflexivity.
Qed.

(** The INSERT path returns when every target can be bound and the
    remote answers [CASS_OK]. *)
Lemma cassExecForeignInsert_total sl future fm cl :
  all_bound (target_bind_calls session_tzoffset fm sl (target_attrs fm) 0) ->
  cass_future_error_code future = CASS_OK ->
  exists w',
    cassExecForeignInsert session_tzoffset (Some sl) future
      (mkModifyWorld (Some fm) cl) = (Done (Some sl), w').
Proof.
  intros Hall Hok. unfold cassExecForeignInsert.
  unfold bind at 1. rewrite prepare_and_bind_targets_run.
  destruct (target_attrs fm) as [|a ta] eqn:Hta.
  - unfold bind at 1. rewrite execute_and_check_run, Hok. cbn.
    eexists. reflexivity.
  - destruct (bind_targets_loop_total "INSERT" sl fm (a :: ta) 0
                (statement_at_bind fm) (cl ++ statement_new_calls fm)%list Hall)
      as (st' & Hloop).
    rewrite Hloop. unfold bind at 1. rewrite execute_and_check_run, Hok. cbn.
    eexists. reflexivity.
Qed.

Lemma target_bind_calls_length fm slot : forall targets k,
  List.length (target_bind_calls session_tzoffset fm slot targets k)
  = List.length targets.
Proof. induction targets; intros k; cbn; [|rewrite IHtargets]; reflexivity. Qed.

(** What binding the targets leaves, whatever its outcome. *)
Lemma prepare_and_bind_targets_outcome op slot fm cl r w1 :
  prepare_and_bind_targets session_tzoffset op slot (mkModifyWorld (Some fm) cl)
  = (r, w1) ->
  exists l,
    calls w1 = (cl ++ statement_new_calls fm ++ l)%list /\
    Forall (quiet fm) l /\
    (forall e, r = Raised e ->
       binding_error op e /\
       ~ all_bound (expected_target_binds session_tzoffset fm slot)) /\
    (forall k, r = Done k ->
       k = Z.of_nat (List.length (expected_target_binds session_tzoffset fm slot)) /\
       map Some l = expected_target_binds session_tzoffset fm slot /\
       exists st', ri_FdwState w1 = Some (with_statement fm st')).
Proof.
  rewrite prepare_and_bind_targets_run. intros Hrun.
  assert (Hnone :
    expected_target_binds session_tzoffset fm slot = [] ->
    (Done 0,
     mkModifyWorld (Some (with_statement fm (statement_at_bind fm)))
       (cl ++ statement_new_calls fm)) = (r, w1) ->
    exists l,
      calls w1 = (cl ++ statement_new_calls fm ++ l)%list /\
      Forall (quiet fm) l /\
      (forall e, r = Raised e ->
         binding_error op e /\
         ~ all_bound (expected_target_binds session_tzoffset fm slot)) /\
      (forall k, r = Done k ->
         k = Z.of_nat (List.length (expected_target_binds session_tzoffset fm slot)) /\
         map Some l = expected_target_binds session_tzoffset fm slot /\
         exists st', ri_FdwState w1 = Some (with_statement fm st'))).
  { intros Hnil Heq. injection Heq as Hr Hw. subst r w1.
    exists []. cbn [calls]. rewrite app_nil_r, Hnil.
    split; [reflexivity|]. split; [constructor|]. split; [discriminate|].
    intros k [= <-]. split; [reflexivity|]. split; [reflexivity|].
    eexists. reflexivity. }
  destruct slot as [sl|]; [|apply Hnone; [reflexivity|exact Hrun]].
  destruct (target_attrs fm) as [|a ta] eqn:Hta.
  { apply Hnone; [cbn; rewrite Hta; reflexivity|exact Hrun]. }
  clear Hnone. cbn [expected_target_binds]. rewrite Hta.
  destruct (bind_targets_loop_quiet session_tzoffset op sl fm _ _ _ _ _ _ Hrun)
    as (l & Hcalls & Hq & He).
  exists l. rewrite Hcalls, <- app_assoc.
  split; [reflexivity|]. split; [exact Hq|]. split.
  - intros e ->. split; [apply He; reflexivity|].
    intros Hall.
    destruct (bind_targets_loop_total op sl fm (a :: ta) 0
                (statement_at_bind fm) (cl ++ statement_new_calls fm)%list Hall)
      as (st' & Htot).
    rewrite Htot in Hrun. discriminate.
  - intros k ->. apply bind_targets_loop_done in Hrun.
    destruct Hrun as (-> & st' & l' & -> & Hl).
    cbn [calls] in Hcalls. apply app_inv_head in Hcalls. subst l'.
    rewrite target_bind_calls_length.
    split; [cbn; lia|]. split; [exact Hl|].
    exists st'. reflexivity.
Qed.

Lemma world_eta (w : ModifyWorld) : w = mkModifyWorld (ri_FdwState w) (calls w).
Proof. destruct w; reflexivity. Qed.

(** [cassExecPKPredWrite] after the targets are bound, [k] of them. *)
Lemma key_step_run (slot : option TupleTableSlot) planSlot op future fm st cl k :
  (fm' <- the_fmstate ;;
   match ExecGetJunkAttribute planSlot (keyAttno fm')
         return Exec ModifyWorld (option TupleTableSlot) with
   | None =>
       ereport ERRCODE_FDW_UNABLE_TO_CREATE_EXECUTION (msg_primary_key_null (rel fm'))
   | Some value =>
       bind_cass_statement_param session_tzoffset (type_oid_at fm' k) value k ;;
       execute_and_check op future ;;
       ret slot
   end) (mkModifyWorld (Some (with_statement fm st)) cl)
  = match ExecGetJunkAttribute planSlot (keyAttno fm) with
    | None =>
        (Raised (primary_key_null_error (rel fm)),
         mkModifyWorld (Some (with_statement fm st)) cl)
    | Some value =>
        match param_of_datum session_tzoffset (type_oid_at fm k) value with
        | None =>
            (Raised (type_not_supported_error (type_oid_at fm k)),
             mkModifyWorld (Some (with_statement fm st)) cl)
        | Some p =>
            (execute_and_check op future ;; ret slot)
              (mkModifyWorld
                 (Some (with_statement fm
                          (option_map (fun s => cass_statement_bind s k p) st)))
                 (cl ++ [call_bind k p]))
        end
    end.
Proof.
  unfold bind at 1. cbn [the_fmstate]. unfold the_fmstate at 1.
  unfold bind at 1. cbn.
  destruct (ExecGetJunkAttribute planSlot (keyAttno fm)) as [value|]; [|reflexivity].
  unfold bind at 1. rewrite bind_cass_statement_param_run.
  cbn [type_oid_at p_type_oids with_statement statement].
  change (type_oid_at (with_statement fm st) k) with (type_oid_at fm k).
  destruct (param_of_datum session_tzoffset (type_oid_at fm k) value); reflexivity.
Qed.

(** The UPDATE and DELETE path, whenever it returns. *)
Lemma cassExecPKPredWrite_done slot planSlot op future fm cl r w' :
  cassExecPKPredWrite session_tzoffset slot planSlot op future
    (mkModifyWorld (Some fm) cl) = (Done r, w') ->
  let targets := expected_target_binds session_tzoffset fm slot in
  let key := key_bind_call session_tzoffset fm planSlot
               (Z.of_nat (List.length targets)) in
  r = slot /\
  cass_future_error_code future = CASS_OK /\
  all_bound (targets ++ [key]) /\
  exists st,
    calls w' = (cl ++ statement_new_calls fm ++ the_calls (targets ++ [key])
                ++ [call_set_consistency (write_consistency fm);
                    call_session_execute st])%list.
Proof.
  intros Hrun targets key. unfold cassExecPKPredWrite in Hrun.
  unfold bind at 1 in Hrun.
  destruct (prepare_and_bind_targets session_tzoffset op slot _)
    as [[k|e] w1] eqn:Hprep; [|discriminate].
  destruct (prepare_and_bind_targets_outcome _ _ _ _ _ _ Hprep)
    as (l & Hcalls & _ & _ & Hdone).
  destruct (Hdone k eq_refl) as (Hk & Hl & st' & Hst).
  fold targets in Hk, Hl.
  rewrite (world_eta w1), Hst, Hcalls, key_step_run in Hrun.
  subst key. unfold key_bind_call. rewrite <- Hk.
  destruct (ExecGetJunkAttribute planSlot (keyAttno fm)) as [value|]; [|discriminate].
  cbn [bind_call_for].
  destruct (param_of_datum session_tzoffset (type_oid_at fm k) value) as [p|];
    [|discriminate].
  unfold bind at 1 in Hrun. rewrite execute_and_check_run in Hrun.
  destruct (cass_future_error_code future); [|discriminate].
  cbn in Hrun. injection Hrun as <- <-.
  split; [reflexivity|]. split; [reflexivity|]. split.
  - apply Forall_app. split.
    + rewrite <- Hl. apply all_bound_map_Some.
    + repeat constructor. discriminate.
  - eexists. cbn [calls]. rewrite the_calls_app, <- Hl, the_calls_map_Some.
    cbn. rewrite <- !app_assoc. reflexivity.
Qed.

(** The UPDATE and DELETE path returns when every target and the key can
    be bound and the remote answers [CASS_OK]. *)
Lemma cassExecPKPredWrite_total slot planSlot op future fm cl :
  let targets := expected_target_binds session_tzoffset fm slot in
  let key := key_bind_call session_tzoffset fm planSlot
               (Z.of_nat (List.length targets)) in
  all_bound (targets ++ [key]) ->
  cass_future_error_code future = CASS_OK ->
  exists w',
    cassExecPKPredWrite session_tzoffset slot planSlot op future
      (mkModifyWorld (Some fm) cl) = (Done slot, w').
Proof.
  intros targets key Hall Hok.
  apply Forall_app in Hall. destruct Hall as [Hall Hkey].
  unfold cassExecPKPredWrite. unfold bind at 1.
  destruct (prepare_and_bind_targets session_tzoffset op slot _)
    as [r w1] eqn:Hprep.
  destruct (prepare_and_bind_targets_outcome _ _ _ _ _ _ Hprep)
    as (l & Hcalls & _ & Hraised & Hdone).
  destruct r as [k|e]; [|destruct (Hraised e eq_refl) as [_ Hn]; contradiction].
  destruct (Hdone k eq_refl) as (Hk & Hl & st' & Hst).
  fold targets in Hk.
  rewrite (world_eta w1), Hst, Hcalls, key_step_run.
  assert (Ho : key <> None) by (inversion Hkey; assumption).
  subst key. unfold key_bind_call in Ho. rewrite <- Hk in Ho.
  destruct (ExecGetJunkAttribute planSlot (keyAttno fm)) as [value|]; [|congruence].
  cbn [bind_call_for] in Ho.
  destruct (param_of_datum session_tzoffset (type_oid_at fm k) value) as [p|];
    [|cbn in Ho; congruence].
  unfold bind at 1. rewrite execute_and_check_run, Hok. cbn.
  eexists. reflexivity.
Qed.

(** The UPDATE and DELETE path with a null key. *)
Lemma cassExecPKPredWrite_null_key slot planSlot op future fm cl :
  ExecGetJunkAttribute planSlot (keyAttno fm) = None ->
  exists e w' l,
    cassExecPKPredWrite session_tzoffset slot planSlot op future
      (mkModifyWorld (Some fm) cl) = (Raised e, w') /\
    calls w' = (cl ++ statement_new_calls fm ++ l)%list /\
    Forall (quiet fm) l /\
    (e = primary_key_null_error (rel fm) \/ binding_error op e) /\
    (all_bound (expected_target_binds session_tzoffset fm slot) ->
     e = primary_key_null_error (rel fm)).
Proof.
  intros Hkey. unfold cassExecPKPredWrite. unfold bind at 1.
  destruct (prepare_and_bind_targets session_tzoffset op slot _)
    as [r w1] eqn:Hprep.
  destruct (prepare_and_bind_targets_outcome _ _ _ _ _ _ Hprep)
    as (l & Hcalls & Hq & Hraised & Hdone).
  destruct r as [k|e].
  - destruct (Hdone k eq_refl) as (Hk & Hl & st' & Hst).
    rewrite (world_eta w1), Hst, Hcalls, key_step_run, Hkey.
    eexists _, _, l. split; [reflexivity|]. cbn [calls].
    split; [reflexivity|]. split; [exact Hq|]. split; [left; reflexivity|].
    intros _. reflexivity.
  - destruct (Hraised e eq_refl) as [He Hn].
    exists e, w1, l. split; [reflexivity|].
    split; [exact Hcalls|]. split; [exact Hq|]. split; [right; exact He|].
    intros Hall. contradiction.
Qed.

End WriteFacts.

(* ===================================================================== *)
(** ** The parameter types that beginning a modification records *)
(* ===================================================================== *)

Lemma array_set_length {A} (l : list A) : forall i x,
  List.length (array_set l i x) = List.length l.
Proof.
  induction l as [|y l IH]; intros i x; [reflexivity|].
  destruct i; cbn; [reflexivity|]. rewrite IH. reflexivity.
Qed.

Lemma array_set_nth_same {A} (l : list A) : forall i x d,
  (i < List.length l)%nat -> nth i (array_set l i x) d = x.
Proof.
  induction l as [|y l IH]; intros i x d Hi; [cbn in Hi; lia|].
  destruct i; cbn; [reflexivity|]. apply IH. cbn in Hi. lia.
Qed.

Lemma array_set_nth_other {A} (l : list A) : forall i j x d,
  i <> j -> nth j (array_set l i x) d = nth j l d.
Proof.
  induction l as [|y l IH]; intros i j x d Hne; [reflexivity|].
  destruct i, j; cbn; try reflexivity; [congruence|]. apply IH. congruence.
Qed.

(** The loop over the targets writes the type of the target number [j]
    into the cell [nums + j] and leaves the cells below [nums] alone. *)
Lemma begin_target_types_cells tupdesc :
  forall targets oids nums w oids' nums' w',
    begin_target_types tupdesc targets oids nums w = (Done (oids', nums'), w') ->
    0 <= nums ->
    (Z.to_nat nums + List.length targets <= List.length oids)%nat ->
    nums' = nums + Z.of_nat (List.length targets) /\
    List.length oids' = List.length oids /\
    w' = w /\
    (forall (j : nat) attno attr,
       nth_error targets j = Some attno ->
       TupleDescAttr tupdesc (attno - 1) = Some attr ->
       nth (Z.to_nat nums + j) oids' InvalidOid = atttypid attr) /\
    (forall i, (i < Z.to_nat nums)%nat ->
       nth i oids' InvalidOid = nth i oids InvalidOid).
Proof.
  induction targets as [|a rest IH]; intros oids nums w oids' nums' w' Hrun Hpos Hlen.
  - cbn in Hrun. injection Hrun as <- <- <-.
    repeat split; try reflexivity; [cbn; lia|].
    intros j attno attr Hnth. destruct j; discriminate.
  - cbn [begin_target_types] in Hrun.
    destruct (TupleDescAttr tupdesc (a - 1)) as [attr0|] eqn:Hat; [|discriminate].
    cbn [List.length] in Hlen.
    apply IH in Hrun; [|lia|rewrite array_set_length; lia].
    destruct Hrun as (-> & Hl & -> & Hcells & Hbelow).
    rewrite array_set_length in Hl.
    split; [cbn [List.length]; lia|]. split; [exact Hl|]. split; [reflexivity|].
    split.
    + intros j attno attr Hnth Hattr. destruct j as [|j].
      * cbn in Hnth. injection Hnth as <-. rewrite Hat in Hattr.
        injection Hattr as <-. rewrite Nat.add_0_r.
        rewrite Hbelow by lia. apply array_set_nth_same. lia.
      * cbn in Hnth. specialize (Hcells j attno attr Hnth Hattr).
        replace (Z.to_nat nums + S j)%nat with (Z.to_nat (nums + 1) + j)%nat by lia.
        exact Hcells.
    + intros i Hi. rewrite Hbelow by lia.
      apply array_set_nth_other. lia.
Qed.

(** After [cassBeginForeignModify] for an INSERT or an UPDATE, the state
    holds the planned targets, and the type recorded for the position [j]
    is the type of the column that is the target number [j]. *)
Lemma cassBeginForeignModify_target_types operation r fdw_private tlist w w' :
  operation = CMD_INSERT \/ operation = CMD_UPDATE ->
  cassBeginForeignModify operation r fdw_private tlist false w = (Done tt, w') ->
  exists fm,
    ri_FdwState w' = Some fm /\
    rel fm = r /\
    target_attrs fm = FdwModifyPrivateTargetAttnums fdw_private /\
    sql_sent fm = false /\
    forall (j : nat) attno attr,
      nth_error (target_attrs fm) j = Some attno ->
      TupleDescAttr (rd_att r) (attno - 1) = Some attr ->
      type_oid_at fm (Z.of_nat j) = atttypid attr.
Proof.
  intros Hop Hrun. unfold cassBeginForeignModify in Hrun.
  unfold bind at 1 in Hrun. cbn [call modify] in Hrun.
  unfold bind at 1 in Hrun.
  set (targets := FdwModifyPrivateTargetAttnums fdw_private) in *.
  assert (Hstate : forall key oids nums,
            (forall (j : nat) attno attr,
               nth_error targets j = Some attno ->
               TupleDescAttr (rd_att r) (attno - 1) = Some attr ->
               nth j oids InvalidOid = atttypid attr) ->
            let fm := mkModifyState r true false None (cassGetWriteConsistencyOption r)
                        (FdwModifyPrivateUpdateSql fdw_private) targets
                        (FdwModifyPrivateHasReturning fdw_private)
                        (FdwModifyPrivateRetrievedAttrs fdw_private) key nums oids in
            rel fm = r /\ target_attrs fm = targets /\ sql_sent fm = false /\
            forall (j : nat) attno attr,
              nth_error (target_attrs fm) j = Some attno ->
              TupleDescAttr (rd_att r) (attno - 1) = Some attr ->
              type_oid_at fm (Z.of_nat j) = atttypid attr).
  { intros key oids nums Hcells fm. repeat split.
    intros j attno attr Hnth Hattr. unfold type_oid_at. cbn.
    destruct (Z.ltb_spec (Z.of_nat j) 0); [lia|].
    rewrite Nat2Z.id. exact (Hcells j attno attr Hnth Hattr). }
  destruct Hop as [-> | ->].
  - destruct (begin_target_types (rd_att r) targets _ 0 _)
      as [[[oids nums]|e] w1] eqn:Hloop; [|discriminate].
    apply begin_target_types_cells in Hloop; [|lia|rewrite repeat_length; lia].
    destruct Hloop as (_ & _ & -> & Hcells & _).
    cbn in Hrun. unfold set_fmstate, modify in Hrun. injection Hrun as <-.
    eexists. split; [reflexivity|]. apply Hstate. exact Hcells.
  - destruct (begin_target_types (rd_att r) targets _ 0 _)
      as [[[oids nums]|e] w1] eqn:Hloop; [|discriminate].
    apply begin_target_types_cells in Hloop; [|lia|rewrite repeat_length; lia].
    destruct Hloop as (-> & Hlen & -> & Hcells & _).
    unfold bind at 1 in Hrun. cbn [fst snd] in Hrun.
    match type of Hrun with
    | context [if ?c then _ else _] => destruct c; [cbn in Hrun; discriminate|]
    end.
    match type of Hrun with
    | context [match ?c with Some _ => _ | None => _ end] =>
        destruct c as [kattr|]; [|cbn in Hrun; discriminate]
    end.
    cbn in Hrun. unfold set_fmstate, modify in Hrun. injection Hrun as <-.
    eexists. split; [reflexivity|]. apply Hstate.
    intros j attno attr Hnth Hattr.
    rewrite array_set_nth_other; [exact (Hcells j attno attr Hnth Hattr)|].
    assert (j < List.length targets)%nat by (apply nth_error_Some; congruence).
    lia.
Qed.

(* ===================================================================== *)
(** ** A null for a smallint column *)
(* ===================================================================== *)

Section SmallintNull.

Variable session_tzoffset : Z -> Z.

(** When the targets before the null smallint can be bound, the error
    raised is the one of the smallint column. *)
Lemma bind_targets_loop_first_error op slot fm :
  forall targets k st cl (j : nat) attno,
    nth_error targets j = Some attno ->
    slot_getattr slot attno = None ->
    type_oid_at fm (k + Z.of_nat j) = INT2OID ->
    all_bound (target_bind_calls session_tzoffset fm slot (firstn j targets) k) ->
    exists w',
      bind_targets_loop session_tzoffset op slot targets k
        (mkModifyWorld (Some (with_statement fm st)) cl)
      = (Raised (smallint_null_error op), w').
Proof.
  induction targets as [|a rest IH]; intros k st cl j attno Hnth Hnull Hty Hall.
  - destruct j; discriminate.
  - rewrite bind_targets_loop_step. unfold bind. rewrite bind_one_run.
    destruct j as [|j].
    + cbn in Hnth. injection Hnth as ->. rewrite Z.add_0_r in Hty.
      rewrite Hnull. cbn [bind_call_for]. rewrite Hty. cbn.
      eexists. reflexivity.
    + cbn in Hnth. cbn [firstn target_bind_calls] in Hall.
      inversion Hall as [|o l Ho Hrest]; subst.
      destruct (bind_call_for session_tzoffset (type_oid_at fm k) k
                  (slot_getattr slot a)) as [c|]; [|congruence].
      apply (IH (k + 1) _ _ j attno Hnth Hnull); [|exact Hrest].
      rewrite <- Hty. f_equal. lia.
Qed.

Lemma prepare_smallint_null op sl fm cl (j : nat) attno :
  nth_error (target_attrs fm) j = Some attno ->
  slot_getattr sl attno = None ->
  type_oid_at fm (Z.of_nat j) = INT2OID ->
  exists e w1 l,
    prepare_and_bind_targets session_tzoffset op (Some sl)
      (mkModifyWorld (Some fm) cl) = (Raised e, w1) /\
    binding_error op e /\
    calls w1 = (cl ++ statement_new_calls fm ++ l)%list /\
    Forall (quiet fm) l /\
    (all_bound (target_bind_calls session_tzoffset fm sl
                  (firstn j (target_attrs fm)) 0) ->
     e = smallint_null_error op).
Proof.
  intros Hnth Hnull Hty.
  destruct (prepare_and_bind_targets session_tzoffset op (Some sl)
              (mkModifyWorld (Some fm) cl)) as [r w1] eqn:Hprep.
  pose proof Hprep as Hrun. rewrite prepare_and_bind_targets_run in Hrun.
  destruct (target_attrs fm) as [|a ta] eqn:Hta; [destruct j; discriminate|].
  destruct (bind_targets_loop_smallint_null session_tzoffset op sl fm (a :: ta) 0
              (statement_at_bind fm) (cl ++ statement_new_calls fm)%list
              j attno Hnth Hnull Hty) as (e & w' & Hloop).
  rewrite Hloop in Hrun. injection Hrun as <- <-.
  destruct (prepare_and_bind_targets_outcome _ _ _ _ _ _ _ Hprep)
    as (l & Hcalls & Hq & Hraised & _).
  exists e, w', l. split; [reflexivity|].
  split; [apply (Hraised e eq_refl)|]. split; [exact Hcalls|]. split; [exact Hq|].
  intros Hall.
  destruct (bind_targets_loop_first_error op sl fm (a :: ta) 0
              (statement_at_bind fm) (cl ++ statement_new_calls fm)%list
              j attno Hnth Hnull Hty Hall) as (w'' & Hfirst).
  rewrite Hfirst in Hloop. congruence.
Qed.

End SmallintNull.

(** C6. In an INSERT and in an UPDATE, a null value for a target column
    that is bound as a smallint makes the operation fail: an error is
    raised that tells what could not be bound, no remote call is made and
    no null is bound at a smallint position; the error is the smallint one
    whenever the targets before that column can be bound.  At the call
    itself: a null for the type smallint raises after the resources are
    released, and a null for any other type is bound as a null
    parameter. *)
Theorem smallint_null_fails_before_remote_call
    (session_tzoffset : Z -> Z) (fm : CassFdwModifyState) (cl : list DriverCall)
    (sl planSlot : TupleTableSlot) (future : CassFuture) (j : nat) (attno : Z) :
  nth_error (target_attrs fm) j = Some attno ->
  slot_getattr sl attno = None ->
  type_oid_at fm (Z.of_nat j) = INT2OID ->
  (exists e w' l,
     cassExecForeignInsert session_tzoffset (Some sl) future
       (mkModifyWorld (Some fm) cl) = (Raised e, w') /\
     binding_error "INSERT" e /\
     calls w' = (cl ++ statement_new_calls fm ++ l)%list /\
     Forall (quiet fm) l /\
     (all_bound (target_bind_calls session_tzoffset fm sl
                   (firstn j (target_attrs fm)) 0) ->
      e = smallint_null_error "INSERT")) /\
  (exists e w' l,
     cassExecForeignUpdate session_tzoffset (Some sl) planSlot future
       (mkModifyWorld (Some fm) cl) = (Raised e, w') /\
     binding_error "UPDATE" e /\
     calls w' = (cl ++ statement_new_calls fm ++ l)%list /\
     Forall (quiet fm) l /\
     (all_bound (target_bind_calls session_tzoffset fm sl
                   (firstn j (target_attrs fm)) 0) ->
      e = smallint_null_error "UPDATE")) /\
  (forall pindex opname,
     cassStatementBindNull pindex INT2OID opname (mkModifyWorld (Some fm) cl)
     = (Raised (smallint_null_error opname),
        mkModifyWorld (Some (with_cass_conn fm false)) (cl ++ release_calls fm))) /\
  (forall pindex ptypeid opname,
     ptypeid <> INT2OID ->
     cassStatementBindNull pindex ptypeid opname (mkModifyWorld (Some fm) cl)
     = (Done tt,
        mkModifyWorld
          (Some (with_statement fm
                   (option_map (fun st => cass_statement_bind st pindex CassNull)
                               (statement fm))))
          (cl ++ [call_bind_null pindex]))).
Proof.
  intros Hnth Hnull Hty. split; [|split; [|split]].
  - destruct (prepare_smallint_null session_tzoffset "INSERT" sl fm cl j attno
                Hnth Hnull Hty) as (e & w1 & l & Hprep & He & Hcalls & Hq & Hfirst).
    exists e, w1, l. split; [|auto].
    unfold cassExecForeignInsert. apply bind_raised. exact Hprep.
  - destruct (prepare_smallint_null session_tzoffset "UPDATE" sl fm cl j attno
                Hnth Hnull Hty) as (e & w1 & l & Hprep & He & Hcalls & Hq & Hfirst).
    exists e, w1, l. split; [|auto].
    unfold cassExecForeignUpdate, cassExecPKPredWrite. apply bind_raised. exact Hprep.
  - intros pindex opname. rewrite cassStatementBindNull_run. reflexivity.
  - intros pindex ptypeid opname Hne. rewrite cassStatementBindNull_run.
    destruct (Z.eqb_spec ptypeid INT2OID); [contradiction|reflexivity].
Qed.

Lemma smallint_null_fails_witness :
  exists fm,
    begun_state pg_quote_identifier CMD_INSERT scenario_table 0%N [] = Some fm /\
    exists e w' l,
      cassExecForeignInsert utc
        (Some [Some (DatumWord 1); None; Some (DatumWord 2); Some (DatumWord 1)])
        reply_ok (mkModifyWorld (Some fm) []) = (Raised e, w') /\
      e = smallint_null_error "INSERT" /\
      calls w' = ([] ++ statement_new_calls fm ++ l)%list /\
      Forall (quiet fm) l.
Proof.
  eexists. split; [vm_compute; reflexivity|].
  match goal with
  | |- exists e w' l, cassExecForeignInsert _ _ _ (mkModifyWorld (Some ?fm) _) = _ /\ _ =>
      destruct (smallint_null_fails_before_remote_call utc fm []
                  [Some (DatumWord 1); None; Some (DatumWord 2); Some (DatumWord 1)]
                  [] reply_ok 1%nat 2)
        as ((e & w' & l & Hrun & _ & Hcalls & Hq & Hfirst) & _)
  end.
  - reflexivity.
  - reflexivity.
  - reflexivity.
  - exists e, w', l. split; [exact Hrun|]. split; [|split; [exact Hcalls|exact Hq]].
    apply Hfirst. vm_compute. repeat constructor; discriminate.
Defined.

(* ===================================================================== *)
(** ** A null key *)
(* ===================================================================== *)

Lemma quiet_no_execute fm l : Forall (quiet fm) l -> no_execute l.
Proof.
  unfold no_execute. intros H. eapply Forall_impl; [|exact H].
  intros c. destruct c; cbn; try reflexivity. contradiction.
Qed.

Lemma statement_new_calls_no_execute fm : no_execute (statement_new_calls fm).
Proof.
  unfold statement_new_calls, no_execute.
  destruct (sql_sent fm); repeat constructor.
Qed.

(** C7, as stated, fails: in an UPDATE that sets the smallint column [v1]
    of the scenario table to null, with a null carried key, the error
    raised is not the one of the primary key. *)
Lemma null_key_behind_null_smallint :
  ~ (fst (write_one pg_quote_identifier CMD_UPDATE scenario_table (attr_bit 2) []
            (Some [Some (DatumWord 1); None; Some (DatumWord 2); Some (DatumWord 1)])
            [None] reply_ok)
     = Raised (primary_key_null_error scenario_table)).
Proof. vm_compute. discriminate. Qed.

(** C7, amended.  An UPDATE or a DELETE whose carried key is null raises an
    error and makes no remote call.  The error is the one of the null
    primary key, unless binding a target column has raised before the key
    is looked at; it is the one of the primary key whenever the targets can
    be bound, and always when there are no targets, as in a DELETE. *)
Theorem null_key_never_written
    (session_tzoffset : Z -> Z) (fm : CassFdwModifyState) (cl : list DriverCall)
    (slot : option TupleTableSlot) (planSlot : TupleTableSlot) (opname : string)
    (future : CassFuture) :
  ExecGetJunkAttribute planSlot (keyAttno fm) = None ->
  exists e w' l,
    cassExecPKPredWrite session_tzoffset slot planSlot opname future
      (mkModifyWorld (Some fm) cl) = (Raised e, w') /\
    calls w' = (cl ++ l)%list /\
    no_execute l /\
    (e = primary_key_null_error (rel fm) \/ binding_error opname e) /\
    (all_bound (expected_target_binds session_tzoffset fm slot) ->
     e = primary_key_null_error (rel fm)) /\
    (target_attrs fm = [] -> e = primary_key_null_error (rel fm)).
Proof.
  intros Hkey.
  destruct (cassExecPKPredWrite_null_key session_tzoffset slot planSlot opname
              future fm cl Hkey) as (e & w' & l & Hrun & Hcalls & Hq & He & Hall).
  exists e, w', (statement_new_calls fm ++ l)%list.
  split; [exact Hrun|]. split; [exact Hcalls|]. split.
  - apply Forall_app. split;
      [apply statement_new_calls_no_execute|apply (quiet_no_execute fm); exact Hq].
  - split; [exact He|]. split; [exact Hall|].
    intros Hta. apply Hall. unfold expected_target_binds.
    destruct slot; [rewrite Hta|]; constructor.
Qed.

Lemma null_key_never_written_witness :
  exists fm,
    begun_state pg_quote_identifier CMD_DELETE scenario_table 0%N scenario_key_tlist
    = Some fm /\
    exists e w' l,
      cassExecPKPredWrite utc None [None] "DELETE" reply_ok
        (mkModifyWorld (Some fm) []) = (Raised e, w') /\
      calls w' = ([] ++ l)%list /\
      no_execute l /\
      e = primary_key_null_error scenario_table.
Proof.
  eexists. split; [vm_compute; reflexivity|].
  match goal with
  | |- exists e w' l, cassExecPKPredWrite _ _ _ _ _ (mkModifyWorld (Some ?fm) _) = _ /\ _ =>
      destruct (null_key_never_written utc fm [] None [None] "DELETE" reply_ok)
        as (e & w' & l & Hrun & Hcalls & Hq & _ & _ & Hdel)
  end.
  - reflexivity.
  - exists e, w', l. split; [exact Hrun|]. split; [exact Hcalls|]. split; [exact Hq|].
    rewrite Hdel; reflexivity.
Defined.

(* ===================================================================== *)
(** ** The order of the parameters *)
(* ===================================================================== *)

Section ParameterOrder.

Variable session_tzoffset : Z -> Z.

Lemma bind_call_for_position ty k v c :
  bind_call_for session_tzoffset ty k v = Some c -> bind_position c = Some k.
Proof.
  unfold bind_call_for. destruct v as [value|].
  - destruct (param_of_datum session_tzoffset ty value); [|discriminate].
    intros [= <-]. reflexivity.
  - destruct (ty =? INT2OID); [discriminate|]. intros [= <-]. reflexivity.
Qed.

(** The binding of the target at the index [j] of the list is the one of
    the value of that column, at the position [j] after the first. *)
Lemma target_bind_calls_nth fm slot : forall targets k (j : nat) attno,
  nth_error targets j = Some attno ->
  nth_error (target_bind_calls session_tzoffset fm slot targets k) j
  = Some (bind_call_for session_tzoffset (type_oid_at fm (k + Z.of_nat j))
            (k + Z.of_nat j) (slot_getattr slot attno)).
Proof.
  induction targets as [|a rest IH]; intros k j attno Hnth.
  - destruct j; discriminate.
  - destruct j as [|j].
    + cbn in Hnth. injection Hnth as ->. cbn. rewrite Z.add_0_r. reflexivity.
    + cbn in Hnth. cbn [target_bind_calls nth_error].
      rewrite (IH (k + 1) j attno Hnth).
      replace (k + 1 + Z.of_nat j) with (k + Z.of_nat (S j)) by lia.
      reflexivity.
Qed.

Lemma expected_binds_positions fm slot planSlot (j : nat) c :
  let targets := expected_target_binds session_tzoffset fm slot in
  let key := key_bind_call session_tzoffset fm planSlot
               (Z.of_nat (List.length targets)) in
  nth_error (targets ++ [key]) j = Some (Some c) ->
  bind_position c = Some (Z.of_nat j).
Proof.
  intros targets key Hnth.
  destruct (Nat.lt_ge_cases j (List.length targets)) as [Hlt|Hge].
  - rewrite nth_error_app1 in Hnth by exact Hlt.
    subst targets. unfold expected_target_binds in *.
    destruct slot as [sl|]; [|cbn in Hlt; lia].
    rewrite target_bind_calls_length in Hlt.
    destruct (nth_error (target_attrs fm) j) as [attno|] eqn:Hatt;
      [|apply nth_error_None in Hatt; lia].
    rewrite (target_bind_calls_nth fm sl _ 0 j attno Hatt) in Hnth.
    injection Hnth as Hc. apply bind_call_for_position in Hc. exact Hc.
  - rewrite nth_error_app2 in Hnth by exact Hge.
    destruct (j - List.length targets)%nat as [|d] eqn:Hd;
      [|destruct d; discriminate].
    assert (j = List.length targets) by lia. subst j.
    cbn in Hnth. injection Hnth as Hc. subst key. unfold key_bind_call in Hc.
    destruct (ExecGetJunkAttribute planSlot (keyAttno fm)); [|discriminate].
    apply bind_call_for_position in Hc. exact Hc.
Qed.

End ParameterOrder.

(** C8. For every target attribute list: an INSERT that returns has made,
    between creating the statement and the one remote call, exactly the
    bindings of the target columns, in the order of the list; an UPDATE or
    DELETE that returns has made those and then the binding of the carried
    key, last; each path returns whenever all its bindings are available
    and the remote answers [CASS_OK].  The binding number [j] writes the
    position [j], counted from zero, and binds the value that the slot
    holds for the target number [j].  The deparsed statements carry the
    target columns in the same order, one placeholder for each, and the
    placeholder of the key after them. *)
Theorem parameters_bound_in_target_order
    (session_tzoffset : Z -> Z) (quote_identifier : string -> string)
    (fm : CassFdwModifyState) (cl : list DriverCall)
    (sl : TupleTableSlot) (planSlot : TupleTableSlot) (opname : string)
    (future : CassFuture) :
  let targets := target_bind_calls session_tzoffset fm sl (target_attrs fm) 0 in
  let key := key_bind_call session_tzoffset fm planSlot
               (Z.of_nat (List.length (target_attrs fm))) in
  (forall r w',
     cassExecForeignInsert session_tzoffset (Some sl) future
       (mkModifyWorld (Some fm) cl) = (Done r, w') ->
     all_bound targets /\
     exists st,
       calls w' = (cl ++ statement_new_calls fm ++ the_calls targets
                   ++ [call_set_consistency (write_consistency fm);
                       call_session_execute st])%list) /\
  (all_bound targets -> cass_future_error_code future = CASS_OK ->
   exists w',
     cassExecForeignInsert session_tzoffset (Some sl) future
       (mkModifyWorld (Some fm) cl) = (Done (Some sl), w')) /\
  (forall r w',
     cassExecPKPredWrite session_tzoffset (Some sl) planSlot opname future
       (mkModifyWorld (Some fm) cl) = (Done r, w') ->
     all_bound (targets ++ [key]) /\
     exists st,
       calls w' = (cl ++ statement_new_calls fm ++ the_calls (targets ++ [key])
                   ++ [call_set_consistency (write_consistency fm);
                       call_session_execute st])%list) /\
  (all_bound (targets ++ [key]) -> cass_future_error_code future = CASS_OK ->
   exists w',
     cassExecPKPredWrite session_tzoffset (Some sl) planSlot opname future
       (mkModifyWorld (Some fm) cl) = (Done (Some sl), w')) /\
  (forall (j : nat) c,
     nth_error (targets ++ [key]) j = Some (Some c) ->
     bind_position c = Some (Z.of_nat j)) /\
  (forall (j : nat) attno,
     nth_error (target_attrs fm) j = Some attno ->
     nth_error targets j
     = Some (bind_call_for session_tzoffset (type_oid_at fm (Z.of_nat j))
               (Z.of_nat j) (slot_getattr sl attno))) /\
  (Forall (is_column (rel fm)) (target_attrs fm) ->
   forall doNothing primaryKey,
     cassDeparseInsertSql quote_identifier (rel fm) (target_attrs fm) doNothing ""
     = (Done tt, insert_text quote_identifier (rel fm) (target_attrs fm) doNothing) /\
     cassDeparseUpdateSql quote_identifier (rel fm) (target_attrs fm) primaryKey ""
     = (Done tt, update_text quote_identifier (rel fm) (target_attrs fm) primaryKey) /\
     cassDeparseDeleteSql quote_identifier (rel fm) primaryKey ""
     = (Done tt, delete_text quote_identifier (rel fm) primaryKey)).
Proof.
  intros targets key.
  assert (Hlen : List.length targets = List.length (target_attrs fm))
    by apply target_bind_calls_length.
  split; [|split; [|split; [|split; [|split; [|split]]]]].
  - intros r w' Hrun. apply cassExecForeignInsert_done in Hrun.
    destruct Hrun as (_ & _ & Hall & Hcalls). split; assumption.
  - apply cassExecForeignInsert_total.
  - intros r w' Hrun. apply cassExecPKPredWrite_done in Hrun.
    cbn [expected_target_binds] in Hrun. fold targets in Hrun.
    rewrite Hlen in Hrun. fold key in Hrun.
    destruct Hrun as (_ & _ & Hall & Hcalls). split; assumption.
  - intros Hall Hok.
    apply (cassExecPKPredWrite_total session_tzoffset (Some sl) planSlot opname
             future fm cl); [|exact Hok].
    cbn [expected_target_binds]. fold targets. rewrite Hlen. exact Hall.
  - intros j c Hnth.
    apply (expected_binds_positions session_tzoffset fm (Some sl) planSlot j c).
    cbn [expected_target_binds]. fold targets. rewrite Hlen. exact Hnth.
  - intros j attno Hnth.
    apply (target_bind_calls_nth session_tzoffset fm sl (target_attrs fm) 0 j attno Hnth).
  - intros Hcols doNothing primaryKey. split; [|split].
    + apply cassDeparseInsertSql_run. exact Hcols.
    + apply cassDeparseUpdateSql_run. exact Hcols.
    + apply cassDeparseDeleteSql_run.
Qed.

Lemma parameters_bound_in_target_order_witness :
  exists fm,
    begun_state pg_quote_identifier CMD_UPDATE scenario_table (attr_bit 4)
      scenario_key_tlist = Some fm /\
    (exists w',
       cassExecPKPredWrite utc
         (Some [Some (DatumWord 1); Some (DatumWord 0); Some (DatumWord 2);
                Some (DatumWord 1)])
         [Some (DatumWord 1)] "UPDATE" reply_ok (mkModifyWorld (Some fm) [])
       = (Done (Some [Some (DatumWord 1); Some (DatumWord 0); Some (DatumWord 2);
                      Some (DatumWord 1)]), w')) /\
    cassDeparseUpdateSql pg_quote_identifier (rel fm) (target_attrs fm) "id" ""
    = (Done tt, "UPDATE ks.t SET v3 = ? WHERE id = ?").
Proof.
  eexists. split; [vm_compute; reflexivity|].
  match goal with
  | |- (exists w', cassExecPKPredWrite _ _ _ _ _ (mkModifyWorld (Some ?st) _) = _) /\ _ =>
      set (fm := st)
  end.
  match goal with
  | |- _ =>
      destruct (parameters_bound_in_target_order utc pg_quote_identifier fm []
                  [Some (DatumWord 1); Some (DatumWord 0); Some (DatumWord 2);
                   Some (DatumWord 1)]
                  [Some (DatumWord 1)] "UPDATE" reply_ok)
        as (_ & _ & _ & Htotal & _ & _ & Htext)
  end.
  split.
  - apply Htotal; [|reflexivity].
    vm_compute. repeat constructor; discriminate.
  - assert (Hcols : Forall (is_column (rel fm)) (target_attrs fm))
      by (vm_compute; repeat constructor; discriminate).
    destruct (Htext Hcols false "id") as (_ & Hupd & _).
    rewrite Hupd. vm_compute. reflexivity.
Defined.

(** The UPDATE and the DELETE of the scenarios: the statement, and the
    parameters in the order they are bound. *)
Example update_scenario :
  let run := write_one pg_quote_identifier CMD_UPDATE scenario_table (attr_bit 4)
               []
               (Some [Some (DatumWord 1); Some (DatumWord 0); Some (DatumWord 2);
                      Some (DatumWord 1)])
               [Some (DatumWord 1)] reply_ok in
  filter (fun c => is_bind c || is_execute c) (calls (snd run))
  = [ call_bind 0 (CassBool true); call_bind 1 (CassInt32 1);
      call_session_execute
        (Some (mkStatement "UPDATE ks.t SET v3 = ? WHERE id = ?"
                 [Some (CassBool true); Some (CassInt32 1)]
                 (Some CASS_CONSISTENCY_LOCAL_ONE))) ].
Proof. vm_compute. reflexivity. Qed.

Example delete_scenario :
  let run := write_one pg_quote_identifier CMD_DELETE scenario_table 0%N []
               None [Some (DatumWord 1)] reply_ok in
  filter (fun c => is_bind c || is_execute c) (calls (snd run))
  = [ call_bind 0 (CassInt32 1);
      call_session_execute
        (Some (mkStatement "DELETE FROM ks.t WHERE id = ?"
                 [Some (CassInt32 1)] (Some CASS_CONSISTENCY_LOCAL_ONE))) ].
Proof. vm_compute. reflexivity. Qed.

(* ===================================================================== *)
(** ** Writing a value and reading it back *)
(* ===================================================================== *)

(** C2, at the failing input.  The bind path has no case for the types
    UUID and inet: for every value, every position and every state,
    binding raises the error of the unsupported type and changes nothing;
    the INSERT of a row with a UUID into a table with such a column raises
    that error after binding the columns before it, and makes no remote
    call, so that no value is written that could be read back.  The read
    path has both types: it hands on the text the driver gives for them. *)
Theorem uuid_and_inet_are_not_bound :
  (forall session_tzoffset value pindex w,
     bind_cass_statement_param session_tzoffset UUIDOID value pindex w
     = (Raised (type_not_supported_error UUIDOID), w) /\
     bind_cass_statement_param session_tzoffset INETOID value pindex w
     = (Raised (type_not_supported_error INETOID), w)) /\
  message (type_not_supported_error UUIDOID)
  = "Data type with OID 2950 not supported." /\
  (let run := insert_one pg_quote_identifier uuid_table uuid_row reply_ok in
   fst run = Raised (type_not_supported_error UUIDOID) /\
   filter (fun c => is_bind c || is_execute c) (calls (snd run))
   = [ call_bind 0 (CassInt32 1) ]) /\
  (forall fmt_f_float fmt_f_double asctime_gmtime cass_uuid_string cass_inet_string
          u address buf,
     Scan.pgcass_transferValue fmt_f_float fmt_f_double asctime_gmtime
       cass_uuid_string cass_inet_string (CASS_VALUE_UUID u) buf
     = (Done tt, buf ++ cass_uuid_string u) /\
     Scan.pgcass_transferValue fmt_f_float fmt_f_double asctime_gmtime
       cass_uuid_string cass_inet_string (CASS_VALUE_INET address) buf
     = (Done tt, buf ++ cass_inet_string address)).
Proof.
  split; [|split; [|split]].
  - intros session_tzoffset value pindex w. split; reflexivity.
  - vm_compute. reflexivity.
  - vm_compute. split; reflexivity.
  - intros. split; reflexivity.
Qed.

(* ===================================================================== *)
(** ** A fetch that fails *)
(* ===================================================================== *)

Section FetchFacts.

Variable fmt_f_float : Z -> string.
Variable fmt_f_double : Z -> string.
Variable asctime_gmtime : Z -> string.
Variable cass_uuid_string : Z -> string.
Variable cass_inet_string : list Z -> string.
Variable InputFunctionCall : Oid -> option string -> Outcome Datum.

Let fetch := Scan.fetch_more_data fmt_f_float fmt_f_double asctime_gmtime
               cass_uuid_string cass_inet_string InputFunctionCall.

Let steps := run_scan_calls fmt_f_float fmt_f_double asctime_gmtime
               cass_uuid_string cass_inet_string InputFunctionCall.

Let step := run_scan_call fmt_f_float fmt_f_double asctime_gmtime
              cass_uuid_string cass_inet_string InputFunctionCall.

Lemma fetch_more_data_failed result_future code w :
  rf_error_code result_future = CASS_ERROR code ->
  fetch result_future w
  = (Done tt,
     Scan.mkScanWorld
       (Scan.set_eof_reached true
          (Scan.set_statement
             (option_map
                (fun st => cass_statement_set_consistency st
                             (Scan.read_consistency (Scan.fdw_state w)))
                (Scan.statement (Scan.fdw_state w)))
             (Scan.set_tuples None (Scan.fdw_state w))))
       (Scan.calls w
        ++ [call_set_consistency (Scan.read_consistency (Scan.fdw_state w));
            call_session_execute
              (option_map
                 (fun st => cass_statement_set_consistency st
                              (Scan.read_consistency (Scan.fdw_state w)))
                 (Scan.statement (Scan.fdw_state w)))])
       (Scan.reported w
        ++ [mkReport ERROR (rf_error_message result_future)
              (Some (Scan.query (Scan.fdw_state w)))])).
Proof.
  intros Herr. subst fetch. unfold Scan.fetch_more_data.
  rewrite Herr. destruct w as [fs cl rep]. cbn. rewrite <- app_assoc. reflexivity.
Qed.

(** Once the cursor exists and the end of the data is flagged, asking
    for rows and rescanning make no call. *)
Lemma ended_scan_step c w :
  Scan.sql_sended (Scan.fdw_state w) = true ->
  Scan.eof_reached (Scan.fdw_state w) = true ->
  Scan.sql_sended (Scan.fdw_state (step c w)) = true /\
  Scan.eof_reached (Scan.fdw_state (step c w)) = true /\
  Scan.calls (step c w) = Scan.calls w.
Proof.
  intros Hsent Heof. destruct w as [fs cl rep]. destruct fs. cbn in Hsent, Heof.
  subst. destruct c as [result_future|].
  - subst step. unfold run_scan_call, Scan.cassIterateForeignScan.
    unfold Scan.fsstate, Scan.update, bind, get, ret, modify, elog_ERROR, ereport.
    simpl.
    destruct (num_tuples <=? next_tuple) eqn:Hnum; simpl; rewrite Hnum;
      [repeat split|].
    destruct tuples as [ts|]; [|repeat split].
    destruct (next_tuple <? 0); [repeat split|].
    destruct (nth_error ts (Z.to_nat next_tuple)); repeat split.
  - unfold step, run_scan_call, Scan.cassReScanForeignScan.
    unfold Scan.fsstate, Scan.update, bind, get, ret, modify. simpl.
    repeat split.
Qed.

Lemma ended_scan_quiet : forall l w,
  Scan.sql_sended (Scan.fdw_state w) = true ->
  Scan.eof_reached (Scan.fdw_state w) = true ->
  Scan.calls (steps l w) = Scan.calls w.
Proof.
  induction l as [|c rest IH]; intros w Hsent Heof; [reflexivity|].
  destruct (ended_scan_step c w Hsent Heof) as (Hs & He & Hc).
  subst steps. cbn [run_scan_calls].
  fold step. rewrite <- Hc. apply IH; assumption.
Qed.

End FetchFacts.

(** C3. When the execute of a fetch comes back with an error code, the
    fetch has made that one remote call and no other, hands the message of
    the remote, with the statement text, to the error report at the level
    ERROR, and leaves the end-of-data flag set.  After that, with the
    cursor created, whatever rows are asked for and however often the scan
    is rescanned, no further call is made: the fetch is not tried again. *)
Theorem failed_fetch_reports_and_ends
    (fmt_f_float fmt_f_double asctime_gmtime cass_uuid_string : Z -> string)
    (cass_inet_string : list Z -> string)
    (InputFunctionCall : Oid -> option string -> Outcome Datum)
    (result_future : CassResultFuture) (code : Z) (w : Scan.ScanWorld) :
  rf_error_code result_future = CASS_ERROR code ->
  let run := Scan.fetch_more_data fmt_f_float fmt_f_double asctime_gmtime
               cass_uuid_string cass_inet_string InputFunctionCall
               result_future w in
  fst run = Done tt /\
  Scan.eof_reached (Scan.fdw_state (snd run)) = true /\
  Scan.reported (snd run)
  = (Scan.reported w
     ++ [mkReport ERROR (rf_error_message result_future)
           (Some (Scan.query (Scan.fdw_state w)))])%list /\
  (exists st,
     Scan.calls (snd run)
     = (Scan.calls w
        ++ [call_set_consistency (Scan.read_consistency (Scan.fdw_state w));
            call_session_execute st])%list) /\
  (Scan.sql_sended (Scan.fdw_state w) = true ->
   forall later,
     Scan.calls (run_scan_calls fmt_f_float fmt_f_double asctime_gmtime
                   cass_uuid_string cass_inet_string InputFunctionCall
                   later (snd run))
     = Scan.calls (snd run)).
Proof.
  intros Herr run. subst run.
  rewrite (fetch_more_data_failed _ _ _ _ _ _ _ code w Herr).
  cbn [fst snd Scan.fdw_state Scan.calls Scan.reported].
  split; [reflexivity|]. split; [reflexivity|]. split; [reflexivity|].
  split; [eexists; reflexivity|].
  intros Hsent later. apply ended_scan_quiet; [|reflexivity].
  destruct w as [fs cl rep]. destruct fs. exact Hsent.
Qed.

Lemma failed_fetch_reports_and_ends_witness :
  let none := fun _ : Z => "" in
  let run := Scan.fetch_more_data none none none none (fun _ => "")
               (fun _ _ => Done (DatumWord 0)) reply_unavailable scenario_scan in
  fst run = Done tt /\
  Scan.eof_reached (Scan.fdw_state (snd run)) = true /\
  Scan.reported (snd run)
  = [mkReport ERROR "Cannot achieve consistency level LOCAL_ONE"
       (Some "SELECT id, v1, v2, v3 FROM ks.t")] /\
  Scan.calls
    (run_scan_calls none none none none (fun _ => "") (fun _ _ => Done (DatumWord 0))
       [ask_next reply_unavailable; ask_rescan; ask_next reply_unavailable] (snd run))
  = Scan.calls (snd run).
Proof.
  intros none run.
  destruct (failed_fetch_reports_and_ends none none none none (fun _ => "")
              (fun _ _ => Done (DatumWord 0)) reply_unavailable 1 scenario_scan
              eq_refl) as (Hdone & Heof & Hrep & _ & Hquiet).
  split; [exact Hdone|]. split; [exact Heof|]. split; [exact Hrep|].
  apply Hquiet. reflexivity.
Defined.

(* ===================================================================== *)
(** ** What the validator lets through *)
(* ===================================================================== *)

Lemma options_named_length name def rest :
  List.length (options_named name (def :: rest))
  = (hit (defname def) name + List.length (options_named name rest))%nat.
Proof.
  unfold options_named, hit. cbn [filter].
  destruct (streq (defname def) name); reflexivity.
Qed.

Lemma is_valid_in_spec opts option context :
  Validator.is_valid_in opts option context = true <-> In (Validator.mkOption option context) opts.
Proof.
  induction opts as [|opt rest IH]; cbn; [split; [discriminate|tauto]|].
  destruct opt as [n c]. cbn [Validator.optname Validator.optcontext]. unfold streq.
  destruct (Z.eqb_spec context c) as [->|Hc];
    destruct (String.eqb_spec n option) as [->|Hn]; cbn.
  - split; [left; reflexivity|reflexivity].
  - rewrite IH. split; [tauto|]. intros [Heq|H]; [inversion Heq; congruence|exact H].
  - rewrite IH. split; [tauto|]. intros [Heq|H]; [inversion Heq; congruence|exact H].
  - rewrite IH. split; [tauto|]. intros [Heq|H]; [inversion Heq; congruence|exact H].
Qed.

(** A value found by a loop over the options was the cursor or is the
    value of an option of that name. *)
Lemma last_option_found name : forall options cur v,
  last_option name options cur = Some v ->
  cur = Some v \/
  exists def, In def options /\ defname def = name /\ defGetString def = v.
Proof.
  induction options as [|def rest IH]; intros cur v H; [left; exact H|].
  cbn [last_option] in H. unfold streq in H.
  destruct (String.eqb_spec (defname def) name) as [Hn|Hn].
  - apply IH in H. destruct H as [[= <-]|(d & Hin & Hd)].
    + right. exists def. repeat split; [left; reflexivity|exact Hn].
    + right. exists d. split; [right; tauto|tauto].
  - apply IH in H. destruct H as [H|(d & Hin & Hd)]; [left; exact H|].
    right. exists d. split; [right; tauto|tauto].
Qed.

Lemma last_option_none name : forall options cur,
  options_named name options = [] -> last_option name options cur = cur.
Proof.
  induction options as [|def rest IH]; intros cur H; [reflexivity|].
  unfold options_named in H. cbn [filter last_option] in *.
  destruct (streq (defname def) name); [discriminate|]. apply IH. exact H.
Qed.

Section ValidatorFacts.

Import Validator.

Variable atoi : string -> Z.

Lemma validate_option_accepted catalog def l l' :
  validate_option atoi catalog def l = Accepted l' ->
  cassIsValidOption (defname def) catalog = true /\
  seen (svr_host l') = (seen (svr_host l) + hit (defname def) "host")%nat /\
  seen (svr_username l') = (seen (svr_username l) + hit (defname def) "username")%nat /\
  seen (svr_password l') = (seen (svr_password l) + hit (defname def) "password")%nat /\
  seen (svr_query l') = (seen (svr_query l) + hit (defname def) "query")%nat /\
  seen (svr_schema l') = (seen (svr_schema l) + hit (defname def) "schema_name")%nat /\
  seen (svr_table l') = (seen (svr_table l) + hit (defname def) "table_name")%nat /\
  seen (primary_key l') = (seen (primary_key l) + hit (defname def) OPT_PK)%nat /\
  ((seen (svr_query l) + seen (svr_table l) <= 1)%nat ->
   (seen (svr_query l') + seen (svr_table l') <= 1)%nat).
Proof.
  destruct def as [name value]. cbn [defname]. unfold validate_option.
  cbn [defname defGetString].
  destruct (cassIsValidOption name catalog); [|discriminate].
  cbn [negb]. unfold hit, streq, OPT_PK.
  intros H. split; [reflexivity|].
  destruct l as [h p u pw q s t k rc wc].
  cbn [svr_host svr_port svr_username svr_password svr_query svr_schema svr_table
       primary_key Validator.read_consistency Validator.write_consistency] in *.
  repeat match goal with
  | |- context [String.eqb name ?lit] =>
      let E := fresh "E" in
      destruct (String.eqb name lit) eqn:E;
        [apply String.eqb_eq in E; subst name; cbn in H |- *|]
  end;
  repeat match type of H with
  | context [String.eqb name ?lit] =>
      let E := fresh "E" in
      destruct (String.eqb name lit) eqn:E;
        [apply String.eqb_eq in E; subst name; cbn in H |- *|]
  end;
  unfold and_then, once in H; cbn in H;
  repeat match type of H with
  | context [match ?x with _ => _ end] =>
      is_var x; destruct x; cbn in H; try discriminate
  | context [negb (?x =? 0)] => destruct (x =? 0); cbn in H; try discriminate
  | context [consistency_from_string ?v] =>
      destruct (consistency_from_string v); cbn in H; try discriminate
  end;
  try (injection H as <-); cbn; repeat split; try lia.
Qed.

(** What an accepted option leaves for the consistency levels. *)
Lemma validate_option_levels catalog def l l' :
  validate_option atoi catalog def l = Accepted l' ->
  (defname def = "read_consistency" ->
   consistency_from_string (defGetString def) <> CASS_CONSISTENCY_UNKNOWN /\
   consistency_from_string (defGetString def) <> CASS_CONSISTENCY_ANY) /\
  (defname def = "write_consistency" ->
   consistency_from_string (defGetString def) <> CASS_CONSISTENCY_UNKNOWN).
Proof.
  destruct def as [name value]. cbn [defname defGetString].
  unfold validate_option. cbn [defname defGetString].
  destruct (cassIsValidOption name catalog); [|discriminate]. cbn [negb].
  intros H. split; intros ->; cbn in H; unfold and_then, once in H; cbn in H.
  - destruct (consistency_from_string value); try discriminate;
      split; discriminate.
  - destruct (consistency_from_string value); try discriminate; discriminate.
Qed.

(** The loop over the options, when it accepts them all: every name is
    valid for the catalog, and each pointer tells how often its option
    was met. *)
Lemma validate_options_accepted catalog : forall options_list l l',
  validate_options atoi catalog options_list l = Accepted l' ->
  Forall (fun def => cassIsValidOption (defname def) catalog = true) options_list /\
  seen (svr_host l')
  = (seen (svr_host l) + List.length (options_named "host" options_list))%nat /\
  seen (svr_username l')
  = (seen (svr_username l) + List.length (options_named "username" options_list))%nat /\
  seen (svr_password l')
  = (seen (svr_password l) + List.length (options_named "password" options_list))%nat /\
  seen (svr_query l')
  = (seen (svr_query l) + List.length (options_named "query" options_list))%nat /\
  seen (svr_schema l')
  = (seen (svr_schema l) + List.length (options_named "schema_name" options_list))%nat /\
  seen (svr_table l')
  = (seen (svr_table l) + List.length (options_named "table_name" options_list))%nat /\
  seen (primary_key l')
  = (seen (primary_key l) + List.length (options_named OPT_PK options_list))%nat /\
  ((seen (svr_query l) + seen (svr_table l) <= 1)%nat ->
   (seen (svr_query l') + seen (svr_table l') <= 1)%nat) /\
  Forall (fun def =>
            (defname def = "read_consistency" ->
             consistency_from_string (defGetString def) <> CASS_CONSISTENCY_UNKNOWN /\
             consistency_from_string (defGetString def) <> CASS_CONSISTENCY_ANY) /\
            (defname def = "write_consistency" ->
             consistency_from_string (defGetString def) <> CASS_CONSISTENCY_UNKNOWN))
         options_list.
Proof.
  induction options_list as [|def rest IH]; intros l l' Hrun.
  - cbn in Hrun. injection Hrun as <-. cbn.
    repeat split; try lia; constructor.
  - cbn [validate_options] in Hrun. unfold and_then in Hrun.
    destruct (validate_option atoi catalog def l) as [l1|e] eqn:Hstep; [|discriminate].
    pose proof (validate_option_levels _ _ _ _ Hstep) as Hlevels.
    apply validate_option_accepted in Hstep.
    destruct Hstep as (Hv & H1 & H2 & H3 & H4 & H5 & H6 & H7 & H8).
    apply IH in Hrun.
    destruct Hrun as (Hvs & R1 & R2 & R3 & R4 & R5 & R6 & R7 & R8 & Rl).
    rewrite !options_named_length.
    repeat split; try lia; constructor; assumption.
Qed.

End ValidatorFacts.

(** X1. The options the validator accepts for an object bear only names
    that the table of valid options lists for the catalog of the object,
    and none of [host], [username], [password], [query], [schema_name],
    [table_name] and [primary_key] is given twice. *)
Theorem validator_accepts_listed_names_once
    (atoi : string -> Z) (options_list : list DefElem) (catalog : Oid) :
  Validator.cstar_fdw_validator atoi options_list catalog = Validator.Accepted tt ->
  Forall (fun def =>
            In (Validator.mkOption (defname def) catalog) Validator.valid_options)
         options_list /\
  Forall (fun name => (List.length (options_named name options_list) <= 1)%nat)
         ["host"; "username"; "password"; "query"; "schema_name"; "table_name";
          OPT_PK].
Proof.
  unfold Validator.cstar_fdw_validator, Validator.and_then. intros H.
  destruct (Validator.validate_options atoi catalog options_list
              Validator.locals_at_entry) as [l|e] eqn:Hrun; [|discriminate].
  apply validate_options_accepted in Hrun.
  destruct Hrun as (Hv & R1 & R2 & R3 & R4 & R5 & R6 & R7 & _).
  cbn [Validator.locals_at_entry Validator.svr_host Validator.svr_username
       Validator.svr_password Validator.svr_query Validator.svr_schema
       Validator.svr_table Validator.primary_key seen Nat.add] in *.
  split.
  - eapply Forall_impl; [|exact Hv]. intros def Hd.
    apply is_valid_in_spec. exact Hd.
  - assert (Hs : forall p : option string, (seen p <= 1)%nat)
      by (intros [x|]; cbn; lia).
    repeat apply Forall_cons; try apply Forall_nil;
      [rewrite <- R1|rewrite <- R2|rewrite <- R3|rewrite <- R4|rewrite <- R5
      |rewrite <- R6|rewrite <- R7]; apply Hs.
Qed.

Lemma validator_accepts_listed_names_once_witness :
  Validator.cstar_fdw_validator c_atoi (ftoptions scenario_table)
    Validator.ForeignTableRelationId = Validator.Accepted tt /\
  (List.length (options_named OPT_PK (ftoptions scenario_table)) <= 1)%nat.
Proof.
  assert (H : Validator.cstar_fdw_validator c_atoi (ftoptions scenario_table)
                Validator.ForeignTableRelationId = Validator.Accepted tt)
    by reflexivity.
  split; [exact H|].
  destruct (validator_accepts_listed_names_once c_atoi _ _ H) as [_ Hu].
  rewrite Forall_forall in Hu. apply Hu. cbn. tauto.
Defined.

(** X2. An accepted foreign server has the option [host], exactly once; an
    accepted foreign table has exactly one of the options [table_name] and
    [query]: one of the two, never both, never one of them twice. *)
Theorem validator_requires_host_and_one_source
    (atoi : string -> Z) (options_list : list DefElem) (catalog : Oid) :
  Validator.cstar_fdw_validator atoi options_list catalog = Validator.Accepted tt ->
  (catalog = Validator.ForeignServerRelationId ->
   List.length (options_named "host" options_list) = 1%nat) /\
  (catalog = Validator.ForeignTableRelationId ->
   (List.length (options_named "table_name" options_list)
    + List.length (options_named "query" options_list) = 1)%nat).
Proof.
  unfold Validator.cstar_fdw_validator, Validator.and_then. intros H.
  destruct (Validator.validate_options atoi catalog options_list
              Validator.locals_at_entry) as [l|e] eqn:Hrun; [|discriminate].
  apply validate_options_accepted in Hrun.
  destruct Hrun as (_ & R1 & _ & _ & R4 & _ & R6 & _ & R8 & _).
  cbn [Validator.locals_at_entry Validator.svr_host Validator.svr_query
       Validator.svr_table seen Nat.add] in *.
  specialize (R8 (Nat.le_0_l 1)).
  split; intros ->; cbn in H.
  - destruct (Validator.svr_host l); [|discriminate]. cbn in R1. lia.
  - destruct (Validator.svr_query l), (Validator.svr_table l); cbn in *;
      try discriminate; lia.
Qed.

Lemma validator_requires_host_and_one_source_witness :
  let server := [ mkDefElem "host" "127.0.0.1"; mkDefElem "port" "9042" ] in
  Validator.cstar_fdw_validator c_atoi server Validator.ForeignServerRelationId
  = Validator.Accepted tt /\
  List.length (options_named "host" server) = 1%nat.
Proof.
  intros server.
  assert (H : Validator.cstar_fdw_validator c_atoi server
                Validator.ForeignServerRelationId = Validator.Accepted tt)
    by reflexivity.
  split; [exact H|].
  apply (validator_requires_host_and_one_source c_atoi _ _ H). reflexivity.
Defined.

(** X3. For a foreign table whose options the validator has accepted, the
    consistency level a scan reads with is a known level other than ANY,
    and the level a modification writes with is a known level; each is
    LOCAL_ONE when its option is not given. *)
Theorem validated_consistency_levels (atoi : string -> Z) (r : Relation) :
  Validator.cstar_fdw_validator atoi (ftoptions r) Validator.ForeignTableRelationId
  = Validator.Accepted tt ->
  cassGetReadConsistencyOption r <> CASS_CONSISTENCY_UNKNOWN /\
  cassGetReadConsistencyOption r <> CASS_CONSISTENCY_ANY /\
  cassGetWriteConsistencyOption r <> CASS_CONSISTENCY_UNKNOWN /\
  (options_named "read_consistency" (ftoptions r) = [] ->
   cassGetReadConsistencyOption r = CASS_CONSISTENCY_LOCAL_ONE) /\
  (options_named "write_consistency" (ftoptions r) = [] ->
   cassGetWriteConsistencyOption r = CASS_CONSISTENCY_LOCAL_ONE).
Proof.
  unfold Validator.cstar_fdw_validator, Validator.and_then. intros H.
  destruct (Validator.validate_options atoi Validator.ForeignTableRelationId
              (ftoptions r) Validator.locals_at_entry) as [l|e] eqn:Hrun;
    [|discriminate].
  apply validate_options_accepted in Hrun.
  destruct Hrun as (_ & _ & _ & _ & _ & _ & _ & _ & _ & Hl).
  rewrite Forall_forall in Hl.
  unfold cassGetReadConsistencyOption, cassGetWriteConsistencyOption,
    consistency_option.
  assert (Hread : forall v,
            last_option "read_consistency" (ftoptions r) None = Some v ->
            consistency_from_string v <> CASS_CONSISTENCY_UNKNOWN /\
            consistency_from_string v <> CASS_CONSISTENCY_ANY).
  { intros v Hv. apply last_option_found in Hv.
    destruct Hv as [Hv|(d & Hin & Hn & <-)]; [discriminate|].
    apply (Hl d Hin). exact Hn. }
  assert (Hwrite : forall v,
            last_option "write_consistency" (ftoptions r) None = Some v ->
            consistency_from_string v <> CASS_CONSISTENCY_UNKNOWN).
  { intros v Hv. apply last_option_found in Hv.
    destruct Hv as [Hv|(d & Hin & Hn & <-)]; [discriminate|].
    apply (Hl d Hin). exact Hn. }
  repeat split.
  - destruct (last_option "read_consistency" (ftoptions r) None) as [v|];
      [apply (Hread v eq_refl)|discriminate].
  - destruct (last_option "read_consistency" (ftoptions r) None) as [v|];
      [apply (Hread v eq_refl)|discriminate].
  - destruct (last_option "write_consistency" (ftoptions r) None) as [v|];
      [apply (Hwrite v eq_refl)|discriminate].
  - intros Hnone. rewrite (last_option_none _ _ _ Hnone). reflexivity.
  - intros Hnone. rewrite (last_option_none _ _ _ Hnone). reflexivity.
Qed.

Lemma validated_consistency_levels_witness :
  let r := mkRelation 16392 "public" "t" (rd_att scenario_table)
             [ mkDefElem "table_name" "t";
               mkDefElem "read_consistency" "QUORUM" ] in
  cassGetReadConsistencyOption r <> CASS_CONSISTENCY_ANY /\
  cassGetWriteConsistencyOption r = CASS_CONSISTENCY_LOCAL_ONE.
Proof.
  intros r.
  destruct (validated_consistency_levels c_atoi r eq_refl)
    as (_ & Hany & _ & _ & Hw).
  split; [exact Hany|]. apply Hw. reflexivity.
Defined.

Lemma no_options_for_other_catalogs (name : string) (catalog : Oid) :
  catalog <> Validator.ForeignServerRelationId ->
  catalog <> Validator.UserMappingRelationId ->
  catalog <> Validator.ForeignTableRelationId ->
  Validator.cassIsValidOption name catalog = false /\
  Validator.valid_names_hint Validator.valid_options catalog "" = "".
Proof.
  intros Hs Hu Ht.
  apply Z.eqb_neq in Hs, Hu, Ht.
  unfold Validator.cassIsValidOption, Validator.valid_options.
  cbn [Validator.is_valid_in Validator.valid_names_hint Validator.optcontext
       Validator.optname].
  rewrite Hs, Hu, Ht. cbn. split; reflexivity.
Qed.

(** X4. An option whose name the table of valid options does not list for
    the catalog of the object is rejected, wherever the rest of the list
    stands, with the message [invalid option] and its name; the hint
    lists the names valid for the catalog in the order of the table, and
    for a catalog that has none, as the catalog of the columns has, it says
    so: no option of a column, [column_name] included, is accepted. *)
Theorem validator_rejects_unlisted_option
    (atoi : string -> Z) (def : DefElem) (rest : list DefElem) (catalog : Oid) :
  ~ In (Validator.mkOption (defname def) catalog) Validator.valid_options ->
  Validator.cstar_fdw_validator atoi (def :: rest) catalog
  = Validator.Rejected (Validator.invalid_option (defname def) catalog) /\
  Validator.errcode (Validator.invalid_option (defname def) catalog)
  = Validator.ERRCODE_FDW_INVALID_OPTION_NAME /\
  Validator.errmsg (Validator.invalid_option (defname def) catalog)
  = "invalid option " ++ dquoted (defname def) /\
  (catalog = Validator.ForeignServerRelationId ->
   Validator.errhint (Validator.invalid_option (defname def) catalog)
   = Some "Valid options in this context are: host, port, protocol") /\
  (catalog = Validator.UserMappingRelationId ->
   Validator.errhint (Validator.invalid_option (defname def) catalog)
   = Some "Valid options in this context are: username, password") /\
  (catalog = Validator.ForeignTableRelationId ->
   Validator.errhint (Validator.invalid_option (defname def) catalog)
   = Some "Valid options in this context are: query, schema_name, table_name, primary_key, read_consistency, write_consistency") /\
  (catalog <> Validator.ForeignServerRelationId ->
   catalog <> Validator.UserMappingRelationId ->
   catalog <> Validator.ForeignTableRelationId ->
   Validator.errhint (Validator.invalid_option (defname def) catalog)
   = Some "There are no valid options in this context.") /\
  (forall name,
     ~ In (Validator.mkOption name Validator.AttributeRelationId)
          Validator.valid_options).
Proof.
  intros Hno.
  assert (Hv : Validator.cassIsValidOption (defname def) catalog = false).
  { destruct (Validator.cassIsValidOption (defname def) catalog) eqn:Hv;
      [|reflexivity].
    apply is_valid_in_spec in Hv. contradiction. }
  split; [|split; [|split; [|split; [|split; [|split; [|split]]]]]].
  - unfold Validator.cstar_fdw_validator. cbn [Validator.validate_options].
    unfold Validator.validate_option. rewrite Hv. reflexivity.
  - reflexivity.
  - reflexivity.
  - intros ->. reflexivity.
  - intros ->. reflexivity.
  - intros ->. reflexivity.
  - intros Hs Hu Ht. unfold Validator.invalid_option.
    destruct (no_options_for_other_catalogs (defname def) catalog Hs Hu Ht)
      as [_ Hh].
    rewrite Hh. reflexivity.
  - intros name Hin. apply is_valid_in_spec in Hin.
    destruct (no_options_for_other_catalogs name Validator.AttributeRelationId)
      as [Hf _]; [discriminate|discriminate|discriminate|].
    unfold Validator.cassIsValidOption in Hf. congruence.
Qed.

Lemma validator_rejects_unlisted_option_witness :
  Validator.cstar_fdw_validator c_atoi [ mkDefElem "column_name" "row_key" ]
    Validator.AttributeRelationId
  = Validator.Rejected
      (Validator.mkOptionError Validator.ERRCODE_FDW_INVALID_OPTION_NAME
         ("invalid option " ++ dquoted "column_name")
         (Some "There are no valid options in this context.")).
Proof.
  destruct (validator_rejects_unlisted_option c_atoi
              (mkDefElem "column_name" "row_key") [] Validator.AttributeRelationId)
    as (Hrun & _).
  - cbn. intros H. repeat destruct H as [H|H]; try discriminate H. exact H.
  - rewrite Hrun. reflexivity.
Defined.

Section PortFacts.

Import Validator.

Variable atoi : string -> Z.

Lemma validate_options_app catalog : forall a b l,
  validate_options atoi catalog (a ++ b) l
  = and_then (validate_options atoi catalog a l) (validate_options atoi catalog b).
Proof.
  induction a as [|def rest IH]; intros b l; [reflexivity|].
  cbn [validate_options app]. unfold and_then at 1 3.
  destruct (validate_option atoi catalog def l); [apply IH|reflexivity].
Qed.

Lemma validate_option_port_zero catalog def l l' :
  validate_option atoi catalog def l = Accepted l' ->
  (svr_port l' =? 0)
  = (svr_port l =? 0)
    && (if streq (defname def) "port" then atoi (defGetString def) =? 0 else true).
Proof.
  destruct def as [name value]. cbn [defname defGetString].
  unfold validate_option. cbn [defname defGetString].
  destruct (cassIsValidOption name catalog); [|discriminate]. cbn [negb].
  unfold streq, OPT_PK. intros H.
  destruct l as [h p u pw q s t k rc wc].
  cbn [svr_host svr_port svr_username svr_password svr_query svr_schema svr_table
       primary_key Validator.read_consistency Validator.write_consistency] in *.
  repeat match type of H with
  | context [String.eqb name ?lit] =>
      let E := fresh "E" in
      destruct (String.eqb name lit) eqn:E;
        [apply String.eqb_eq in E; subst name; cbn in H |- *|]
  end;
  unfold and_then, once in H; cbn in H;
  repeat match type of H with
  | context [match ?x with _ => _ end] =>
      is_var x; destruct x; cbn in H; try discriminate
  | context [negb (?x =? 0)] =>
      let E := fresh "E" in destruct (x =? 0) eqn:E; cbn in H; try discriminate
  | context [consistency_from_string ?v] =>
      destruct (consistency_from_string v); cbn in H; try discriminate
  end;
  try (injection H as <-); cbn; rewrite ?andb_true_r; try reflexivity.
Qed.

Lemma validate_options_port_zero catalog : forall options_list l l',
  validate_options atoi catalog options_list l = Accepted l' ->
  (svr_port l' =? 0)
  = (svr_port l =? 0)
    && forallb (fun def => atoi (defGetString def) =? 0)
         (options_named "port" options_list).
Proof.
  induction options_list as [|def rest IH]; intros l l' H.
  - cbn in H. injection H as <-. cbn. rewrite andb_true_r. reflexivity.
  - cbn [validate_options] in H. unfold and_then in H.
    destruct (validate_option atoi catalog def l) as [l1|e] eqn:Hstep; [|discriminate].
    apply validate_option_port_zero in Hstep. apply IH in H.
    rewrite H, Hstep. unfold options_named. cbn [filter].
    destruct (streq (defname def) "port"); cbn [forallb];
      rewrite ?andb_true_r, ?andb_assoc; reflexivity.
Qed.

End PortFacts.

(** X5. A repeated [port] is told by the number read, not by the option
    having been given: after the accepted options of a foreign server, one
    more option [port] is accepted when every [port] before it reads as
    zero, and is rejected as conflicting or redundant otherwise. *)
Theorem validator_port_repeats_by_value
    (atoi : string -> Z) (options_list : list DefElem) (value : string) :
  Validator.cstar_fdw_validator atoi options_list Validator.ForeignServerRelationId
  = Validator.Accepted tt ->
  Validator.cstar_fdw_validator atoi (options_list ++ [mkDefElem "port" value])
    Validator.ForeignServerRelationId
  = if forallb (fun def => atoi (defGetString def) =? 0)
         (options_named "port" options_list)
    then Validator.Accepted tt
    else Validator.Rejected Validator.conflicting.
Proof.
  unfold Validator.cstar_fdw_validator. rewrite validate_options_app.
  unfold Validator.and_then at 1 2 3. intros H.
  destruct (Validator.validate_options atoi Validator.ForeignServerRelationId
              options_list Validator.locals_at_entry) as [l|e] eqn:Hrun;
    [|discriminate].
  pose proof (validate_options_port_zero atoi _ _ _ _ Hrun) as Hport.
  cbn [Validator.locals_at_entry Validator.svr_port] in Hport.
  rewrite Z.eqb_refl, andb_true_l in Hport. rewrite <- Hport.
  cbn in H.
  destruct (Validator.svr_host l) as [h|] eqn:Hh; [|discriminate].
  cbn [Validator.validate_options]. unfold Validator.validate_option.
  cbn [defname defGetString]. cbn.
  unfold Validator.and_then, Validator.once. cbn.
  destruct (Validator.svr_port l =? 0); cbn; [|reflexivity].
  rewrite Hh. reflexivity.
Qed.

Lemma validator_port_repeats_by_value_witness :
  Validator.cstar_fdw_validator c_atoi
    ([ mkDefElem "host" "127.0.0.1"; mkDefElem "port" "0" ]
     ++ [ mkDefElem "port" "9042" ])
    Validator.ForeignServerRelationId
  = Validator.Accepted tt.
Proof.
  rewrite (validator_port_repeats_by_value c_atoi
             [ mkDefElem "host" "127.0.0.1"; mkDefElem "port" "0" ] "9042" eq_refl).
  reflexivity.
Defined.

(* ===================================================================== *)
(** ** A scan, from its first row to its end *)
(* ===================================================================== *)

Section ScanFacts.

Variable fmt_f_float : Z -> string.
Variable fmt_f_double : Z -> string.
Variable asctime_gmtime : Z -> string.
Variable cass_uuid_string : Z -> string.
Variable cass_inet_string : list Z -> string.
Variable InputFunctionCall : Oid -> option string -> Outcome Datum.

Let iterate := Scan.cassIterateForeignScan fmt_f_float fmt_f_double asctime_gmtime
                 cass_uuid_string cass_inet_string InputFunctionCall.

Let fetch_rows := Scan.fetch_rows_loop fmt_f_float fmt_f_double asctime_gmtime
                    cass_uuid_string cass_inet_string InputFunctionCall.

Let tuple_of := tuple_of_row fmt_f_float fmt_f_double asctime_gmtime
                  cass_uuid_string cass_inet_string InputFunctionCall.

Let rows_of := iterate_rows fmt_f_float fmt_f_double asctime_gmtime
                 cass_uuid_string cass_inet_string InputFunctionCall.

(** The loop over the rows of a result all of which convert: the tuples
    join the batch in the order of the rows. *)
Lemma fetch_rows_loop_run : forall rows ts fs cl rep pre,
  map (tuple_of (Scan.rel fs) (Scan.retrieved_attrs fs) (Scan.NumberOfColumns fs)) rows
  = map Done ts ->
  Scan.tuples fs = Some pre ->
  fetch_rows rows (Scan.mkScanWorld fs cl rep)
  = (Done tt, Scan.mkScanWorld (Scan.set_tuples (Some (pre ++ ts)%list) fs) cl rep).
Proof.
  induction rows as [|row rest IH]; intros ts fs cl rep pre Hmap Hpre.
  - destruct ts; [|discriminate]. rewrite app_nil_r. cbn.
    destruct fs. cbn in Hpre. subst. reflexivity.
  - destruct ts as [|t ts]; [discriminate|]. cbn [map] in Hmap.
    injection Hmap as Hrow Hrest.
    subst fetch_rows. cbn [Scan.fetch_rows_loop].
    unfold bind at 1. unfold Scan.fsstate at 1. unfold bind at 1. cbn [get ret].
    cbn [Scan.fdw_state].
    unfold tuple_of, tuple_of_row in Hrow. rewrite Hrow.
    unfold bind at 1. unfold Scan.update at 1. cbn [modify Scan.fdw_state Scan.calls
      Scan.reported].
    rewrite Hpre.
    rewrite (IH ts (Scan.set_tuples (Some (pre ++ [t])%list) fs) cl rep
               (pre ++ [t])%list); [|exact Hrest|reflexivity].
    rewrite <- app_assoc. reflexivity.
Qed.

(** The first row request of a scan whose rows all convert: the cursor is
    created, the one batch is fetched, and its first tuple is returned. *)
Lemma first_iterate_loads r fdw_private result_future ts :
  rf_error_code result_future = CASS_OK ->
  map (tuple_of r (snd fdw_private)
         (cass_result_column_count (rf_result result_future)))
      (cass_result_rows (rf_result result_future))
  = map Done ts ->
  iterate result_future (Scan.begin_scan r fdw_private)
  = (Done (nth_error ts 0),
     loaded_scan r fdw_private
       (cass_result_column_count (rf_result result_future)) ts
       (match ts with [] => 0 | _ => 1 end)).
Proof.
  intros Hok Hmap. destruct fdw_private as [q attrs]. cbn [fst snd] in *.
  assert (Hlen : List.length (cass_result_rows (rf_result result_future))
                 = List.length ts).
  { apply (f_equal (@List.length _)) in Hmap. rewrite !length_map in Hmap.
    exact Hmap. }
  unfold loaded_scan, Scan.begin_scan. cbn [fst snd].
  generalize (cassGetReadConsistencyOption r) as level. intros level.
  subst iterate.
  unfold Scan.cassIterateForeignScan, Scan.create_cursor, Scan.fetch_more_data.
  rewrite Hok.
  unfold Scan.fsstate, Scan.update, Scan.call, bind, get, ret, modify.
  simpl.
  fold fetch_rows.
  rewrite (fetch_rows_loop_run _ ts _ _ _ []); [|exact Hmap|reflexivity].
  simpl. rewrite Hlen.
  destruct ts as [|t ts']; [reflexivity|].
  assert (Hpos : (Z.of_nat (List.length (t :: ts')) <=? 0) = false)
    by (apply Z.leb_gt; cbn [List.length]; lia).
  rewrite Hpos. reflexivity.
Qed.

(** A row request on a loaded scan makes no call: it returns the next
    tuple of the batch, or nothing after the last. *)
Lemma loaded_iterate r fdw_private ncolumn ts k result_future :
  (k <= List.length ts)%nat ->
  iterate result_future (loaded_scan r fdw_private ncolumn ts k)
  = (Done (nth_error ts k),
     loaded_scan r fdw_private ncolumn ts
       (if (k <? List.length ts)%nat then S k else k)).
Proof.
  intros Hk. destruct fdw_private as [q attrs].
  unfold loaded_scan. cbn [fst snd].
  generalize (cassGetReadConsistencyOption r) as level. intros level.
  subst iterate.
  unfold Scan.cassIterateForeignScan.
  unfold Scan.fsstate, Scan.update, Scan.call, bind, get, ret, modify.
  simpl.
  destruct (Nat.ltb_spec k (List.length ts)) as [Hlt|Hge].
  - assert (Hpos : (Z.of_nat (List.length ts) <=? Z.of_nat k) = false)
      by (apply Z.leb_gt; lia).
    rewrite Hpos. simpl. rewrite Hpos.
    assert (Hneg : (Z.of_nat k <? 0) = false) by (apply Z.ltb_ge; lia).
    rewrite Hneg, Nat2Z.id.
    destruct (nth_error ts k) as [t|] eqn:Hnth;
      [|apply nth_error_None in Hnth; lia].
    simpl. replace (Z.of_nat k + 1) with (Z.of_nat (S k)) by lia. reflexivity.
  - assert (Hend : (Z.of_nat (List.length ts) <=? Z.of_nat k) = true)
      by (apply Z.leb_le; lia).
    rewrite Hend. simpl. rewrite Hend.
    assert (Hnone : nth_error ts k = None) by (apply nth_error_None; lia).
    rewrite Hnone. reflexivity.
Qed.

Lemma skipn_nth_error {A} (l : list A) : forall k x,
  nth_error l k = Some x -> skipn k l = x :: skipn (S k) l.
Proof.
  induction l as [|y l IH]; intros k x H; [destruct k; discriminate|].
  destruct k as [|k]; [injection H as ->; reflexivity|].
  cbn [nth_error] in H. cbn [skipn]. apply IH. exact H.
Qed.

(** Asking a loaded scan for its rows, once more than it has left. *)
Lemma loaded_rows r fdw_private ncolumn ts : forall futures k,
  (k <= List.length ts)%nat ->
  List.length futures = S (List.length ts - k) ->
  rows_of futures (loaded_scan r fdw_private ncolumn ts k)
  = ((map (fun t => Done (Some t)) (skipn k ts) ++ [Done None])%list,
     loaded_scan r fdw_private ncolumn ts (List.length ts)).
Proof.
  induction futures as [|f rest IH]; intros k Hk Hlen; [discriminate|].
  subst rows_of. cbn [iterate_rows]. fold iterate.
  rewrite (loaded_iterate r fdw_private ncolumn ts k f Hk).
  destruct (Nat.ltb_spec k (List.length ts)) as [Hlt|Hge].
  - rewrite (IH (S k)); [|lia|cbn [List.length] in Hlen; lia].
    destruct (nth_error ts k) as [t|] eqn:Hnth;
      [|apply nth_error_None in Hnth; lia].
    rewrite (skipn_nth_error ts k t Hnth). reflexivity.
  - assert (k = List.length ts) by lia. subst k.
    replace (List.length ts - List.length ts)%nat with 0%nat in Hlen by lia.
    destruct rest; [|discriminate].
    rewrite skipn_all.
    assert (Hnone : nth_error ts (List.length ts) = None)
      by (apply nth_error_None; lia).
    rewrite Hnone. reflexivity.
Qed.

Lemma loaded_rescan r fdw_private ncolumn ts k :
  Scan.cassReScanForeignScan (loaded_scan r fdw_private ncolumn ts k)
  = (Done tt, loaded_scan r fdw_private ncolumn ts 0).
Proof. reflexivity. Qed.

End ScanFacts.

(** What [cassBeginForeignScan] returns is the begun scan, and only
    without the flag of EXPLAIN. *)
Lemma cassBeginForeignScan_begun explain_only r fdw_private begun :
  Scan.cassBeginForeignScan explain_only r fdw_private = Some begun ->
  explain_only = false /\ begun = Scan.begin_scan r fdw_private.
Proof.
  unfold Scan.cassBeginForeignScan.
  destruct explain_only; [discriminate|]. intros H. injection H as <-.
  split; reflexivity.
Qed.

(** X6. A scan that has begun with a state, whose result comes back
    without error, and whose rows all convert, returns to its successive
    row requests the tuples of the rows of the result, in their order, and
    then the end of the data.  From its beginning it has made four calls:
    the connection, the statement with the planned text and no parameter,
    the read consistency, and one execute.  After a rescan the same tuples
    are returned again and no call is added. *)
Theorem scan_returns_rows_in_order
    (fmt_f_float fmt_f_double asctime_gmtime cass_uuid_string : Z -> string)
    (cass_inet_string : list Z -> string)
    (InputFunctionCall : Oid -> option string -> Outcome Datum)
    (explain_only : bool) (r : Relation) (fdw_private : string * list Z)
    (begun : Scan.ScanWorld)
    (result_future : CassResultFuture) (later again : list CassResultFuture)
    (ts : list HeapTuple) :
  Scan.cassBeginForeignScan explain_only r fdw_private = Some begun ->
  rf_error_code result_future = CASS_OK ->
  map (tuple_of_row fmt_f_float fmt_f_double asctime_gmtime cass_uuid_string
         cass_inet_string InputFunctionCall r (snd fdw_private)
         (cass_result_column_count (rf_result result_future)))
      (cass_result_rows (rf_result result_future))
  = map Done ts ->
  List.length later = List.length ts ->
  List.length again = S (List.length ts) ->
  let rows := iterate_rows fmt_f_float fmt_f_double asctime_gmtime cass_uuid_string
                cass_inet_string InputFunctionCall in
  let run := rows (result_future :: later) begun in
  let level := cassGetReadConsistencyOption r in
  let the_calls :=
    [ call_GetConnection;
      call_statement_new (fst fdw_private) 0;
      call_set_consistency level;
      call_session_execute
        (Some (mkStatement (fst fdw_private) [] (Some level))) ] in
  fst run = (map (fun t => Done (Some t)) ts ++ [Done None])%list /\
  Scan.calls (snd run) = the_calls /\
  (let rerun := rows again (snd (Scan.cassReScanForeignScan (snd run))) in
   fst rerun = (map (fun t => Done (Some t)) ts ++ [Done None])%list /\
   Scan.calls (snd rerun) = the_calls).
Proof.
  intros Hbegun Hok Hmap Hlater Hagain rows run level the_calls.
  apply cassBeginForeignScan_begun in Hbegun. destruct Hbegun as (_ & ->).
  set (ncolumn := cass_result_column_count (rf_result result_future)) in *.
  assert (Hrun : run
                 = ((map (fun t => Done (Some t)) ts ++ [Done None])%list,
                    loaded_scan r fdw_private ncolumn ts (List.length ts))).
  { subst run rows. cbn [iterate_rows].
    rewrite (first_iterate_loads _ _ _ _ _ _ r fdw_private result_future ts Hok Hmap).
    fold ncolumn. destruct ts as [|t ts'].
    - destruct later; [|discriminate]. reflexivity.
    - rewrite (loaded_rows _ _ _ _ _ _ r fdw_private ncolumn (t :: ts') later 1);
        [reflexivity|cbn [List.length]; lia|cbn [List.length] in *; lia]. }
  rewrite Hrun. cbn [fst snd].
  split; [reflexivity|]. split; [reflexivity|].
  rewrite loaded_rescan. cbn [snd]. subst rows.
  rewrite (loaded_rows _ _ _ _ _ _ r fdw_private ncolumn ts again 0);
    [|lia|lia].
  split; reflexivity.
Qed.

Lemma scan_returns_rows_in_order_witness :
  exists begun,
    Scan.cassBeginForeignScan false scenario_table
      ("SELECT id, v3 FROM ks.t", [1; 4]) = Some begun /\
    fst (iterate_rows no_text no_text no_text no_text (fun _ => "") text_input
           [reply_two_rows; reply_two_rows; reply_two_rows] begun)
    = [ Done (Some [Some (DatumText "1"); None; None; Some (DatumText "true")]);
        Done (Some [Some (DatumText "2"); None; None; None]);
        Done None ].
Proof.
  eexists. split; [reflexivity|].
  destruct (scan_returns_rows_in_order no_text no_text no_text no_text
              (fun _ => "") text_input false scenario_table
              ("SELECT id, v3 FROM ks.t", [1; 4]) _ reply_two_rows
              [reply_two_rows; reply_two_rows]
              [reply_two_rows; reply_two_rows; reply_two_rows]
              [ [Some (DatumText "1"); None; None; Some (DatumText "true")];
                [Some (DatumText "2"); None; None; None] ] eq_refl)
    as (Hrows & _);
    [reflexivity|reflexivity|reflexivity|reflexivity|exact Hrows].
Defined.

Lemma count_calls_app p a b :
  count_calls p (a ++ b) = (count_calls p a + count_calls p b)%nat.
Proof. unfold count_calls. rewrite filter_app, length_app. reflexivity. Qed.

Lemma count_calls_cons p c l :
  count_calls p (c :: l) = ((if p c then 1 else 0) + count_calls p l)%nat.
Proof. unfold count_calls. cbn [filter]. destruct (p c); reflexivity. Qed.

Lemma count_calls_nil p : count_calls p [] = 0%nat.
Proof. reflexivity. Qed.

Ltac count_calls_simpl :=
  repeat (rewrite count_calls_app || rewrite count_calls_cons
          || rewrite count_calls_nil);
  cbn [is_GetConnection is_ReleaseConnection is_statement_free is_statement_new
       is_execute is_bind].

Section ScanCalls.

Variable fmt_f_float : Z -> string.
Variable fmt_f_double : Z -> string.
Variable asctime_gmtime : Z -> string.
Variable cass_uuid_string : Z -> string.
Variable cass_inet_string : list Z -> string.
Variable InputFunctionCall : Oid -> option string -> Outcome Datum.

Let iterate := Scan.cassIterateForeignScan fmt_f_float fmt_f_double asctime_gmtime
                 cass_uuid_string cass_inet_string InputFunctionCall.

Let fetch := Scan.fetch_more_data fmt_f_float fmt_f_double asctime_gmtime
               cass_uuid_string cass_inet_string InputFunctionCall.

Let fetch_rows := Scan.fetch_rows_loop fmt_f_float fmt_f_double asctime_gmtime
                    cass_uuid_string cass_inet_string InputFunctionCall.

(** Whatever the rows, converting them touches the batch only. *)
Lemma fetch_rows_loop_frame : forall rows w r w',
  fetch_rows rows w = (r, w') ->
  Scan.calls w' = Scan.calls w /\
  Scan.sql_sended (Scan.fdw_state w') = Scan.sql_sended (Scan.fdw_state w) /\
  Scan.statement (Scan.fdw_state w') = Scan.statement (Scan.fdw_state w) /\
  Scan.cass_conn (Scan.fdw_state w') = Scan.cass_conn (Scan.fdw_state w) /\
  Scan.eof_reached (Scan.fdw_state w') = Scan.eof_reached (Scan.fdw_state w).
Proof.
  induction rows as [|row rest IH]; intros w r w' H.
  - cbn in H. injection H as <- <-. repeat split.
  - subst fetch_rows. cbn [Scan.fetch_rows_loop] in H.
    unfold bind at 1 in H. unfold Scan.fsstate at 1 in H.
    unfold bind at 1 in H. cbn [get ret] in H.
    destruct (Scan.make_tuple_from_result_row _ _ _ _ _ _ _ _ _ _) as [tuple|e].
    + unfold bind at 1 in H. unfold Scan.update at 1 in H. cbn [modify] in H.
      apply IH in H. destruct w as [fs cl rep]. destruct fs.
      cbn in H |- *. exact H.
    + injection H as <- <-. repeat split.
Qed.

(** A fetch, whatever it is answered and whatever its outcome, makes the
    two calls of one execute; when it returns, the end of the data is
    flagged. *)
Lemma fetch_more_data_frame result_future w r w' :
  fetch result_future w = (r, w') ->
  (exists st,
     Scan.calls w'
     = (Scan.calls w
        ++ [call_set_consistency (Scan.read_consistency (Scan.fdw_state w));
            call_session_execute st])%list) /\
  Scan.sql_sended (Scan.fdw_state w') = Scan.sql_sended (Scan.fdw_state w) /\
  (Scan.statement (Scan.fdw_state w') = None <->
   Scan.statement (Scan.fdw_state w) = None) /\
  Scan.cass_conn (Scan.fdw_state w') = Scan.cass_conn (Scan.fdw_state w) /\
  (r = Done tt -> Scan.eof_reached (Scan.fdw_state w') = true).
Proof.
  destruct w as [fs cl rep]. destruct fs as [r0 q attrs nc cc ss st rc tup num nxt fc eof].
  subst fetch. unfold Scan.fetch_more_data.
  unfold Scan.fsstate, Scan.update, Scan.call, Scan.pgcass_report_error.
  unfold bind at 1. cbn [modify]. unfold bind at 1. unfold bind at 1. cbn [get ret].
  unfold bind at 1. cbn [modify]. unfold bind at 1. cbn [modify].
  unfold bind at 1. unfold bind at 1. cbn [get ret].
  unfold bind at 1. cbn [modify].
  cbn [Scan.fdw_state Scan.calls Scan.reported Scan.set_tuples Scan.set_statement
       Scan.query Scan.rel Scan.retrieved_attrs Scan.NumberOfColumns
       Scan.cass_conn Scan.sql_sended Scan.statement Scan.read_consistency
       Scan.tuples Scan.num_tuples Scan.next_tuple Scan.fetch_ct_2
       Scan.eof_reached].
  assert (Hst : forall f : CassStatement -> CassStatement,
            option_map f st = None <-> st = None)
    by (intros f; destruct st; cbn; split; congruence).
  destruct (rf_error_code result_future).
  - unfold bind at 1. cbn [modify].
    cbn [Scan.fdw_state Scan.calls Scan.reported Scan.set_batch
         Scan.query Scan.rel Scan.retrieved_attrs Scan.NumberOfColumns
         Scan.cass_conn Scan.sql_sended Scan.statement Scan.read_consistency
         Scan.tuples Scan.num_tuples Scan.next_tuple Scan.fetch_ct_2
         Scan.eof_reached].
    unfold bind at 1.
    fold fetch_rows.
    destruct (fetch_rows _ _) as [r1 w1] eqn:Hrows.
    apply fetch_rows_loop_frame in Hrows.
    cbn [Scan.fdw_state Scan.calls Scan.sql_sended Scan.statement Scan.cass_conn
         Scan.eof_reached] in Hrows.
    destruct Hrows as (Hc & Hs & Hstm & Hcc & He).
    destruct r1 as [[]|e]; cbn [modify]; intros H; injection H as <- <-.
    + destruct w1 as [fs1 cl1 rep1]. destruct fs1.
      cbn in Hc, Hs, Hstm, Hcc, He |- *. subst.
      rewrite <- app_assoc. cbn [app].
      split; [eexists; reflexivity|]. repeat split; try apply Hst; auto.
    + cbn [Scan.fdw_state Scan.calls]. rewrite Hc, Hs, Hstm, Hcc.
      rewrite <- app_assoc. cbn [app].
      split; [eexists; reflexivity|]. repeat split; try apply Hst; auto.
      discriminate.
  - unfold bind at 1. unfold bind at 1. cbn [get ret]. unfold bind at 1.
    cbn [modify]. intros H. injection H as <- <-. cbn.
    rewrite <- app_assoc. cbn [app].
    split; [eexists; reflexivity|]. repeat split; try apply Hst; auto.
Qed.

Let session := scan_session fmt_f_float fmt_f_double asctime_gmtime
                 cass_uuid_string cass_inet_string InputFunctionCall.

Let one_call := scan_call fmt_f_float fmt_f_double asctime_gmtime
                  cass_uuid_string cass_inet_string InputFunctionCall.

Lemma scan_steady_sound w : scan_steady w -> scan_sound w.
Proof.
  unfold scan_steady, scan_sound.
  intros (Hg & Hr & Hf & Hc & Hn & Hs & He).
  repeat split; try assumption; try apply Hs.
  destruct He as [He|(He & _ & Hsent)]; [lia|]. rewrite Hn, Hsent. lia.
Qed.

(** A row request on a steady scan leaves it steady when it returns and
    sound when it raises. *)
Lemma iterate_steady result_future w r w' :
  scan_steady w ->
  iterate result_future w = (r, w') ->
  scan_sound w' /\ ((exists x, r = Done x) -> scan_steady w').
Proof.
  intros Hinv. destruct w as [fs cl rep].
  destruct fs as [r0 q attrs nc cc ss st rc tup num nxt fc eof].
  unfold scan_steady in Hinv.
  cbn [Scan.fdw_state Scan.calls Scan.sql_sended Scan.statement Scan.cass_conn
       Scan.eof_reached] in Hinv.
  destruct Hinv as (Hg & Hr & Hf & Hc & Hn & Hs & He).
  subst iterate. unfold Scan.cassIterateForeignScan.
  (* the tail of the function: it moves [next_tuple] only *)
  assert (Htail : forall (w1 : Scan.ScanWorld) r w',
    (fs <- Scan.fsstate ;;
     if Scan.num_tuples fs <=? Scan.next_tuple fs then ret None
     else
       match Scan.tuples fs with
       | None => elog_ERROR "no batch"
       | Some ts =>
           match (if Scan.next_tuple fs <? 0 then None
                  else nth_error ts (Z.to_nat (Scan.next_tuple fs))) with
           | None => elog_ERROR "tuple index outside the batch"
           | Some tuple =>
               Scan.update (Scan.set_next_tuple (Scan.next_tuple fs + 1)) ;;
               ret (Some tuple)
           end
       end) w1 = (r, w') ->
    Scan.calls w' = Scan.calls w1 /\
    Scan.sql_sended (Scan.fdw_state w') = Scan.sql_sended (Scan.fdw_state w1) /\
    Scan.statement (Scan.fdw_state w') = Scan.statement (Scan.fdw_state w1) /\
    Scan.cass_conn (Scan.fdw_state w') = Scan.cass_conn (Scan.fdw_state w1) /\
    Scan.eof_reached (Scan.fdw_state w') = Scan.eof_reached (Scan.fdw_state w1)).
  { intros w1 r1 w1'. destruct w1 as [fs1 cl1 rep1]. destruct fs1.
    unfold Scan.fsstate, Scan.update, bind, get, ret, modify, elog_ERROR, ereport.
    simpl.
    destruct (num_tuples <=? next_tuple);
      [intros H; injection H as <- <-; repeat split|].
    destruct tuples as [ts|]; [|intros H; injection H as <- <-; repeat split].
    destruct (next_tuple <? 0); [intros H; injection H as <- <-; repeat split|].
    destruct (nth_error ts (Z.to_nat next_tuple));
      intros H; injection H as <- <-; repeat split. }
  unfold bind at 1. unfold Scan.fsstate at 1. unfold bind at 1. cbn [get ret].
  cbn [Scan.fdw_state Scan.sql_sended].
  destruct ss; cbn [negb].
  - (* the cursor exists *)
    unfold bind at 1. cbn [ret].
    unfold bind at 1. unfold Scan.fsstate at 1. unfold bind at 1. cbn [get ret].
    cbn [Scan.fdw_state Scan.num_tuples Scan.next_tuple Scan.eof_reached].
    destruct ((num <=? nxt) && negb eof) eqn:Hfetch.
    + apply andb_prop in Hfetch. destruct Hfetch as [Hnum Heof].
      rewrite Hnum. destruct eof; [discriminate|]. cbn [negb].
      destruct He as [He|(_ & He & _)]; [|discriminate].
      unfold bind at 1. fold fetch.
      destruct (fetch result_future _) as [r1 w1] eqn:Hfetch.
      apply fetch_more_data_frame in Hfetch.
      cbn [Scan.fdw_state Scan.calls Scan.sql_sended Scan.statement Scan.cass_conn
           Scan.read_consistency] in Hfetch.
      destruct Hfetch as ((st1 & Hcalls) & Hsent & Hstm & Hconn & Hend).
      destruct r1 as [[]|e].
      * intros H. apply Htail in H.
        destruct H as (Tc & Ts & Tst & Tcc & Te).
        assert (Hall : scan_steady w').
        { unfold scan_steady. rewrite Tc, Ts, Tst, Tcc, Te, Hcalls, Hsent, Hconn,
            (Hend eq_refl).
          count_calls_simpl.
          repeat split; try lia; try assumption; try discriminate;
            try (intros H; apply Hstm in H; try apply Hs in H; discriminate);
            try (right; repeat split; lia). }
        split; [apply scan_steady_sound; exact Hall|intros _; exact Hall].
      * intros H. injection H as <- <-.
        split; [|intros (x & Hx); discriminate].
        unfold scan_sound. rewrite Hcalls, Hsent, Hconn.
        count_calls_simpl.
        repeat split; try lia; try assumption; try discriminate;
            try (intros H; apply Hstm in H; try apply Hs in H; discriminate);
            try (right; repeat split; lia).
    + assert (Hskip :
        (if num <=? nxt
         then if negb eof then fetch result_future else ret tt
         else ret tt)
        = ret tt).
      { destruct (num <=? nxt); [|reflexivity].
        destruct eof; [reflexivity|discriminate]. }
      fold fetch. rewrite Hskip. unfold bind at 1. cbn [ret].
      intros H. apply Htail in H.
      cbn [Scan.fdw_state Scan.calls Scan.sql_sended Scan.statement Scan.cass_conn
           Scan.eof_reached] in H.
      destruct H as (Tc & Ts & Tst & Tcc & Te).
      assert (Hall : scan_steady w').
      { unfold scan_steady. rewrite Tc, Ts, Tst, Tcc, Te.
        repeat split; try assumption; apply Hs. }
      split; [apply scan_steady_sound; exact Hall|intros _; exact Hall].
  - (* the cursor is created, and the batch is fetched *)
    assert (Hne : count_calls is_execute cl = 0%nat)
      by (destruct He as [He|(_ & _ & He)]; [exact He|discriminate]).
    unfold bind at 1. unfold Scan.create_cursor at 1.
    unfold Scan.fsstate, Scan.call, Scan.update.
    unfold bind at 1. unfold bind at 1. cbn [get ret].
    unfold bind at 1. cbn [modify].
    cbn [Scan.fdw_state Scan.calls Scan.reported Scan.query Scan.rel
         Scan.retrieved_attrs Scan.NumberOfColumns Scan.cass_conn
         Scan.read_consistency].
    unfold bind at 1. unfold bind at 1. cbn [get ret].
    cbn [Scan.fdw_state Scan.num_tuples Scan.next_tuple Scan.eof_reached negb].
    change (0 <=? 0) with true. cbv iota.
    unfold bind at 1. fold fetch.
    destruct (fetch result_future _) as [r1 w1] eqn:Hfetch.
    apply fetch_more_data_frame in Hfetch.
    cbn [Scan.fdw_state Scan.calls Scan.sql_sended Scan.statement Scan.cass_conn
         Scan.read_consistency] in Hfetch.
    destruct Hfetch as ((st1 & Hcalls) & Hsent & Hstm & Hconn & Hend).
    destruct r1 as [[]|e].
    + intros H.
      change (fun w : Scan.ScanWorld => (Done w, w)) with (@get Scan.ScanWorld) in H.
      apply (Htail w1 r w') in H.
      destruct H as (Tc & Ts & Tst & Tcc & Te).
      assert (Hall : scan_steady w').
      { unfold scan_steady. rewrite Tc, Ts, Tst, Tcc, Te, Hcalls, Hsent, Hconn,
          (Hend eq_refl).
        count_calls_simpl.
        repeat split; try lia; try assumption; try discriminate;
            try (intros H; apply Hstm in H; try apply Hs in H; discriminate);
            try (right; repeat split; lia). }
      split; [apply scan_steady_sound; exact Hall|intros _; exact Hall].
    + intros H. injection H as <- <-.
      split; [|intros (x & Hx); discriminate].
      unfold scan_sound. rewrite Hcalls, Hsent, Hconn.
      count_calls_simpl.
      repeat split; try lia; try assumption; try discriminate;
            try (intros H; apply Hstm in H; try apply Hs in H; discriminate);
            try (right; repeat split; lia).
Qed.

Lemma rescan_steady w :
  scan_steady w ->
  fst (Scan.cassReScanForeignScan w) = Done tt /\
  scan_steady (snd (Scan.cassReScanForeignScan w)).
Proof.
  intros Hinv. destruct w as [fs cl rep].
  destruct fs as [r0 q attrs nc cc ss st rc tup num nxt fc eof].
  unfold Scan.cassReScanForeignScan, Scan.fsstate, Scan.update, bind, get, ret,
    modify.
  cbn [Scan.fdw_state Scan.sql_sended].
  destruct ss; cbn [negb fst snd]; split; try reflexivity; exact Hinv.
Qed.

Lemma scan_call_steady c w r w' :
  scan_steady w ->
  one_call c w = (r, w') ->
  scan_sound w' /\ (r = Done tt -> scan_steady w').
Proof.
  intros Hinv. subst one_call. destruct c as [result_future|]; cbn [scan_call].
  - fold iterate.
    destruct (iterate result_future w) as [r1 w1] eqn:Hrun.
    apply (iterate_steady _ _ _ _ Hinv) in Hrun. destruct Hrun as [Hsound Hsteady].
    destruct r1 as [x|e]; intros H; injection H as <- <-.
    + split; [exact Hsound|]. intros _. apply Hsteady. eexists. reflexivity.
    + split; [exact Hsound|discriminate].
  - destruct (rescan_steady w Hinv) as [Hr Hs].
    destruct (Scan.cassReScanForeignScan w) as [r1 w1]. cbn [fst snd] in *.
    intros H. injection H as <- <-.
    split; [apply scan_steady_sound; exact Hs|intros _; exact Hs].
Qed.

Lemma scan_session_sound : forall l w, scan_steady w -> scan_sound (session l w).
Proof.
  induction l as [|c rest IH]; intros w Hinv;
    [apply scan_steady_sound; exact Hinv|].
  subst session. cbn [scan_session]. fold one_call.
  destruct (one_call c w) as [r w'] eqn:Hcall.
  apply (scan_call_steady _ _ _ _ Hinv) in Hcall. destruct Hcall as [Hsound Hsteady].
  destruct r as [[]|e]; [|exact Hsound].
  apply IH. apply Hsteady. reflexivity.
Qed.

Lemma begin_scan_steady r fdw_private :
  scan_steady (Scan.begin_scan r fdw_private).
Proof.
  unfold scan_steady, Scan.begin_scan. cbn.
  repeat split; try tauto; try discriminate.
Qed.

(** The end of a sound scan: the statement is freed when the cursor was
    created, and the connection is released. *)
Lemma end_scan_run w :
  scan_sound w ->
  Scan.end_scan w
  = (Done tt,
     Scan.mkScanWorld (Scan.set_cass_conn false (Scan.fdw_state w))
       (Scan.calls w
        ++ (if Scan.sql_sended (Scan.fdw_state w) then [call_statement_free] else [])
        ++ [call_ReleaseConnection])
       (Scan.reported w)).
Proof.
  intros (_ & _ & _ & _ & _ & Hs & _).
  destruct w as [fs cl rep].
  destruct fs as [r0 q attrs nc cc ss st rc tup num nxt fc eof].
  cbn [Scan.fdw_state Scan.sql_sended Scan.statement] in Hs.
  unfold Scan.end_scan, Scan.close_cursor, Scan.fsstate, Scan.update,
    Scan.call, bind, get, ret, modify.
  cbn [Scan.fdw_state Scan.sql_sended Scan.statement Scan.calls Scan.reported].
  destruct ss.
  - destruct st as [st|]; [|destruct Hs as [Hs _]; discriminate (Hs eq_refl)].
    cbn. rewrite <- app_assoc. reflexivity.
  - cbn. reflexivity.
Qed.

End ScanCalls.

(** X7. Whatever rows are asked of a scan that has begun with a state,
    and however often it is rescanned, whatever the remote answers, the
    scan creates at most one statement and makes at most one execute, and
    none without the statement: rows asked again after a rescan come from
    the batch that was fetched. *)
Theorem scan_executes_at_most_once
    (fmt_f_float fmt_f_double asctime_gmtime cass_uuid_string : Z -> string)
    (cass_inet_string : list Z -> string)
    (InputFunctionCall : Oid -> option string -> Outcome Datum)
    (explain_only : bool) (r : Relation) (fdw_private : string * list Z)
    (begun : Scan.ScanWorld) (l : list ScanCall) :
  Scan.cassBeginForeignScan explain_only r fdw_private = Some begun ->
  let w := scan_session fmt_f_float fmt_f_double asctime_gmtime cass_uuid_string
             cass_inet_string InputFunctionCall l begun in
  (count_calls is_statement_new (Scan.calls w) <= 1)%nat /\
  (count_calls is_execute (Scan.calls w) <= 1)%nat /\
  (count_calls is_execute (Scan.calls w)
   <= count_calls is_statement_new (Scan.calls w))%nat.
Proof.
  intros Hbegun w.
  apply cassBeginForeignScan_begun in Hbegun. destruct Hbegun as (_ & ->).
  pose proof (scan_session_sound fmt_f_float fmt_f_double asctime_gmtime
                cass_uuid_string cass_inet_string InputFunctionCall l _
                (begin_scan_steady r fdw_private)) as Hsound.
  fold w in Hsound. destruct Hsound as (_ & _ & _ & _ & Hn & _ & He).
  destruct (Scan.sql_sended (Scan.fdw_state w)); lia.
Qed.

Lemma scan_executes_at_most_once_witness :
  exists begun,
    Scan.cassBeginForeignScan false scenario_table
      ("SELECT id, v3 FROM ks.t", [1; 4]) = Some begun /\
    let w := scan_session no_text no_text no_text no_text (fun _ => "") text_input
               [ ask_next reply_two_rows; ask_rescan; ask_next reply_unavailable;
                 ask_next reply_two_rows; ask_rescan; ask_next reply_two_rows ]
               begun in
    (count_calls is_statement_new (Scan.calls w) <= 1)%nat /\
    (count_calls is_execute (Scan.calls w) <= 1)%nat /\
    (count_calls is_execute (Scan.calls w)
     <= count_calls is_statement_new (Scan.calls w))%nat.
Proof.
  eexists. split; [reflexivity|].
  apply (scan_executes_at_most_once no_text no_text no_text no_text (fun _ => "")
           text_input false scenario_table ("SELECT id, v3 FROM ks.t", [1; 4])).
  reflexivity.
Defined.

(** X8. A scan that is only explained takes nothing and gives nothing
    back: beginning it leaves the node without a state and makes no call,
    and ending it makes none either.  A scan that is not only explained
    begins with a state, and at its end, whatever calls the executor made
    on it before, the connection that beginning the scan took is released,
    once and as the last call, and the statement is freed exactly when one
    was created: nothing the scan took from the driver stays. *)
Theorem scan_end_releases_what_it_took
    (fmt_f_float fmt_f_double asctime_gmtime cass_uuid_string : Z -> string)
    (cass_inet_string : list Z -> string)
    (InputFunctionCall : Oid -> option string -> Outcome Datum)
    (r : Relation) (fdw_private : string * list Z) :
  (Scan.cassBeginForeignScan true r fdw_private = None /\
   Scan.cassEndForeignScan None = (Done tt, None)) /\
  (exists begun,
     Scan.cassBeginForeignScan false r fdw_private = Some begun /\
     Scan.calls begun = [call_GetConnection] /\
     forall l : list ScanCall,
       let w := scan_session fmt_f_float fmt_f_double asctime_gmtime
                  cass_uuid_string cass_inet_string InputFunctionCall l begun in
       exists fs ended,
         Scan.cassEndForeignScan (Some w)
         = (Done tt, Some (Scan.mkScanWorld fs ended (Scan.reported w))) /\
         Scan.cass_conn fs = false /\
         count_calls is_GetConnection ended = 1%nat /\
         count_calls is_ReleaseConnection ended = 1%nat /\
         count_calls is_statement_free ended = count_calls is_statement_new ended /\
         count_calls is_execute ended = count_calls is_execute (Scan.calls w) /\
         (exists added,
            ended = (Scan.calls w ++ added ++ [call_ReleaseConnection])%list)).
Proof.
  split; [split; reflexivity|].
  exists (Scan.begin_scan r fdw_private).
  split; [reflexivity|]. split; [reflexivity|].
  intros l w.
  pose proof (scan_session_sound fmt_f_float fmt_f_double asctime_gmtime
                cass_uuid_string cass_inet_string InputFunctionCall l _
                (begin_scan_steady r fdw_private)) as Hsound.
  fold w in Hsound.
  unfold Scan.cassEndForeignScan. rewrite (end_scan_run w Hsound).
  destruct Hsound as (Hg & Hr & Hf & _ & Hn & _ & _).
  eexists. eexists. split; [reflexivity|].
  split; [destruct (Scan.fdw_state w); reflexivity|].
  destruct (Scan.sql_sended (Scan.fdw_state w)); count_calls_simpl;
    (repeat split; try lia);
    eexists; reflexivity.
Qed.

(* ===================================================================== *)
(** ** The tuple made from a row of the result *)
(* ===================================================================== *)

Lemma array_set_nth_error_same {A} (l : list A) : forall i x,
  (i < List.length l)%nat -> nth_error (array_set l i x) i = Some x.
Proof.
  induction l as [|y l IH]; intros i x Hi; [cbn in Hi; lia|].
  destruct i; cbn; [reflexivity|]. apply IH. cbn in Hi. lia.
Qed.

Lemma array_set_nth_error_other {A} (l : list A) : forall i j x,
  i <> j -> nth_error (array_set l i x) j = nth_error l j.
Proof.
  induction l as [|y l IH]; intros i j x Hne; [reflexivity|].
  destruct i, j; cbn; try reflexivity; [congruence|]. apply IH. congruence.
Qed.

Section TupleFacts.

Variable fmt_f_float : Z -> string.
Variable fmt_f_double : Z -> string.
Variable asctime_gmtime : Z -> string.
Variable cass_uuid_string : Z -> string.
Variable cass_inet_string : list Z -> string.
Variable InputFunctionCall : Oid -> option string -> Outcome Datum.

Let loop := Scan.make_tuple_loop fmt_f_float fmt_f_double asctime_gmtime
              cass_uuid_string cass_inet_string InputFunctionCall.

Let text := cell_text fmt_f_float fmt_f_double asctime_gmtime
              cass_uuid_string cass_inet_string.

(** One turn of the loop that returns: the cell number [j] of the row has
    been read, and for a column of the relation the input function has
    returned a value that is stored at the place of the column. *)
Lemma make_tuple_loop_step tupdesc row i rest j values j' values' :
  loop tupdesc row (i :: rest) j values = (Done j', values') ->
  exists cell values1,
    (if j <? 0 then None else nth_error row (Z.to_nat j)) = Some cell /\
    loop tupdesc row rest (j + 1) values1 = (Done j', values') /\
    ((i <= 0 /\ values1 = values) \/
     (0 < i /\
      exists attr value,
        TupleDescAttr tupdesc (i - 1) = Some attr /\
        InputFunctionCall (atttypid attr) (text cell) = Done value /\
        values1 = array_set values (Z.to_nat (i - 1)) (stored cell value))).
Proof.
  subst loop. cbn [Scan.make_tuple_loop]. unfold bind at 1.
  unfold Scan.column_valstr.
  destruct (if j <? 0 then None else nth_error row (Z.to_nat j)) as [cell|];
    [|discriminate].
  assert (Hcase : forall valstr,
    valstr = text cell ->
    ((if 0 <? i
      then
        match TupleDescAttr tupdesc (i - 1) with
        | Some attr =>
            match InputFunctionCall (atttypid attr) valstr with
            | Done value =>
                modify (fun values : HeapTuple =>
                  array_set values (Z.to_nat (i - 1))
                    match valstr with
                    | Some _ => Some value
                    | None => None
                    end)
            | Raised e => fun s => (Raised e, s)
            end
        | None => elog_ERROR "attribute outside the tuple descriptor"
        end
      else ret tt) ;;
     Scan.make_tuple_loop fmt_f_float fmt_f_double asctime_gmtime cass_uuid_string
       cass_inet_string InputFunctionCall tupdesc row rest (j + 1)) values
    = (Done j', values') ->
    exists cell0 values1,
      Some cell = Some cell0 /\
      Scan.make_tuple_loop fmt_f_float fmt_f_double asctime_gmtime cass_uuid_string
        cass_inet_string InputFunctionCall tupdesc row rest (j + 1) values1
      = (Done j', values') /\
      ((i <= 0 /\ values1 = values) \/
       (0 < i /\
        exists attr value,
          TupleDescAttr tupdesc (i - 1) = Some attr /\
          InputFunctionCall (atttypid attr) (text cell0) = Done value /\
          values1 = array_set values (Z.to_nat (i - 1)) (stored cell0 value)))).
  { intros valstr ->. unfold bind at 1.
    destruct (Z.ltb_spec 0 i) as [Hpos|Hneg].
    - destruct (TupleDescAttr tupdesc (i - 1)) as [attr|] eqn:Hattr; [|discriminate].
      destruct (InputFunctionCall (atttypid attr) (text cell)) as [value|e] eqn:Hin;
        [|discriminate].
      cbn [modify]. intros H.
      exists cell, (array_set values (Z.to_nat (i - 1)) (stored cell value)).
      split; [reflexivity|]. split.
      + destruct cell; exact H.
      + right. split; [exact Hpos|]. exists attr, value. repeat split.
        exact Hin.
    - cbn [ret]. intros H. exists cell, values.
      split; [reflexivity|]. split; [exact H|]. left. split; [lia|reflexivity]. }
  destruct cell as [v|]; cbn [ret]; apply Hcase; reflexivity.
Qed.

Lemma TupleDescAttr_bound tupdesc i attr :
  TupleDescAttr tupdesc (i - 1) = Some attr ->
  0 < i /\ (Z.to_nat (i - 1) < List.length tupdesc)%nat.
Proof.
  unfold TupleDescAttr. destruct (Z.ltb_spec (i - 1) 0) as [Hlt|Hge];
    [discriminate|].
  intros Hnth. split; [lia|]. apply nth_error_Some. congruence.
Qed.

(** The loop over the retrieved attributes, when it returns: it has read
    one cell of the row for each attribute of the list, has left alone
    the places of the columns that are not in the list, and has stored at
    the place of each column of the list what the input function returned
    for the cell with the number of the attribute in the list. *)
Lemma make_tuple_loop_done tupdesc row : forall attrs j values j' values',
  loop tupdesc row attrs j values = (Done j', values') ->
  0 <= j ->
  List.length values = List.length tupdesc ->
  j' = j + Z.of_nat (List.length attrs) /\
  List.length values' = List.length values /\
  (forall n : nat, ~ In (Z.of_nat n + 1) attrs ->
     nth_error values' n = nth_error values n) /\
  (NoDup attrs ->
   forall (k : nat) i, nth_error attrs k = Some i -> 0 < i ->
     exists cell attr value,
       nth_error row (Z.to_nat j + k) = Some cell /\
       TupleDescAttr tupdesc (i - 1) = Some attr /\
       InputFunctionCall (atttypid attr) (text cell) = Done value /\
       nth_error values' (Z.to_nat (i - 1)) = Some (stored cell value)).
Proof.
  induction attrs as [|i rest IH]; intros j values j' values' Hrun Hj Hlen.
  - cbn in Hrun. injection Hrun as <- <-.
    repeat split; [cbn; lia|]. intros _ k i Hk. destruct k; discriminate.
  - apply make_tuple_loop_step in Hrun.
    destruct Hrun as (cell & values1 & Hcell & Hrest & Hset).
    destruct (Z.ltb_spec j 0) as [|_]; [lia|].
    assert (Hlen1 : List.length values1 = List.length values).
    { destruct Hset as [[_ ->]|(_ & attr & value & _ & _ & ->)];
        [reflexivity|apply array_set_length]. }
    apply IH in Hrest; [|lia|congruence].
    destruct Hrest as (-> & Hl & Hframe & Hcells).
    split; [cbn [List.length]; lia|]. split; [congruence|].
    assert (Hkeep : forall n : nat, Z.of_nat n + 1 <> i ->
              nth_error values1 n = nth_error values n).
    { intros n Hn.
      destruct Hset as [[_ ->]|(Hpos & attr & value & _ & _ & ->)];
        [reflexivity|].
      apply array_set_nth_error_other. lia. }
    split.
    + intros n Hn. rewrite Hframe by (intros Hin; apply Hn; right; exact Hin).
      apply Hkeep. intros Heq. apply Hn. left. symmetry. exact Heq.
    + intros Hnd k i0 Hk Hpos0. inversion Hnd as [|? ? Hnotin Hnd']; subst.
      destruct k as [|k].
      * cbn in Hk. injection Hk as <-.
        destruct Hset as [[Hle _]|(_ & attr & value & Hattr & Hin & ->)]; [lia|].
        exists cell, attr, value. rewrite Nat.add_0_r.
        split; [exact Hcell|]. split; [exact Hattr|]. split; [exact Hin|].
        rewrite Hframe.
        -- apply array_set_nth_error_same.
           apply TupleDescAttr_bound in Hattr. lia.
        -- replace (Z.of_nat (Z.to_nat (i - 1)) + 1) with i by lia. exact Hnotin.
      * cbn in Hk. destruct (Hcells Hnd' k i0 Hk Hpos0)
          as (cell0 & attr & value & Hc & Hattr & Hin & Hv).
        exists cell0, attr, value.
        replace (Z.to_nat j + S k)%nat with (Z.to_nat (j + 1) + k)%nat by lia.
        repeat split; assumption.
Qed.

End TupleFacts.

(** X9. The tuple made from a row of the result has one place for each
    column of the relation.  The places of the columns that are not in
    the list of the retrieved attributes hold nulls.  When the list has no
    attribute twice, the column that is number [k] of the list holds what
    its input function returned for the text of the cell number [k] of the
    row, and a null for a null cell.  A list that is not empty has as many
    attributes as the result has columns. *)
Theorem tuple_columns_as_planned
    (fmt_f_float fmt_f_double asctime_gmtime cass_uuid_string : Z -> string)
    (cass_inet_string : list Z -> string)
    (InputFunctionCall : Oid -> option string -> Outcome Datum)
    (row : CassRow) (ncolumn : Z) (r : Relation) (attrs : list Z)
    (tuple : HeapTuple) :
  Scan.make_tuple_from_result_row fmt_f_float fmt_f_double asctime_gmtime
    cass_uuid_string cass_inet_string InputFunctionCall row ncolumn r attrs
  = Done tuple ->
  List.length tuple = List.length (rd_att r) /\
  (attrs = [] \/ Z.of_nat (List.length attrs) = ncolumn) /\
  (forall n : nat,
     (n < List.length (rd_att r))%nat -> ~ In (Z.of_nat n + 1) attrs ->
     nth_error tuple n = Some None) /\
  (NoDup attrs ->
   forall (k : nat) i, nth_error attrs k = Some i -> 0 < i ->
     exists cell attr value,
       nth_error row k = Some cell /\
       TupleDescAttr (rd_att r) (i - 1) = Some attr /\
       InputFunctionCall (atttypid attr)
         (cell_text fmt_f_float fmt_f_double asctime_gmtime cass_uuid_string
            cass_inet_string cell)
       = Done value /\
       nth_error tuple (Z.to_nat (i - 1)) = Some (stored cell value)).
Proof.
  unfold Scan.make_tuple_from_result_row. unfold bind at 1.
  destruct (Scan.make_tuple_loop _ _ _ _ _ _ (rd_att r) row attrs 0 _)
    as [[j|e] values] eqn:Hloop; [|discriminate].
  apply make_tuple_loop_done in Hloop; [|lia|apply repeat_length].
  destruct Hloop as (-> & Hlen & Hframe & Hcells).
  rewrite repeat_length in Hlen.
  destruct ((0 <? 0 + Z.of_nat (List.length attrs))
            && negb (0 + Z.of_nat (List.length attrs) =? ncolumn)) eqn:Hcheck;
    [discriminate|].
  cbn [ret]. intros H. injection H as <-.
  split; [exact Hlen|]. split; [|split].
  - destruct attrs as [|a rest]; [left; reflexivity|right].
    apply andb_false_iff in Hcheck. destruct Hcheck as [Hc|Hc].
    + apply Z.ltb_ge in Hc. cbn [List.length] in Hc. lia.
    + apply negb_false_iff, Z.eqb_eq in Hc. lia.
  - intros n Hn Hnotin. rewrite (Hframe n Hnotin).
    apply nth_error_repeat. exact Hn.
  - intros Hnd k i Hk Hpos. exact (Hcells Hnd k i Hk Hpos).
Qed.

Lemma tuple_columns_as_planned_witness :
  Scan.make_tuple_from_result_row no_text no_text no_text no_text (fun _ => "")
    text_input [Some (CASS_VALUE_INT 2); None] 2 scenario_table [1; 4]
  = Done [Some (DatumText "2"); None; None; None] /\
  nth_error [Some (DatumText "2"); None; None; None] 1 = Some None.
Proof.
  assert (H : Scan.make_tuple_from_result_row no_text no_text no_text no_text
                (fun _ => "") text_input [Some (CASS_VALUE_INT 2); None] 2
                scenario_table [1; 4]
              = Done [Some (DatumText "2"); None; None; None]) by reflexivity.
  split; [exact H|].
  destruct (tuple_columns_as_planned _ _ _ _ _ _ _ _ _ _ _ H) as (_ & _ & Hnull & _).
  apply Hnull; [cbn; lia|].
  cbn. intros [Hin|[Hin|[]]]; discriminate.
Defined.

(* ===================================================================== *)
(** ** The statement a modification executes *)
(* ===================================================================== *)

Lemma apply_binds_params : forall binds (k : nat) s,
  (forall (j : nat) c, nth_error binds j = Some c ->
     bind_position c = Some (Z.of_nat (k + j))) ->
  (k + List.length binds <= List.length (stmt_params s))%nat ->
  exists s',
    apply_binds binds (Some s) = Some s' /\
    stmt_query s' = stmt_query s /\
    stmt_consistency s' = stmt_consistency s /\
    List.length (stmt_params s') = List.length (stmt_params s) /\
    forall n : nat,
      nth_error (stmt_params s') n
      = if ((k <=? n)%nat && (n <? k + List.length binds)%nat)%bool
        then nth_error (bound_params binds) (n - k)
        else nth_error (stmt_params s) n.
Proof.
  induction binds as [|c rest IH]; intros k s Hpos Hlen.
  - exists s. cbn [apply_binds fold_left List.length]. repeat split. intros n.
    rewrite Nat.add_0_r.
    destruct (Nat.leb_spec k n), (Nat.ltb_spec n k); cbn [andb];
      try reflexivity; exfalso; lia.
  - pose proof (Hpos 0%nat c eq_refl) as Hc. rewrite Nat.add_0_r in Hc.
    cbn [List.length] in Hlen.
    set (s1 := cass_statement_bind s (Z.of_nat k) (bound_param c)).
    assert (Hs1 : stmt_params s1
                  = array_set (stmt_params s) k (Some (bound_param c))).
    { unfold s1, cass_statement_bind.
      destruct (Z.ltb_spec (Z.of_nat k) 0); [lia|]. cbn. rewrite Nat2Z.id.
      reflexivity. }
    assert (Hq1 : stmt_query s1 = stmt_query s /\
                  stmt_consistency s1 = stmt_consistency s).
    { unfold s1, cass_statement_bind.
      destruct (Z.of_nat k <? 0); split; reflexivity. }
    destruct (IH (S k) s1) as (s' & Happ & Hq & Hcons & Hl & Hnth).
    + intros j c0 Hj. rewrite (Hpos (S j) c0 Hj). f_equal. lia.
    + rewrite Hs1, array_set_length. lia.
    + exists s'. split.
      * unfold apply_binds in *. cbn [fold_left].
        unfold apply_bind at 2. rewrite Hc. cbn [option_map]. exact Happ.
      * destruct Hq1 as [Hq1 Hc1].
        rewrite Hq, Hcons, Hl, Hq1, Hc1, Hs1, array_set_length.
        repeat split. intros n. rewrite Hnth, Hs1.
        cbn [List.length bound_params map].
        destruct (Nat.eq_dec n k) as [->|Hne].
        -- destruct (Nat.leb_spec (S k) k); [lia|]. cbn [andb].
           destruct (Nat.leb_spec k k); [|lia].
           destruct (Nat.ltb_spec k (k + S (List.length rest))); [|lia].
           cbn [andb]. rewrite Nat.sub_diag. cbn [nth_error].
           apply array_set_nth_error_same. lia.
        -- rewrite array_set_nth_error_other by lia.
           destruct (Nat.leb_spec (S k) n), (Nat.leb_spec k n),
             (Nat.ltb_spec n (S k + List.length rest)),
             (Nat.ltb_spec n (k + S (List.length rest)));
             cbn [andb]; try reflexivity; try lia.
           replace (n - k)%nat with (S (n - S k)) by lia. reflexivity.
Qed.

(** Binding every parameter of a statement leaves the bound values and
    nothing of what the statement held before. *)
Lemma apply_binds_all binds s :
  (forall (j : nat) c, nth_error binds j = Some c ->
     bind_position c = Some (Z.of_nat j)) ->
  List.length binds = List.length (stmt_params s) ->
  apply_binds binds (Some s)
  = Some (mkStatement (stmt_query s) (bound_params binds) (stmt_consistency s)).
Proof.
  intros Hpos Hlen.
  destruct (apply_binds_params binds 0 s Hpos) as (s' & Happ & Hq & Hc & Hl & Hnth);
    [lia|].
  rewrite Happ. f_equal. destruct s' as [q' ps' c'].
  cbn [stmt_query stmt_params stmt_consistency] in *. subst.
  f_equal. apply nth_error_ext. intros n. rewrite Hnth, Nat.sub_0_r.
  cbn [Nat.leb andb Nat.add].
  destruct (Nat.ltb_spec n (List.length binds)); [reflexivity|].
  rewrite (proj2 (nth_error_None _ _)) by lia.
  symmetry. apply nth_error_None. unfold bound_params. rewrite length_map. lia.
Qed.

Section StatementFacts.

Variable session_tzoffset : Z -> Z.

Lemma bind_call_for_is_bind ty k v c :
  bind_call_for session_tzoffset ty k v = Some c ->
  is_bind c = true /\ bind_position c = Some k.
Proof.
  unfold bind_call_for. destruct v as [value|].
  - destruct (param_of_datum session_tzoffset ty value); [|discriminate].
    intros [= <-]. split; reflexivity.
  - destruct (ty =? INT2OID); [discriminate|]. intros [= <-]. split; reflexivity.
Qed.

(** The loop over the targets, whatever its outcome: the bindings made,
    at consecutive positions, the statement they leave, and what an error
    releases. *)
Lemma bind_targets_loop_outcome op slot fm :
  forall targets k st cl r w',
    bind_targets_loop session_tzoffset op slot targets k
      (mkModifyWorld (Some (with_statement fm st)) cl) = (r, w') ->
    exists binds,
      Forall (fun c => is_bind c = true) binds /\
      (forall (j : nat) c, nth_error binds j = Some c ->
         bind_position c = Some (k + Z.of_nat j)) /\
      match r with
      | Done k' =>
          map Some binds = target_bind_calls session_tzoffset fm slot targets k /\
          k' = k + Z.of_nat (List.length targets) /\
          w' = mkModifyWorld (Some (with_statement fm (apply_binds binds st)))
                 (cl ++ binds)
      | Raised e =>
          (e = smallint_null_error op /\
           w' = mkModifyWorld
                  (Some (with_cass_conn
                           (with_statement fm (apply_binds binds st)) false))
                  (cl ++ binds
                   ++ release_calls (with_statement fm (apply_binds binds st)))) \/
          (exists ty,
             e = type_not_supported_error ty /\
             w' = mkModifyWorld (Some (with_statement fm (apply_binds binds st)))
                    (cl ++ binds))
      end.
Proof.
  induction targets as [|attno rest IH]; intros k st cl r w' Hrun.
  - cbn in Hrun. injection Hrun as <- <-. exists [].
    split; [constructor|]. split; [intros j c Hj; destruct j; discriminate|].
    cbn. rewrite app_nil_r, Z.add_0_r. repeat split.
  - rewrite bind_targets_loop_step in Hrun. unfold bind in Hrun.
    rewrite bind_one_run in Hrun. cbn [target_bind_calls].
    destruct (bind_call_for session_tzoffset (type_oid_at fm k) k
                (slot_getattr slot attno)) as [c|] eqn:Hc.
    + destruct (bind_call_for_is_bind _ _ _ _ Hc) as [Hbind Hposc].
      apply IH in Hrun. destruct Hrun as (binds & Hall & Hpos & Hres).
      assert (Hst : option_map
                      (fun s => cass_statement_bind s k
                                  match c with
                                  | call_bind _ p => p
                                  | _ => CassNull
                                  end) st
                    = apply_bind st c).
      { unfold apply_bind. rewrite Hposc. reflexivity. }
      rewrite Hst in Hres.
      exists (c :: binds). split; [constructor; assumption|]. split.
      * intros j c0 Hj. destruct j as [|j].
        -- cbn in Hj. injection Hj as <-. rewrite Z.add_0_r. exact Hposc.
        -- cbn in Hj. rewrite (Hpos j c0 Hj). f_equal. lia.
      * unfold apply_binds in *. cbn [fold_left].
        destruct r as [k'|e].
        -- destruct Hres as (Hmap & -> & ->). cbn [map List.length].
           rewrite Hmap, <- app_assoc. repeat split. lia.
        -- destruct Hres as [(-> & ->)|(ty & -> & ->)].
           ++ left. rewrite <- app_assoc. split; reflexivity.
           ++ right. exists ty. rewrite <- app_assoc. split; reflexivity.
    + exists []. split; [constructor|].
      split; [intros j c Hj; destruct j; discriminate|].
      destruct (slot_getattr slot attno) as [v|]; injection Hrun as <- <-.
      * right. eexists. cbn. rewrite app_nil_r. split; reflexivity.
      * left. cbn. split; reflexivity.
Qed.

Lemma apply_binds_some binds : forall st,
  apply_binds binds st = None <-> st = None.
Proof.
  unfold apply_binds.
  induction binds as [|c rest IH]; intros st; cbn [fold_left]; [tauto|].
  rewrite IH. unfold apply_bind.
  destruct (bind_position c); [|tauto]. destruct st; cbn; split; congruence.
Qed.

Lemma release_calls_apply_binds fm binds st :
  release_calls (with_statement fm (apply_binds binds st))
  = release_calls (with_statement fm st).
Proof.
  unfold release_calls. cbn [statement with_statement sql_sent].
  pose proof (apply_binds_some binds st) as H.
  destruct (apply_binds binds st), st; try reflexivity.
  - destruct H as [_ H]. discriminate (H eq_refl).
  - destruct H as [H _]. discriminate (H eq_refl).
Qed.

(** The start of both write paths, whatever its outcome. *)
Lemma prepare_and_bind_targets_precise op slot fm cl r w1 :
  prepare_and_bind_targets session_tzoffset op slot (mkModifyWorld (Some fm) cl)
  = (r, w1) ->
  exists binds,
    Forall (fun c => is_bind c = true) binds /\
    (forall (j : nat) c, nth_error binds j = Some c ->
       bind_position c = Some (Z.of_nat j)) /\
    let st := apply_binds binds (statement_at_bind fm) in
    match r with
    | Done k =>
        map Some binds = expected_target_binds session_tzoffset fm slot /\
        k = Z.of_nat (List.length binds) /\
        w1 = mkModifyWorld (Some (with_statement fm st))
               (cl ++ statement_new_calls fm ++ binds)
    | Raised e =>
        (e = smallint_null_error op /\
         w1 = mkModifyWorld (Some (with_cass_conn (with_statement fm st) false))
                (cl ++ statement_new_calls fm ++ binds
                 ++ release_calls (with_statement fm (statement_at_bind fm)))) \/
        (exists ty,
           e = type_not_supported_error ty /\
           w1 = mkModifyWorld (Some (with_statement fm st))
                  (cl ++ statement_new_calls fm ++ binds))
    end.
Proof.
  rewrite prepare_and_bind_targets_run. intros Hrun.
  assert (Hnone :
    expected_target_binds session_tzoffset fm slot = [] ->
    (Done 0,
     mkModifyWorld (Some (with_statement fm (statement_at_bind fm)))
       (cl ++ statement_new_calls fm)) = (r, w1) ->
    exists binds,
      Forall (fun c => is_bind c = true) binds /\
      (forall (j : nat) c, nth_error binds j = Some c ->
         bind_position c = Some (Z.of_nat j)) /\
      let st := apply_binds binds (statement_at_bind fm) in
      match r with
      | Done k =>
          map Some binds = expected_target_binds session_tzoffset fm slot /\
          k = Z.of_nat (List.length binds) /\
          w1 = mkModifyWorld (Some (with_statement fm st))
                 (cl ++ statement_new_calls fm ++ binds)
      | Raised e =>
          (e = smallint_null_error op /\
           w1 = mkModifyWorld (Some (with_cass_conn (with_statement fm st) false))
                  (cl ++ statement_new_calls fm ++ binds
                   ++ release_calls (with_statement fm (statement_at_bind fm)))) \/
          (exists ty,
             e = type_not_supported_error ty /\
             w1 = mkModifyWorld (Some (with_statement fm st))
                    (cl ++ statement_new_calls fm ++ binds))
      end).
  { intros Hnil Heq. injection Heq as <- <-. exists [].
    split; [constructor|]. split; [intros j c Hj; destruct j; discriminate|].
    cbn [apply_binds fold_left map List.length]. rewrite Hnil, app_nil_r.
    repeat split. }
  destruct slot as [sl|]; [|apply Hnone; [reflexivity|exact Hrun]].
  destruct (target_attrs fm) as [|a ta] eqn:Hta.
  { apply Hnone; [cbn; rewrite Hta; reflexivity|exact Hrun]. }
  clear Hnone. cbn [expected_target_binds]. rewrite Hta.
  apply bind_targets_loop_outcome in Hrun.
  destruct Hrun as (binds & Hall & Hpos & Hres).
  exists binds. split; [exact Hall|]. split; [exact Hpos|].
  cbv zeta. destruct r as [k|e].
  - destruct Hres as (Hmap & -> & ->). rewrite <- app_assoc.
    repeat split; [exact Hmap|].
    apply (f_equal (@List.length _)) in Hmap.
    rewrite length_map, target_bind_calls_length in Hmap. lia.
  - rewrite release_calls_apply_binds in Hres.
    destruct Hres as [(-> & ->)|(ty & -> & ->)].
    + left. rewrite <- !app_assoc. split; reflexivity.
    + right. exists ty. rewrite <- app_assoc. split; reflexivity.
Qed.

(** [cassExecForeignInsert], whatever its outcome. *)
Lemma cassExecForeignInsert_outcome sl future fm cl r w' :
  cassExecForeignInsert session_tzoffset (Some sl) future
    (mkModifyWorld (Some fm) cl) = (r, w') ->
  exists binds,
    Forall (fun c => is_bind c = true) binds /\
    (forall (j : nat) c, nth_error binds j = Some c ->
       bind_position c = Some (Z.of_nat j)) /\
    let st := apply_binds binds (statement_at_bind fm) in
    let st2 := option_map
                 (fun s => cass_statement_set_consistency s (write_consistency fm))
                 st in
    let fm2 := with_sql_sent (with_statement fm st2) true in
    let sent := (cl ++ statement_new_calls fm ++ binds
                 ++ [call_set_consistency (write_consistency fm);
                     call_session_execute st2])%list in
    match r with
    | Done x =>
        x = Some sl /\
        map Some binds
        = target_bind_calls session_tzoffset fm sl (target_attrs fm) 0 /\
        w' = mkModifyWorld (Some fm2) sent
    | Raised e =>
        (e = smallint_null_error "INSERT" /\
         w' = mkModifyWorld (Some (with_cass_conn (with_statement fm st) false))
                (cl ++ statement_new_calls fm ++ binds
                 ++ release_calls (with_statement fm (statement_at_bind fm)))) \/
        (exists ty,
           e = type_not_supported_error ty /\
           w' = mkModifyWorld (Some (with_statement fm st))
                  (cl ++ statement_new_calls fm ++ binds)) \/
        (e = failed_execute_error "INSERT" future /\
         w' = mkModifyWorld (Some (with_cass_conn fm2 false))
                (sent ++ release_calls fm2))
    end.
Proof.
  unfold cassExecForeignInsert. unfold bind at 1.
  destruct (prepare_and_bind_targets session_tzoffset "INSERT" (Some sl) _)
    as [r1 w1] eqn:Hprep.
  apply prepare_and_bind_targets_precise in Hprep.
  destruct Hprep as (binds & Hall & Hpos & Hres). cbv zeta in Hres.
  intros Hrun. exists binds. split; [exact Hall|]. split; [exact Hpos|].
  cbv zeta. destruct r1 as [k|e].
  - destruct Hres as (Hmap & -> & ->).
    unfold bind at 1 in Hrun. rewrite execute_and_check_run in Hrun.
    rewrite <- !app_assoc in Hrun.
    destruct (cass_future_error_code future).
    + cbn [ret] in Hrun. injection Hrun as <- <-. repeat split. exact Hmap.
    + injection Hrun as <- <-. right. right. rewrite <- !app_assoc.
      split; reflexivity.
  - injection Hrun as <- <-.
    destruct Hres as [(-> & ->)|(ty & -> & ->)].
    + left. split; reflexivity.
    + right. left. exists ty. split; reflexivity.
Qed.

Lemma apply_binds_snoc binds c st :
  apply_binds (binds ++ [c]) st = apply_bind (apply_binds binds st) c.
Proof. unfold apply_binds. rewrite fold_left_app. reflexivity. Qed.

(** [cassExecPKPredWrite], whatever its outcome; the bindings of a write
    that reaches its execute are those of the targets and then the one of
    the key. *)
Lemma cassExecPKPredWrite_outcome slot planSlot op future fm cl r w' :
  cassExecPKPredWrite session_tzoffset slot planSlot op future
    (mkModifyWorld (Some fm) cl) = (r, w') ->
  exists binds,
    Forall (fun c => is_bind c = true) binds /\
    (forall (j : nat) c, nth_error binds j = Some c ->
       bind_position c = Some (Z.of_nat j)) /\
    let targets := expected_target_binds session_tzoffset fm slot in
    let key := key_bind_call session_tzoffset fm planSlot
                 (Z.of_nat (List.length targets)) in
    let st := apply_binds binds (statement_at_bind fm) in
    let st2 := option_map
                 (fun s => cass_statement_set_consistency s (write_consistency fm))
                 st in
    let fm2 := with_sql_sent (with_statement fm st2) true in
    let sent := (cl ++ statement_new_calls fm ++ binds
                 ++ [call_set_consistency (write_consistency fm);
                     call_session_execute st2])%list in
    match r with
    | Done x =>
        x = slot /\
        map Some binds = (targets ++ [key])%list /\
        w' = mkModifyWorld (Some fm2) sent
    | Raised e =>
        (e = smallint_null_error op /\
         w' = mkModifyWorld (Some (with_cass_conn (with_statement fm st) false))
                (cl ++ statement_new_calls fm ++ binds
                 ++ release_calls (with_statement fm (statement_at_bind fm)))) \/
        (exists ty,
           e = type_not_supported_error ty /\
           w' = mkModifyWorld (Some (with_statement fm st))
                  (cl ++ statement_new_calls fm ++ binds)) \/
        (e = primary_key_null_error (rel fm) /\
         map Some binds = targets /\
         w' = mkModifyWorld (Some (with_statement fm st))
                (cl ++ statement_new_calls fm ++ binds)) \/
        (e = failed_execute_error op future /\
         map Some binds = (targets ++ [key])%list /\
         w' = mkModifyWorld (Some (with_cass_conn fm2 false))
                (sent ++ release_calls fm2))
    end.
Proof.
  unfold cassExecPKPredWrite. unfold bind at 1.
  destruct (prepare_and_bind_targets session_tzoffset op slot _)
    as [r1 w1] eqn:Hprep.
  apply prepare_and_bind_targets_precise in Hprep.
  destruct Hprep as (binds & Hall & Hpos & Hres). cbv zeta in Hres.
  intros Hrun. destruct r1 as [k|e].
  - destruct Hres as (Hmap & -> & ->).
    rewrite key_step_run in Hrun.
    assert (Hlen : List.length (expected_target_binds session_tzoffset fm slot)
                   = List.length binds)
      by (rewrite <- Hmap, length_map; reflexivity).
    destruct (ExecGetJunkAttribute planSlot (keyAttno fm)) as [value|] eqn:Hkey.
    + destruct (param_of_datum session_tzoffset
                  (type_oid_at fm (Z.of_nat (List.length binds))) value)
        as [p|] eqn:Hp.
      * (* the key is bound: it joins the bindings *)
        set (c := call_bind (Z.of_nat (List.length binds)) p).
        exists (binds ++ [c])%list.
        split; [apply Forall_app; split; [exact Hall|repeat constructor]|].
        split.
        { intros j c0 Hj.
          destruct (Nat.lt_ge_cases j (List.length binds)) as [Hlt|Hge].
          - rewrite nth_error_app1 in Hj by exact Hlt. apply Hpos. exact Hj.
          - rewrite nth_error_app2 in Hj by exact Hge.
            destruct (j - List.length binds)%nat as [|d] eqn:Hd;
              [|destruct d; discriminate].
            cbn in Hj. injection Hj as <-. cbn. f_equal. lia. }
        cbv zeta. rewrite apply_binds_snoc.
        assert (Hst : apply_bind (apply_binds binds (statement_at_bind fm)) c
                      = option_map
                          (fun s => cass_statement_bind s
                                      (Z.of_nat (List.length binds)) p)
                          (apply_binds binds (statement_at_bind fm)))
          by reflexivity.
        rewrite Hst.
        assert (Hkeycall : map Some (binds ++ [c])
                           = (expected_target_binds session_tzoffset fm slot
                              ++ [key_bind_call session_tzoffset fm planSlot
                                    (Z.of_nat (List.length
                                       (expected_target_binds session_tzoffset fm
                                          slot)))])%list).
        { rewrite map_app, Hmap. f_equal. cbn [map]. unfold key_bind_call.
          rewrite Hkey, Hlen. cbn [bind_call_for]. rewrite Hp. reflexivity. }
        unfold bind at 1 in Hrun. rewrite execute_and_check_run in Hrun.
        rewrite <- !app_assoc in Hrun. cbn [app] in Hrun.
        destruct (cass_future_error_code future).
        -- cbn [ret] in Hrun. injection Hrun as <- <-.
           rewrite <- !app_assoc. cbn [app]. repeat split. exact Hkeycall.
        -- injection Hrun as <- <-. right. right. right.
           rewrite <- !app_assoc. cbn [app].
           split; [reflexivity|]. split; [exact Hkeycall|reflexivity].
      * injection Hrun as <- <-. exists binds.
        split; [exact Hall|]. split; [exact Hpos|]. cbv zeta.
        right. left. eexists. split; reflexivity.
    + injection Hrun as <- <-. exists binds.
      split; [exact Hall|]. split; [exact Hpos|]. cbv zeta.
      right. right. left. split; [reflexivity|]. split; [exact Hmap|reflexivity].
  - injection Hrun as <- <-. exists binds.
    split; [exact Hall|]. split; [exact Hpos|]. cbv zeta.
    destruct Hres as [(-> & ->)|(ty & -> & ->)].
    + left. split; reflexivity.
    + right. left. exists ty. split; reflexivity.
Qed.

End StatementFacts.

Lemma statement_at_bind_ready fm :
  statement_ready fm ->
  exists s,
    statement_at_bind fm = Some s /\
    stmt_query s = query fm /\
    List.length (stmt_params s) = Z.to_nat (p_nums fm).
Proof.
  intros [Hpos Hsent]. unfold statement_at_bind.
  destruct (sql_sent fm); [apply Hsent; reflexivity|].
  eexists. split; [reflexivity|]. split; [reflexivity|].
  cbn. apply repeat_length.
Qed.

(** The statement that is executed once every one of its parameters has
    been bound. *)
Lemma executed_statement fm binds :
  statement_ready fm ->
  (forall (j : nat) c, nth_error binds j = Some c ->
     bind_position c = Some (Z.of_nat j)) ->
  p_nums fm = Z.of_nat (List.length binds) ->
  let executed := mkStatement (query fm) (bound_params binds)
                    (Some (write_consistency fm)) in
  option_map (fun s => cass_statement_set_consistency s (write_consistency fm))
    (apply_binds binds (statement_at_bind fm))
  = Some executed /\
  statement_ready (with_sql_sent (with_statement fm (Some executed)) true).
Proof.
  intros Hready Hpos Hnum executed.
  destruct (statement_at_bind_ready fm Hready) as (s & Hs & Hq & Hl).
  rewrite Hs, (apply_binds_all binds s Hpos) by lia.
  cbn [option_map]. unfold cass_statement_set_consistency.
  cbn [stmt_query stmt_params]. rewrite Hq. split; [reflexivity|].
  destruct Hready as [Hp _]. split; [exact Hp|]. intros _.
  exists executed. repeat split.
  cbn [p_nums with_sql_sent with_statement executed stmt_params].
  unfold bound_params. rewrite length_map. lia.
Qed.

(** X10. The statement a write executes holds the values of its row and
    nothing else: for an INSERT whose statement has one parameter for each
    target, and for an UPDATE or DELETE whose statement has one more for
    the key, the statement handed to the execute has the planned text, the
    write consistency, and as its parameters exactly the values bound for
    this row, in their order, whatever the statement held from the row
    before; and this statement is the one the state keeps. *)
Theorem executed_statement_holds_the_row
    (session_tzoffset : Z -> Z) (fm : CassFdwModifyState) (cl : list DriverCall)
    (sl planSlot : TupleTableSlot) (opname : string) (future : CassFuture) :
  statement_ready fm ->
  (p_nums fm = Z.of_nat (List.length (target_attrs fm)) ->
   forall r w',
     cassExecForeignInsert session_tzoffset (Some sl) future
       (mkModifyWorld (Some fm) cl) = (Done r, w') ->
     exists binds,
       map Some binds
       = target_bind_calls session_tzoffset fm sl (target_attrs fm) 0 /\
       let executed := mkStatement (query fm) (bound_params binds)
                         (Some (write_consistency fm)) in
       calls w' = (cl ++ statement_new_calls fm ++ binds
                   ++ [call_set_consistency (write_consistency fm);
                       call_session_execute (Some executed)])%list /\
       ri_FdwState w'
       = Some (with_sql_sent (with_statement fm (Some executed)) true) /\
       statement_ready (with_sql_sent (with_statement fm (Some executed)) true)) /\
  (p_nums fm = Z.of_nat (List.length (target_attrs fm)) + 1 ->
   forall r w',
     cassExecPKPredWrite session_tzoffset (Some sl) planSlot opname future
       (mkModifyWorld (Some fm) cl) = (Done r, w') ->
     exists binds,
       map Some binds
       = (target_bind_calls session_tzoffset fm sl (target_attrs fm) 0
          ++ [key_bind_call session_tzoffset fm planSlot
                (Z.of_nat (List.length (target_attrs fm)))])%list /\
       let executed := mkStatement (query fm) (bound_params binds)
                         (Some (write_consistency fm)) in
       calls w' = (cl ++ statement_new_calls fm ++ binds
                   ++ [call_set_consistency (write_consistency fm);
                       call_session_execute (Some executed)])%list /\
       ri_FdwState w'
       = Some (with_sql_sent (with_statement fm (Some executed)) true) /\
       statement_ready (with_sql_sent (with_statement fm (Some executed)) true)).
Proof.
  intros Hready. split.
  - intros Hnum r w' Hrun.
    apply cassExecForeignInsert_outcome in Hrun.
    destruct Hrun as (binds & _ & Hpos & _ & Hmap & ->).
    assert (Hlen : List.length binds = List.length (target_attrs fm)).
    { apply (f_equal (@List.length _)) in Hmap.
      rewrite length_map, target_bind_calls_length in Hmap. exact Hmap. }
    destruct (executed_statement fm binds Hready Hpos) as [Hex Hr];
      [rewrite Hlen; exact Hnum|].
    exists binds. split; [exact Hmap|]. cbv zeta. rewrite Hex.
    split; [reflexivity|]. split; [reflexivity|exact Hr].
  - intros Hnum r w' Hrun.
    apply cassExecPKPredWrite_outcome in Hrun.
    destruct Hrun as (binds & _ & Hpos & _ & Hmap & ->).
    cbn [expected_target_binds] in Hmap.
    rewrite target_bind_calls_length in Hmap.
    assert (Hlen : List.length binds = S (List.length (target_attrs fm))).
    { apply (f_equal (@List.length _)) in Hmap.
      rewrite length_map, length_app, target_bind_calls_length in Hmap.
      cbn in Hmap. lia. }
    destruct (executed_statement fm binds Hready Hpos) as [Hex Hr];
      [rewrite Hlen; lia|].
    exists binds. split; [exact Hmap|]. cbv zeta. rewrite Hex.
    split; [reflexivity|]. split; [reflexivity|exact Hr].
Qed.

Lemma executed_statement_holds_the_row_witness :
  exists fm,
    begun_state pg_quote_identifier CMD_INSERT scenario_table 0%N [] = Some fm /\
    exists w' binds,
      cassExecForeignInsert utc
        (Some [Some (DatumWord 7); Some (DatumWord 0); Some (DatumWord 2);
               Some (DatumWord 1)])
        reply_ok (mkModifyWorld (Some fm) [])
      = (Done (Some [Some (DatumWord 7); Some (DatumWord 0); Some (DatumWord 2);
                     Some (DatumWord 1)]), w') /\
      bound_params binds
      = [Some (CassInt32 7); Some (CassInt16 0); Some (CassInt64 2);
         Some (CassBool true)] /\
      ri_FdwState w'
      = Some (with_sql_sent
                (with_statement fm
                   (Some (mkStatement (query fm) (bound_params binds)
                            (Some (write_consistency fm))))) true).
Proof.
  eexists. split; [vm_compute; reflexivity|].
  match goal with
  | |- exists w' binds,
         cassExecForeignInsert _ _ _ (mkModifyWorld (Some ?st) _) = _ /\ _ =>
      set (fm := st)
  end.
  destruct (cassExecForeignInsert utc
              (Some [Some (DatumWord 7); Some (DatumWord 0); Some (DatumWord 2);
                     Some (DatumWord 1)])
              reply_ok (mkModifyWorld (Some fm) [])) as [[r|e] w'] eqn:Hrun;
    [|vm_compute in Hrun; discriminate Hrun].
  assert (Hready : statement_ready fm)
    by (split; [vm_compute; discriminate|intros Hs; discriminate Hs]).
  destruct (executed_statement_holds_the_row utc fm []
              [Some (DatumWord 7); Some (DatumWord 0); Some (DatumWord 2);
               Some (DatumWord 1)] [] "INSERT" reply_ok Hready) as [Hins _].
  destruct (Hins eq_refl r w' Hrun) as (binds & Hmap & _ & Hst & _).
  exists w', binds. split; [|split; [|exact Hst]].
  - pose proof Hrun as Hc. vm_compute in Hc. injection Hc as <- _. reflexivity.
  - vm_compute in Hmap.
    destruct binds as [|b0 [|b1 [|b2 [|b3 [|b4 rest]]]]]; try discriminate Hmap.
    injection Hmap as -> -> -> ->. reflexivity.
Defined.

(* ===================================================================== *)
(** ** The rows of an INSERT, from the beginning to the end *)
(* ===================================================================== *)

Lemma count_calls_binds binds :
  Forall (fun c => is_bind c = true) binds ->
  count_calls is_bind binds = List.length binds /\
  count_calls is_execute binds = 0%nat /\
  count_calls is_statement_new binds = 0%nat /\
  count_calls is_statement_free binds = 0%nat /\
  count_calls is_GetConnection binds = 0%nat /\
  count_calls is_ReleaseConnection binds = 0%nat.
Proof.
  induction 1 as [|c l Hc Hl IH]; [repeat split|].
  rewrite !count_calls_cons. destruct IH as (-> & -> & -> & -> & -> & ->).
  destruct c; try discriminate Hc; cbn; repeat split.
Qed.

(** Beginning an INSERT that is not only explained: the connection is
    taken, no statement exists yet, and the state has one parameter for
    each target. *)
Lemma cassBeginForeignModify_insert_run r fdw_private tlist w w' :
  cassBeginForeignModify CMD_INSERT r fdw_private tlist false w = (Done tt, w') ->
  exists oids,
    w' = mkModifyWorld
           (Some (mkModifyState r true false None (cassGetWriteConsistencyOption r)
                    (FdwModifyPrivateUpdateSql fdw_private)
                    (FdwModifyPrivateTargetAttnums fdw_private)
                    (FdwModifyPrivateHasReturning fdw_private)
                    (FdwModifyPrivateRetrievedAttrs fdw_private)
                    InvalidAttrNumber
                    (Z.of_nat (List.length (FdwModifyPrivateTargetAttnums fdw_private)))
                    oids))
           (calls w ++ [call_GetConnection]).
Proof.
  intros Hrun. unfold cassBeginForeignModify in Hrun.
  unfold bind at 1 in Hrun. cbn [call modify] in Hrun.
  unfold bind at 1 in Hrun.
  destruct (begin_target_types (rd_att r) _ _ 0 _)
    as [[[oids nums]|e] w1] eqn:Hloop; [|discriminate].
  apply begin_target_types_cells in Hloop; [|lia|rewrite repeat_length; lia].
  destruct Hloop as (-> & _ & -> & _ & _).
  cbn in Hrun. unfold set_fmstate, modify in Hrun. injection Hrun as <-.
  exists oids. reflexivity.
Qed.

Section RowsFacts.

Variable session_tzoffset : Z -> Z.

(** The rows of an INSERT that all return: the statement is created for
    the first of them, each makes its bindings and one execute, and the
    state keeps the statement of the last. *)
Lemma insert_rows_done : forall rows fm cl w',
  statement_ready fm ->
  p_nums fm = Z.of_nat (List.length (target_attrs fm)) ->
  insert_rows session_tzoffset rows (mkModifyWorld (Some fm) cl) = (Done tt, w') ->
  exists st ss added,
    w' = mkModifyWorld (Some (with_sql_sent (with_statement fm st) ss))
           (cl ++ added) /\
    (rows = [] -> st = statement fm /\ ss = sql_sent fm) /\
    (rows <> [] -> st <> None /\ ss = true) /\
    count_calls is_statement_new added
    = (match rows with [] => 0 | _ => if sql_sent fm then 0 else 1 end)%nat /\
    count_calls is_execute added = List.length rows /\
    count_calls is_bind added
    = (List.length rows * List.length (target_attrs fm))%nat /\
    count_calls is_statement_free added = 0%nat /\
    count_calls is_GetConnection added = 0%nat /\
    count_calls is_ReleaseConnection added = 0%nat.
Proof.
  induction rows as [|[sl future] rest IH]; intros fm cl w' Hready Hnum Hrun.
  - cbn in Hrun. injection Hrun as <-.
    exists (statement fm), (sql_sent fm), [].
    rewrite app_nil_r. split; [destruct fm; reflexivity|].
    split; [tauto|]. split; [congruence|]. repeat split.
  - cbn [insert_rows] in Hrun. unfold bind at 1 in Hrun.
    destruct (cassExecForeignInsert session_tzoffset (Some sl) future _)
      as [[x|e] w1] eqn:Hrow; [|discriminate].
    apply cassExecForeignInsert_outcome in Hrow.
    destruct Hrow as (binds & Hall & Hpos & _ & Hmap & ->).
    assert (Hlen : List.length binds = List.length (target_attrs fm)).
    { apply (f_equal (@List.length _)) in Hmap.
      rewrite length_map, target_bind_calls_length in Hmap. exact Hmap. }
    destruct (executed_statement fm binds Hready Hpos) as [Hex Hr];
      [rewrite Hlen; exact Hnum|].
    rewrite Hex in Hrun.
    apply IH in Hrun; [|exact Hr|exact Hnum].
    destruct Hrun as (st & ss & added & -> & Hnil & Hcons & Cn & Ce & Cb & Cf & Cg & Cr).
    destruct (count_calls_binds binds Hall) as (Bb & Be & Bn & Bf & Bg & Br).
    exists st, ss,
      (statement_new_calls fm ++ binds
       ++ [call_set_consistency (write_consistency fm);
           call_session_execute
             (Some (mkStatement (query fm) (bound_params binds)
                      (Some (write_consistency fm))))] ++ added)%list.
    split; [rewrite <- !app_assoc; reflexivity|].
    split; [discriminate|]. split.
    { intros _. destruct rest as [|row rest'].
      - destruct (Hnil eq_refl) as [-> ->]. split; [discriminate|reflexivity].
      - apply Hcons. discriminate. }
    cbn [sql_sent with_sql_sent with_statement] in Cn.
    unfold statement_new_calls.
    destruct (sql_sent fm); count_calls_simpl;
      rewrite ?Bb, ?Be, ?Bn, ?Bf, ?Bg, ?Br, ?Cn, ?Ce, ?Cb, ?Cf, ?Cg, ?Cr, ?Hlen;
      cbn [List.length target_attrs with_sql_sent with_statement];
      destruct rest; repeat split; lia.
Qed.

End RowsFacts.

(** X11. An INSERT that begins, writes its rows and ends takes the
    connection once, creates the statement once, for the first row, and
    uses it for every row: each row makes one binding for each target and
    one execute; the end frees the statement, when there was a row, and
    releases the connection, last of all. *)
Theorem insert_rows_share_one_statement
    (session_tzoffset : Z -> Z) (r : Relation) (fdw_private : FdwModifyPrivate)
    (tlist : list TargetEntry) (rows : list (TupleTableSlot * CassFuture))
    (w' : ModifyWorld) :
  (cassBeginForeignModify CMD_INSERT r fdw_private tlist false ;;
   insert_rows session_tzoffset rows ;;
   cassEndForeignModify) fresh_modify = (Done tt, w') ->
  count_calls is_GetConnection (calls w') = 1%nat /\
  count_calls is_statement_new (calls w')
  = (match rows with [] => 0 | _ => 1 end)%nat /\
  count_calls is_bind (calls w')
  = (List.length rows * List.length (FdwModifyPrivateTargetAttnums fdw_private))%nat /\
  count_calls is_execute (calls w') = List.length rows /\
  count_calls is_statement_free (calls w')
  = count_calls is_statement_new (calls w') /\
  count_calls is_ReleaseConnection (calls w') = 1%nat /\
  (exists before, calls w' = (before ++ [call_ReleaseConnection])%list).
Proof.
  unfold bind at 1.
  destruct (cassBeginForeignModify CMD_INSERT r fdw_private tlist false fresh_modify)
    as [[[]|e] w0] eqn:Hbegin; [|discriminate].
  apply cassBeginForeignModify_insert_run in Hbegin.
  destruct Hbegin as (oids & ->). cbn [calls fresh_modify app].
  set (fm := mkModifyState r true false None _ _ _ _ _ _ _ oids).
  unfold bind at 1.
  destruct (insert_rows session_tzoffset rows _) as [[[]|e] w1] eqn:Hrows;
    [|discriminate].
  apply insert_rows_done in Hrows;
    [|split; [cbn; lia|intros Hs; discriminate Hs]|reflexivity].
  destruct Hrows as (st & ss & added & -> & Hnil & Hcons & Cn & Ce & Cb & Cf & Cg & Cr).
  unfold cassEndForeignModify. rewrite releaseCassResources_run.
  intros H. injection H as <-. cbn [calls].
  unfold release_calls. cbn [statement sql_sent with_sql_sent with_statement].
  cbn [sql_sent fm] in Cn. cbn [target_attrs fm] in Cb.
  destruct rows as [|row rest].
  - destruct (Hnil eq_refl) as [-> ->]. cbn [statement fm].
    count_calls_simpl. rewrite ?Cn, ?Ce, ?Cb, ?Cf, ?Cg, ?Cr. cbn [List.length].
    repeat split; try lia.
    exists ([call_GetConnection] ++ added)%list.
    rewrite <- ?app_assoc. reflexivity.
  - destruct Hcons as [Hst ->]; [discriminate|].
    destruct st as [s|]; [|congruence].
    count_calls_simpl. rewrite ?Cn, ?Ce, ?Cb, ?Cf, ?Cg, ?Cr.
    repeat split; try lia.
    exists ([call_GetConnection] ++ added ++ [call_statement_free])%list.
    rewrite <- ?app_assoc. reflexivity.
Qed.

Lemma insert_rows_share_one_statement_witness :
  exists w',
    (cassBeginForeignModify CMD_INSERT scenario_table scenario_insert_plan [] false ;;
     insert_rows utc scenario_rows ;;
     cassEndForeignModify) fresh_modify = (Done tt, w') /\
    count_calls is_statement_new (calls w') = 1%nat /\
    count_calls is_execute (calls w') = 2%nat /\
    count_calls is_statement_free (calls w') = 1%nat.
Proof.
  destruct ((cassBeginForeignModify CMD_INSERT scenario_table scenario_insert_plan
               [] false ;;
             insert_rows utc scenario_rows ;;
             cassEndForeignModify) fresh_modify) as [[[]|e] w'] eqn:Hrun;
    [|vm_compute in Hrun; discriminate Hrun].
  exists w'. split; [reflexivity|].
  destruct (insert_rows_share_one_statement utc scenario_table scenario_insert_plan
              [] scenario_rows w' Hrun) as (_ & Hn & _ & He & Hf & _).
  rewrite Hf, Hn, He. repeat split.
Defined.

(* ===================================================================== *)
(** ** What a write that fails releases *)
(* ===================================================================== *)

(** X12. On the first row of a modification, when the statement has
    just been created, the errors of a write differ in what they release.
    A null for a smallint target releases the connection and leaves the
    statement; a type that cannot be bound, and a null key, release
    nothing; an execute that the remote refuses frees the statement and
    releases the connection.  Before the error, only the statement has
    been created and targets have been bound. *)
Theorem write_errors_release_differently
    (session_tzoffset : Z -> Z) (fm : CassFdwModifyState) (cl : list DriverCall)
    (sl : TupleTableSlot) (slot : option TupleTableSlot) (planSlot : TupleTableSlot)
    (opname : string) (future : CassFuture) :
  sql_sent fm = false ->
  (forall e w',
     cassExecForeignInsert session_tzoffset (Some sl) future
       (mkModifyWorld (Some fm) cl) = (Raised e, w') ->
     exists binds,
       Forall (fun c => is_bind c = true) binds /\
       let created := (cl ++ [call_statement_new (query fm) (p_nums fm)]
                       ++ binds)%list in
       (e = smallint_null_error "INSERT" /\
        calls w' = (created ++ [call_ReleaseConnection])%list) \/
       (exists ty, e = type_not_supported_error ty /\ calls w' = created) \/
       (e = failed_execute_error "INSERT" future /\
        exists st,
          calls w' = (created
                      ++ [call_set_consistency (write_consistency fm);
                          call_session_execute st;
                          call_statement_free;
                          call_ReleaseConnection])%list)) /\
  (forall e w',
     cassExecPKPredWrite session_tzoffset slot planSlot opname future
       (mkModifyWorld (Some fm) cl) = (Raised e, w') ->
     exists binds,
       Forall (fun c => is_bind c = true) binds /\
       let created := (cl ++ [call_statement_new (query fm) (p_nums fm)]
                       ++ binds)%list in
       (e = smallint_null_error opname /\
        calls w' = (created ++ [call_ReleaseConnection])%list) \/
       (exists ty, e = type_not_supported_error ty /\ calls w' = created) \/
       (e = primary_key_null_error (rel fm) /\ calls w' = created) \/
       (e = failed_execute_error opname future /\
        exists st,
          calls w' = (created
                      ++ [call_set_consistency (write_consistency fm);
                          call_session_execute st;
                          call_statement_free;
                          call_ReleaseConnection])%list)).
Proof.
  intros Hsent.
  assert (Hnew : statement_new_calls fm
                 = [call_statement_new (query fm) (p_nums fm)])
    by (unfold statement_new_calls; rewrite Hsent; reflexivity).
  assert (Hrel : release_calls (with_statement fm (statement_at_bind fm))
                 = [call_ReleaseConnection]).
  { unfold release_calls, statement_at_bind. rewrite Hsent.
    cbn [statement with_statement sql_sent]. rewrite Hsent. reflexivity. }
  assert (Hfree : forall binds,
            release_calls
              (with_sql_sent
                 (with_statement fm
                    (option_map
                       (fun s => cass_statement_set_consistency s
                                   (write_consistency fm))
                       (apply_binds binds (statement_at_bind fm)))) true)
            = [call_statement_free; call_ReleaseConnection]).
  { intros binds. unfold release_calls.
    cbn [statement with_statement with_sql_sent sql_sent].
    destruct (apply_binds binds (statement_at_bind fm)) as [s|] eqn:Hs;
      [reflexivity|].
    apply apply_binds_some in Hs. unfold statement_at_bind in Hs.
    rewrite Hsent in Hs. discriminate. }
  split; intros e w' Hrun.
  - apply cassExecForeignInsert_outcome in Hrun.
    destruct Hrun as (binds & Hall & _ & Hres). cbv zeta in Hres.
    exists binds. split; [exact Hall|]. cbv zeta.
    rewrite Hnew, Hrel, Hfree in Hres.
    destruct Hres as [(-> & ->)|[(ty & -> & ->)|(-> & ->)]]; cbn [calls].
    + left. rewrite <- !app_assoc. split; reflexivity.
    + right. left. exists ty. split; reflexivity.
    + right. right. split; [reflexivity|]. eexists.
      rewrite <- !app_assoc. reflexivity.
  - apply cassExecPKPredWrite_outcome in Hrun.
    destruct Hrun as (binds & Hall & _ & Hres). cbv zeta in Hres.
    exists binds. split; [exact Hall|]. cbv zeta.
    rewrite Hnew, Hrel, Hfree in Hres.
    destruct Hres as [(-> & ->)|[(ty & -> & ->)|[(-> & _ & ->)|(-> & _ & ->)]]];
      cbn [calls].
    + left. rewrite <- !app_assoc. split; reflexivity.
    + right. left. exists ty. split; reflexivity.
    + right. right. left. split; reflexivity.
    + right. right. right. split; [reflexivity|]. eexists.
      rewrite <- !app_assoc. reflexivity.
Qed.

Lemma write_errors_release_differently_witness :
  exists fm,
    begun_state pg_quote_identifier CMD_INSERT scenario_table 0%N [] = Some fm /\
    exists w' binds,
      cassExecForeignInsert utc
        (Some [Some (DatumWord 1); None; Some (DatumWord 2); Some (DatumWord 1)])
        reply_ok (mkModifyWorld (Some fm) [])
      = (Raised (smallint_null_error "INSERT"), w') /\
      calls w' = ([] ++ [call_statement_new (query fm) (p_nums fm)] ++ binds
                  ++ [call_ReleaseConnection])%list /\
      Forall (fun c => is_bind c = true) binds.
Proof.
  eexists. split; [vm_compute; reflexivity|].
  match goal with
  | |- exists w' binds,
         cassExecForeignInsert _ _ _ (mkModifyWorld (Some ?st) _) = _ /\ _ =>
      set (fm := st)
  end.
  destruct (cassExecForeignInsert utc
              (Some [Some (DatumWord 1); None; Some (DatumWord 2);
                     Some (DatumWord 1)])
              reply_ok (mkModifyWorld (Some fm) [])) as [[r|e] w'] eqn:Hrun;
    [vm_compute in Hrun; discriminate Hrun|].
  assert (He : e = smallint_null_error "INSERT")
    by (pose proof Hrun as Hc; vm_compute in Hc; injection Hc as <- _; reflexivity).
  destruct (write_errors_release_differently utc fm []
              [Some (DatumWord 1); None; Some (DatumWord 2); Some (DatumWord 1)]
              None [] "INSERT" reply_ok eq_refl) as [Hins _].
  destruct (Hins e w' Hrun) as (binds & Hall & Hcases). cbv zeta in Hcases.
  exists w', binds. rewrite He in *. split; [reflexivity|].
  destruct Hcases as [(_ & Hcalls)|[(ty & Hty & _)|(Hfail & _)]].
  - split; [|exact Hall]. rewrite Hcalls, <- !app_assoc. reflexivity.
  - discriminate Hty.
  - vm_compute in Hfail. discriminate Hfail.
Defined.

(* ===================================================================== *)
(** ** Planning a modification *)
(* ===================================================================== *)

Lemma seq_sorted : forall n s, StronglySorted Z.lt (map Z.of_nat (seq s n)).
Proof.
  induction n as [|n IH]; intros s; cbn [seq map]; constructor; [apply IH|].
  apply Forall_forall. intros x Hx. apply in_map_iff in Hx.
  destruct Hx as (k & <- & Hk). apply in_seq in Hk. lia.
Qed.

Lemma filter_sorted (f : Z -> bool) (l : list Z) :
  StronglySorted Z.lt l -> StronglySorted Z.lt (filter f l).
Proof.
  induction 1 as [|x l Hs IH Hall]; cbn [filter]; [constructor|].
  destruct (f x); [|exact IH]. constructor; [exact IH|].
  apply Forall_forall. intros y Hy. apply filter_In in Hy.
  rewrite Forall_forall in Hall. apply Hall, Hy.
Qed.

Lemma bms_members_sorted (a : Bitmapset) : StronglySorted Z.lt (bms_members a).
Proof. apply filter_sorted, seq_sorted. Qed.

Lemma bms_members_In (a : Bitmapset) (x : Z) :
  In x (bms_members a) <-> bms_is_member x a = true.
Proof.
  unfold bms_members. rewrite filter_In. split; [intros [_ H]; exact H|].
  intros H. split; [|exact H]. unfold bms_is_member in H.
  destruct (Z.ltb_spec x 0) as [|Hx]; [discriminate|].
  apply in_map_iff. exists (Z.to_nat x). split; [lia|].
  apply in_seq. split; [lia|]. cbn [Nat.add].
  destruct (N.eq_dec a 0) as [->|Ha]; [rewrite N.bits_0 in H; discriminate|].
  assert (Hlog : (Z.to_N x <= N.log2 a)%N).
  { apply N.le_ngt. intros Hgt. apply N.bits_above_log2 in Hgt. congruence. }
  rewrite N.size_log2 by exact Ha. lia.
Qed.

Lemma updated_attnos_sorted (a : Bitmapset) : StronglySorted Z.lt (updated_attnos a).
Proof.
  unfold updated_attnos.
  induction (bms_members_sorted a) as [|x l Hs IH Hall]; cbn [map]; constructor;
    [exact IH|].
  apply Forall_forall. intros y Hy. apply in_map_iff in Hy.
  destruct Hy as (z & <- & Hz). rewrite Forall_forall in Hall.
  specialize (Hall z Hz). lia.
Qed.

Lemma updated_attnos_In (a : Bitmapset) (x : Z) :
  In x (updated_attnos a)
  <-> bms_is_member (x - FirstLowInvalidHeapAttributeNumber) a = true.
Proof.
  unfold updated_attnos. rewrite in_map_iff. split.
  - intros (col & <- & Hcol). apply bms_members_In in Hcol.
    replace (col + FirstLowInvalidHeapAttributeNumber
             - FirstLowInvalidHeapAttributeNumber) with col by lia.
    exact Hcol.
  - intros H. exists (x - FirstLowInvalidHeapAttributeNumber).
    split; [lia|]. apply bms_members_In, H.
Qed.

(** The loop over the updated columns, in closed form. *)
Lemma update_target_attrs_run {St} : forall cols targetAttrs (s : St),
  update_target_attrs cols targetAttrs s
  = if forallb (fun col => negb (col + FirstLowInvalidHeapAttributeNumber
                                 <=? InvalidAttrNumber)) cols
    then (Done (targetAttrs
                ++ map (fun col => col + FirstLowInvalidHeapAttributeNumber) cols)%list,
          s)
    else (Raised (mkError ERRCODE_INTERNAL_ERROR
                    "system-column update is not supported"), s).
Proof.
  induction cols as [|col rest IH]; intros targetAttrs s; cbn [update_target_attrs].
  - cbn. rewrite app_nil_r. reflexivity.
  - cbn [forallb map].
    destruct (col + FirstLowInvalidHeapAttributeNumber <=? InvalidAttrNumber);
      cbn [negb andb]; [reflexivity|].
    rewrite IH, <- app_assoc. reflexivity.
Qed.

Lemma system_column_members (updatedCols : Bitmapset) :
  forallb (fun col => negb (col + FirstLowInvalidHeapAttributeNumber
                            <=? InvalidAttrNumber)) (bms_members updatedCols)
  = false <-> updates_system_column updatedCols.
Proof.
  unfold updates_system_column. split.
  - intros H. destruct (forallb _ _) eqn:Hall in H; [discriminate|].
    assert (Hex : existsb (fun col => col + FirstLowInvalidHeapAttributeNumber
                                      <=? InvalidAttrNumber)
                    (bms_members updatedCols) = true).
    { clear H. induction (bms_members updatedCols) as [|c l IH]; [discriminate|].
      cbn [forallb existsb] in *.
      destruct (c + FirstLowInvalidHeapAttributeNumber <=? InvalidAttrNumber);
        [reflexivity|]. cbn [negb andb orb] in *. apply IH, Hall. }
    apply existsb_exists in Hex. destruct Hex as (col & Hin & Hle).
    exists col. split; [apply bms_members_In, Hin|apply Z.leb_le, Hle].
  - intros (col & Hm & Hle). apply bms_members_In in Hm.
    destruct (forallb _ _) eqn:Hall; [|reflexivity].
    rewrite forallb_forall in Hall. specialize (Hall col Hm).
    apply Z.leb_le in Hle. rewrite Hle in Hall. discriminate.
Qed.

Section PlanFacts.

Variable quote_identifier : string -> string.

(** The SET clause is written as far as the targets are columns, and the
    first target that is none raises the error of [get_attname]. *)
Lemma update_set_loop_outcome rel : forall targetAttrs first buf,
  (Forall (is_column rel) targetAttrs /\
   fst (update_set_loop quote_identifier rel targetAttrs first buf) = Done tt) \/
  (exists pre a post,
     targetAttrs = (pre ++ a :: post)%list /\
     Forall (is_column rel) pre /\ ~ is_column rel a /\
     fst (update_set_loop quote_identifier rel targetAttrs first buf)
     = Raised (mkError ERRCODE_INTERNAL_ERROR (msg_cache_lookup_failed rel a))).
Proof.
  induction targetAttrs as [|a rest IH]; intros first buf.
  - left. split; [constructor|reflexivity].
  - cbn [update_set_loop].
    rewrite (bind_done _ _ _ _ _ (separator_run first buf)).
    destruct (column_remote_name rel a) as [name|] eqn:Hname.
    + assert (Ha : is_column rel a) by (unfold is_column; congruence).
      rewrite (bind_done _ _ _ _ _
                 (cassDeparseColumnRef_run quote_identifier rel a _ Ha)).
      rewrite (bind_done _ _ _ _ _ (appendStringInfoString_run " = ?" _)).
      destruct (IH false ((buf ++ (if first then "" else ", "))
                          ++ column_text quote_identifier rel a ++ " = ?"))
        as [(Hall & Hrun)|(pre & b & post & -> & Hpre & Hb & Hrun)].
      * left. split; [constructor; assumption|].
        rewrite <- Hrun, !append_assoc. reflexivity.
      * right. exists (a :: pre), b, post.
        split; [reflexivity|]. split; [constructor; assumption|].
        split; [exact Hb|]. rewrite <- Hrun, !append_assoc. reflexivity.
    + right. exists [], a, rest. split; [reflexivity|]. split; [constructor|].
      split; [unfold is_column; rewrite Hname; intros H; apply H; reflexivity|].
      unfold bind at 1, cassDeparseColumnRef. rewrite Hname. reflexivity.
Qed.

Lemma cassDeparseUpdateSql_outcome rel targets primaryKey :
  (Forall (is_column rel) targets /\
   cassDeparseUpdateSql quote_identifier rel targets primaryKey ""
   = (Done tt, update_text quote_identifier rel targets primaryKey)) \/
  (exists pre a post,
     targets = (pre ++ a :: post)%list /\
     Forall (is_column rel) pre /\ ~ is_column rel a /\
     fst (cassDeparseUpdateSql quote_identifier rel targets primaryKey "")
     = Raised (mkError ERRCODE_INTERNAL_ERROR (msg_cache_lookup_failed rel a))).
Proof.
  destruct (update_set_loop_outcome rel targets true
              ((("" ++ "UPDATE ") ++ relation_text quote_identifier rel) ++ " SET "))
    as [(Hcols & _)|(pre & a & post & Heq & Hpre & Ha & Hrun)].
  - left. split; [exact Hcols|].
    apply (cassDeparseUpdateSql_run quote_identifier rel targets primaryKey Hcols).
  - right. exists pre, a, post. split; [exact Heq|]. split; [exact Hpre|].
    split; [exact Ha|]. unfold cassDeparseUpdateSql.
    rewrite (bind_done _ _ _ _ _ (appendStringInfoString_run "UPDATE " _)).
    rewrite (bind_done _ _ _ _ _ (cassDeparseRelation_run quote_identifier rel _)).
    rewrite (bind_done _ _ _ _ _ (appendStringInfoString_run " SET " _)).
    unfold bind at 1.
    destruct (update_set_loop quote_identifier rel targets true _) as [[[]|e] buf'];
      cbn [fst] in Hrun; [discriminate|].
    injection Hrun as ->. reflexivity.
Qed.

(** What planning an UPDATE gives when no system column is updated and
    the table has its key. *)
Lemma cassPlanForeignModify_update rel updatedCols (doNothing : bool) primary_key :
  ~ updates_system_column updatedCols ->
  cassGetPKOption rel None = Some primary_key ->
  let plan := cassPlanForeignModify quote_identifier CMD_UPDATE rel updatedCols
                (if doNothing then ONCONFLICT_NOTHING else ONCONFLICT_NONE) in
  let targets := updated_attnos updatedCols in
  (Forall (is_column rel) targets /\
   plan = Some (Done (mkFdwModifyPrivate
                        (update_text quote_identifier rel targets primary_key)
                        targets false []))) \/
  (exists pre a post,
     targets = (pre ++ a :: post)%list /\
     Forall (is_column rel) pre /\ ~ is_column rel a /\
     plan = Some (Raised (mkError ERRCODE_INTERNAL_ERROR
                            (msg_cache_lookup_failed rel a)))).
Proof.
  intros Hsys Hkey plan targets.
  assert (Hplan : plan
                  = match cassDeparseUpdateSql quote_identifier rel targets
                            primary_key "" with
                    | (Done _, sql) =>
                        Some (Done (mkFdwModifyPrivate sql targets false []))
                    | (Raised e, _) => Some (Raised e)
                    end).
  { subst plan. unfold cassPlanForeignModify, cassPlanForeignModify_sql.
    rewrite Hkey.
    unfold bind at 1. rewrite update_target_attrs_run.
    destruct (forallb _ (bms_members updatedCols)) eqn:Hall;
      [|apply system_column_members in Hall; contradiction].
    cbn [app]. fold (updated_attnos updatedCols). fold targets.
    destruct doNothing; unfold bind at 1; cbn [ret]; unfold bind at 1;
      destruct (cassDeparseUpdateSql quote_identifier rel targets _ "")
        as [[[]|e] buf']; reflexivity. }
  rewrite Hplan. clear Hplan.
  destruct (cassDeparseUpdateSql_outcome rel targets primary_key)
    as [(Hcols & Hrun)|(pre & a & post & Heq & Hpre & Ha & Hrun)].
  - left. split; [exact Hcols|]. rewrite Hrun. reflexivity.
  - right. exists pre, a, post. split; [exact Heq|]. split; [exact Hpre|].
    split; [exact Ha|].
    destruct (cassDeparseUpdateSql quote_identifier rel targets _ "")
      as [[[]|e] buf']; cbn [fst] in Hrun; [discriminate|].
    injection Hrun as ->. reflexivity.
Qed.

(** A DELETE is planned for every table that has its key. *)
Lemma cassPlanForeignModify_delete rel updatedCols (doNothing : bool) primary_key :
  cassGetPKOption rel None = Some primary_key ->
  cassPlanForeignModify quote_identifier CMD_DELETE rel updatedCols
    (if doNothing then ONCONFLICT_NOTHING else ONCONFLICT_NONE)
  = Some (Done (mkFdwModifyPrivate
                  (delete_text quote_identifier rel primary_key) [] false [])).
Proof.
  intros Hkey. unfold cassPlanForeignModify, cassPlanForeignModify_sql.
  rewrite Hkey. unfold bind at 1. cbn [ret].
  pose proof (cassDeparseDeleteSql_run quote_identifier rel primary_key) as Hdel.
  destruct doNothing; unfold bind at 1; cbn [ret]; unfold bind at 1;
    rewrite Hdel; reflexivity.
Qed.

(** On a table without the option, an UPDATE whose targets are columns
    and a DELETE come to read the key, which has not been assigned. *)
Lemma cassPlanForeignModify_unassigned operation rel updatedCols (doNothing : bool) :
  cassGetPKOption rel None = None ->
  (operation = CMD_UPDATE /\ ~ updates_system_column updatedCols)
  \/ operation = CMD_DELETE ->
  cassPlanForeignModify quote_identifier operation rel updatedCols
    (if doNothing then ONCONFLICT_NOTHING else ONCONFLICT_NONE)
  = None.
Proof.
  intros Hkey Hop. unfold cassPlanForeignModify, cassPlanForeignModify_sql.
  rewrite Hkey. destruct Hop as [(-> & Hsys)| ->].
  - unfold bind at 1. rewrite update_target_attrs_run.
    destruct (forallb _ (bms_members updatedCols)) eqn:Hall;
      [|apply system_column_members in Hall; contradiction].
    destruct doNothing; reflexivity.
  - destruct doNothing; reflexivity.
Qed.

(** A plan is returned only without ON CONFLICT DO UPDATE. *)
Lemma planned_conflict_action operation rel updatedCols onConflictAction p :
  cassPlanForeignModify quote_identifier operation rel updatedCols onConflictAction
  = Some (Done p) ->
  exists doNothing : bool,
    onConflictAction = if doNothing then ONCONFLICT_NOTHING else ONCONFLICT_NONE.
Proof.
  intros Hplan.
  destruct onConflictAction;
    [exists false; reflexivity|exists true; reflexivity|].
  exfalso. unfold cassPlanForeignModify, cassPlanForeignModify_sql in Hplan.
  unfold bind at 1 in Hplan.
  destruct operation; try discriminate Hplan.
  rewrite update_target_attrs_run in Hplan.
  destruct (forallb _ (bms_members updatedCols)); discriminate.
Qed.

(** A plan of an UPDATE is returned only for user columns and for a
    table that has its key. *)
Lemma planned_update rel updatedCols onConflictAction p :
  cassPlanForeignModify quote_identifier CMD_UPDATE rel updatedCols onConflictAction
  = Some (Done p) ->
  ~ updates_system_column updatedCols /\
  exists primary_key,
    cassGetPKOption rel None = Some primary_key /\
    Forall (is_column rel) (updated_attnos updatedCols) /\
    p = mkFdwModifyPrivate
          (update_text quote_identifier rel (updated_attnos updatedCols) primary_key)
          (updated_attnos updatedCols) false [].
Proof.
  intros Hplan.
  destruct (planned_conflict_action _ _ _ _ _ Hplan) as (doNothing & ->).
  assert (Hsys : ~ updates_system_column updatedCols).
  { intros Hsys. apply system_column_members in Hsys.
    unfold cassPlanForeignModify, cassPlanForeignModify_sql in Hplan.
    unfold bind at 1 in Hplan. rewrite update_target_attrs_run, Hsys in Hplan.
    discriminate. }
  split; [exact Hsys|].
  destruct (cassGetPKOption rel None) as [primary_key|] eqn:Hkey.
  - exists primary_key. split; [reflexivity|].
    destruct (cassPlanForeignModify_update rel updatedCols doNothing primary_key
                Hsys Hkey) as [(Hcols & Hrun)|(pre & a & post & _ & _ & _ & Hrun)];
      rewrite Hrun in Hplan; [|discriminate].
    injection Hplan as <-. split; [exact Hcols|reflexivity].
  - rewrite (cassPlanForeignModify_unassigned CMD_UPDATE rel updatedCols doNothing
               Hkey (or_introl (conj eq_refl Hsys))) in Hplan.
    discriminate.
Qed.

End PlanFacts.

(** X13. When an UPDATE is planned, the table has the option
    [primary_key], and the statement sets the updated columns and no
    other: its targets are the attribute numbers of the members of the
    updated-column set, each once and in ascending order, all of them
    user columns of the relation, and its text is [UPDATE] of the remote
    table with [SET name = ?] for each target in that order and the value
    of the option in the WHERE clause.  Nothing is planned to be
    returned. *)
Theorem update_plan_sets_updated_columns
    (quote_identifier : string -> string) (rel : Relation)
    (updatedCols : Bitmapset) (onConflictAction : OnConflictAction)
    (p : FdwModifyPrivate) :
  cassPlanForeignModify quote_identifier CMD_UPDATE rel updatedCols onConflictAction
  = Some (Done p) ->
  let targets := FdwModifyPrivateTargetAttnums p in
  StronglySorted Z.lt targets /\
  (forall a, In a targets
             <-> bms_is_member (a - FirstLowInvalidHeapAttributeNumber) updatedCols
                 = true) /\
  Forall (fun a => InvalidAttrNumber < a /\ is_column rel a) targets /\
  (exists primary_key,
     cassGetPKOption rel None = Some primary_key /\
     FdwModifyPrivateUpdateSql p
     = update_text quote_identifier rel targets primary_key) /\
  FdwModifyPrivateHasReturning p = false /\
  FdwModifyPrivateRetrievedAttrs p = [].
Proof.
  intros Hplan.
  destruct (planned_update quote_identifier rel updatedCols onConflictAction p Hplan)
    as (Hsys & primary_key & Hkey & Hcols & ->).
  cbv zeta.
  cbn [FdwModifyPrivateTargetAttnums FdwModifyPrivateUpdateSql
       FdwModifyPrivateHasReturning FdwModifyPrivateRetrievedAttrs].
  split; [apply updated_attnos_sorted|]. split; [apply updated_attnos_In|].
  split; [|split; [exists primary_key; split; [exact Hkey|reflexivity]|split;
                                                                  reflexivity]].
  apply Forall_forall. intros a Ha. rewrite Forall_forall in Hcols.
  split; [|apply Hcols, Ha].
  apply updated_attnos_In in Ha.
  destruct (Z.ltb_spec InvalidAttrNumber a) as [|Hle]; [assumption|].
  exfalso. apply Hsys. exists (a - FirstLowInvalidHeapAttributeNumber).
  split; [exact Ha|]. lia.
Qed.

Lemma update_plan_sets_updated_columns_witness :
  exists p,
    cassPlanForeignModify pg_quote_identifier CMD_UPDATE scenario_table
      (N.lor (attr_bit 4) (attr_bit 2)) ONCONFLICT_NONE = Some (Done p) /\
    FdwModifyPrivateTargetAttnums p = [2; 4] /\
    exists primary_key,
      cassGetPKOption scenario_table None = Some primary_key /\
      FdwModifyPrivateUpdateSql p
      = update_text pg_quote_identifier scenario_table [2; 4] primary_key.
Proof.
  eexists. split; [vm_compute; reflexivity|]. split; [reflexivity|].
  refine (proj1 (proj2 (proj2 (proj2
            (update_plan_sets_updated_columns pg_quote_identifier scenario_table
               (N.lor (attr_bit 4) (attr_bit 2)) ONCONFLICT_NONE _ _))))).
  vm_compute. reflexivity.
Defined.

(** X14. Planning a modification raises an error in four cases, looked
    at in this order.  An UPDATE of a system column fails, whatever else
    is asked.  ON CONFLICT DO UPDATE fails for every operation.  An
    operation other than INSERT, UPDATE and DELETE fails.  An UPDATE, on
    a table that has the option [primary_key], of an attribute that the
    relation does not have fails with the error of the catalog lookup for
    the first such attribute.  Otherwise an INSERT is planned for every
    relation, with or without the option, and an UPDATE and a DELETE are
    planned for every relation that has the option, a DELETE without a
    target.  On a relation without the option, a DELETE, and an UPDATE
    whose targets are columns, read the key without its having been
    assigned: what they do then is not defined by the program. *)
Theorem plan_modify_failures
    (quote_identifier : string -> string) (operation : CmdType) (rel : Relation)
    (updatedCols : Bitmapset) (onConflictAction : OnConflictAction) :
  let plan := cassPlanForeignModify quote_identifier operation rel updatedCols
                onConflictAction in
  let system_column :=
    operation = CMD_UPDATE /\ updates_system_column updatedCols in
  let internal_error msg := Some (Raised (mkError ERRCODE_INTERNAL_ERROR msg)) in
  (system_column ->
   plan = internal_error "system-column update is not supported") /\
  (~ system_column -> onConflictAction = ONCONFLICT_UPDATE ->
   plan = internal_error "unexpected ON CONFLICT specification: 2") /\
  (~ system_column -> onConflictAction <> ONCONFLICT_UPDATE ->
   match operation with
   | CMD_INSERT =>
       exists targets,
         plan = Some (Done (mkFdwModifyPrivate
                              (insert_text quote_identifier rel targets
                                 (match onConflictAction with
                                  | ONCONFLICT_NOTHING => true
                                  | _ => false
                                  end))
                              targets false []))
   | CMD_DELETE =>
       match cassGetPKOption rel None with
       | Some primary_key =>
           plan = Some (Done (mkFdwModifyPrivate
                                (delete_text quote_identifier rel primary_key)
                                [] false []))
       | None => plan = None
       end
   | CMD_UPDATE =>
       match cassGetPKOption rel None with
       | Some primary_key =>
           (exists p, plan = Some (Done p)) \/
           (exists pre a post,
              updated_attnos updatedCols = (pre ++ a :: post)%list /\
              Forall (is_column rel) pre /\ ~ is_column rel a /\
              plan = internal_error (msg_cache_lookup_failed rel a))
       | None =>
           Forall (is_column rel) (updated_attnos updatedCols) -> plan = None
       end
   | other =>
       plan = internal_error ("unexpected operation: "
                              ++ fmt_d (CmdType_code other))
   end).
Proof.
  cbv zeta. split; [|split].
  - intros (-> & Hsys). apply system_column_members in Hsys.
    unfold cassPlanForeignModify, cassPlanForeignModify_sql.
    unfold bind at 1. rewrite update_target_attrs_run, Hsys. reflexivity.
  - intros Hsys ->.
    unfold cassPlanForeignModify, cassPlanForeignModify_sql.
    unfold bind at 1.
    destruct operation; try reflexivity.
    rewrite update_target_attrs_run.
    destruct (forallb _ (bms_members updatedCols)) eqn:Hall; [reflexivity|].
    exfalso. apply Hsys. split; [reflexivity|]. apply system_column_members, Hall.
  - intros Hsys Hoc.
    assert (Hdo : exists doNothing : bool,
              onConflictAction
              = if doNothing then ONCONFLICT_NOTHING else ONCONFLICT_NONE).
    { destruct onConflictAction;
        [exists false; reflexivity|exists true; reflexivity|].
      exfalso. apply Hoc. reflexivity. }
    destruct Hdo as (doNothing & ->).
    destruct operation.
    + destruct doNothing; reflexivity.
    + destruct doNothing; reflexivity.
    + assert (Hno : ~ updates_system_column updatedCols)
        by (intros H; apply Hsys; split; [reflexivity|exact H]).
      destruct (cassGetPKOption rel None) as [primary_key|] eqn:Hkey.
      * destruct (cassPlanForeignModify_update quote_identifier rel updatedCols
                    doNothing primary_key Hno Hkey) as [(_ & Hrun)|Hfail].
        -- left. eexists. exact Hrun.
        -- right. exact Hfail.
      * intros _.
        apply (cassPlanForeignModify_unassigned quote_identifier CMD_UPDATE rel
                 updatedCols doNothing Hkey (or_introl (conj eq_refl Hno))).
    + exists (insert_target_attrs (rd_att rel) 1).
      rewrite (cassPlanForeignModify_insert quote_identifier rel updatedCols
                 doNothing).
      destruct doNothing; reflexivity.
    + destruct (cassGetPKOption rel None) as [primary_key|] eqn:Hkey.
      * apply (cassPlanForeignModify_delete quote_identifier rel updatedCols
                 doNothing primary_key Hkey).
      * apply (cassPlanForeignModify_unassigned quote_identifier CMD_DELETE rel
                 updatedCols doNothing Hkey (or_intror eq_refl)).
    + destruct doNothing; reflexivity.
    + destruct doNothing; reflexivity.
Qed.

(* ===================================================================== *)
(** ** Planning a scan *)
(* ===================================================================== *)

Lemma Node_nested_ind (P : ScanPlan.Node -> Prop) :
  (forall var lvl, P (ScanPlan.T_Var var lvl)) ->
  (forall args, Forall P args -> P (ScanPlan.T_Other args)) ->
  forall node, P node.
Proof.
  intros HV HO. fix IH 1. intros [var lvl|args]; [apply HV|apply HO].
  induction args as [|n rest IHargs]; constructor; [apply IH|exact IHargs].
Qed.

Lemma pull_varattnos_other args rtindex :
  ScanPlan.pull_varattnos (ScanPlan.T_Other args) rtindex
  = ScanPlan.pull_varattnos_list args rtindex.
Proof.
  induction args as [|n rest IH]; [reflexivity|].
  cbn [ScanPlan.pull_varattnos_list]. rewrite <- IH. reflexivity.
Qed.

Lemma bms_is_member_setbit (a : Bitmapset) (n x : Z) :
  0 <= n ->
  bms_is_member x (N.setbit a (Z.to_N n)) = true
  <-> bms_is_member x a = true \/ x = n.
Proof.
  intros Hn. unfold bms_is_member.
  destruct (Z.ltb_spec x 0) as [Hx|Hx].
  - split; [discriminate|]. intros [H|H]; [discriminate|lia].
  - rewrite N.setbit_eqb. rewrite orb_true_iff, N.eqb_eq. split.
    + intros [H|H]; [right; lia|left; exact H].
    + intros [H|H]; [right; exact H|left; lia].
Qed.

(** What [pull_varattnos] adds to the set. *)
Definition pulled (vars : list (Var * Z)) (rtindex : Z) (a a' : Bitmapset) : Prop :=
  forall x,
    bms_is_member x a' = true
    <-> bms_is_member x a = true
        \/ exists v, In (v, 0) vars /\ varno v = rtindex
                     /\ x = varattno v - FirstLowInvalidHeapAttributeNumber.

Definition pullable (vars : list (Var * Z)) (rtindex : Z) : Prop :=
  forall v, In (v, 0) vars -> varno v = rtindex ->
            FirstLowInvalidHeapAttributeNumber <= varattno v.

Lemma pulled_nil rtindex a : pulled [] rtindex a a.
Proof.
  intros x. split; [intros H; left; exact H|].
  intros [H|(v & [] & _)]. exact H.
Qed.

Lemma pulled_app u v rtindex a b c :
  pulled u rtindex a b -> pulled v rtindex b c -> pulled (u ++ v) rtindex a c.
Proof.
  intros Hu Hv x. rewrite (Hv x), (Hu x). split.
  - intros [[H|(w & Hin & Hw)]|(w & Hin & Hw)].
    + left. exact H.
    + right. exists w. split; [apply in_or_app; left; exact Hin|exact Hw].
    + right. exists w. split; [apply in_or_app; right; exact Hin|exact Hw].
  - intros [H|(w & Hin & Hw)]; [left; left; exact H|].
    apply in_app_or in Hin. destruct Hin as [Hin|Hin].
    + left. right. exists w. split; assumption.
    + right. exists w. split; assumption.
Qed.

Lemma pullable_app u v rtindex :
  pullable (u ++ v) rtindex -> pullable u rtindex /\ pullable v rtindex.
Proof.
  intros H. split; intros w Hin; apply H, in_or_app; [left|right]; exact Hin.
Qed.

Lemma pull_varattnos_run rtindex : forall node a,
  pullable (ScanPlan.node_vars node) rtindex ->
  exists a',
    ScanPlan.pull_varattnos node rtindex a = (Done tt, a') /\
    pulled (ScanPlan.node_vars node) rtindex a a'.
Proof.
  induction node as [var lvl|args IH] using Node_nested_ind; intros a Hok.
  - cbn [ScanPlan.pull_varattnos ScanPlan.node_vars] in *.
    destruct (Z.eqb_spec (varno var) rtindex) as [Hno|Hno];
      destruct (Z.eqb_spec lvl 0) as [->|Hlvl]; cbn [andb].
    + assert (Hge : FirstLowInvalidHeapAttributeNumber <= varattno var)
        by (apply Hok; [left; reflexivity|exact Hno]).
      unfold ScanPlan.bms_add_member.
      destruct (Z.ltb_spec (varattno var - FirstLowInvalidHeapAttributeNumber) 0);
        [lia|].
      eexists. split; [reflexivity|].
      intros x. rewrite bms_is_member_setbit by lia. split.
      * intros [Hm|Hx]; [left; exact Hm|]. subst x. right. exists var.
        split; [left; reflexivity|]. split; [exact Hno|reflexivity].
      * intros [Hm|(v & [Heq|[]] & _ & Hx)]; [left; exact Hm|].
        injection Heq as Hv. subst v x. right. reflexivity.
    + exists a. split; [reflexivity|]. intros x. split; [intros Hm; left; exact Hm|].
      intros [Hm|(v & [Heq|[]] & _)]; [exact Hm|].
      exfalso. apply Hlvl. congruence.
    + exists a. split; [reflexivity|]. intros x. split; [intros Hm; left; exact Hm|].
      intros [Hm|(v & [Heq|[]] & Hv & _)]; [exact Hm|].
      exfalso. apply Hno. rewrite <- Hv. congruence.
    + exists a. split; [reflexivity|]. intros x. split; [intros Hm; left; exact Hm|].
      intros [Hm|(v & [Heq|[]] & Hv & _)]; [exact Hm|].
      exfalso. apply Hno. rewrite <- Hv. congruence.
  - rewrite pull_varattnos_other. cbn [ScanPlan.node_vars] in *.
    revert a Hok. induction IH as [|n rest Hn Hrest IHrest]; intros a Hok.
    + exists a. split; [reflexivity|apply pulled_nil].
    + cbn [flat_map] in *. apply pullable_app in Hok. destruct Hok as (Hok1 & Hok2).
      destruct (Hn a Hok1) as (b & Hrun1 & Hb).
      destruct (IHrest b Hok2) as (c & Hrun2 & Hc).
      exists c. split; [|exact (pulled_app _ _ _ _ _ _ Hb Hc)].
      cbn [ScanPlan.pull_varattnos_list].
      rewrite (bind_done _ _ _ _ _ Hrun1). exact Hrun2.
Qed.

Lemma pull_varattnos_list_run rtindex : forall l a,
  pullable (flat_map ScanPlan.node_vars l) rtindex ->
  exists a',
    ScanPlan.pull_varattnos_list l rtindex a = (Done tt, a') /\
    pulled (flat_map ScanPlan.node_vars l) rtindex a a'.
Proof.
  intros l a Hok.
  destruct (pull_varattnos_run rtindex (ScanPlan.T_Other l) a Hok) as (a' & Hrun & Ha).
  rewrite pull_varattnos_other in Hrun. exists a'. split; assumption.
Qed.

Lemma local_conds_loop_list conds rtindex :
  ScanPlan.local_conds_loop conds rtindex
  = ScanPlan.pull_varattnos_list (map ScanPlan.clause conds) rtindex.
Proof.
  induction conds as [|ri rest IH]; [reflexivity|].
  cbn [ScanPlan.local_conds_loop ScanPlan.pull_varattnos_list map].
  rewrite IH. reflexivity.
Qed.

Lemma classify_loop_app : forall input_conds local,
  ScanPlan.classify_loop input_conds local = (local ++ input_conds)%list.
Proof.
  induction input_conds as [|ri rest IH]; intros local; cbn.
  - rewrite app_nil_r. reflexivity.
  - rewrite IH, <- app_assoc. reflexivity.
Qed.

Section SelectText.

Variable quote_identifier : string -> string.

(** The text the target list loop writes. *)
Lemma target_list_loop_text rel hw au :
  forall atts pre, rd_att rel = (pre ++ atts)%list ->
  forall first retrieved buf,
    let sel := selected_from hw au atts (Z.of_nat (List.length pre) + 1) in
    cassDeparseTargetList_loop quote_identifier rel hw au atts
      (Z.of_nat (List.length pre) + 1) first retrieved buf
    = (Done (first && match sel with [] => true | _ => false end,
             (retrieved ++ sel)%list),
       buf ++ lead first sel
       ++ String.concat ", " (map (column_text quote_identifier rel) sel)).
Proof.
  induction atts as [|attr rest IH]; intros pre Hrel first retrieved buf.
  - cbn. rewrite app_nil_r, andb_true_r, append_empty_r. reflexivity.
  - assert (Hrel' : rd_att rel = ((pre ++ [attr]) ++ rest)%list)
      by (rewrite <- app_assoc; exact Hrel).
    assert (Hlen : Z.of_nat (List.length (pre ++ [attr])) + 1
                   = Z.of_nat (List.length pre) + 1 + 1)
      by (rewrite length_app; cbn; lia).
    pose proof (IH _ Hrel') as IH'. rewrite Hlen in IH'. cbv zeta in IH'.
    cbv zeta. cbn [cassDeparseTargetList_loop selected_from].
    destruct (attisdropped attr); cbn [negb andb]; [apply IH'|].
    destruct (hw || bms_is_member _ au); [|apply IH'].
    pose proof (TupleDescAttr_app pre attr rest) as Hat. rewrite <- Hrel in Hat.
    set (i := Z.of_nat (List.length pre) + 1) in *.
    destruct (cassDeparseColumnRef_live quote_identifier rel i attr "" Hat)
      as (name & Hname & _).
    assert (Hi : is_column rel i) by (unfold is_column; congruence).
    rewrite (bind_done _ _ _ _ _ (separator_run first buf)).
    rewrite (bind_done _ _ _ _ _
               (cassDeparseColumnRef_run quote_identifier rel i _ Hi)).
    rewrite IH'. cbn [map lead]. rewrite concat_cons, lead_map, andb_false_r.
    rewrite <- app_assoc, !append_assoc. reflexivity.
Qed.

Lemma cassDeparseTargetList_text rel attrs_used buf :
  let hw := bms_is_member (0 - FirstLowInvalidHeapAttributeNumber) attrs_used in
  let sel := selected_from hw attrs_used (rd_att rel) 1 in
  cassDeparseTargetList quote_identifier rel attrs_used buf
  = (Done sel,
     buf ++ match sel with
            | [] => "NULL"
            | _ => String.concat ", " (map (column_text quote_identifier rel) sel)
            end).
Proof.
  intros hw sel.
  pose proof (target_list_loop_text rel hw attrs_used (rd_att rel) [] eq_refl
                true [] buf) as Hrun.
  cbv zeta in Hrun. cbn [List.length Z.of_nat Z.add app] in Hrun.
  fold sel in Hrun.
  unfold cassDeparseTargetList. fold hw.
  rewrite (bind_done _ _ _ _ _ Hrun). cbn [fst snd].
  destruct sel as [|x l]; cbn [andb lead].
  - rewrite (bind_done _ _ _ _ _ (appendStringInfoString_run "NULL" _)).
    cbn [ret map String.concat]. rewrite !append_assoc. reflexivity.
  - unfold bind at 1. cbn [ret]. reflexivity.
Qed.

Lemma cassGetForeignPlan_text rel attrs_used :
  let hw := bms_is_member (0 - FirstLowInvalidHeapAttributeNumber) attrs_used in
  let sel := selected_from hw attrs_used (rd_att rel) 1 in
  cassGetForeignPlan quote_identifier rel attrs_used
  = Done (select_text quote_identifier rel sel, sel).
Proof.
  intros hw sel.
  unfold cassGetForeignPlan, cassDeparseSelectSql.
  rewrite (bind_done _ _ _ _ _ (appendStringInfoString_run "SELECT " "")).
  rewrite (bind_done _ _ _ _ _ (cassDeparseTargetList_text rel attrs_used _)).
  rewrite (bind_done _ _ _ _ _ (appendStringInfoString_run " FROM " _)).
  rewrite (bind_done _ _ _ _ _ (cassDeparseRelation_run quote_identifier rel _)).
  cbn [ret]. fold hw. fold sel. unfold select_text.
  rewrite !append_assoc. reflexivity.
Qed.

End SelectText.

(** X15. No condition of a scan is sent to the remote: all restriction
    clauses stay local, in their order, and the statement is a SELECT of
    columns from the remote table, without a WHERE clause.  The columns
    it fetches are the live columns of the relation that a target
    expression or a condition refers to at the level of the query, by
    their own number or by the whole row; so every column that a local
    condition reads is fetched. *)
Theorem scan_plan_fetches_referenced_columns
    (quote_identifier : string -> string) (rel : Relation)
    (baserel : ScanPlan.RelOptInfo) :
  (forall v, ScanPlan.referenced baserel v ->
             FirstLowInvalidHeapAttributeNumber <= varattno v) ->
  exists fpinfo retrieved,
    ScanPlan.cassGetForeignRelSize baserel = Done fpinfo /\
    ScanPlan.remote_conds fpinfo = [] /\
    ScanPlan.local_conds fpinfo = ScanPlan.baserestrictinfo baserel /\
    cassGetForeignPlan quote_identifier rel (ScanPlan.attrs_used fpinfo)
    = Done (select_text quote_identifier rel retrieved, retrieved) /\
    (forall i,
       In i retrieved
       <-> (exists attr,
              TupleDescAttr (rd_att rel) (i - 1) = Some attr /\
              attisdropped attr = false) /\
           (exists v, ScanPlan.referenced baserel v /\
                      (varattno v = i \/ varattno v = 0))).
Proof.
  intros Hok.
  set (vars := (flat_map ScanPlan.node_vars (ScanPlan.reltarget_exprs baserel)
                ++ flat_map ScanPlan.node_vars
                     (map ScanPlan.clause (ScanPlan.baserestrictinfo baserel)))%list).
  assert (Href : forall v,
            ScanPlan.referenced baserel v
            <-> In (v, 0) vars /\ varno v = ScanPlan.relid baserel).
  { intros v. unfold ScanPlan.referenced, vars. split.
    - intros (Hno & node & Hnode & Hin). split; [|exact Hno].
      apply in_or_app.
      destruct Hnode as [Hn|Hn]; [left|right]; apply in_flat_map;
        exists node; split; assumption.
    - intros (Hin & Hno). split; [exact Hno|].
      apply in_app_or in Hin.
      destruct Hin as [Hin|Hin]; apply in_flat_map in Hin;
        destruct Hin as (node & Hnode & Hin); exists node; split; auto. }
  assert (Hpull : pullable vars (ScanPlan.relid baserel)).
  { intros v Hin Hno. apply Hok, Href. split; assumption. }
  apply pullable_app in Hpull. destruct Hpull as (Hp1 & Hp2).
  destruct (pull_varattnos_list_run _ _ 0%N Hp1) as (a1 & Hrun1 & Ha1).
  destruct (pull_varattnos_list_run _ _ a1 Hp2) as (a2 & Hrun2 & Ha2).
  pose proof (pulled_app _ _ _ _ _ _ Ha1 Ha2) as Hused. fold vars in Hused.
  assert (Hsize : ScanPlan.cassGetForeignRelSize baserel
                  = Done (ScanPlan.mkPlanState []
                            (ScanPlan.baserestrictinfo baserel) a2)).
  { unfold ScanPlan.cassGetForeignRelSize, ScanPlan.cassClassifyConditions.
    cbn [fst snd]. rewrite classify_loop_app. cbn [app].
    rewrite (bind_done _ _ _ _ _ Hrun1), local_conds_loop_list, Hrun2.
    reflexivity. }
  eexists. eexists. split; [exact Hsize|].
  cbn [ScanPlan.remote_conds ScanPlan.local_conds ScanPlan.attrs_used].
  split; [reflexivity|]. split; [reflexivity|].
  split; [apply cassGetForeignPlan_text|].
  intros i.
  pose proof (selected_from_spec
                (bms_is_member (0 - FirstLowInvalidHeapAttributeNumber) a2) a2
                (rd_att rel) [] i) as Hsel.
  cbn [List.length Z.of_nat Z.add app] in Hsel. rewrite Hsel. clear Hsel.
  assert (Hmem : forall x,
            bms_is_member x a2 = true
            <-> exists v, ScanPlan.referenced baserel v
                          /\ x = varattno v - FirstLowInvalidHeapAttributeNumber).
  { intros x. rewrite (Hused x). split.
    - intros [H|(v & Hin & Hno & Hx)].
      + unfold bms_is_member in H. destruct (x <? 0); [discriminate|].
        rewrite N.bits_0 in H. discriminate.
      + exists v. split; [apply Href; split; assumption|exact Hx].
    - intros (v & Hv & Hx). right. apply Href in Hv. destruct Hv as (Hin & Hno).
      exists v. split; [exact Hin|]. split; assumption. }
  split.
  - intros (attr & Hat & _ & Hd & Hm). split; [exists attr; split; assumption|].
    destruct Hm as [Hm|Hm]; apply Hmem in Hm; destruct Hm as (v & Hv & Hx);
      exists v; (split; [exact Hv|]); [right|left]; lia.
  - intros ((attr & Hat & Hd) & v & Hv & Hi). exists attr.
    split; [exact Hat|]. split.
    { unfold TupleDescAttr in Hat.
      destruct (Z.ltb_spec (i - 1) 0); [discriminate|lia]. }
    split; [exact Hd|].
    destruct Hi as [Hi|Hi]; [right|left]; apply Hmem; exists v;
      (split; [exact Hv|]); lia.
Qed.

Lemma scan_plan_fetches_referenced_columns_witness :
  exists fpinfo,
    ScanPlan.cassGetForeignRelSize scenario_baserel = Done fpinfo /\
    ScanPlan.local_conds fpinfo = ScanPlan.baserestrictinfo scenario_baserel /\
    cassGetForeignPlan pg_quote_identifier scenario_table
      (ScanPlan.attrs_used fpinfo)
    = Done ("SELECT id, v2 FROM ks.t", [1; 3]).
Proof.
  assert (Hok : forall v, ScanPlan.referenced scenario_baserel v ->
                          FirstLowInvalidHeapAttributeNumber <= varattno v).
  { intros v (_ & node & Hnode & Hin).
    cbn in Hnode.
    destruct Hnode as [[<-|[]]|[<-|[]]]; cbn in Hin.
    - destruct Hin as [Heq|[]]. injection Heq as <-.
      unfold FirstLowInvalidHeapAttributeNumber. cbn [varattno]. lia.
    - destruct Hin as [Heq|[]]. injection Heq as <-.
      unfold FirstLowInvalidHeapAttributeNumber. cbn [varattno]. lia. }
  destruct (scan_plan_fetches_referenced_columns pg_quote_identifier
              scenario_table scenario_baserel Hok)
    as (fpinfo & retrieved & Hsize & _ & Hlocal & _ & _).
  exists fpinfo. split; [exact Hsize|]. split; [exact Hlocal|].
  vm_compute in Hsize. injection Hsize as <-. vm_compute. reflexivity.
Defined.

(* ===================================================================== *)
(** ** IMPORT FOREIGN SCHEMA *)
(* ===================================================================== *)

Lemma pgcass_transformDataType_run type buf :
  Schema.pgcass_transformDataType type buf
  = if Schema.supported type
    then (Done tt, buf ++ fmt_s (fst (Schema.datatype_names type)))
    else (Raised (mkError ERRCODE_FEATURE_NOT_SUPPORTED
                    (Schema.msg_data_type_not_supported
                       (snd (Schema.datatype_names type)))), buf).
Proof.
  unfold Schema.pgcass_transformDataType, Schema.supported.
  destruct (fst (Schema.datatype_names type)); reflexivity.
Qed.

(** The columns that can be imported are written with their types, one
    after the other. *)
Lemma columns_loop_done : forall columns idx buf,
  0 <= idx ->
  Forall (fun c => Schema.supported (Schema.cass_data_type_type c) = true) columns ->
  Schema.columns_loop columns idx buf
  = (Done tt,
     buf ++ (match columns with
             | [] => ""
             | _ => if idx =? 0 then "" else ", "
             end)
     ++ String.concat ", " (map Schema.column_text columns)).
Proof.
  induction columns as [|c rest IH]; intros idx buf Hidx Hall.
  - cbn. rewrite append_empty_r. reflexivity.
  - inversion Hall as [|? ? Hc Hrest]; subst.
    cbn [Schema.columns_loop].
    assert (Hsep : (if negb (idx =? 0) then appendStringInfoString ", " else ret tt)
                     buf
                   = (Done tt, buf ++ (if idx =? 0 then "" else ", "))).
    { destruct (idx =? 0); cbn [negb]; [|reflexivity].
      rewrite append_empty_r. reflexivity. }
    rewrite (bind_done _ _ _ _ _ Hsep).
    rewrite (bind_done _ _ _ _ _ (appendStringInfoString_run _ _)).
    assert (Htype : Schema.pgcass_transformDataType (Schema.cass_data_type_type c)
                      ((buf ++ (if idx =? 0 then "" else ", "))
                       ++ dquoted (Schema.cass_column_meta_name c) ++ " ")
                    = (Done tt,
                       ((buf ++ (if idx =? 0 then "" else ", "))
                        ++ dquoted (Schema.cass_column_meta_name c) ++ " ")
                       ++ fmt_s (fst (Schema.datatype_names
                                        (Schema.cass_data_type_type c)))))
      by (rewrite pgcass_transformDataType_run, Hc; reflexivity).
    rewrite (bind_done _ _ _ _ _ Htype).
    rewrite (IH (idx + 1) _ ltac:(lia) Hrest).
    assert (Hnext : (idx + 1 =? 0) = false) by (apply Z.eqb_neq; lia).
    rewrite Hnext. cbn [map]. rewrite concat_cons. unfold Schema.column_text.
    destruct rest as [|c' rest']; cbn [lead map];
      rewrite ?append_empty_r, !append_assoc; reflexivity.
Qed.

(** The first column that cannot be imported raises its error. *)
Lemma columns_loop_raised : forall cpre idx buf c cpost,
  0 <= idx ->
  Forall (fun c => Schema.supported (Schema.cass_data_type_type c) = true) cpre ->
  Schema.supported (Schema.cass_data_type_type c) = false ->
  fst (Schema.columns_loop (cpre ++ c :: cpost) idx buf)
  = Raised (mkError ERRCODE_FEATURE_NOT_SUPPORTED
              (Schema.msg_data_type_not_supported
                 (snd (Schema.datatype_names (Schema.cass_data_type_type c))))).
Proof.
  induction cpre as [|c0 rest IH]; intros idx buf c cpost Hidx Hall Hc;
    cbn [app Schema.columns_loop].
  - unfold bind at 1.
    destruct ((if negb (idx =? 0) then appendStringInfoString ", " else ret tt) buf)
      as [[[]|e] buf1] eqn:Hsep; [|destruct (idx =? 0); discriminate].
    unfold bind at 1. cbn [appendStringInfoString modify].
    unfold bind at 1. rewrite pgcass_transformDataType_run, Hc. reflexivity.
  - inversion Hall as [|? ? Hc0 Hrest]; subst.
    unfold bind at 1.
    destruct ((if negb (idx =? 0) then appendStringInfoString ", " else ret tt) buf)
      as [[[]|e] buf1] eqn:Hsep; [|destruct (idx =? 0); discriminate].
    unfold bind at 1. cbn [appendStringInfoString modify].
    unfold bind at 1. rewrite pgcass_transformDataType_run, Hc0.
    apply IH; [lia|exact Hrest|exact Hc].
Qed.

Lemma table_statement_done servername remote_schema table_meta buf :
  Schema.table_supported table_meta ->
  Schema.table_statement servername remote_schema table_meta buf
  = (Done tt, Schema.table_text servername remote_schema table_meta).
Proof.
  intros Hall. unfold Schema.table_statement, Schema.table_text.
  unfold bind at 1. cbn [put].
  rewrite (bind_done _ _ _ _ _ (appendStringInfoString_run _ _)).
  rewrite (bind_done _ _ _ _ _ (columns_loop_done _ 0 _ ltac:(lia) Hall)).
  rewrite appendStringInfoString_run.
  assert (Hlead : match Schema.cass_table_meta_columns table_meta with
                  | [] => ""
                  | _ => if 0 =? 0 then "" else ", "
                  end = "")
    by (destruct (Schema.cass_table_meta_columns table_meta); reflexivity).
  rewrite Hlead, !append_assoc. reflexivity.
Qed.

Lemma table_statement_raised servername remote_schema table_meta buf cpre c cpost :
  Schema.cass_table_meta_columns table_meta = (cpre ++ c :: cpost)%list ->
  Forall (fun c => Schema.supported (Schema.cass_data_type_type c) = true) cpre ->
  Schema.supported (Schema.cass_data_type_type c) = false ->
  fst (Schema.table_statement servername remote_schema table_meta buf)
  = Raised (mkError ERRCODE_FEATURE_NOT_SUPPORTED
              (Schema.msg_data_type_not_supported
                 (snd (Schema.datatype_names (Schema.cass_data_type_type c))))).
Proof.
  intros Hcols Hall Hc. unfold Schema.table_statement.
  unfold bind at 1. cbn [put].
  rewrite (bind_done _ _ _ _ _ (appendStringInfoString_run _ _)).
  unfold bind at 1. rewrite Hcols.
  pose proof (columns_loop_raised cpre 0
                ("" ++ "CREATE FOREIGN TABLE "
                 ++ dquoted (Schema.cass_table_meta_name table_meta) ++ " (")
                c cpost ltac:(lia) Hall Hc) as Hrun.
  destruct (Schema.columns_loop (cpre ++ c :: cpost) 0 _) as [[[]|e] buf'];
    cbn [fst] in Hrun; [discriminate|].
  injection Hrun as ->. reflexivity.
Qed.

Lemma tables_loop_done servername remote_schema : forall tables result buf,
  Forall Schema.table_supported tables ->
  fst (Schema.tables_loop servername remote_schema tables result buf)
  = Done (result ++ map (Schema.table_text servername remote_schema) tables)%list.
Proof.
  induction tables as [|t rest IH]; intros result buf Hall.
  - cbn. rewrite app_nil_r. reflexivity.
  - inversion Hall as [|? ? Ht Hrest]; subst.
    cbn [Schema.tables_loop].
    rewrite (bind_done _ _ _ _ _
               (table_statement_done servername remote_schema t buf Ht)).
    unfold bind at 1. cbn [get].
    rewrite (IH _ _ Hrest). cbn [map]. rewrite <- app_assoc. reflexivity.
Qed.

Lemma tables_loop_raised servername remote_schema :
  forall pre result buf t post cpre c cpost,
  Forall Schema.table_supported pre ->
  Schema.cass_table_meta_columns t = (cpre ++ c :: cpost)%list ->
  Forall (fun c => Schema.supported (Schema.cass_data_type_type c) = true) cpre ->
  Schema.supported (Schema.cass_data_type_type c) = false ->
  fst (Schema.tables_loop servername remote_schema (pre ++ t :: post) result buf)
  = Raised (mkError ERRCODE_FEATURE_NOT_SUPPORTED
              (Schema.msg_data_type_not_supported
                 (snd (Schema.datatype_names (Schema.cass_data_type_type c))))).
Proof.
  induction pre as [|t0 rest IH]; intros result buf t post cpre c cpost
    Hall Hcols Hcpre Hc; cbn [app Schema.tables_loop].
  - pose proof (table_statement_raised servername remote_schema t buf cpre c cpost
                  Hcols Hcpre Hc) as Hrun.
    unfold bind at 1.
    destruct (Schema.table_statement servername remote_schema t buf)
      as [[[]|e] buf']; cbn [fst] in Hrun; [discriminate|].
    injection Hrun as ->. reflexivity.
  - inversion Hall as [|? ? Ht Hrest]; subst.
    rewrite (bind_done _ _ _ _ _
               (table_statement_done servername remote_schema t0 buf Ht)).
    unfold bind at 1. cbn [get].
    apply (IH _ _ t post cpre c cpost Hrest Hcols Hcpre Hc).
Qed.

(** X16. IMPORT FOREIGN SCHEMA gives all the tables of the keyspace or
    none.  When every column of every table has one of the thirteen types
    that are mapped (smallint, int, bigint, counter, boolean, double,
    float, text, ascii, varchar, timestamp, inet, uuid), it returns one
    CREATE FOREIGN TABLE statement for each table, in the order of the
    keyspace, with the names between double quotes as the remote has them
    and the options [schema_name] and [table_name]; nothing is reported.
    Otherwise it raises the error of the first column, in the order of
    the tables and of their columns, whose type is not mapped, and
    returns no statement.  When the keyspace does not exist it returns no
    statement, without an error, and reports one warning. *)
Theorem import_schema_all_or_nothing
    (cass_schema_meta_keyspace_by_name : string -> option Schema.CassKeyspaceMeta)
    (servername remote_schema : string) :
  let run := Schema.cassImportForeignSchema cass_schema_meta_keyspace_by_name
               servername remote_schema [] in
  (cass_schema_meta_keyspace_by_name remote_schema = None ->
   run = (Done [], [Schema.remote_schema_missing remote_schema])) /\
  (forall keyspace_meta,
     cass_schema_meta_keyspace_by_name remote_schema = Some keyspace_meta ->
     (Forall Schema.table_supported keyspace_meta ->
      run = (Done (map (Schema.table_text servername remote_schema) keyspace_meta),
             [])) /\
     (forall pre t post cpre c cpost,
        keyspace_meta = (pre ++ t :: post)%list ->
        Forall Schema.table_supported pre ->
        Schema.cass_table_meta_columns t = (cpre ++ c :: cpost)%list ->
        Forall (fun c => Schema.supported (Schema.cass_data_type_type c) = true)
               cpre ->
        Schema.supported (Schema.cass_data_type_type c) = false ->
        run = (Raised (mkError ERRCODE_FEATURE_NOT_SUPPORTED
                         (Schema.msg_data_type_not_supported
                            (snd (Schema.datatype_names
                                    (Schema.cass_data_type_type c))))),
               []))) /\
  (forall type,
     Schema.supported type = true
     <-> In type [ Schema.CASS_VALUE_TYPE_SMALL_INT; Schema.CASS_VALUE_TYPE_INT;
                   Schema.CASS_VALUE_TYPE_BIGINT; Schema.CASS_VALUE_TYPE_COUNTER;
                   Schema.CASS_VALUE_TYPE_BOOLEAN; Schema.CASS_VALUE_TYPE_DOUBLE;
                   Schema.CASS_VALUE_TYPE_FLOAT; Schema.CASS_VALUE_TYPE_TEXT;
                   Schema.CASS_VALUE_TYPE_ASCII; Schema.CASS_VALUE_TYPE_VARCHAR;
                   Schema.CASS_VALUE_TYPE_TIMESTAMP; Schema.CASS_VALUE_TYPE_INET;
                   Schema.CASS_VALUE_TYPE_UUID ]).
Proof.
  cbv zeta. unfold Schema.cassImportForeignSchema. split; [|split].
  - intros ->. reflexivity.
  - intros keyspace_meta ->. split.
    + intros Hall.
      rewrite (tables_loop_done servername remote_schema keyspace_meta [] "" Hall).
      reflexivity.
    + intros pre t post cpre c cpost -> Hpre Hcols Hcpre Hc.
      rewrite (tables_loop_raised servername remote_schema pre [] "" t post
                 cpre c cpost Hpre Hcols Hcpre Hc).
      reflexivity.
  - intros type. split.
    + intros H. destruct type; try discriminate H; cbn; tauto.
    + intros H. cbn in H.
      repeat (destruct H as [<-|H]; [reflexivity|]). contradiction.
Qed.

(* ===================================================================== *)
(** ** The key of an UPDATE or DELETE *)
(* ===================================================================== *)

Lemma find_junk_app name : forall pre rest,
  no_junk_named name pre ->
  ExecFindJunkAttributeInTlist (pre ++ rest) name
  = ExecFindJunkAttributeInTlist rest name.
Proof.
  induction pre as [|tle pre IH]; intros rest Hno; [reflexivity|].
  inversion Hno as [|? ? Htle Hpre]; subst.
  cbn [app ExecFindJunkAttributeInTlist]. rewrite Htle. apply IH, Hpre.
Qed.

(** Among the hidden entries, the one found under the key name is the
    entry of the column that bears it. *)
Lemma find_junk_key_entries result primary_key att : forall matching n,
  In att matching ->
  attname att = primary_key ->
  (forall other, In other matching -> attname other = primary_key -> other = att) ->
  exists k : nat,
    ExecFindJunkAttributeInTlist (key_entries result n matching) primary_key
    = Z.of_nat (n + k) + 1 /\
    nth_error (key_entries result n matching) k
    = Some (key_entry result (n + k) att).
Proof.
  induction matching as [|a rest IH]; intros n Hin Hname Huniq; [destruct Hin|].
  cbn [key_entries ExecFindJunkAttributeInTlist].
  change (resjunk (key_entry result n a)) with true.
  change (resname (key_entry result n a)) with (attname a).
  change (resno (key_entry result n a)) with (Z.of_nat n + 1).
  cbn [andb nth_error].
  unfold streq. destruct (String.eqb_spec (attname a) primary_key) as [Ha|Ha].
  - assert (a = att) by (apply Huniq; [left; reflexivity|exact Ha]). subst a.
    exists 0%nat. rewrite Nat.add_0_r. split; reflexivity.
  - destruct Hin as [->|Hin]; [contradiction|].
    destruct (IH (S n) Hin Hname) as (k & Hfind & Hnth).
    { intros other Ho. apply Huniq. right. exact Ho. }
    exists (S k). replace (n + S k)%nat with (S n + k)%nat by lia.
    split; [exact Hfind|exact Hnth].
Qed.

Lemma get_attnum_in_named name att : forall atts,
  In att atts -> attname att = name -> attisdropped att = false ->
  (forall other, In other atts -> attname other = name -> other = att) ->
  get_attnum_in atts name = attnum att.
Proof.
  induction atts as [|a rest IH]; intros Hin Hname Hlive Huniq; [destruct Hin|].
  cbn [get_attnum_in]. unfold streq.
  destruct (String.eqb_spec (attname a) name) as [Ha|Ha].
  - assert (a = att) by (apply Huniq; [left; reflexivity|exact Ha]). subst a.
    rewrite Hlive. reflexivity.
  - cbn [andb]. destruct Hin as [->|Hin]; [contradiction|].
    apply IH; try assumption. intros other Ho. apply Huniq. right. exact Ho.
Qed.

Lemma numbered_TupleDescAttr tupdesc att :
  numbered tupdesc -> In att tupdesc ->
  TupleDescAttr tupdesc (attnum att - 1) = Some att.
Proof.
  intros Hnum Hin. apply In_nth_error in Hin. destruct Hin as (i & Hi).
  rewrite (Hnum i att Hi). unfold TupleDescAttr.
  destruct (Z.ltb_spec (Z.of_nat i + 1 - 1) 0); [lia|].
  replace (Z.to_nat (Z.of_nat i + 1 - 1)) with i by lia. exact Hi.
Qed.

Lemma is_column_TupleDescAttr r attno :
  is_column r attno -> exists attr, TupleDescAttr (rd_att r) (attno - 1) = Some attr.
Proof.
  unfold is_column, column_remote_name, GetForeignColumnOptions, get_attname.
  destruct (TupleDescAttr (rd_att r) (attno - 1)) as [attr|];
    [intros _; exists attr; reflexivity|]. intros H. exfalso. apply H. reflexivity.
Qed.

(** The types of targets that are columns are all recorded. *)
Lemma begin_target_types_total r : forall targets oids nums w,
  Forall (is_column r) targets ->
  exists oids',
    begin_target_types (rd_att r) targets oids nums w
    = (Done (oids', nums + Z.of_nat (List.length targets)), w) /\
    List.length oids' = List.length oids.
Proof.
  induction targets as [|a rest IH]; intros oids nums w Hall.
  - exists oids. cbn. rewrite Z.add_0_r. split; reflexivity.
  - inversion Hall as [|? ? Ha Hrest]; subst.
    destruct (is_column_TupleDescAttr r a Ha) as (attr & Hattr).
    cbn [begin_target_types]. rewrite Hattr.
    destruct (IH (array_set oids (Z.to_nat nums) (atttypid attr)) (nums + 1) w Hrest)
      as (oids' & Hrun & Hlen).
    exists oids'. rewrite Hrun, Hlen, array_set_length. cbn [List.length].
    split; [|reflexivity].
    replace (nums + Z.of_nat (S (List.length rest)))
      with (nums + 1 + Z.of_nat (List.length rest)) by lia.
    reflexivity.
Qed.

Section KeyFacts.

Variable quote_identifier : string -> string.

(** The targets of a planned UPDATE are columns; a planned DELETE has
    none. *)
Lemma planned_targets operation r updatedCols onConflictAction p :
  operation = CMD_UPDATE \/ operation = CMD_DELETE ->
  cassPlanForeignModify quote_identifier operation r updatedCols onConflictAction
  = Some (Done p) ->
  Forall (is_column r) (FdwModifyPrivateTargetAttnums p) /\
  (operation = CMD_DELETE -> FdwModifyPrivateTargetAttnums p = []).
Proof.
  intros Hop Hplan.
  destruct Hop as [-> | ->].
  - destruct (planned_update quote_identifier r updatedCols onConflictAction p Hplan)
      as (_ & primary_key & _ & Hcols & ->).
    split; [exact Hcols|discriminate].
  - destruct (planned_conflict_action quote_identifier _ _ _ _ _ Hplan)
      as (doNothing & ->).
    destruct (cassGetPKOption r None) as [primary_key|] eqn:Hkey.
    + rewrite (cassPlanForeignModify_delete quote_identifier r updatedCols
                 doNothing primary_key Hkey) in Hplan.
      injection Hplan as <-. split; [constructor|reflexivity].
    + rewrite (cassPlanForeignModify_unassigned quote_identifier CMD_DELETE r
                 updatedCols doNothing Hkey (or_intror eq_refl)) in Hplan.
      discriminate.
Qed.

End KeyFacts.

(** X17. When the relation has a live column that bears the name of the
    [primary_key] option, and no other column has that name, an UPDATE or
    a DELETE takes this column for its key, whatever other columns have
    been attached because their names start like it: the hidden entries
    are attached, the modification begins, the key position it keeps is
    the position of the hidden entry of this column in the target list,
    and the key is the last parameter of the statement, of the type of
    this column. *)
Theorem exact_key_column_is_used
    (quote_identifier : string -> string) (operation : CmdType) (r : Relation)
    (primary_key : string) (att : Form_pg_attribute) (parsetree : Query)
    (updatedCols : Bitmapset) (onConflictAction : OnConflictAction)
    (p : FdwModifyPrivate) :
  operation = CMD_UPDATE \/ operation = CMD_DELETE ->
  cassGetPKOption r None = Some primary_key ->
  numbered (rd_att r) ->
  column_named r primary_key att ->
  no_junk_named primary_key (targetList parsetree) ->
  cassPlanForeignModify quote_identifier operation r updatedCols onConflictAction
  = Some (Done p) ->
  exists parsetree' w fm,
    cassAddForeignUpdateTargets r parsetree = (Done tt, parsetree') /\
    cassBeginForeignModify operation r p (targetList parsetree') false fresh_modify
    = (Done tt, w) /\
    ri_FdwState w = Some fm /\
    0 < keyAttno fm /\
    nth_error (targetList parsetree') (Z.to_nat (keyAttno fm - 1))
    = Some (mkTargetEntry
              (mkVar (resultRelation parsetree) (attnum att) (atttypid att))
              (keyAttno fm) primary_key true) /\
    target_attrs fm = FdwModifyPrivateTargetAttnums p /\
    p_nums fm = Z.of_nat (List.length (target_attrs fm)) + 1 /\
    type_oid_at fm (p_nums fm - 1) = atttypid att.
Proof.
  intros Hop Hpk Hnum (Hin & Hname & Hlive & Huniq) Hnojunk Hplan.
  destruct (planned_targets quote_identifier operation r updatedCols
              onConflictAction p Hop Hplan) as (Hcols & Hdelete).
  set (matching := filter (key_matches primary_key) (rd_att r)).
  assert (Hmatch : In att matching).
  { apply filter_In. split; [exact Hin|]. unfold key_matches.
    rewrite <- (append_empty_r (attname att)), Hname, strncmp_prefix.
    reflexivity. }
  assert (Huniq' : forall other, In other matching ->
                                 attname other = primary_key -> other = att).
  { intros other Ho. apply filter_In in Ho. apply Huniq, Ho. }
  set (n := List.length (targetList parsetree)).
  destruct (find_junk_key_entries (resultRelation parsetree) primary_key att
              matching n Hmatch Hname Huniq') as (k & Hfind & Hnth).
  set (tlist := (targetList parsetree
                 ++ key_entries (resultRelation parsetree) n matching)%list).
  assert (Hadd : cassAddForeignUpdateTargets r parsetree
                 = (Done tt, mkQuery (resultRelation parsetree) tlist)).
  { rewrite (cassAddForeignUpdateTargets_run r primary_key parsetree Hpk).
    fold matching. destruct matching as [|m ms]; [destruct Hmatch|reflexivity]. }
  assert (Hkey : ExecFindJunkAttributeInTlist tlist primary_key
                 = Z.of_nat (n + k) + 1)
    by (unfold tlist; rewrite (find_junk_app _ _ _ Hnojunk); exact Hfind).
  assert (Hentry : nth_error tlist (n + k)
                   = Some (key_entry (resultRelation parsetree) (n + k) att)).
  { unfold tlist. rewrite nth_error_app2 by (unfold n; lia).
    replace (n + k - List.length (targetList parsetree))%nat with k
      by (unfold n; lia).
    exact Hnth. }
  assert (Hattnum : get_attnum r primary_key = attnum att)
    by (apply get_attnum_in_named; assumption).
  assert (Hattr : TupleDescAttr (rd_att r) (attnum att - 1) = Some att)
    by (apply numbered_TupleDescAttr; assumption).
  set (targets := FdwModifyPrivateTargetAttnums p) in *.
  set (oids0 := repeat InvalidOid (Z.to_nat (Z.of_nat (List.length targets) + 1))).
  assert (Hlen0 : List.length oids0 = S (List.length targets))
    by (unfold oids0; rewrite repeat_length; lia).
  assert (Htypes : exists oids,
            match operation with
            | CMD_INSERT | CMD_UPDATE =>
                begin_target_types (rd_att r) targets oids0 0
            | _ => ret (oids0, 0)
            end (mkModifyWorld None [call_GetConnection])
            = (Done (oids, Z.of_nat (List.length targets)),
               mkModifyWorld None [call_GetConnection]) /\
            List.length oids = S (List.length targets)).
  { destruct Hop as [-> | ->].
    - destruct (begin_target_types_total r targets oids0 0
                  (mkModifyWorld None [call_GetConnection]) Hcols)
        as (oids & Hrun & Hlen).
      exists oids. rewrite Hrun, Hlen. split; [reflexivity|exact Hlen0].
    - exists oids0. rewrite (Hdelete eq_refl). split; [reflexivity|].
      rewrite Hlen0, (Hdelete eq_refl). reflexivity. }
  destruct Htypes as (oids & Htypes & Hlen).
  exists (mkQuery (resultRelation parsetree) tlist).
  eexists. eexists. split; [exact Hadd|]. cbn [targetList].
  assert (Hbegin : cassBeginForeignModify operation r p tlist false fresh_modify
                   = (Done tt,
                      mkModifyWorld
                        (Some (mkModifyState r true false None
                                 (cassGetWriteConsistencyOption r)
                                 (FdwModifyPrivateUpdateSql p) targets
                                 (FdwModifyPrivateHasReturning p)
                                 (FdwModifyPrivateRetrievedAttrs p)
                                 (Z.of_nat (n + k) + 1)
                                 (Z.of_nat (List.length targets) + 1)
                                 (array_set oids (List.length targets)
                                    (atttypid att))))
                        [call_GetConnection])).
  { unfold cassBeginForeignModify. cbn [negb].
    unfold bind at 1. cbn [call modify fresh_modify ri_FdwState calls app].
    fold targets. fold oids0.
    rewrite (bind_done _ _ _ _ _ Htypes). cbn [fst snd].
    assert (Hstep : match operation with
                    | CMD_UPDATE | CMD_DELETE =>
                        let primaryKey := cassGetPKOption r None in
                        let key :=
                          match primaryKey with
                          | Some pk => ExecFindJunkAttributeInTlist tlist pk
                          | None => InvalidAttrNumber
                          end in
                        if key =? InvalidAttrNumber then
                          ereport ERRCODE_FDW_UNABLE_TO_CREATE_EXECUTION
                                  msg_no_junk_attribute
                        else
                          let attno := get_attnum r (fmt_s primaryKey) in
                          match TupleDescAttr (rd_att r) (attno - 1) with
                          | Some attr =>
                              ret (key,
                                   array_set oids
                                     (Z.to_nat (Z.of_nat (List.length targets)))
                                     (atttypid attr),
                                   Z.of_nat (List.length targets) + 1)
                          | None =>
                              elog_ERROR "key attribute outside the tuple descriptor"
                          end
                    | _ => ret (InvalidAttrNumber, oids,
                                Z.of_nat (List.length targets))
                    end (mkModifyWorld None [call_GetConnection])
                    = (Done (Z.of_nat (n + k) + 1,
                             array_set oids (List.length targets) (atttypid att),
                             Z.of_nat (List.length targets) + 1),
                       mkModifyWorld None [call_GetConnection])).
    { assert (Hne : (Z.of_nat (n + k) + 1 =? InvalidAttrNumber) = false)
        by (apply Z.eqb_neq; unfold InvalidAttrNumber; lia).
      destruct Hop as [-> | ->]; cbv zeta; rewrite Hpk; cbn [fmt_s];
        rewrite Hkey, Hne, Hattnum, Hattr, Nat2Z.id; reflexivity. }
    rewrite (bind_done _ _ _ _ _ Hstep). reflexivity. }
  split; [exact Hbegin|]. cbn [ri_FdwState]. split; [reflexivity|].
  cbn [keyAttno target_attrs p_nums].
  split; [lia|]. split.
  - replace (Z.to_nat (Z.of_nat (n + k) + 1 - 1)) with (n + k)%nat by lia.
    rewrite Hentry. unfold key_entry, makeTargetEntry, makeVar.
    rewrite Hname. reflexivity.
  - split; [reflexivity|]. split; [reflexivity|].
    unfold type_oid_at. cbn [p_type_oids].
    destruct (Z.ltb_spec (Z.of_nat (List.length targets) + 1 - 1) 0); [lia|].
    replace (Z.to_nat (Z.of_nat (List.length targets) + 1 - 1))
      with (List.length targets) by lia.
    apply array_set_nth_same. lia.
Qed.

Lemma exact_key_column_is_used_witness :
  exists parsetree' w fm,
    cassAddForeignUpdateTargets shard_table (mkQuery 1 [])
    = (Done tt, parsetree') /\
    List.length (targetList parsetree') = 2%nat /\
    cassBeginForeignModify CMD_DELETE shard_table
      (mkFdwModifyPrivate "DELETE FROM ks.t WHERE id = ?" [] false [])
      (targetList parsetree') false fresh_modify
    = (Done tt, w) /\
    ri_FdwState w = Some fm /\
    nth_error (targetList parsetree') (Z.to_nat (keyAttno fm - 1))
    = Some (mkTargetEntry (mkVar 1 1 INT4OID) (keyAttno fm) "id" true) /\
    type_oid_at fm (p_nums fm - 1) = INT4OID.
Proof.
  assert (Hnamed : column_named shard_table "id" (mkAttr "id" INT4OID 1 false [])).
  { split; [left; reflexivity|]. split; [reflexivity|]. split; [reflexivity|].
    intros other [<-|[<-|[<-|[]]]] Hname;
      [reflexivity|discriminate Hname|discriminate Hname]. }
  assert (Hnum : numbered (rd_att shard_table)).
  { intros [|[|[|i]]] a Hi; cbn in Hi;
      [injection Hi as <-; reflexivity|injection Hi as <-; reflexivity
      |injection Hi as <-; reflexivity|destruct i; discriminate Hi]. }
  destruct (exact_key_column_is_used pg_quote_identifier CMD_DELETE shard_table
              "id" (mkAttr "id" INT4OID 1 false []) (mkQuery 1 []) 0%N
              ONCONFLICT_NONE
              (mkFdwModifyPrivate "DELETE FROM ks.t WHERE id = ?" [] false [])
              (or_intror eq_refl) eq_refl Hnum Hnamed (Forall_nil _) eq_refl)
    as (parsetree' & w & fm & Hadd & Hbegin & Hstate & _ & Hentry & _ & _ & Htype).
  exists parsetree', w, fm. split; [exact Hadd|].
  split; [vm_compute in Hadd; injection Hadd as <-; reflexivity|].
  split; [exact Hbegin|]. split; [exact Hstate|]. split; [exact Hentry|exact Htype].
Defined.

(* ===================================================================== *)
(** ** The option [query] *)
(* ===================================================================== *)

Lemma last_option_without name other : forall options cur,
  name <> other ->
  last_option name
    (filter (fun def => negb (streq (defname def) other)) options) cur
  = last_option name options cur.
Proof.
  induction options as [|def rest IH]; intros cur Hne; [reflexivity|].
  cbn [filter last_option]. unfold streq.
  destruct (String.eqb_spec (defname def) other) as [Ho|Ho]; cbn [negb].
  - destruct (String.eqb_spec (defname def) name) as [Hn|Hn];
      [congruence|apply IH, Hne].
  - cbn [last_option]. unfold streq.
    destruct (String.eqb (defname def) name); apply IH, Hne.
Qed.

Lemma bind_ext {St A B} (m1 m2 : Exec St A) (k1 k2 : A -> Exec St B) s :
  m1 s = m2 s -> (forall a s', k1 a s' = k2 a s') ->
  bind m1 k1 s = bind m2 k2 s.
Proof.
  intros Hm Hk. unfold bind. rewrite Hm.
  destruct (m2 s) as [[a|e] s']; [apply Hk|reflexivity].
Qed.

Section QueryOption.

Variable quote_identifier : string -> string.
Variable r : Relation.

Let r' := without_option "query" r.

Lemma without_query_relation buf :
  cassDeparseRelation quote_identifier r' buf
  = cassDeparseRelation quote_identifier r buf.
Proof.
  unfold cassDeparseRelation. subst r'. cbn [without_option ftoptions nspname relname].
  rewrite !last_option_without by discriminate. reflexivity.
Qed.

Lemma without_query_key : cassGetPKOption r' None = cassGetPKOption r None.
Proof.
  unfold cassGetPKOption. subst r'. cbn [without_option ftoptions].
  apply last_option_without. discriminate.
Qed.

Lemma without_query_target_list hw attrs_used :
  forall atts i first retrieved buf,
    cassDeparseTargetList_loop quote_identifier r' hw attrs_used atts i first
      retrieved buf
    = cassDeparseTargetList_loop quote_identifier r hw attrs_used atts i first
        retrieved buf.
Proof.
  induction atts as [|attr rest IH]; intros i first retrieved buf; [reflexivity|].
  cbn [cassDeparseTargetList_loop].
  destruct (attisdropped attr); [apply IH|].
  destruct (hw || bms_is_member _ attrs_used); [|apply IH].
  apply bind_ext; [reflexivity|]. intros _ s1.
  apply bind_ext; [reflexivity|]. intros _ s2. apply IH.
Qed.

Lemma without_query_insert_columns : forall targetAttrs first buf,
  insert_columns_loop quote_identifier r' targetAttrs first buf
  = insert_columns_loop quote_identifier r targetAttrs first buf.
Proof.
  induction targetAttrs as [|a rest IH]; intros first buf; [reflexivity|].
  cbn [insert_columns_loop].
  apply bind_ext; [reflexivity|]. intros _ s1.
  apply bind_ext; [reflexivity|]. intros _ s2. apply IH.
Qed.

Lemma without_query_update_set : forall targetAttrs first buf,
  update_set_loop quote_identifier r' targetAttrs first buf
  = update_set_loop quote_identifier r targetAttrs first buf.
Proof.
  induction targetAttrs as [|a rest IH]; intros first buf; [reflexivity|].
  cbn [update_set_loop].
  apply bind_ext; [reflexivity|]. intros _ s1.
  apply bind_ext; [reflexivity|]. intros _ s2.
  apply bind_ext; [reflexivity|]. intros _ s3. apply IH.
Qed.

Lemma without_query_select attrs_used :
  cassGetForeignPlan quote_identifier r' attrs_used
  = cassGetForeignPlan quote_identifier r attrs_used.
Proof.
  unfold cassGetForeignPlan.
  assert (H : cassDeparseSelectSql quote_identifier r' attrs_used ""
              = cassDeparseSelectSql quote_identifier r attrs_used "");
    [|rewrite H; reflexivity].
  unfold cassDeparseSelectSql.
  apply bind_ext; [reflexivity|]. intros _ s1.
  apply bind_ext.
  - unfold cassDeparseTargetList.
    apply bind_ext; [apply without_query_target_list|reflexivity].
  - intros retrieved s2. apply bind_ext; [reflexivity|]. intros _ s3.
    apply bind_ext; [apply without_query_relation|reflexivity].
Qed.

Lemma without_query_modify operation updatedCols onConflictAction :
  cassPlanForeignModify quote_identifier operation r' updatedCols onConflictAction
  = cassPlanForeignModify quote_identifier operation r updatedCols onConflictAction.
Proof.
  unfold cassPlanForeignModify.
  assert (H : cassPlanForeignModify_sql quote_identifier operation r' updatedCols
                onConflictAction ""
              = cassPlanForeignModify_sql quote_identifier operation r updatedCols
                  onConflictAction "");
    [|rewrite H; reflexivity].
  unfold cassPlanForeignModify_sql.
  apply bind_ext; [reflexivity|]. intros targetAttrs s1.
  apply bind_ext; [reflexivity|]. intros doNothing s2.
  rewrite without_query_key.
  destruct operation; try reflexivity.
  - destruct (cassGetPKOption r None) as [primaryKey|]; [|reflexivity].
    apply bind_ext; [|reflexivity].
    unfold cassDeparseUpdateSql.
    apply bind_ext; [reflexivity|]. intros _ s3.
    apply bind_ext; [apply without_query_relation|]. intros _ s4.
    apply bind_ext; [reflexivity|]. intros _ s5.
    apply bind_ext; [apply without_query_update_set|reflexivity].
  - apply bind_ext; [|reflexivity].
    unfold cassDeparseInsertSql.
    apply bind_ext; [reflexivity|]. intros _ s3.
    apply bind_ext; [apply without_query_relation|]. intros _ s4.
    apply bind_ext; [|reflexivity].
    destruct targetAttrs as [|a rest]; [reflexivity|].
    apply bind_ext; [reflexivity|]. intros _ s5.
    apply bind_ext; [apply without_query_insert_columns|reflexivity].
  - destruct (cassGetPKOption r None) as [primaryKey|]; [|reflexivity].
    apply bind_ext; [|reflexivity].
    unfold cassDeparseDeleteSql.
    apply bind_ext; [reflexivity|]. intros _ s3.
    apply bind_ext; [apply without_query_relation|reflexivity].
Qed.

Lemma without_query_consistency name :
  name <> "query" -> consistency_option name r' = consistency_option name r.
Proof.
  intros Hne. unfold consistency_option. subst r'.
  cbn [without_option ftoptions].
  rewrite last_option_without by exact Hne. reflexivity.
Qed.

Lemma without_query_update_targets parsetree :
  cassAddForeignUpdateTargets r' parsetree = cassAddForeignUpdateTargets r parsetree.
Proof.
  unfold cassAddForeignUpdateTargets. rewrite without_query_key. reflexivity.
Qed.

End QueryOption.

(** X18. The option [query] of a foreign table is accepted and never
    read.  The validator accepts a table whose only option is [query],
    whatever its text.  The statement planned for a scan and the
    statement and targets planned for a modification, the hidden key
    entries, and the read and write consistency are the same for the
    relation as for the relation without its [query] options: a table
    defined by [query] alone is read and written under its own name. *)
Theorem query_option_is_never_read
    (quote_identifier : string -> string) (atoi : string -> Z) (r : Relation)
    (text : string) :
  Validator.cstar_fdw_validator atoi [mkDefElem "query" text]
    Validator.ForeignTableRelationId = Validator.Accepted tt /\
  (forall attrs_used,
     cassGetForeignPlan quote_identifier (without_option "query" r) attrs_used
     = cassGetForeignPlan quote_identifier r attrs_used) /\
  (forall operation updatedCols onConflictAction,
     cassPlanForeignModify quote_identifier operation (without_option "query" r)
       updatedCols onConflictAction
     = cassPlanForeignModify quote_identifier operation r updatedCols
         onConflictAction) /\
  (forall parsetree,
     cassAddForeignUpdateTargets (without_option "query" r) parsetree
     = cassAddForeignUpdateTargets r parsetree) /\
  cassGetReadConsistencyOption (without_option "query" r)
  = cassGetReadConsistencyOption r /\
  cassGetWriteConsistencyOption (without_option "query" r)
  = cassGetWriteConsistencyOption r /\
  (last_option "table_name" (ftoptions r) None = None ->
   forall buf,
     cassDeparseRelation quote_identifier r buf
     = (Done tt,
        buf ++ quote_identifier
                 (match last_option "schema_name" (ftoptions r) None with
                  | Some n => n
                  | None => nspname r
                  end)
        ++ "." ++ quote_identifier (relname r))).
Proof.
  split; [reflexivity|].
  split; [apply without_query_select|].
  split; [apply without_query_modify|].
  split; [apply without_query_update_targets|].
  split; [apply without_query_consistency; discriminate|].
  split; [apply without_query_consistency; discriminate|].
  intros Htable buf. unfold cassDeparseRelation. rewrite Htable. reflexivity.
Qed.
